(* ===== verification/_CoqProject ===== *)
-Q . S2P
Prelude.v
GoStrings.v
GoRegexp.v
GoBufio.v
GoBase64.v
GoNet.v
GoFmt.v
GoStrconv.v
GoFloat.v
GoFlag.v
GoTime.v
Logger.v
GoFilepath.v
GoContext.v
Threads.v
Config.v
Automation.v
DnsMsg.v
Cache.v
Blocklist.v
Allowlist.v
Statistics.v
Reports.v
Policy.v
Fallback.v
Edns.v
Interfaces.v
Server.v
Dnssec.v
Anchors.v
DnssecChain.v
EndToEnd.v
UpstreamEdns.v
Ddr.v
Mode2.v
Service.v
Lifecycle.v
Shutdown.v
Endpoints.v
Transports.v
Deadlines.v
Verify.v
Wiring.v
Peers.v
Goroutines.v
Sequential.v
Network.v
Provenance.v
Daemon.v
Steady.v
Recovery.v
ControlSocket.v
Cli.v
