(* ===== verification/Prelude.v ===== *)
(** * rcvd: a verified model of an encrypting DNS forwarder

    rcvd answers DNS queries of its clients from a cache or from a chain of
    encrypted upstream resolvers.  In Mode 1 (src/internal/server) it listens
    for plain DNS over UDP and TCP; in Mode 2 (src/internal/upstream) it
    listens for DNS over TLS, QUIC and HTTPS.  Both modes run every query
    through the same objects: an allowlist and a blocklist combined in a
    policy, a shared cache, the chain of upstreams with its health states, a
    DNSSEC validator, and a set of counters.  src/cmd/rcvd/main.go builds these
    objects from a configuration file (src/internal/config), connects the chain
    to its upstreams through the clients of src/internal/resolver, and serves
    statistics, an audit report and reload requests on a local socket.

    ** The files

    Go's standard library, as far as rcvd uses it:
    - this file: results of fallible functions, 64-bit integers and durations,
      list lemmas, tactics and hint databases;
    - [GoStrings] strings and ASCII case; [GoRegexp] the regular expressions of
      the host name checks; [GoBufio] the line scanner with its size limit;
      [GoBase64] base64, unpadded for URLs and padded; [GoNet] IP addresses and
      host:port; [GoFmt] decimal numbers; [GoStrconv] booleans, integers with
      a base prefix, runes and quoting; [GoFloat] float64 and its formatting;
      [GoFlag] command line flags; [GoTime] calendar dates and time stamps;
      [GoFilepath] paths; [GoContext] computations in time with contexts,
      deadlines and cancellation; [Threads] programs of atomic sections, pools of
      them that interleave, and the rely-guarantee rules that reason about a pool.

    The DNS library github.com/miekg/dns is not part of the repository.
    [DnsMsg] has its message types as records, its operations as the class
    [DnsLib] and what rcvd relies on about them as the class [DnsLaws]; the
    cryptographic operations are the class [DnssecLib] of [Dnssec].  They are
    arguments of the definitions that call them; [toyLib] and [toyCrypto] are
    concrete instances on which the witnesses and examples evaluate.  SHA-256,
    the verification of certificate chains, the TOML and XML decoders and the
    certificate library are arguments in the same way.

    Components, each with its state as a record and one definition per
    operation, named as in the source:
    - [Logger] (internal/logger): levels, time stamps, the levelled methods;
    - [Config] (internal/config): the configuration records, [Load] with the
      source of the API token, every check of [validate], defaults, presets,
      and the pins of upstream keys ([ParsePin], [SPKIPin]);
    - [Automation] (internal/rcvd_tls): the certificate manager, what it lets the
      certificate library do, and when certificates are obtained;
    - [Cache] (internal/cache/cache.go): [Get], [GetStale], [Put] with TTL
      clamping and eviction, and the interleavings [cstep] of the critical
      sections of concurrent callers;
    - [Blocklist], [Allowlist] (internal/blocklist, internal/allowlist):
      matching, validation, loading and hot reload; file and HTTP contents are
      inputs;
    - [Statistics] (internal/statistics/statistics.go): int64 counters, and the
      compare-and-swap loops of the latency timers as a step relation;
    - [Reports] (statistics.go, audit.go, socket.go): the two reports line by
      line, the socket path, the requests on the socket with their callbacks and
      the goroutines these start, and the client side with its connection errors;
    - [Policy] (internal/policy/policy.go): the decision on queries
      ([Response]) and on answers ([Answer]);
    - [Fallback] (internal/resolver/fallback.go): the chain of upstreams, its
      failover loop under interference of other goroutines, and its health
      states;
    - [Interfaces]: the classes [UpstreamResolver] and [Validator] through
      which the listeners use the chain and the validator, with the chain as
      an instance;
    - [Edns], [Server] (internal/server/server.go): EDNS0 normalisation, UDP
      and TCP handlers, the TCP connection loop on a byte stream;
    - [Dnssec], [Anchors], [DnssecChain] (internal/dnssec): trust anchors and the
      files they come from, denial proofs, the key cache, the walk to the root,
      the verdict on a response;
    - [EndToEnd]: the Mode 1 server run with that validator;
    - [UpstreamEdns], [Ddr], [Mode2], [Service] (internal/upstream): the copies
      of the message helpers, the resolver.arpa zone, the handlers of the three
      encrypted listeners, and the service that assembles them, with its
      certificate;
    - [Lifecycle] (server.go and internal/upstream): binding and closing of the
      sockets, the read and accept loops, the TLS configurations of the encrypted
      listeners with the negotiation of the protocol, and shutdown;
    - [Transports] (internal/resolver: doq.go, dot.go, doh.go, pin.go): the
      clients behind the chain, one module each, with their connection pools,
      retries and certificate pins;
    - [Deadlines]: the same clients and the chain in time, each network operation
      with the moment it ends and each wait with the context that ends it;
    - [Shutdown] (main.go and internal/upstream): how long each listener, the
      service, Mode 1 and the process take to stop;
    - [Endpoints] (internal/upstream): creating and closing the encrypted
      listeners, the HTTP front of DoH, the writes of a DoQ reply;
    - [Verify] (internal/verify): the verbs --verify-upstream, --verify-pin,
      --show-pin and --verify-self;
    - [Wiring] (cmd/rcvd/main.go): start-up from a configuration with all its
      errors, the chain of clients as an instance of [UpstreamResolver], what the
      reports are given, reloads, and the choice of the command line verb;
    - [ControlSocket] (statistics/socket.go and main.go): the control socket of a
      running daemon as a transition system: the accept loop, a goroutine for each
      connection, the background reload a request starts, and the rest of the daemon
      in between;
    - [Cli] (main.go): the process from its arguments to its exit code;
    - [Peers], [Goroutines], [Sequential], [Network], [Provenance],
      [Daemon], [Steady]: everything together.  [Peers] puts the clients of a configured chain
      on a network whose peers present certificates and send bytes.  [Goroutines] is the code of
      every query path, of the chain with its clients, of the validator and of the
      health checks as such programs; [Sequential] shows that one of them alone does
      what the sequential definitions say.  [Network] and [Provenance] are what each
      keeps and returns while the others run; [Daemon] runs them all, from start-up
      on, with reloads at any moment; [Steady] has what stays the same in all runs;
    - [Recovery] (fallback.go): the loop of the health checks.

    Objects that the Go code shares and mutates are passed explicitly: the
    record [World] of [Server] holds cache, counters, chain, validator and the
    trace of forwarded queries; [Lifecycle] has the read buffer of the UDP loop
    and the shared TLS configuration in an explicit store.

    Concurrency is modelled twice.  Each component that has a protocol of its own
    has its critical sections as steps: the cache's two-phase lookup, the latency
    cells, the health states that other goroutines change during a failover loop,
    and the pooled connection of the DoQ client ([Doq.pool_step]).  And the daemon
    is a pool of goroutines: the record [Shared] of [Goroutines] is the state behind
    all mutexes and atomic counters, each section under a mutex is one step, and a
    look-up in a list reads the list that is in force at that step.

    ** What the theorems show

    - The whole daemon ([Daemon]), in every interleaving of its goroutines: every
      record it answers with was sent by a configured upstream that identified
      itself, in reply to a query with the same cache key (or is of its own
      resolver.arpa zone); the records of a reply with AD were in a message the
      validator accepts and, if that message brought no DNSKEY of its own, have a
      chain of trust to a configured anchor, also when they come from the cache; and what is forwarded and answered was let
      through by lists that were in force since the query came, with reloads at
      any moment.  The cache stays within its size and the chain keeps its
      upstreams, with error counts that fit their states ([Steady]).
    - Time ([Deadlines], [Shutdown]): the call of a chain of DoQ and DoH upstreams
      ends five seconds after it was made, up to waits for the pool (the validation
      that follows has its own budget); a stale connection leaves time for a fresh
      one; an outage ends with the first health check after an upstream is back
      ([Recovery]); the process ends five seconds after the signal.
    - Operation ([Cli], [ControlSocket]): command lines are read back as written, a
      stray argument does nothing; a request on the control socket changes nothing
      but the list it names, and the allowlist only to the complete content of its
      files, while the blocklist becomes whatever its files hold; exit code 0 of a
      reload means that the new allowlist is enforced, and code 1 on a connection
      that was intact that the old one is.
    - Safety of forwarding: only a query with one question that the policy
      admits (and, in Mode 2, outside resolver.arpa) reaches an upstream; an
      answer is accepted only for the question asked, and every answer of the
      running chain came from a client that checked it.
    - Safety of replies: no OPT or DNSSEC record the client did not ask for, no
      answer record but signatures outside the allowlist, SERVFAIL whenever the upstreams fail
      or an answer is bogus, AD only for answers found secure; a zone is given up as
      insecure only for a signed denial of its DS record or for signatures of vouched
      keys that cannot be processed.
    - Configuration: [validate] accepts exactly the configurations of an
      independent specification and fills in exactly the defaults it lists; the
      token comes from its one source; what can still go wrong at start-up after
      validation, with the cause of each error; preset cache lifetimes are in bounds.
    - Start-up: the chain has the clients the documentation describes, in order; every
      upstream connection is authenticated by the authorities or by its pin; one
      policy object, with the configured lists and record types, is enforced by every
      listener of both modes.
    - The clients: a stale pooled connection is replaced and the query answered,
      no closed connection is handed out, an unusable response is never returned.
    - Certificates: the propagation probe of the library is switched off and on-demand
      issuance is decided by the configured names; the pin that --show-pin prints is accepted and matched by
      --verify-pin, whose verdict is that of the live client up to the host name.
    - Sockets: handlers see the datagram they were started for; a started server
      stops at once; accept errors are survived with bounded pauses; each
      encrypted listener negotiates its own protocol only.
    - Agreement: the two modes with each other, and the encrypted listeners with
      each other.
    - The cache: every hit is justified by an earlier [Put] in its lifetime,
      bounded size, the serve-stale window.
    - The lists: matching as a relation on domain names, what the loaders
      accept, atomic replacement of the allowlist, and a blocklist that after a
      reload blocks exactly what the lines of its files say.
    - Health states, failover order, correctness of the lock-free minimum and
      maximum, one response counter for each reply, framing of streams and
      termination of the connection loop, truth of the discovery records.
    - Supporting these, the models agree where one thing is modelled twice: a
      goroutine that runs alone does what the sequential definition says
      ([Sequential], [sched_terminates]), and the timed clients and chain refine the
      untimed ones ([Deadlines]).
    - Some theorems state behaviour that differs from what a comment or the
      intent of the code says, among them [cacheKey_collision],
      [failed_probe_promotes], [co_resident_key_is_trusted],
      [negative_answer_gets_ad], [bogus_refreshes_stale],
      [disabled_dnssec_sets_ad], [negative_interval_panics],
      [doq_retry_not_fresh], [doq_serve_ends], [pin_ok_wrong_name],
      [dot_ignores_deadline], [spent_context_poisons_chain],
      [idle_client_starves_mode1], [same_name_loses_socket],
      [failed_start_takes_socket], [unverified_keys_cached],
      [oversized_question_desyncs], [persistent_error_spins] and
      [doh_bind_failure_unreported].

    ** Fuel

    [tcp_loop] and [Dot.conn_loop] take the length of the input as fuel: a round
    that goes on consumes at least three bytes
    ([handleTCPConnection_terminates]).  The walk to the root is bounded by the
    code's own depth limit of 25.  [encloser_walk] takes the number of labels
    plus two ([encloser_fuel]).  [ipv6_groups] takes eight rounds, the number of
    groups in an address.  [accept_loop] takes the number of rounds observed; it
    ends by the round in which the connection is found dead
    ([doq_accept_loop_stops]).  [dec_digits] takes twenty digits, more than an
    int64 has ([Atoi_Itoa]).  [fmtInt_fuel] takes two calls, which is enough for
    every int64 but the smallest ([fmtInt_roundtrip], [fmtInt_diverges]).
    [format_at] takes the length of the layout, of which each round consumes a
    character; quoting and counting of runes take the length of the string.  The
    loops of [Lifecycle] and [Shutdown] run over the list of results their system
    calls return; [ControlSocket] is a step relation and needs no fuel.  A timed computation that never ends is
    [None]; the bounds of [Deadlines] and [Shutdown] exclude it.

    ** What is not modelled

    The insides of TLS, QUIC and HTTP, and of the certificate library (the outcome
    of a handshake is that of the configuration on the certificates presented); the
    table of printable characters of Go's quoting, an argument; the informational
    lines main logs while it starts; signals other than as the start of the
    shutdown; the profiling server of debug builds.  In the goroutines an
    exchange with a peer is one step, a validation reads the clock once, when it
    starts, and a timer is updated in one step (the loop behind it is in
    [Statistics]); a connection that is dropped from the DoQ pool is closed in the
    step that drops it; on the control socket a connection is served in one step, the
    files of a blocklist reload are read in the step that puts them in force, and what
    it logs is left out.  Goroutines do not share anything but [Shared].  Messages are
    values: the cache copies a message on [Put] and on [Get], so that a handler
    never edits a stored one. *)

From stdpp Require Export base tactics list gmap strings fin_maps sorting.
From Stdlib Require Export ZArith Lia.

#[export] Set Warnings "-clear-no-such-hyp".

Declare Scope rcvd_scope.
Delimit Scope rcvd_scope with rcvd.

(** Results of fallible Go functions: [(v, nil)] is [Ok v] and [(_, err)] is
    [Err e]. *)
Inductive result (A E : Type) : Type :=
| Ok (a : A)
| Err (e : E).
Arguments Ok {A E} a.
Arguments Err {A E} e.

Definition is_ok {A E} (r : result A E) : bool :=
  match r with Ok _ => true | Err _ => false end.

Definition res_bind {A B E} (r : result A E) (f : A → result B E) : result B E :=
  match r with Ok a => f a | Err e => Err e end.

Lemma bind_ok {A B E} (r : result A E) (f : A → result B E) b :
  res_bind r f = Ok b ↔ ∃ a, r = Ok a ∧ f a = Ok b.
Proof. destruct r; simpl; split; [eauto|by intros (? & [= <-] & ?)|done|by intros (? & ? & ?)]. Qed.

Lemma check_ok {B E} (r : result () E) (k : result B E) b :
  res_bind r (λ _, k) = Ok b ↔ r = Ok () ∧ k = Ok b.
Proof. rewrite bind_ok. split; [intros ([] & ? & ?); done|intros [? ?]; by exists ()]. Qed.

Notation "'try' x ← c ; k" := (res_bind c (λ x, k))
  (at level 100, x binder, c at next level, k at level 200, right associativity) : rcvd_scope.
Notation "'check' c ; k" := (res_bind c (λ _ : (), k))
  (at level 100, c at next level, k at level 200, right associativity) : rcvd_scope.
Open Scope rcvd_scope.

(** ** Machine integers *)

Definition min_int64 : Z := -(2 ^ 63).
Definition max_int64 : Z := 2 ^ 63 - 1.

(** Two's complement wrap-around of Go's [int64] (and of [int] on the 64-bit
    targets rcvd is built for). *)
Definition wrap64 (z : Z) : Z := (z + 2 ^ 63) mod 2 ^ 64 - 2 ^ 63.

Definition in_int64 (z : Z) : Prop := (min_int64 ≤ z ≤ max_int64)%Z.

(** Go's conversions to unsigned widths. *)
Definition to_u32 (z : Z) : Z := z mod 2 ^ 32.
Definition to_u16 (z : Z) : Z := z mod 2 ^ 16.

(** ** Time

    [time.Time] values are instants in nanoseconds (unbounded);
    [time.Duration] is an [int64] count of nanoseconds. *)

Definition second : Z := 1000000000.

(** [time.Duration(s) * time.Second]: the product wraps. *)
Definition seconds (s : Z) : Z := wrap64 (s * second).

(** [t.Sub(u)]: the difference saturates at the [Duration] bounds. *)
Definition time_sub (t u : Z) : Z := Z.max min_int64 (Z.min max_int64 (t - u)).

(** ** Automation *)

#[global] Arguments String.append : simpl nomatch.

Create HintDb rcvd discriminated.

(** Case analysis on the conditional or match the goal is stuck on. *)
Ltac split_if :=
  repeat match goal with
  | |- context [if ?b then _ else _] => destruct b eqn:?
  | |- context [match ?x with _ => _ end] => destruct x eqn:?
  end.

(** The same on a hypothesis, discarding the impossible branches. *)
Ltac split_in H :=
  repeat match type of H with
  | context [if ?b then _ else _] => destruct b eqn:?; try discriminate H
  | context [match ?x with _ => _ end] => destruct x eqn:?; try discriminate H
  end.

(** Turn boolean comparisons in the context into propositions. *)
Ltac bool_prop :=
  repeat match goal with
  | H : (_ && _)%bool = true |- _ => apply andb_true_iff in H as [? ?]
  | H : (_ || _)%bool = false |- _ => apply orb_false_iff in H as [? ?]
  | H : negb _ = true |- _ => apply negb_true_iff in H
  | H : negb _ = false |- _ => apply negb_false_iff in H
  | H : (_ <? _)%Z = true |- _ => apply Z.ltb_lt in H
  | H : (_ <? _)%Z = false |- _ => apply Z.ltb_ge in H
  | H : (_ <=? _)%Z = true |- _ => apply Z.leb_le in H
  | H : (_ <=? _)%Z = false |- _ => apply Z.leb_gt in H
  | H : (_ >? _)%Z = true |- _ => rewrite Z.gtb_ltb in H
  | H : (_ >? _)%Z = false |- _ => rewrite Z.gtb_ltb in H
  | H : (_ >=? _)%Z = true |- _ => rewrite Z.geb_leb in H
  | H : (_ >=? _)%Z = false |- _ => rewrite Z.geb_leb in H
  | H : (_ =? _)%Z = true |- _ => apply Z.eqb_eq in H
  | H : (_ =? _)%Z = false |- _ => apply Z.eqb_neq in H
  | H : (_ =? _)%nat = true |- _ => apply Nat.eqb_eq in H
  | H : (_ =? _)%nat = false |- _ => apply Nat.eqb_neq in H
  | H : String.eqb _ _ = true |- _ => apply String.eqb_eq in H
  | H : String.eqb _ _ = false |- _ => apply String.eqb_neq in H
  | H : bool_decide _ = true |- _ => apply bool_decide_eq_true in H
  | H : bool_decide _ = false |- _ => apply bool_decide_eq_false in H
  end.

(** Arithmetic on nested conditionals: split every comparison, then [lia]. *)
Ltac cases_lia :=
  repeat match goal with
  | |- context [if ?b then _ else _] => destruct b eqn:?
  | H : context [if ?b then _ else _] |- _ => destruct b eqn:?
  end; bool_prop; try done; try lia.

(** ** Integer lemmas *)

Lemma wrap64_id z : in_int64 z → wrap64 z = z.
Proof.
  unfold in_int64, min_int64, max_int64, wrap64; intros [? ?].
  rewrite Z.mod_small; lia.
Qed.

Lemma wrap64_range z : in_int64 (wrap64 z).
Proof.
  unfold in_int64, min_int64, max_int64, wrap64.
  pose proof (Z.mod_pos_bound (z + 2 ^ 63) (2 ^ 64) ltac:(lia)). lia.
Qed.

(** A number of seconds whose nanosecond count fits in an [int64] (about 292
    years) is converted exactly. *)
Lemma seconds_exact s : (0 ≤ s ≤ 9223372036)%Z → seconds s = (s * second)%Z.
Proof.
  intros ?. apply wrap64_id. unfold in_int64, min_int64, max_int64, second. lia.
Qed.

Lemma to_u32_id z : (0 ≤ z < 2 ^ 32)%Z → to_u32 z = z.
Proof. apply Z.mod_small. Qed.

Lemma time_sub_pos t u : (0 < time_sub t u)%Z ↔ (u < t)%Z.
Proof. unfold time_sub, min_int64, max_int64; lia. Qed.

Lemma time_sub_le t u d : in_int64 d → (d < max_int64)%Z →
  (time_sub t u ≤ d)%Z ↔ (t - u ≤ d)%Z.
Proof. unfold time_sub, in_int64, min_int64, max_int64; lia. Qed.

#[export] Hint Resolve wrap64_range : rcvd.

(** ** List lemmas *)

Lemma existsb_elem {A} (f : A → bool) l : existsb f l = true ↔ ∃ x, x ∈ l ∧ f x = true.
Proof.
  rewrite existsb_exists. by setoid_rewrite list_elem_of_In.
Qed.

Lemma forallb_elem {A} (f : A → bool) l : forallb f l = true ↔ ∀ x, x ∈ l → f x = true.
Proof.
  rewrite forallb_forall. by setoid_rewrite list_elem_of_In.
Qed.

Lemma existsb_false {A} (f : A → bool) l : existsb f l = false ↔ ∀ x, x ∈ l → f x = false.
Proof.
  rewrite <-not_true_iff_false, existsb_elem. split.
  - intros H x Hx. apply not_true_iff_false. intros ?. apply H. eauto.
  - intros H (x & Hx & E). rewrite H in E; done.
Qed.

Lemma elem_of_List_filter {A} (p : A → bool) l x : x ∈ List.filter p l ↔ x ∈ l ∧ p x = true.
Proof. by rewrite !list_elem_of_In, filter_In. Qed.

Lemma fold_left_inv {A B} (P : A → Prop) (f : A → B → A) l a :
  (∀ a b, P a → P (f a b)) → P a → P (fold_left f l a).
Proof. intros Hf. revert a; induction l as [|b l IH]; intros a Ha; simpl; auto. Qed.
