(* ===== verification/GoStrings.v ===== *)
(** * The part of Go's [strings] package that rcvd uses

    A Go string is a sequence of bytes; here it is a [string] of 8-bit
    characters.  Case mapping and white space are those of ASCII: the names
    rcvd maps are ASCII by construction (the DNS library presents a
    non-printable byte as an escape, and the list loaders accept only names
    whose labels match an ASCII regular expression). *)

From S2P Require Import Prelude.
From Stdlib Require Import Ascii String.
Open Scope string_scope.
Open Scope list_scope.

Implicit Types s t : string.
Implicit Types a c : ascii.

(** ** Definitions *)

Definition in_range (lo hi : nat) (a : ascii) : bool :=
  (lo <=? nat_of_ascii a)%nat && (nat_of_ascii a <=? hi)%nat.

Definition is_upper := in_range 65 90.
Definition is_lower := in_range 97 122.
Definition is_digit := in_range 48 57.
Definition is_alnum (a : ascii) : bool := is_upper a || is_lower a || is_digit a.

(** [unicode.IsSpace] on ASCII: tab, newline, vertical tab, form feed, carriage return, space. *)
Definition is_space (a : ascii) : bool := in_range 9 13 a || Ascii.eqb a " ".

Definition lower_char (a : ascii) : ascii :=
  if is_upper a then ascii_of_nat (nat_of_ascii a + 32) else a.
Definition upper_char (a : ascii) : ascii :=
  if is_lower a then ascii_of_nat (nat_of_ascii a - 32) else a.

Fixpoint smap (f : ascii → ascii) (s : string) : string :=
  match s with
  | "" => ""
  | String a s' => String (f a) (smap f s')
  end.

Definition ToLower (s : string) : string := smap lower_char s.
Definition ToUpper (s : string) : string := smap upper_char s.

Definition HasPrefix (s p : string) : bool := String.prefix p s.

Fixpoint str_drop (n : nat) (s : string) : string :=
  match n, s with
  | O, _ => s
  | S n', String _ s' => str_drop n' s'
  | S _, "" => ""
  end.

(** The first [n] bytes, as [io.LimitReader] delivers them. *)
Fixpoint take_bytes (n : Z) (s : string) : string :=
  match s with
  | "" => ""
  | String a s' => if (n <=? 0)%Z then "" else String a (take_bytes (n - 1) s')
  end.

Definition TrimPrefix (s p : string) : string :=
  if HasPrefix s p then str_drop (String.length p) s else s.

Fixpoint TrimSuffix (s suf : string) : string :=
  if String.eqb s suf then "" else
  match s with
  | "" => ""
  | String a s' => String a (TrimSuffix s' suf)
  end.

Fixpoint schars (s : string) : list ascii :=
  match s with "" => [] | String a s' => a :: schars s' end.

Fixpoint of_chars (l : list ascii) : string :=
  match l with [] => "" | a :: l' => String a (of_chars l') end.

(** [strings.FieldsFunc] without the removal of empty fields. *)
Fixpoint split_by (p : ascii → bool) (s : string) : list string :=
  match s with
  | "" => [""]
  | String a s' =>
      if p a then "" :: split_by p s'
      else match split_by p s' with
           | h :: t => String a h :: t
           | [] => [String a ""]
           end
  end.

(** [strings.Split] with a one-byte separator. *)
Definition Split (s : string) (sep : ascii) : list string := split_by (Ascii.eqb sep) s.

Fixpoint Join (l : list string) (sep : string) : string :=
  match l with
  | [] => ""
  | [x] => x
  | x :: l' => x +:+ sep +:+ Join l' sep
  end.

Definition nonempty (s : string) : bool := negb (String.eqb s "").

(** [strings.Fields]. *)
Definition Fields (s : string) : list string := List.filter nonempty (split_by is_space s).

Fixpoint trim_left (s : string) : string :=
  match s with
  | String a s' => if is_space a then trim_left s' else s
  | "" => ""
  end.

Fixpoint trim_right (s : string) : string :=
  match s with
  | "" => ""
  | String a s' =>
      let r := trim_right s' in
      if is_space a && String.eqb r "" then "" else String a r
  end.

Definition TrimSpace (s : string) : string := trim_right (trim_left s).

(** [strings.Contains] with a one-byte pattern. *)
Definition ContainsByte (s : string) (c : ascii) : bool := existsb (Ascii.eqb c) (schars s).

(** [strings.Cut] at a one-byte separator: the text before and after its first
    occurrence. *)
Fixpoint Cut (s : string) (sep : ascii) : option (string * string) :=
  match s with
  | "" => None
  | String a s' =>
      if Ascii.eqb sep a then Some ("", s')
      else match Cut s' sep with Some (x, y) => Some (String a x, y) | None => None end
  end.

(** [strings.Contains] and [strings.HasSuffix]. *)
Fixpoint Contains (s sub : string) : bool :=
  HasPrefix s sub || match s with "" => false | String _ s' => Contains s' sub end.
Fixpoint HasSuffix (s suf : string) : bool :=
  String.eqb s suf || match s with "" => false | String _ s' => HasSuffix s' suf end.

(** The proper parent suffixes a loop
    [for i := 1; i < len(parts); i++ { suffix := strings.Join(parts[i:], ".") }]
    visits, in order. *)
Definition parent_suffixes (s : string) : list string :=
  let parts := Split s "." in
  (λ i, Join (drop i parts) ".") <$> seq 1 (List.length parts - 1).

(** ** Characters and case *)

Lemma lower_char_idem a : lower_char (lower_char a) = lower_char a.
Proof. by destruct a as [[] [] [] [] [] [] [] []]. Qed.

Lemma lower_char_eq c a :
  is_lower c = false → is_upper c = false → lower_char a = c ↔ a = c.
Proof.
  intros Hl Hu. unfold lower_char. destruct (is_upper a) eqn:Ha; [|done]. split.
  - intros <-. exfalso. revert Ha Hl Hu.
    destruct a as [[] [] [] [] [] [] [] []]; vm_compute; congruence.
  - intros ->. congruence.
Qed.

Lemma smap_app f s t : smap f (s +:+ t) = smap f s +:+ smap f t.
Proof. induction s as [|a s IH]; simpl; [done|]. by rewrite IH. Qed.

Lemma smap_length f s : String.length (smap f s) = String.length s.
Proof. induction s as [|a s IH]; simpl; [done|]. by rewrite IH. Qed.

Lemma ToLower_app s t : ToLower (s +:+ t) = ToLower s +:+ ToLower t.
Proof. apply smap_app. Qed.

Lemma ToLower_idem s : ToLower (ToLower s) = ToLower s.
Proof.
  unfold ToLower. induction s as [|a s IH]; simpl; [done|].
  by rewrite lower_char_idem, IH.
Qed.

Lemma ToLower_dot_eq s : ToLower s = "." ↔ s = ".".
Proof.
  split; [|by intros ->]. destruct s as [|a [|b s]]; try done.
  intros [= H]. f_equal. by apply (lower_char_eq ".").
Qed.

(** ** Append *)

Lemma sapp_assoc s t u : (s +:+ t) +:+ u = s +:+ (t +:+ u).
Proof. induction s as [|a s IH]; simpl; [done|]. by rewrite IH. Qed.

Lemma sapp_nil_r s : s +:+ "" = s.
Proof. induction s as [|a s IH]; simpl; [done|]. by rewrite IH. Qed.

Lemma slength_app s t : String.length (s +:+ t) = String.length s + String.length t.
Proof. induction s as [|a s IH]; simpl; [done|]. by rewrite IH. Qed.

Lemma sapp_inj_l s t u : s +:+ t = s +:+ u → t = u.
Proof. induction s as [|a s IH]; simpl; [done|]. intros [= H]. auto. Qed.

Lemma sapp_eq_length s t u v :
  s +:+ t = u +:+ v → String.length s = String.length u → s = u ∧ t = v.
Proof.
  revert u; induction s as [|a s IH]; intros [|b u]; simpl; try done.
  intros [= -> H] [= L]. destruct (IH u H L) as [-> ->]. done.
Qed.

Lemma sapp_inj_r s t u : s +:+ u = t +:+ u → s = t.
Proof.
  intros H. refine (proj1 (sapp_eq_length _ _ _ _ H _)).
  apply (f_equal String.length) in H. rewrite !slength_app in H. lia.
Qed.

(** ** Prefixes and suffixes *)

Lemma HasPrefix_spec s p : HasPrefix s p = true ↔ ∃ t, s = p +:+ t.
Proof.
  unfold HasPrefix. revert s; induction p as [|a p IH]; intros s; simpl.
  - split; [eauto|by destruct s].
  - destruct s as [|b s]; simpl.
    + split; [done|]. by intros [t Ht].
    + destruct (ascii_dec a b) as [->|Hne].
      * rewrite IH. split; intros [t Ht]; exists t; simpl in *; congruence.
      * split; [done|]. intros [t [= -> _]]. congruence.
Qed.

Lemma HasPrefix_app p t : HasPrefix (p +:+ t) p = true.
Proof. apply HasPrefix_spec. eauto. Qed.

Lemma str_drop_app p t : str_drop (String.length p) (p +:+ t) = t.
Proof. induction p as [|a p IH]; simpl; done. Qed.

Lemma TrimPrefix_app p t : TrimPrefix (p +:+ t) p = t.
Proof. unfold TrimPrefix. by rewrite HasPrefix_app, str_drop_app. Qed.

Lemma TrimSuffix_unfold s suf :
  TrimSuffix s suf =
  if String.eqb s suf then "" else
  match s with "" => "" | String a s' => String a (TrimSuffix s' suf) end.
Proof. by destruct s. Qed.

Lemma TrimSuffix_app s suf : TrimSuffix (s +:+ suf) suf = s.
Proof.
  induction s as [|a s IH]; rewrite TrimSuffix_unfold.
  - change ("" +:+ suf) with suf. by rewrite String.eqb_refl.
  - change (String a s +:+ suf) with (String a (s +:+ suf)).
    destruct (String.eqb_spec (String a (s +:+ suf)) suf) as [E|]; [|by rewrite IH].
    apply (f_equal String.length) in E. simpl in E. rewrite slength_app in E. lia.
Qed.

Lemma TrimSuffix_cases s suf :
  s = TrimSuffix s suf +:+ suf ∨ (TrimSuffix s suf = s ∧ ∀ t, s ≠ t +:+ suf).
Proof.
  induction s as [|a s IH]; rewrite TrimSuffix_unfold;
    match goal with |- context [String.eqb ?x suf] =>
      destruct (String.eqb_spec x suf) as [<-|Hne]; [by left|]
    end.
  - right. split; [done|]. intros [|b t]; simpl; congruence.
  - destruct IH as [IH|[IH1 IH2]].
    + left. simpl. by rewrite <-IH.
    + right. split; [by rewrite IH1|]. intros [|c t]; simpl; [congruence|].
      intros [= _ H]. by apply (IH2 t).
Qed.

(** A trailing dot that is not there is not removed. *)
Lemma TrimSuffix_none s suf : (∀ t, s ≠ t +:+ suf) → TrimSuffix s suf = s.
Proof. intros H. destruct (TrimSuffix_cases s suf) as [E|[E _]]; [|done]. by apply H in E. Qed.

Lemma ToLower_TrimSuffix_dot s : ToLower (TrimSuffix s ".") = TrimSuffix (ToLower s) ".".
Proof.
  induction s as [|a s IH]; [done|].
  assert (Heq : String.eqb (ToLower (String a s)) "." = String.eqb (String a s) ".").
  { apply eq_true_iff_eq. rewrite !String.eqb_eq. apply ToLower_dot_eq. }
  rewrite (TrimSuffix_unfold (String a s)), (TrimSuffix_unfold (ToLower (String a s))), Heq.
  destruct (String.eqb (String a s) "."); [done|].
  change (String (lower_char a) (ToLower (TrimSuffix s ".")) =
          String (lower_char a) (TrimSuffix (ToLower s) ".")). by rewrite IH.
Qed.

Lemma take_bytes_length n s : (Z.of_nat (String.length (take_bytes n s)) ≤ Z.max 0 n)%Z.
Proof.
  revert n; induction s as [|a s IH]; intros n; simpl; [lia|]. destruct (n <=? 0)%Z eqn:E; simpl; [lia|].
  apply Z.leb_gt in E. specialize (IH (n - 1)%Z). lia.
Qed.

Lemma take_bytes_app s t : take_bytes (Z.of_nat (String.length s)) (s +:+ t) = s.
Proof.
  induction s as [|a s IH]; cbn [String.append String.length]; [destruct t; reflexivity|].
  cbn [take_bytes]. destruct (Z.leb_spec (Z.of_nat (S (String.length s))) 0); [lia|].
  f_equal. replace (Z.of_nat (S (String.length s)) - 1)%Z with (Z.of_nat (String.length s)) by lia. exact IH.
Qed.

Lemma take_bytes_all n s : (Z.of_nat (String.length s) ≤ n)%Z → take_bytes n s = s.
Proof.
  revert n; induction s as [|a s IH]; intros n; simpl; [done|]. intros H.
  destruct (n <=? 0)%Z eqn:E; [apply Z.leb_le in E; lia|]. by rewrite IH by lia.
Qed.

Lemma take_bytes_prefix_of n s : ∃ post, s = take_bytes n s +:+ post.
Proof.
  revert n. induction s as [|a s IH]; intros n; cbn [take_bytes]; [by exists ""|].
  destruct (n <=? 0)%Z; [by exists (String a s)|]. destruct (IH (n - 1)%Z) as [post E]. exists post. cbn. by rewrite <-E.
Qed.

Lemma take_bytes_take n m s : (n ≤ m)%Z → take_bytes n (take_bytes m s) = take_bytes n s.
Proof.
  revert n m. induction s as [|a s IH]; intros n m H; [done|]. cbn [take_bytes].
  destruct (Z.leb_spec m 0), (Z.leb_spec n 0); cbn [take_bytes]; try lia; [done|by destruct (Z.leb_spec n 0); [|lia]|].
  destruct (Z.leb_spec n 0); [lia|]. by rewrite IH by lia.
Qed.

(** What begins with a prefix before it is cut. *)
Lemma HasPrefix_take n s p : HasPrefix (take_bytes n s) p = true → HasPrefix s p = true.
Proof.
  rewrite !HasPrefix_spec. intros [t E]. destruct (take_bytes_prefix_of n s) as [post Ep]. exists (t +:+ post).
  by rewrite Ep, E, sapp_assoc.
Qed.

(** ** Split and Join *)

Lemma split_by_cons p s : ∃ h (t : list string), split_by p s = h :: t.
Proof.
  induction s as [|a s (h & t & IH)]; simpl; [eauto|].
  destruct (p a); [eauto|]. rewrite IH. eauto.
Qed.

Lemma Join_cons x y l sep : Join (x :: y :: l) sep = x +:+ sep +:+ Join (y :: l) sep.
Proof. done. Qed.

(** [Join] undoes [Split]. *)
Lemma Join_Split s sep : Join (Split s sep) (String sep "") = s.
Proof.
  unfold Split. induction s as [|a s IH]; [done|]. simpl.
  destruct (split_by_cons (Ascii.eqb sep) s) as (h & t & E). rewrite E in *.
  destruct (Ascii.eqb sep a) eqn:Ea.
  - apply Ascii.eqb_eq in Ea as <-. rewrite Join_cons, IH. done.
  - destruct t; simpl in *; by rewrite IH.
Qed.

Lemma Split_app_sep x s sep :
  Split (x +:+ String sep s) sep = Split x sep ++ Split s sep.
Proof.
  unfold Split. induction x as [|a x IH]; simpl.
  - by rewrite Ascii.eqb_refl.
  - destruct (Ascii.eqb sep a); [by rewrite IH|]. rewrite IH.
    destruct (split_by_cons (Ascii.eqb sep) x) as (h & t & ->). done.
Qed.

Lemma Join_app l1 l2 sep :
  l1 ≠ [] → l2 ≠ [] → Join (l1 ++ l2) sep = Join l1 sep +:+ sep +:+ Join l2 sep.
Proof.
  intros H1 H2. induction l1 as [|x [|y l1] IH]; [done| |].
  - destruct l2; done.
  - change ((x :: y :: l1) ++ l2) with (x :: (y :: l1) ++ l2).
    change ((y :: l1) ++ l2) with (y :: l1 ++ l2) in *.
    rewrite !Join_cons, IH by done. by rewrite !sapp_assoc.
Qed.

Lemma Split_nonnil s sep : Split s sep ≠ [].
Proof. unfold Split. by destruct (split_by_cons (Ascii.eqb sep) s) as (? & ? & ->). Qed.

Lemma length_Split s sep : (0 < List.length (Split s sep))%nat.
Proof. pose proof (Split_nonnil s sep). destruct (Split s sep); simpl; [done|lia]. Qed.

(** A suffix of the label list, joined, is a textual suffix after a dot. *)
Lemma Join_drop_Split s i :
  (1 ≤ i < List.length (Split s "."))%nat →
  ∃ x, s = x +:+ "." +:+ Join (drop i (Split s ".")) ".".
Proof.
  intros [Hi Hl]. exists (Join (take i (Split s ".")) ".").
  rewrite <-Join_app, take_drop.
  - symmetry. apply Join_Split.
  - intros E. apply (f_equal List.length) in E. rewrite length_take in E. simpl in E. lia.
  - intros E. apply (f_equal List.length) in E. rewrite length_drop in E. simpl in E. lia.
Qed.

(** The suffixes the matching loops visit are exactly the texts after a dot. *)
Lemma elem_of_parent_suffixes s t :
  t ∈ parent_suffixes s ↔ ∃ x, s = x +:+ "." +:+ t.
Proof.
  unfold parent_suffixes. rewrite list_elem_of_fmap. split.
  - intros (i & -> & Hi). apply elem_of_seq in Hi. apply Join_drop_Split. lia.
  - intros [x ->]. exists (List.length (Split x ".")).
    pose proof (length_Split x "."). pose proof (length_Split t ".").
    change ("." +:+ t) with (String "." t). rewrite Split_app_sep, elem_of_seq, length_app. split; [|lia].
    by rewrite drop_app_length, Join_Split.
Qed.

Lemma schars_app s t : schars (s +:+ t) = schars s ++ schars t.
Proof. induction s as [|a s IH]; simpl; [done|]. by rewrite IH. Qed.

Lemma schars_of_chars l : schars (of_chars l) = l.
Proof. induction l as [|a l IH]; simpl; [done|]. by rewrite IH. Qed.

Lemma of_chars_schars s : of_chars (schars s) = s.
Proof. induction s as [|a s IH]; simpl; [done|]. by rewrite IH. Qed.

Lemma of_chars_app l l' : of_chars (l ++ l') = of_chars l +:+ of_chars l'.
Proof. induction l as [|a l IH]; simpl; [done|]. by rewrite IH. Qed.

Lemma ContainsByte_cons a s c : ContainsByte (String a s) c = Ascii.eqb c a || ContainsByte s c.
Proof. done. Qed.

Lemma Split_nosep s c : ContainsByte s c = false → Split s c = [s].
Proof.
  unfold Split. induction s as [|a s IH]; [done|].
  rewrite ContainsByte_cons. intros [H1 H2]%orb_false_iff. simpl. by rewrite H1, IH.
Qed.

(** The text before and after the last separator is determined. *)
Lemma last_sep_inj (a b a' b' : string) c :
  ContainsByte b c = false → ContainsByte b' c = false →
  a +:+ String c b = a' +:+ String c b' → a = a' ∧ b = b'.
Proof.
  intros Hb Hb' H. apply (f_equal (λ s, Split s c)) in H.
  rewrite !Split_app_sep, (Split_nosep b), (Split_nosep b') in H by done.
  apply app_inj_tail in H as [H ->]. split; [|done].
  by rewrite <-(Join_Split a c), <-(Join_Split a' c), H.
Qed.

(** ** Normalised domain names

    Both name filters compare names without one trailing dot, in lower case. *)

Definition normalize (s : string) : string := ToLower (TrimSuffix s ".").

(** Normalising ignores case and one trailing dot. *)
Lemma normalize_ToLower s : normalize (ToLower s) = normalize s.
Proof. unfold normalize. by rewrite ToLower_TrimSuffix_dot, ToLower_idem, <-ToLower_TrimSuffix_dot. Qed.

Lemma normalize_dot s : normalize (s +:+ ".") = ToLower s.
Proof. unfold normalize. by rewrite TrimSuffix_app. Qed.

Lemma normalize_nodot s : (∀ t, s ≠ t +:+ ".") → normalize s = ToLower s.
Proof. intros H. unfold normalize. by rewrite TrimSuffix_none. Qed.

Lemma append_sub_nonempty x d t : d ≠ "" → (∀ u, d ≠ u +:+ t) → String.length t = 1%nat →
  ∀ u, x +:+ d ≠ u +:+ t.
Proof.
  intros Hd Hn Ht u. revert x; induction u as [|b u IH]; intros [|a x]; simpl; try done.
  - exact (Hn "").
  - intros E. destruct t as [|c t]; simpl in *; [lia|]. injection E as -> E.
    destruct t; simpl in *; [|lia]. by destruct x, d.
  - exact (Hn (String b u)).
  - intros [= -> E]. by apply (IH x).
Qed.

Lemma normalize_sub x d :
  d ≠ "" → (∀ t, d ≠ t +:+ ".") → normalize (x +:+ "." +:+ d) = ToLower x +:+ "." +:+ ToLower d.
Proof.
  intros Hd Hn. rewrite normalize_nodot.
  - by rewrite !ToLower_app.
  - rewrite <-sapp_assoc. intros t. by apply append_sub_nonempty.
Qed.

Lemma split_by_smap p f s :
  (∀ a, p (f a) = p a) → split_by p (smap f s) = smap f <$> split_by p s.
Proof.
  intros Hp. induction s as [|a s IH]; simpl; [done|]. rewrite Hp, IH.
  destruct (p a); [done|]. destruct (split_by_cons p s) as (h & t & ->). done.
Qed.

Lemma Split_ToLower s : Split (ToLower s) "." = ToLower <$> Split s ".".
Proof. apply split_by_smap. intros a. by destruct a as [[] [] [] [] [] [] [] []]. Qed.

(** [d] is [e], or a name below [e]. *)
Definition at_or_below (d e : string) : Prop := d = e ∨ ∃ x, d = x +:+ "." +:+ e.
Definition below (d e : string) : Prop := ∃ x, d = x +:+ "." +:+ e.

Lemma HasPrefix_star_ToLower s : HasPrefix (ToLower s) "*." = HasPrefix s "*.".
Proof.
  apply eq_true_iff_eq. rewrite !HasPrefix_spec. split; intros [t E].
  - destruct s as [|a [|b s]]; try done. injection E as Ea Eb _.
    exists s. rewrite (proj1 (lower_char_eq "*" a eq_refl eq_refl) Ea).
    by rewrite (proj1 (lower_char_eq "." b eq_refl eq_refl) Eb).
  - subst. by exists (ToLower t).
Qed.
