(* ===== verification/GoRegexp.v ===== *)
(** * Anchored regular expressions

    The patterns rcvd compiles with [regexp.MustCompile] are all anchored at
    both ends, so [MatchString] is full-string matching.  A pattern is a value
    of [re]; [re_matches] is its meaning and [MatchString] the decision
    procedure (by derivatives) that the models run. *)

From S2P Require Import Prelude GoStrings.
From Stdlib Require Import Ascii String.
Open Scope string_scope.
Open Scope list_scope.

(** ** Definitions *)

Inductive re : Type :=
| Empty
| Eps
| Chr (p : ascii → bool)
| Cat (r1 r2 : re)
| Alt (r1 r2 : re)
| Star (r : re).

Inductive re_matches : re → string → Prop :=
| m_eps : re_matches Eps ""
| m_chr p a : p a = true → re_matches (Chr p) (String a "")
| m_cat r1 r2 s1 s2 : re_matches r1 s1 → re_matches r2 s2 → re_matches (Cat r1 r2) (s1 +:+ s2)
| m_alt_l r1 r2 s : re_matches r1 s → re_matches (Alt r1 r2) s
| m_alt_r r1 r2 s : re_matches r2 s → re_matches (Alt r1 r2) s
| m_star_nil r : re_matches (Star r) ""
| m_star_cons r s1 s2 : re_matches r s1 → re_matches (Star r) s2 → re_matches (Star r) (s1 +:+ s2).

(** [r?], [r{0,n}] and [r+]. *)
Definition Opt (r : re) : re := Alt Eps r.
Fixpoint UpTo (n : nat) (r : re) : re :=
  match n with O => Eps | S n' => Opt (Cat r (UpTo n' r)) end.
Definition Plus (r : re) : re := Cat r (Star r).

Fixpoint nullable (r : re) : bool :=
  match r with
  | Empty | Chr _ => false
  | Eps | Star _ => true
  | Cat r1 r2 => nullable r1 && nullable r2
  | Alt r1 r2 => nullable r1 || nullable r2
  end.

(** Simplifying constructors keep derivatives small. *)
Definition cat (r1 r2 : re) : re :=
  match r1 with Empty => Empty | Eps => r2 | _ => Cat r1 r2 end.
Definition alt (r1 r2 : re) : re :=
  match r1, r2 with Empty, _ => r2 | _, Empty => r1 | _, _ => Alt r1 r2 end.

Fixpoint deriv (a : ascii) (r : re) : re :=
  match r with
  | Empty | Eps => Empty
  | Chr p => if p a then Eps else Empty
  | Cat r1 r2 =>
      if nullable r1 then alt (cat (deriv a r1) r2) (deriv a r2) else cat (deriv a r1) r2
  | Alt r1 r2 => alt (deriv a r1) (deriv a r2)
  | Star r1 => cat (deriv a r1) (Star r1)
  end.

Fixpoint MatchString (r : re) (s : string) : bool :=
  match s with
  | "" => nullable r
  | String a s' => MatchString (deriv a r) s'
  end.

(** ** The matcher decides the meaning *)

Ltac inv_re :=
  unfold Opt in *; repeat match goal with
  | H : re_matches Empty _ |- _ => inversion H; clear H; subst
  | H : re_matches Eps _ |- _ => inversion H; clear H; subst
  | H : re_matches (Chr _) _ |- _ => inversion H; clear H; subst
  | H : re_matches (Cat _ _) _ |- _ => inversion H; clear H; subst
  | H : re_matches (Alt _ _) _ |- _ => inversion H; clear H; subst
  end.

#[local] Hint Constructors re_matches : core.

Lemma cat_matches r1 r2 s : re_matches (cat r1 r2) s ↔ re_matches (Cat r1 r2) s.
Proof.
  destruct r1; simpl; try done; (split; intros H; inv_re).
  - by apply (m_cat Eps r2 "" s).
  - done.
Qed.

Lemma alt_matches r1 r2 s : re_matches (alt r1 r2) s ↔ re_matches (Alt r1 r2) s.
Proof.
  destruct r1, r2; simpl; try done; split; intros H; inv_re; auto.
Qed.

Lemma nullable_spec r : nullable r = true ↔ re_matches r "".
Proof.
  induction r; simpl; try rewrite ?andb_true_iff, ?orb_true_iff, ?IHr1, ?IHr2;
    split; intros H; try done; inv_re; try done; auto.
  - destruct H as [H1 H2]. by apply (m_cat r1 r2 "" "").
  - destruct s1, s2; done.
  - destruct H; auto.
Qed.

(** A non-empty match of a starred pattern starts with a non-empty iteration. *)
Lemma star_cons_inv r a s :
  re_matches (Star r) (String a s) →
  ∃ s1 s2, s = s1 +:+ s2 ∧ re_matches r (String a s1) ∧ re_matches (Star r) s2.
Proof.
  remember (Star r) as q eqn:Hq. remember (String a s) as u eqn:Hu. intros H.
  revert r a s Hq Hu. induction H as [| | | | | |r s1 s2 H1 _ H2 IH2]; intros r' a' s' Hq Hu;
    try discriminate.
  injection Hq as ->. destruct s1 as [|b s1]; simpl in Hu.
  - subst s2. by apply (IH2 r' a' s').
  - injection Hu as -> <-. eauto.
Qed.

Lemma deriv_spec a r s : re_matches (deriv a r) s ↔ re_matches r (String a s).
Proof.
  revert s; induction r as [| |p|r1 IH1 r2 IH2|r1 IH1 r2 IH2|r IH]; intros s; simpl.
  - split; intros H; inv_re.
  - split; intros H; inv_re.
  - destruct (p a) eqn:E; split; intros H; inv_re; auto; congruence.
  - assert (Hc : re_matches (cat (deriv a r1) r2) s ↔
                 ∃ s1 s2, s = s1 +:+ s2 ∧ re_matches r1 (String a s1) ∧ re_matches r2 s2).
    { rewrite cat_matches. split.
      - intros H. inv_re. rewrite IH1 in *. eauto 6.
      - intros (s1 & s2 & -> & ? & ?). constructor; [by apply IH1|done]. }
    assert (Hs : re_matches (Cat r1 r2) (String a s) ↔
                 (∃ s1 s2, s = s1 +:+ s2 ∧ re_matches r1 (String a s1) ∧ re_matches r2 s2) ∨
                 (re_matches r1 "" ∧ re_matches r2 (String a s))).
    { split.
      - intros H. inversion H as [| |? ? s1 s2 ? ? E1 E2| | | |]; subst.
        destruct s1; simpl in *; subst; [by right|]. injection E2 as -> <-. left. eauto 6.
      - intros [(s1 & s2 & -> & ? & ?)|[? ?]].
        + by apply (m_cat r1 r2 (String a s1) s2).
        + by apply (m_cat r1 r2 "" (String a s)). }
    rewrite Hs, <-Hc, <-nullable_spec, <-IH2. destruct (nullable r1).
    + rewrite alt_matches. split; [intros H; inv_re; auto|intros [|[_ ?]]; auto].
    + split; [auto|intros [|[? _]]; [done|discriminate]].
  - rewrite alt_matches. split; intros H; inv_re; rewrite ?IH1, ?IH2 in *; auto.
    + apply m_alt_l. by rewrite IH1.
    + apply m_alt_r. by rewrite IH2.
  - rewrite cat_matches. split; intros H.
    + inv_re. apply (m_star_cons r (String a s1) s2); [by apply IH|done].
    + apply star_cons_inv in H as (s1 & s2 & -> & ? & ?). constructor; [by apply IH|done].
Qed.

Theorem MatchString_spec r s : MatchString r s = true ↔ re_matches r s.
Proof.
  revert r; induction s as [|a s IH]; intros r; simpl.
  - apply nullable_spec.
  - by rewrite IH, deriv_spec.
Qed.

(** ** Host name labels

    [^A(B{0,61}A)?$], the shape of both label patterns, for classes [A ⊆ B]. *)

Definition all_chars (p : ascii → bool) (s : string) : bool := forallb p (schars s).

Lemma all_chars_app p s t : all_chars p (s +:+ t) = all_chars p s && all_chars p t.
Proof. unfold all_chars. induction s as [|a s IH]; simpl; [done|]. by rewrite IH, andb_assoc. Qed.

Lemma UpTo_Chr_matches p n s :
  re_matches (UpTo n (Chr p)) s ↔ (String.length s ≤ n)%nat ∧ all_chars p s = true.
Proof.
  revert s; induction n as [|n IH]; intros s; simpl.
  - split; [intros H; inv_re; done|]. intros [H _]. destruct s; simpl in H; [auto|lia].
  - split.
    + intros H; inv_re; [split; [simpl; lia|done]|].
      match goal with H : re_matches (UpTo _ _) _ |- _ => apply IH in H as [? ?] end.
      unfold all_chars in *; simpl. split; [lia|]. by apply andb_true_intro.
    + intros [Hl Hc]. unfold Opt. destruct s as [|a s]; [auto|]. unfold all_chars in Hc. simpl in *.
      apply andb_true_iff in Hc as [Ha Hc]. apply m_alt_r.
      apply (m_cat (Chr p) (UpTo n (Chr p)) (String a "") s); [auto|]. apply IH. split; [lia|done].
Qed.

Definition label_re (A B : ascii → bool) : re :=
  Cat (Chr A) (Opt (Cat (UpTo 61 (Chr B)) (Chr A))).

(** What a label pattern accepts, in words: 1 to 63 characters of the class,
    the outer two of the stricter class. *)
Definition label_ok (A B : ascii → bool) (s : string) : Prop :=
  (1 ≤ String.length s ≤ 63)%nat ∧ all_chars B s = true ∧
  (∃ a t, s = String a t ∧ A a = true) ∧ (∃ t z, s = t +:+ String z "" ∧ A z = true).

Lemma label_shape A B n s :
  (∀ a, A a = true → B a = true) →
  re_matches (Cat (Chr A) (Opt (Cat (UpTo n (Chr B)) (Chr A)))) s ↔
  (1 ≤ String.length s ≤ n + 2)%nat ∧ all_chars B s = true ∧
  (∃ a t, s = String a t ∧ A a = true) ∧ (∃ t z, s = t +:+ String z "" ∧ A z = true).
Proof.
  intros AB. unfold Opt. split.
  - intros H; inv_re.
    + rewrite sapp_nil_r. unfold all_chars; simpl. repeat split; try lia.
      * by rewrite (AB a).
      * eauto.
      * by exists "", a.
    + match goal with H : re_matches (UpTo _ _) _ |- _ => apply UpTo_Chr_matches in H as [? ?] end.
      rewrite !slength_app, !all_chars_app. simpl. unfold all_chars at 1 3. simpl.
      rewrite !(AB _) by done. repeat split; try lia.
      * match goal with H : all_chars _ _ = true |- _ => by rewrite H end.
      * eauto.
      * by exists (String a s1), a0.
  - intros (Hl & Hc & (a & t & -> & Ha) & (u & z & Hu & Hz)).
    change (String a t) with (String a "" +:+ t). constructor; [auto|].
    destruct u as [|b u]; simpl in Hu.
    { injection Hu as -> ->. auto. }
    injection Hu as -> ->. apply m_alt_r. constructor; [|auto].
    change (String b (u +:+ String z "")) with (String b "" +:+ (u +:+ String z "")) in Hc.
    simpl in Hl. rewrite slength_app in Hl. simpl in Hl.
    rewrite !all_chars_app in Hc. bool_prop. apply UpTo_Chr_matches. split; [lia|done].
Qed.

Lemma label_re_spec A B s :
  (∀ a, A a = true → B a = true) → MatchString (label_re A B) s = true ↔ label_ok A B s.
Proof. intros AB. rewrite MatchString_spec. by apply (label_shape A B 61). Qed.

Lemma all_chars_ToLower p s : (∀ a, p (lower_char a) = p a) → all_chars p (ToLower s) = all_chars p s.
Proof.
  intros Hp. unfold all_chars. induction s as [|a s IH]; simpl; [done|].
  unfold ToLower in *. by rewrite Hp, IH.
Qed.

(** Lower-casing keeps a label well formed, for classes that ignore case. *)
Lemma label_ok_lower outer inner l :
  (∀ a, outer (lower_char a) = outer a) → (∀ a, inner (lower_char a) = inner a) →
  label_ok outer inner l → label_ok outer inner (ToLower l).
Proof.
  intros Ho Hi (Hl & Hc & (a & t & -> & Ha) & (u & z & Hu & Hz)). repeat split.
  - unfold ToLower. rewrite smap_length. lia.
  - unfold ToLower. rewrite smap_length. lia.
  - by rewrite all_chars_ToLower by apply Hi.
  - exists (lower_char a), (ToLower t). by rewrite Ho.
  - exists (ToLower u), (lower_char z). rewrite Hu, ToLower_app, Ho. done.
Qed.
