(* ===== verification/GoBufio.v ===== *)
(** * Line scanning with Go's [bufio.Scanner]

    A reader is the bytes it yields and whether it then fails (a read error
    other than end of file).  [ScanLines] is the sequence of lines a scanner
    with the default split function yields before it stops, and whether it
    stopped because a line does not fit in its buffer. *)

From S2P Require Import Prelude GoStrings.
From Stdlib Require Import Ascii String.
Open Scope string_scope.
Open Scope list_scope.
Open Scope Z_scope.

Record Reader := mkReader { rdData : string; rdFail : bool }.

Definition newline : ascii := "010".
Definition carriage_return : ascii := "013".

(** A final carriage return of a line is not part of it. *)
Definition dropCR (s : string) : string := TrimSuffix s (String carriage_return "").

Definition slen (s : string) : Z := Z.of_nat (String.length s).

(** The raw lines: the pieces between newlines, without the empty piece after
    a final newline. *)
Fixpoint drop_last_empty (l : list string) : list string :=
  match l with
  | [] => []
  | [x] => if String.eqb x "" then [] else [x]
  | x :: l' => x :: drop_last_empty l'
  end.

(** A raw line must leave room in a buffer of [max] bytes. *)
Fixpoint take_lines (max : Z) (l : list string) : list string * bool :=
  match l with
  | [] => ([], false)
  | x :: l' =>
      if max <=? slen x then ([], true)
      else let '(r, e) := take_lines max l' in (dropCR x :: r, e)
  end.

Definition ScanLines (max : Z) (data : string) : list string * bool :=
  take_lines max (drop_last_empty (Split data newline)).

(** [scanner.Err() != nil] after the scan. *)
Definition scan_failed (max : Z) (r : Reader) : bool := snd (ScanLines max (rdData r)) || rdFail r.

(** [bufio.MaxScanTokenSize]. *)
Definition MaxScanTokenSize : Z := 65536.

Definition nl : string := String newline "".

Example scan_ex :
  ScanLines 10 ("a" +:+ nl +:+ "b" +:+ String carriage_return nl +:+ nl +:+ "c") = (["a"; "b"; ""; "c"], false).
Proof. vm_compute. done. Qed.

Example scan_too_long : ScanLines 4 ("a" +:+ nl +:+ "bcde" +:+ nl +:+ "f") = (["a"], true).
Proof. vm_compute. done. Qed.
