(* ===== verification/GoBase64.v ===== *)
(** * [base64.RawURLEncoding] and [base64.StdEncoding] of Go's standard library

    The unpadded URL alphabet, and (module [Std]) the standard alphabet with
    padding.  The decoders skip carriage returns and line feeds, and ignore the
    unused low bits of the last digit. *)

From S2P Require Import Prelude GoStrings.
From Stdlib Require Import Ascii String.
Open Scope string_scope.
Open Scope list_scope.
Open Scope Z_scope.

Definition b64_alphabet : string := "ABCDEFGHIJKLMNOPQRSTUVWXYZabcdefghijklmnopqrstuvwxyz0123456789-_".

Definition b64_char (v : Z) : ascii := nth (Z.to_nat v) (schars b64_alphabet) "A"%char.

Definition b64_val (a : ascii) : option Z :=
  match list_find (λ b, b = a) (schars b64_alphabet) with Some (i, _) => Some (Z.of_nat i) | None => None end.

Definition byte_val (a : ascii) : Z := Z.of_nat (nat_of_ascii a).
Definition val_byte (z : Z) : ascii := ascii_of_nat (Z.to_nat z).

(** Four digits make three bytes; two or three digits at the end one or two. *)
Fixpoint b64_quanta (l : list Z) : option (list ascii) :=
  match l with
  | [] => Some []
  | [_] => None
  | [a; b] => Some [val_byte (a * 4 + b / 16)]
  | [a; b; c] => Some [val_byte (a * 4 + b / 16); val_byte (b mod 16 * 16 + c / 4)]
  | a :: b :: c :: d :: l' =>
      match b64_quanta l' with
      | Some out => Some (val_byte (a * 4 + b / 16) :: val_byte (b mod 16 * 16 + c / 4) :: val_byte (c mod 4 * 64 + d) :: out)
      | None => None
      end
  end.

Definition DecodeString (s : string) : option string :=
  let l := List.filter (λ a, negb (Ascii.eqb a "010" || Ascii.eqb a "013")) (schars s) in
  match mapM b64_val l with
  | Some vs => match b64_quanta vs with Some out => Some (of_chars out) | None => None end
  | None => None
  end.

Fixpoint b64_digits (l : list ascii) : list Z :=
  match l with
  | [] => []
  | [x] => [byte_val x / 4; byte_val x mod 4 * 16]
  | [x; y] => [byte_val x / 4; byte_val x mod 4 * 16 + byte_val y / 16; byte_val y mod 16 * 4]
  | x :: y :: z :: l' =>
      byte_val x / 4 :: (byte_val x mod 4 * 16 + byte_val y / 16) :: (byte_val y mod 16 * 4 + byte_val z / 64) ::
        byte_val z mod 64 :: b64_digits l'
  end.

Definition EncodeToString (s : string) : string := of_chars (b64_char <$> b64_digits (schars s)).

(** ** Decoding undoes encoding *)

Lemma byte_val_range a : 0 ≤ byte_val a < 256.
Proof. unfold byte_val. pose proof (nat_ascii_bounded a). lia. Qed.

Lemma val_byte_val a : val_byte (byte_val a) = a.
Proof. unfold val_byte, byte_val. rewrite Nat2Z.id. apply ascii_nat_embedding. Qed.

Lemma list_ind3 {A} (P : list A → Prop) :
  P [] → (∀ x, P [x]) → (∀ x y, P [x; y]) → (∀ x y z l, P l → P (x :: y :: z :: l)) → ∀ l, P l.
Proof.
  intros H0 H1 H2 H3. assert (H : ∀ n l, (List.length l ≤ n)%nat → P l); [|intros l; by apply (H (List.length l))].
  induction n as [|n IH]; intros l Hl; destruct l as [|x [|y [|z l]]]; simpl in Hl; try lia; auto.
  apply H3, IH. lia.
Qed.

Lemma b64_digits_range l d : d ∈ b64_digits l → 0 ≤ d < 64.
Proof.
  induction l as [|x|x y|x y z l IH] using list_ind3; simpl; rewrite ?elem_of_cons, ?elem_of_nil;
    try pose proof (byte_val_range x); try pose proof (byte_val_range y); try pose proof (byte_val_range z);
    intuition subst; Z.div_mod_to_equations; lia.
Qed.

Lemma byte_of_digits a e : e = byte_val a → val_byte e = a.
Proof. intros ->. apply val_byte_val. Qed.

Lemma b64_quanta_digits l : b64_quanta (b64_digits l) = Some l.
Proof.
  induction l as [|x|x y|x y z l IH] using list_ind3; cbn [b64_digits b64_quanta];
    [done|..]; try pose proof (byte_val_range x); try pose proof (byte_val_range y); try pose proof (byte_val_range z);
    rewrite ?IH; repeat (f_equal; try (apply byte_of_digits; Z.div_mod_to_equations; lia)).
Qed.

Lemma b64_alphabet_ok :
  Forall (λ i, b64_val (b64_char (Z.of_nat i)) = Some (Z.of_nat i) ∧
    Ascii.eqb (b64_char (Z.of_nat i)) "010" || Ascii.eqb (b64_char (Z.of_nat i)) "013" = false) (seq 0 64).
Proof. vm_compute. repeat constructor. Qed.

Lemma b64_val_char v : 0 ≤ v < 64 →
  b64_val (b64_char v) = Some v ∧ Ascii.eqb (b64_char v) "010" || Ascii.eqb (b64_char v) "013" = false.
Proof.
  intros Hv. pose proof b64_alphabet_ok as H. rewrite Forall_forall in H.
  specialize (H (Z.to_nat v)). rewrite Z2Nat.id in H by lia. apply H, elem_of_seq. lia.
Qed.

Lemma DecodeString_Encode s : DecodeString (EncodeToString s) = Some s.
Proof.
  unfold DecodeString, EncodeToString. rewrite schars_of_chars.
  set (ds := b64_digits (schars s)).
  assert (Hr : ∀ d, d ∈ ds → 0 ≤ d < 64) by (intros d; apply b64_digits_range).
  assert (Hf : List.filter (λ a, negb (Ascii.eqb a "010" || Ascii.eqb a "013")) (b64_char <$> ds) = b64_char <$> ds ∧
    mapM b64_val (b64_char <$> ds) = Some ds).
  { clearbody ds. induction ds as [|d ds IH]; [done|]. destruct IH as [IH1 IH2]; [set_solver|].
    destruct (b64_val_char d) as [Hd1 Hd2]; [set_solver|]. split.
    - cbn [fmap list_fmap List.filter]. rewrite Hd2. cbn [negb]. f_equal. exact IH1.
    - rewrite fmap_cons. cbn [mapM]. rewrite Hd1. cbn. rewrite IH2. done. }
  destruct Hf as [-> ->]. subst ds. rewrite b64_quanta_digits. by rewrite of_chars_schars.
Qed.

Example decode_cases :
  DecodeString <$> ["aGVsbG8"; "aGVsbG8="; "aGVsbA"; "a"; "-_-_"; "+/"; ""]
  = [Some "hello"; None; Some "hell"; None; Some (of_chars (val_byte <$> [251; 255; 191])); None; Some ""].
Proof. vm_compute. done. Qed.

(** ** [base64.StdEncoding] *)

Module Std.

Definition alphabet : string := "ABCDEFGHIJKLMNOPQRSTUVWXYZabcdefghijklmnopqrstuvwxyz0123456789+/".

Definition char (v : Z) : ascii := nth (Z.to_nat v) (schars alphabet) "A"%char.

Definition val (a : ascii) : option Z :=
  match list_find (λ b, b = a) (schars alphabet) with Some (i, _) => Some (Z.of_nat i) | None => None end.

Definition is_newline (a : ascii) : bool := Ascii.eqb a "010" || Ascii.eqb a "013".

(** Groups of four: digits only, or the last one with one or two pads. *)
Fixpoint quanta (l : list ascii) : option (list ascii) :=
  match l with
  | [] => Some []
  | a :: b :: c :: d :: l' =>
      match val a, val b with
      | Some a, Some b =>
          if Ascii.eqb c "=" then
            if Ascii.eqb d "=" && bool_decide (l' = []) then Some [val_byte (a * 4 + b / 16)] else None
          else
            match val c with
            | None => None
            | Some c =>
                if Ascii.eqb d "=" then
                  if bool_decide (l' = [])
                  then Some [val_byte (a * 4 + b / 16); val_byte (b mod 16 * 16 + c / 4)] else None
                else
                  match val d, quanta l' with
                  | Some d, Some out =>
                      Some (val_byte (a * 4 + b / 16) :: val_byte (b mod 16 * 16 + c / 4) ::
                            val_byte (c mod 4 * 64 + d) :: out)
                  | _, _ => None
                  end
            end
      | _, _ => None
      end
  | _ => None
  end.

Definition DecodeString (s : string) : option string :=
  of_chars <$> quanta (List.filter (λ a, negb (is_newline a)) (schars s)).

Fixpoint padded (l : list ascii) : list ascii :=
  match l with
  | [] => []
  | [x] => [char (byte_val x / 4); char (byte_val x mod 4 * 16); "="%char; "="%char]
  | [x; y] => [char (byte_val x / 4); char (byte_val x mod 4 * 16 + byte_val y / 16);
               char (byte_val y mod 16 * 4); "="%char]
  | x :: y :: z :: l' =>
      char (byte_val x / 4) :: char (byte_val x mod 4 * 16 + byte_val y / 16) ::
      char (byte_val y mod 16 * 4 + byte_val z / 64) :: char (byte_val z mod 64) :: padded l'
  end.

Definition EncodeToString (s : string) : string := of_chars (padded (schars s)).

Lemma alphabet_ok :
  Forall (λ i, val (char (Z.of_nat i)) = Some (Z.of_nat i) ∧
    is_newline (char (Z.of_nat i)) = false ∧ Ascii.eqb (char (Z.of_nat i)) "=" = false) (seq 0 64).
Proof. vm_compute. repeat constructor. Qed.

Lemma val_char v : 0 ≤ v < 64 →
  val (char v) = Some v ∧ is_newline (char v) = false ∧ Ascii.eqb (char v) "=" = false.
Proof.
  intros Hv. pose proof alphabet_ok as H. rewrite Forall_forall in H.
  specialize (H (Z.to_nat v)). rewrite Z2Nat.id in H by lia. apply H, elem_of_seq. lia.
Qed.

Ltac digit v :=
  let H := fresh in assert (H : 0 ≤ v < 64) by (Z.div_mod_to_equations; lia);
  apply val_char in H as (? & ? & ?).

Ltac digits :=
  repeat match goal with
  | |- context [char ?v] => lazymatch goal with H : val (char v) = Some _ |- _ => fail | _ => digit v end
  end.

Lemma quanta_padded l : quanta (padded l) = Some l.
Proof.
  induction l as [|x|x y|x y z l IH] using list_ind3; cbn [padded]; [done|..];
    try pose proof (byte_val_range x); try pose proof (byte_val_range y); try pose proof (byte_val_range z);
    digits; cbn [quanta];
    repeat match goal with H : val _ = Some _ |- _ => rewrite H; clear H
                       | H : Ascii.eqb _ _ = false |- _ => rewrite H; clear H end; cbn;
    rewrite ?IH; repeat (f_equal; try (apply byte_of_digits; Z.div_mod_to_equations; lia)).
Qed.

Lemma padded_no_newline l : List.filter (λ a, negb (is_newline a)) (padded l) = padded l.
Proof.
  induction l as [|x|x y|x y z l IH] using list_ind3; cbn [padded]; [done|..];
    try pose proof (byte_val_range x); try pose proof (byte_val_range y); try pose proof (byte_val_range z);
    digits; cbn [List.filter];
    repeat match goal with H : is_newline _ = false |- _ => rewrite H; clear H end; cbn; by rewrite ?IH.
Qed.

Lemma padded_Decode_Encode s : DecodeString (EncodeToString s) = Some s.
Proof.
  unfold DecodeString, EncodeToString. rewrite schars_of_chars, padded_no_newline, quanta_padded.
  cbn. by rewrite of_chars_schars.
Qed.

Example std_decode_cases :
  DecodeString <$> ["aGVsbG8="; "aGVsbG8"; "aGVsbA=="; "aGVsbA="; "aGVs"; "aGVsbA==x"; "====" ; ""; "+/+/"]
  = [Some "hello"; None; Some "hell"; None; Some "hel"; None; None; Some "";
     Some (of_chars (val_byte <$> [251; 255; 191]))].
Proof. vm_compute. done. Qed.

End Std.
