(* ===== verification/GoNet.v ===== *)
(** * The part of Go's [net] package that rcvd uses

    [ParseIP] (that is, [netip.ParseAddr] without a zone) and the predicates
    on addresses.  A [net.IP] is its 16-byte form, a list of sixteen numbers
    below 256; an IPv4 address is in the IPv4-mapped range. *)

From S2P Require Import Prelude GoStrings.
From Stdlib Require Import Ascii String.
Open Scope string_scope.
Open Scope list_scope.
Open Scope Z_scope.

Definition IP : Type := list Z.

Definition digit_val (a : ascii) : Z := Z.of_nat (nat_of_ascii a) - 48.

(** One IPv4 field: at least one digit, no leading zero unless the field is
    "0", at most 255. [n] digits read so far, [val] their value. *)
Fixpoint ipv4_field (n : nat) (val : Z) (l : list ascii) : option Z :=
  match l with
  | [] => if (0 <? n)%nat then Some val else None
  | a :: l' =>
      if is_digit a then
        if (n =? 1)%nat && (val =? 0) then None else
        let val' := val * 10 + digit_val a in
        if 255 <? val' then None else ipv4_field (S n) val' l'
      else None
  end.

Definition parseIPv4Fields (s : string) : option (list Z) :=
  match mapM (λ f, ipv4_field 0 0 (schars f)) (Split s ".") with
  | Some [a; b; c; d] => Some [a; b; c; d]
  | _ => None
  end.

Definition hex_val (a : ascii) : option Z :=
  if is_digit a then Some (digit_val a)
  else if in_range 97 102 a then Some (Z.of_nat (nat_of_ascii a) - 87)
  else if in_range 65 70 a then Some (Z.of_nat (nat_of_ascii a) - 55)
  else None.

(** The hex digits at the head of [l]: how many, their value, and the rest.
    A fifth digit makes the address invalid. *)
Fixpoint hex_group (n : nat) (acc : Z) (l : list ascii) : option (nat * Z * list ascii) :=
  match l with
  | [] => Some (n, acc, [])
  | a :: l' =>
      match hex_val a with
      | Some v => if (3 <? n)%nat then None else hex_group (S n) (acc * 16 + v) l'
      | None => Some (n, acc, l)
      end
  end.

(** The group loop of [parseIPv6]: [ip] is what was read so far (most recent
    group last), [ell] the position of the ellipsis.  The result is the bytes
    read, the ellipsis and the unread rest.  Every round adds at least two of
    the sixteen bytes, so eight rounds suffice. *)
Fixpoint ipv6_groups (fuel : nat) (ip : list Z) (ell : option nat) (s : list ascii)
    : option (list Z * option nat * list ascii) :=
  match fuel with
  | O => Some (ip, ell, s)
  | S fuel' =>
      if (16 <=? List.length ip)%nat then Some (ip, ell, s) else
      match hex_group 0 0 s with
      | None => None
      | Some (off, acc, rest) =>
          if (off =? 0)%nat then None else
          match rest with
          | "."%char :: _ =>
              if bool_decide (ell = None) && negb (List.length ip =? 12)%nat then None else
              if (16 <? List.length ip + 4)%nat then None else
              match parseIPv4Fields (of_chars s) with
              | Some v4 => Some (ip ++ v4, ell, [])
              | None => None
              end
          | _ =>
              let ip' := ip ++ [acc / 256; acc mod 256] in
              match rest with
              | [] => Some (ip', ell, [])
              | ":"%char :: [] => None
              | ":"%char :: ":"%char :: rest2 =>
                  match ell with
                  | Some _ => None
                  | None =>
                      match rest2 with
                      | [] => Some (ip', Some (List.length ip'), [])
                      | _ => ipv6_groups fuel' ip' (Some (List.length ip')) rest2
                      end
                  end
              | ":"%char :: rest1 => ipv6_groups fuel' ip' ell rest1
              | _ => None
              end
          end
      end
  end.

(** Expansion of the ellipsis to sixteen bytes. *)
Definition ipv6_expand (ip : list Z) (ell : option nat) : option IP :=
  let n := (16 - List.length ip)%nat in
  match ell with
  | None => if (n =? 0)%nat then Some ip else None
  | Some e => if (n =? 0)%nat then None else Some (take e ip ++ replicate n 0 ++ drop e ip)
  end.

Definition parseIPv6 (s : list ascii) : option IP :=
  let '(ell, s') := match s with
                    | ":"%char :: ":"%char :: r => (Some 0%nat, r)
                    | _ => (None, s)
                    end in
  match ell, s' with
  | Some _, [] => Some (replicate 16 0)
  | _, _ =>
      match ipv6_groups 8 [] ell s' with
      | Some (ip, ell', []) => ipv6_expand ip ell'
      | _ => None
      end
  end.

(** The first of '.', ':' and '%' decides the family; a '%' anywhere gives a
    zone or an error, and [ParseIP] returns nil for both. *)
Fixpoint addr_kind (l : list ascii) : option bool :=
  match l with
  | [] => None
  | a :: l' =>
      if Ascii.eqb a "." then Some true
      else if Ascii.eqb a ":" then Some false
      else if Ascii.eqb a "%" then None
      else addr_kind l'
  end.

Definition ParseIP (s : string) : option IP :=
  match addr_kind (schars s) with
  | None => None
  | Some true =>
      match parseIPv4Fields s with
      | Some v4 => Some (replicate 10 0 ++ [255; 255] ++ v4)
      | None => None
      end
  | Some false => if ContainsByte s "%" then None else parseIPv6 (schars s)
  end.

(** [netip.ParseAddr]: as [ParseIP], and an IPv6 address may carry a non-empty
    zone after '%'.  The result is the address with its zone. *)
Definition ParseAddr (s : string) : option (IP * string) :=
  match addr_kind (schars s) with
  | Some false =>
      match Split s "%" with
      | [_] => (λ ip, (ip, "")) <$> parseIPv6 (schars s)
      | addr :: zone =>
          let zone := Join zone "%" in
          if String.eqb zone "" then None else (λ ip, (ip, zone)) <$> parseIPv6 (schars addr)
      | [] => None
      end
  | _ => (λ ip, (ip, "")) <$> ParseIP s
  end.

(** [ip.To4()]. *)
Definition To4 (ip : IP) : option (list Z) :=
  if bool_decide (take 12 ip = replicate 10 0 ++ [255; 255]) then Some (drop 12 ip) else None.

Definition IsUnspecified (ip : IP) : bool :=
  bool_decide (ip = replicate 10 0 ++ [255; 255; 0; 0; 0; 0]) || bool_decide (ip = replicate 16 0).

Definition IsLoopback (ip : IP) : bool :=
  match To4 ip with
  | Some (b :: _) => b =? 127
  | Some [] => false
  | None => bool_decide (ip = replicate 15 0 ++ [1])
  end.

(** ** Host and port *)

(** [strings.IndexByte] and [strings.LastIndexByte]. *)
Fixpoint index_byte (c : ascii) (l : list ascii) : option nat :=
  match l with
  | [] => None
  | a :: l' => if Ascii.eqb a c then Some 0%nat else S <$> index_byte c l'
  end.
Fixpoint last_index_byte (c : ascii) (l : list ascii) : option nat :=
  match l with
  | [] => None
  | a :: l' =>
      match last_index_byte c l' with
      | Some i => Some (S i)
      | None => if Ascii.eqb a c then Some 0%nat else None
      end
  end.

(** [net.SplitHostPort]: [None] is an error. *)
Definition SplitHostPort (hostport : string) : option (string * string) :=
  let l := schars hostport in
  match last_index_byte ":" l with
  | None => None
  | Some i =>
      let finish host j k :=
        if bool_decide (index_byte "[" (drop j l) = None) && bool_decide (index_byte "]" (drop k l) = None)
        then Some (of_chars host, of_chars (drop (S i) l)) else None in
      match l with
      | "["%char :: _ =>
          match index_byte "]" l with
          | None => None
          | Some e => if (e + 1 =? i)%nat then finish (drop 1 (take e l)) 1%nat (e + 1)%nat else None
          end
      | _ =>
          let host := take i l in
          if bool_decide (index_byte ":" host = None) then finish host 0%nat 0%nat else None
      end
  end.

(** [strconv.Atoi]: decimal digits with an optional sign, within the [int] range. *)
Fixpoint digits_val (acc : Z) (l : list ascii) : option Z :=
  match l with
  | [] => Some acc
  | a :: l' => if is_digit a then digits_val (acc * 10 + digit_val a) l' else None
  end.
Definition Atoi (s : string) : option Z :=
  let '(neg, l) := match schars s with
                   | "-"%char :: l => (true, l)
                   | "+"%char :: l => (false, l)
                   | l => (false, l)
                   end in
  match l with
  | [] => None
  | _ =>
      match digits_val 0 l with
      | Some v =>
          let v := if neg : bool then - v else v in
          if (min_int64 <=? v) && (v <=? max_int64) then Some v else None
      | None => None
      end
  end.

(** ** Checks on concrete addresses *)

Example split_host_port :
  SplitHostPort <$> ["127.0.0.1:53"; ":443"; "[::1]:853"; "::1:853"; "localhost"; "[::1]"; "[a]b:1"; "a]:1"]
  = [Some ("127.0.0.1", "53"); Some ("", "443"); Some ("::1", "853"); None; None; None; None; None].
Proof. vm_compute. done. Qed.

Example atoi_cases :
  Atoi <$> ["853"; "-1"; "+7"; ""; "-"; "12a"; "9223372036854775808"; "007"]
  = [Some 853; Some (-1); Some 7; None; None; None; None; Some 7].
Proof. vm_compute. done. Qed.

Example parse_v4 : ParseIP "127.0.0.1" = Some (replicate 10 0 ++ [255; 255; 127; 0; 0; 1]).
Proof. vm_compute. done. Qed.

Example parse_v4_bad :
  Forall (λ s, ParseIP s = None)
    ["1.2.3"; "1.2.3.4.5"; "01.2.3.4"; "1.2.3.256"; "1..3.4"; "example.com"; "a"; ""; "change-me"].
Proof. repeat constructor. Qed.

Example parse_v6 :
  (ParseIP "::1", ParseIP "2001:db8::ff00:42:8329", ParseIP "::ffff:1.2.3.4") =
  (Some (replicate 15 0 ++ [1]),
   Some ([32; 1; 13; 184] ++ replicate 6 0 ++ [255; 0; 0; 66; 131; 41]),
   Some (replicate 10 0 ++ [255; 255; 1; 2; 3; 4])).
Proof. vm_compute. done. Qed.

Example parse_v6_bad :
  Forall (λ s, ParseIP s = None)
    [":::"; "1::2::3"; "12345::"; "1:2:3"; "fe80::1%eth0"; "1:2:3:4:5:6:7:8:9"; ":1"; "1:"].
Proof. repeat constructor. Qed.

Example parse_addr_zone :
  (λ s, snd <$> ParseAddr s) <$> ["fe80::1%eth0"; "fe80::1%"; "1.2.3.4%eth0"; "::1"; "%eth0"; "::%a%b"; "localhost"]
  = [Some "eth0"; None; None; Some ""; None; Some "a%b"; None].
Proof. vm_compute. done. Qed.

Example loopback_cases :
  (IsLoopback <$> ParseIP "127.8.0.1", IsLoopback <$> ParseIP "::1", IsLoopback <$> ParseIP "10.0.0.1")
  = (Some true, Some true, Some false).
Proof. vm_compute. done. Qed.

(** An address without a zone is one [ParseIP] accepts. *)
Lemma ParseIP_ParseAddr s ip : ParseIP s = Some ip → ParseAddr s = Some (ip, "").
Proof.
  unfold ParseAddr, ParseIP. destruct (addr_kind (schars s)) as [[]|]; [by intros ->| |done].
  destruct (ContainsByte s "%") eqn:E; [done|]. rewrite (Split_nosep _ _ E). by intros ->.
Qed.
