(* ===== verification/GoFmt.v ===== *)
(** * Decimal formatting ([strconv.Itoa], the verb %d of fmt)

    The digits of an [int64]: at most nineteen, so a fuel of twenty is enough. *)

From S2P Require Import Prelude GoStrings GoNet.
From Stdlib Require Import Ascii String.
Open Scope string_scope.
Open Scope list_scope.
Open Scope Z_scope.

Definition digit_char (d : Z) : ascii := ascii_of_nat (Z.to_nat (48 + d)).

Fixpoint dec_digits (fuel : nat) (n : Z) : list ascii :=
  match fuel with
  | O => []
  | S fuel' => if n <? 10 then [digit_char n] else dec_digits fuel' (n / 10) ++ [digit_char (n mod 10)]
  end.

Definition Itoa (n : Z) : string :=
  of_chars (if n <? 0 then "-"%char :: dec_digits 20 (- n) else dec_digits 20 n).

(** [net.JoinHostPort]. *)
Definition JoinHostPort (host port : string) : string :=
  if ContainsByte host ":" then "[" +:+ host +:+ "]:" +:+ port else host +:+ ":" +:+ port.

(** ** Reading back *)

Lemma digit_char_spec d : 0 ≤ d < 10 → is_digit (digit_char d) = true ∧ digit_val (digit_char d) = d.
Proof.
  intros H. unfold is_digit, in_range, digit_val, digit_char. rewrite nat_ascii_embedding by lia.
  split; [apply andb_true_iff; split; apply Nat.leb_le; lia|lia].
Qed.

Lemma digits_val_app acc l l' :
  digits_val acc (l ++ l') = match digits_val acc l with Some v => digits_val v l' | None => None end.
Proof. revert acc; induction l as [|a l IH]; intros acc; simpl; [done|]. destruct (is_digit a); [apply IH|done]. Qed.

Lemma dec_digits_val fuel n : 0 ≤ n < 10 ^ Z.of_nat fuel → digits_val 0 (dec_digits fuel n) = Some n.
Proof.
  revert n. induction fuel as [|fuel IH]; intros n Hn; [cbn in *; f_equal; lia|]. rewrite Nat2Z.inj_succ, Z.pow_succ_r in Hn by lia.
  cbn [dec_digits]. destruct (n <? 10) eqn:E; bool_prop.
  - destruct (digit_char_spec n) as [H1 H2]; [lia|]. cbn. by rewrite H1, H2.
  - rewrite digits_val_app, IH by (Z.div_mod_to_equations; lia).
    destruct (digit_char_spec (n mod 10)) as [H1 H2]; [Z.div_mod_to_equations; lia|]. cbn. rewrite H1, H2.
    f_equal. Z.div_mod_to_equations; lia.
Qed.

Lemma dec_digits_head fuel n : (0 < fuel)%nat → 0 ≤ n →
  ∃ a l, dec_digits fuel n = a :: l ∧ is_digit a = true.
Proof.
  intros Hf. revert n. destruct fuel as [|fuel]; [lia|]. clear Hf.
  induction fuel as [|fuel IH]; intros n Hn; cbn [dec_digits]; destruct (n <? 10) eqn:E; bool_prop.
  - eexists _, _. split; [done|]. apply digit_char_spec. lia.
  - cbn. eexists _, _. split; [done|]. apply digit_char_spec. Z.div_mod_to_equations; lia.
  - eexists _, _. split; [done|]. apply digit_char_spec. lia.
  - destruct (IH (n / 10)) as (a & l & H & Ha); [Z.div_mod_to_equations; lia|]. cbn [dec_digits] in H.
    rewrite H. eexists _, _. split; [done|exact Ha].
Qed.

(** Formatting a 64-bit integer and parsing it again gives the integer. *)
Lemma Atoi_Itoa n : in_int64 n → Atoi (Itoa n) = Some n.
Proof.
  unfold in_int64. intros Hn. pose proof Hn as Hn'. unfold min_int64, max_int64 in Hn'.
  unfold Atoi, Itoa. rewrite schars_of_chars. destruct (n <? 0) eqn:E; bool_prop.
  - destruct (dec_digits_head 20 (- n)) as (a & l & Hd & Ha); [lia|lia|].
    cbv beta iota zeta. rewrite Hd. rewrite <-Hd, dec_digits_val by lia.
    replace (- - n) with n by lia.
    destruct Hn as [H1 H2]. apply Z.leb_le in H1 as ->. by apply Z.leb_le in H2 as ->.
  - destruct (dec_digits_head 20 n) as (a & l & Hd & Ha); [lia|lia|].
    assert (Hv : digits_val 0 (a :: l) = Some n) by (rewrite <-Hd; apply dec_digits_val; lia). rewrite Hd.
    destruct a as [[] [] [] [] [] [] [] []]; try discriminate Ha; cbv beta iota zeta; rewrite Hv;
      destruct Hn as [H1 H2]; apply Z.leb_le in H1 as ->; by apply Z.leb_le in H2 as ->.
Qed.

Example itoa_cases : Itoa <$> [0; 7; 53; 65535; -12; max_int64; min_int64]
  = ["0"; "7"; "53"; "65535"; "-12"; "9223372036854775807"; "-9223372036854775808"].
Proof. vm_compute. done. Qed.

Example join_host_port : JoinHostPort "::1" "853" = "[::1]:853" ∧ JoinHostPort "9.9.9.9" "853" = "9.9.9.9:853".
Proof. done. Qed.
