(* ===== verification/GoStrconv.v ===== *)
(** * Parsing and quoting of values (package strconv)

    [ParseBool] and [ParseInt] with base 0, as the flag package uses them, and
    [Quote] (the verb %q).  Whether a code point above U+00FF is printable is
    decided by the Unicode tables, an argument of [Quote]. *)

From S2P Require Import Prelude GoStrings GoNet GoFmt.
From Stdlib Require Import Ascii String.
Open Scope string_scope.
Open Scope list_scope.
Open Scope Z_scope.

(** ** Booleans *)

Definition ParseBool (s : string) : option bool :=
  if bool_decide (s ∈ ["1"; "t"; "T"; "true"; "TRUE"; "True"]) then Some true
  else if bool_decide (s ∈ ["0"; "f"; "F"; "false"; "FALSE"; "False"]) then Some false
  else None.

(** ** Integers *)

Inductive num_error := ErrSyntax | ErrRange.

Definition code (a : ascii) : Z := Z.of_nat (nat_of_ascii a).

(** [lower] of the package: the bit 0x20 is set. *)
Definition lower_is (a c : ascii) : bool := Z.lor (code a) 32 =? code c.

(** The value of a digit in bases up to 36. *)
Definition digit36 (a : ascii) : option Z :=
  if is_digit a then Some (code a - 48)
  else let l := Z.lor (code a) 32 in if (97 <=? l) && (l <=? 122) then Some (l - 97 + 10) else None.

Definition max_uint64 : Z := 2 ^ 64 - 1.

(** The loop of [ParseUint] with base 0; the flag says whether an underscore was seen. *)
Fixpoint uint_loop (base n : Z) (under : bool) (l : list ascii) : result (Z * bool) num_error :=
  match l with
  | [] => Ok (n, under)
  | c :: l' =>
      if Ascii.eqb c "_" then uint_loop base n true l' else
      match digit36 c with
      | None => Err ErrSyntax
      | Some d =>
          if d >=? base then Err ErrSyntax else
          if n >=? max_uint64 / base + 1 then Err ErrRange else
          if n * base + d >? max_uint64 then Err ErrRange else uint_loop base (n * base + d) under l'
      end
  end.

(** [underscoreOK] after the sign: what was seen last, if the prefix was that of a
    hexadecimal number, over the rest. *)
Inductive last_seen := SawStart | SawDigit | SawUnder | SawOther.
#[export] Instance last_seen_eq : EqDecision last_seen. Proof. solve_decision. Defined.

Fixpoint underscore_loop (hex : bool) (saw : last_seen) (l : list ascii) : bool :=
  match l with
  | [] => negb (bool_decide (saw = SawUnder))
  | c :: l' =>
      if is_digit c || (hex && (let x := Z.lor (code c) 32 in (97 <=? x) && (x <=? 102))) then underscore_loop hex SawDigit l' else
      if Ascii.eqb c "_" then if bool_decide (saw = SawDigit) then underscore_loop hex SawUnder l' else false
      else if bool_decide (saw = SawUnder) then false else underscore_loop hex SawOther l'
  end.

Definition underscoreOK (l : list ascii) : bool :=
  match l with
  | z :: b :: l' =>
      if Ascii.eqb z "0" && (lower_is b "b" || lower_is b "o" || lower_is b "x")
      then underscore_loop (lower_is b "x") SawDigit l' else underscore_loop false SawStart l
  | _ => underscore_loop false SawStart l
  end.

(** The base and the digits that a prefix leaves. *)
Definition split_base (l : list ascii) : Z * list ascii :=
  match l with
  | z :: l' =>
      if Ascii.eqb z "0" then
        match l' with
        | b :: (_ :: _) as digits =>
            if lower_is b "b" then (2, digits) else if lower_is b "o" then (8, digits)
            else if lower_is b "x" then (16, digits) else (8, l')
        | _ => (8, l')
        end
      else (10, l)
  | [] => (10, [])
  end.

Definition ParseUint0 (l : list ascii) : result Z num_error :=
  match l with
  | [] => Err ErrSyntax
  | _ =>
      let '(base, digits) := split_base l in
      match uint_loop base 0 false digits with
      | Err e => Err e
      | Ok (n, under) => if under && negb (underscoreOK l) then Err ErrSyntax else Ok n
      end
  end.

(** [strconv.ParseInt(s, 0, 64)]. *)
Definition ParseInt0 (s : string) : result Z num_error :=
  match schars s with
  | [] => Err ErrSyntax
  | c :: l =>
      let neg := Ascii.eqb c "-" in
      let digits := if neg || Ascii.eqb c "+" then l else c :: l in
      match ParseUint0 digits with
      | Err e => Err e
      | Ok un =>
          if negb neg && (un >=? 2 ^ 63) then Err ErrRange else
          if neg && (un >? 2 ^ 63) then Err ErrRange else
          Ok (if neg then - un else un)
      end
  end.

Example parse_int_cases :
  ParseInt0 <$> ["0"; "7"; "-1"; "+3"; "0x1F"; "0b101"; "0o17"; "017"; "1_000"; "9223372036854775808"; "-9223372036854775808";
                 ""; "-"; "1__0"; "_1"; "08"; "abc"; "0x"; "0_1"]
  = [Ok 0; Ok 7; Ok (-1); Ok 3; Ok 31; Ok 5; Ok 15; Ok 15; Ok 1000; Err ErrRange; Ok (-9223372036854775808);
     Err ErrSyntax; Err ErrSyntax; Err ErrSyntax; Err ErrSyntax; Err ErrSyntax; Err ErrSyntax; Err ErrSyntax; Ok 1].
Proof. vm_compute. done. Qed.

(** ** Quoting *)

(** The continuation bytes of a code point. *)
Definition cont (lo hi : Z) (a : ascii) : bool := (lo <=? code a) && (code a <=? hi).

(** [utf8.DecodeRuneInString]: the code point and the bytes it takes; [None] for an
    invalid byte. *)
Definition DecodeRune (l : list ascii) : option (Z * nat) :=
  match l with
  | [] => None
  | a :: l' =>
      let c := code a in
      let tail := λ b : ascii, Z.land (code b) 63 in
      if c <? 128 then Some (c, 1%nat) else
      if (194 <=? c) && (c <=? 223) then
        match l' with
        | b :: _ => if cont 128 191 b then Some (Z.land c 31 * 64 + tail b, 2%nat) else None
        | _ => None
        end
      else if (224 <=? c) && (c <=? 239) then
        match l' with
        | b1 :: b2 :: _ =>
            if cont (if c =? 224 then 160 else 128) (if c =? 237 then 159 else 191) b1 && cont 128 191 b2
            then Some (Z.land c 15 * 4096 + tail b1 * 64 + tail b2, 3%nat) else None
        | _ => None
        end
      else if (240 <=? c) && (c <=? 244) then
        match l' with
        | b1 :: b2 :: b3 :: _ =>
            if cont (if c =? 240 then 144 else 128) (if c =? 244 then 143 else 191) b1 && cont 128 191 b2 && cont 128 191 b3
            then Some (Z.land c 7 * 262144 + tail b1 * 4096 + tail b2 * 64 + tail b3, 4%nat) else None
        | _ => None
        end
      else None
  end.

(** [utf8.RuneCountInString]: an invalid byte counts as one.  Every round consumes a
    byte. *)
Fixpoint rune_count (fuel : nat) (l : list ascii) : nat :=
  match fuel, l with
  | S fuel', _ :: _ => S (rune_count fuel' (drop (match DecodeRune l with Some (_, w) => w | None => 1%nat end) l))
  | _, _ => O
  end.
Definition RuneCount (s : string) : nat := rune_count (String.length s) (schars s).

Definition hex_digit (d : Z) : ascii := if d <? 10 then digit_char d else ascii_of_nat (Z.to_nat (87 + d)).

(** The last [n] hexadecimal digits, most significant first. *)
Fixpoint hex_digits (n : nat) (z : Z) : list ascii :=
  match n with
  | O => []
  | S n' => hex_digit (Z.land (Z.shiftr z (4 * Z.of_nat n')) 15) :: hex_digits n' z
  end.

Section Quote.
Context (printable : Z → bool).

Definition IsPrint (r : Z) : bool :=
  if r <=? 255 then ((32 <=? r) && (r <? 127)) || ((161 <=? r) && negb (r =? 173)) else printable r.

(** [appendEscapedRune] for a valid code point with its bytes. *)
Definition escape_rune (r : Z) (bytes : list ascii) : list ascii :=
  if (r =? 34) || (r =? 92) then "\"%char :: bytes else
  if IsPrint r then bytes else
  if r =? 7 then ["\"; "a"]%char else if r =? 8 then ["\"; "b"]%char else if r =? 12 then ["\"; "f"]%char else
  if r =? 10 then ["\"; "n"]%char else if r =? 13 then ["\"; "r"]%char else if r =? 9 then ["\"; "t"]%char else
  if r =? 11 then ["\"; "v"]%char else
  if (r <? 32) || (r =? 127) then "\"%char :: "x"%char :: hex_digits 2 r else
  if r <? 65536 then "\"%char :: "u"%char :: hex_digits 4 r else "\"%char :: "U"%char :: hex_digits 8 r.

(** The loop of [appendQuotedWith]; every round consumes a byte, so the length of the
    string is enough fuel. *)
Fixpoint quote_loop (fuel : nat) (l : list ascii) : list ascii :=
  match fuel, l with
  | S fuel', a :: l' =>
      match DecodeRune l with
      | None => "\"%char :: "x"%char :: hex_digits 2 (code a) ++ quote_loop fuel' l'
      | Some (r, w) => escape_rune r (take w l) ++ quote_loop fuel' (drop w l)
      end
  | _, _ => []
  end.

Definition Quote (s : string) : string :=
  of_chars ("034"%char :: quote_loop (String.length s) (schars s) ++ ["034"%char]).

End Quote.

(** ** What is printed can be read *)

Lemma is_digit_digit36 a : is_digit a = true → digit36 a = Some (digit_val a) ∧ 0 ≤ digit_val a < 10 ∧ Ascii.eqb a "_" = false.
Proof.
  unfold digit36. intros H. rewrite H. unfold code, digit_val.
  assert (Ascii.eqb a "_" = false) as -> by (apply Ascii.eqb_neq; by intros ->).
  unfold is_digit, in_range in H. apply andb_true_iff in H as [H1%Nat.leb_le H2%Nat.leb_le].
  split_and!; [done|lia|lia|done].
Qed.

Lemma digits_val_le l acc v : 0 ≤ acc → digits_val acc l = Some v → acc ≤ v.
Proof.
  revert acc. induction l as [|a l IH]; intros acc Ha; simpl; [intros [= <-]; lia|]. destruct (is_digit a) eqn:E; [|done].
  apply is_digit_digit36 in E as (_ & Hd & _). intros Hv%IH; lia.
Qed.

(** In base 10 the loop computes the value of the digits. *)
Lemma uint_loop_dec l n v : 0 ≤ n → digits_val n l = Some v → v ≤ max_uint64 → uint_loop 10 n false l = Ok (v, false).
Proof.
  revert n. induction l as [|a l IH]; intros n Hn; cbn [digits_val uint_loop]; [by intros [= <-]|].
  destruct (is_digit a) eqn:E; [|done]. apply is_digit_digit36 in E as (-> & Hd & ->). intros H Hv.
  assert (n * 10 + digit_val a ≤ v) by (eapply digits_val_le; [|done]; lia).
  assert ((digit_val a >=? 10) = false) as -> by (rewrite Z.geb_leb; apply Z.leb_gt; lia).
  assert ((n >=? max_uint64 / 10 + 1) = false) as ->.
  { rewrite Z.geb_leb. apply Z.leb_gt. unfold max_uint64 in *. Z.div_mod_to_equations. lia. }
  assert ((n * 10 + digit_val a >? max_uint64) = false) as -> by (rewrite Z.gtb_ltb; apply Z.ltb_ge; lia).
  apply IH; [lia|done|done].
Qed.

Lemma dec_digits_nonzero fuel n : 0 < n < 10 ^ Z.of_nat fuel →
  ∃ a l, dec_digits fuel n = a :: l ∧ is_digit a = true ∧ Ascii.eqb a "0" = false.
Proof.
  revert n. induction fuel as [|fuel IH]; intros n Hn; [cbn in Hn; lia|]. rewrite Nat2Z.inj_succ, Z.pow_succ_r in Hn by lia.
  cbn [dec_digits]. destruct (n <? 10) eqn:E; bool_prop.
  - exists (digit_char n), []. destruct (digit_char_spec n) as [H1 H2]; [lia|]. split_and!; [done|done|].
    apply Ascii.eqb_neq. intros Ha. rewrite Ha in H2. change (digit_val "0") with 0 in H2. lia.
  - destruct (IH (n / 10)) as (a & l & -> & H1 & H2); [Z.div_mod_to_equations; lia|]. by exists a, (l ++ [digit_char (n mod 10)]).
Qed.

(** A number that is printed without a sign is read as decimal. *)
Lemma ParseUint0_dec n : 0 ≤ n ≤ 2 ^ 63 → ParseUint0 (dec_digits 20 n) = Ok n.
Proof.
  intros Hn. destruct (decide (n = 0)) as [->|Hz]; [done|].
  pose proof (dec_digits_val 20 n ltac:(lia)) as Hv. destruct (dec_digits_nonzero 20 n ltac:(lia)) as (a & l & E & Ha & H0).
  unfold ParseUint0. rewrite E in *. cbn [split_base]. rewrite H0.
  by rewrite (uint_loop_dec _ 0 n ltac:(lia) Hv ltac:(unfold max_uint64; lia)).
Qed.

(** A printed 64-bit integer is read back. *)
Lemma ParseInt0_Itoa n : in_int64 n → ParseInt0 (Itoa n) = Ok n.
Proof.
  unfold in_int64, min_int64, max_int64. intros Hn. unfold ParseInt0, Itoa. rewrite schars_of_chars. destruct (n <? 0) eqn:E; bool_prop.
  - change (Ascii.eqb "-" "-") with true. cbn [orb negb andb]. rewrite ParseUint0_dec by lia.
    assert ((- n >? 2 ^ 63) = false) as -> by (rewrite Z.gtb_ltb; apply Z.ltb_ge; lia). f_equal. lia.
  - destruct (dec_digits_head 20 n) as (a & l & Hd & Ha); [lia|lia|]. rewrite Hd.
    assert (Ascii.eqb a "-" = false) as -> by (apply Ascii.eqb_neq; by intros ->).
    assert (Ascii.eqb a "+" = false) as -> by (apply Ascii.eqb_neq; by intros ->).
    cbn [orb negb andb]. rewrite <-Hd, ParseUint0_dec by lia.
    assert ((n >=? 2 ^ 63) = false) as -> by (rewrite Z.geb_leb; apply Z.leb_gt; lia). done.
Qed.

Lemma ParseBool_true : ParseBool "true" = Some true.
Proof. done. Qed.

(** ** A quoted string stays on its line *)

(** No control character. *)
Definition clean (a : ascii) : Prop := 32 ≤ code a ∧ code a ≠ 127.

Lemma hex_digits_clean n z : Forall clean (hex_digits n z).
Proof.
  induction n as [|n IH]; cbn [hex_digits]; [constructor|]. constructor; [|done].
  assert (H : 0 ≤ Z.land (Z.shiftr z (4 * Z.of_nat n)) 15 < 16).
  { change 15 with (Z.ones 4). rewrite Z.land_ones by lia. apply Z.mod_pos_bound. lia. }
  unfold clean, hex_digit, digit_char, code. destruct (_ <? 10) eqn:E; bool_prop; rewrite nat_ascii_embedding by lia; lia.
Qed.

Lemma code_lt a : 0 ≤ code a < 256.
Proof. unfold code. pose proof (nat_ascii_bounded a). lia. Qed.

Lemma land_low n c : 0 ≤ n → Z.land c (Z.ones n) = c mod 2 ^ n.
Proof. intros. by apply Z.land_ones. Qed.

Lemma cont_high lo hi a : 128 ≤ lo → hi ≤ 191 → cont lo hi a = true → 128 ≤ code a ∧ lo ≤ code a ≤ 191.
Proof. unfold cont. intros ? ? H. bool_prop. lia. Qed.

Ltac high_bytes :=
  bool_prop; repeat match goal with
  | H : cont _ _ _ = true |- _ => apply cont_high in H; [|repeat case_match; lia..]
  end.

(** A code point below 128 is one byte; the bytes of the others are all above. *)
Lemma DecodeRune_bytes l r w : DecodeRune l = Some (r, w) → (1 ≤ w)%nat ∧
  ((∃ a l', l = a :: l' ∧ r = code a ∧ w = 1%nat) ∨ (128 ≤ r ∧ Forall (λ a, 128 ≤ code a) (take w l))).
Proof.
  destruct l as [|a l]; [done|]. cbn [DecodeRune]. pose proof (code_lt a).
  destruct (code a <? 128) eqn:E1; [intros [= <- <-]; split; [lia|]; left; by exists a, l|]. bool_prop.
  change 63 with (Z.ones 6); change 31 with (Z.ones 5); change 15 with (Z.ones 4); change 7 with (Z.ones 3). rewrite !land_low by lia.
  destruct ((194 <=? code a) && (code a <=? 223)) eqn:E2.
  { destruct l as [|b l]; [done|]. destruct (cont _ _ b) eqn:Hb; [|done]. intros [= <- <-]. high_bytes.
    split; [lia|]. right. rewrite land_low by lia. split; [Z.div_mod_to_equations; lia|]. repeat constructor; lia. }
  destruct ((224 <=? code a) && (code a <=? 239)) eqn:E3.
  { destruct l as [|b1 [|b2 l]]; [done..|]. destruct (cont _ _ b1 && cont _ _ b2) eqn:Hb; [|done]. intros [= <- <-].
    apply andb_true_iff in Hb as [Hb Hb2]. high_bytes.
    split; [lia|]. right. rewrite !land_low by lia. split; [|repeat constructor; lia].
    revert Hb; destruct (code a =? 224) eqn:Ea; intros Hb; bool_prop; Z.div_mod_to_equations; lia. }
  destruct ((240 <=? code a) && (code a <=? 244)) eqn:E4; [|done].
  destruct l as [|b1 [|b2 [|b3 l]]]; [done..|]. destruct (_ && cont _ _ b3) eqn:Hb; [|done]. intros [= <- <-].
  apply andb_true_iff in Hb as [[Hb Hb2]%andb_true_iff Hb3]. high_bytes.
  split; [lia|]. right. rewrite !land_low by lia. split; [|repeat constructor; lia].
  revert Hb; destruct (code a =? 240) eqn:Ea; intros Hb; bool_prop; Z.div_mod_to_equations; lia.
Qed.

Section QuoteProps.
Context (printable : Z → bool).

Lemma escape_rune_clean l r w : DecodeRune l = Some (r, w) → Forall clean (escape_rune printable r (take w l)).
Proof.
  intros H%DecodeRune_bytes. destruct H as [_ [(a & l' & -> & -> & ->)|[Hr Hf]]]; unfold escape_rune.
  - cbn [take]. rewrite take_0. destruct ((code a =? 34) || (code a =? 92)) eqn:E1.
    { constructor; [done|]. constructor; [|constructor]. unfold clean. apply orb_true_iff in E1 as [E1|E1]; bool_prop; lia. }
    unfold IsPrint. rewrite (proj2 (Z.leb_le _ _)) by (pose proof (code_lt a); lia).
    destruct ((32 <=? code a) && (code a <? 127) || (161 <=? code a) && negb (code a =? 173)) eqn:E2.
    { constructor; [|constructor]. unfold clean. apply orb_true_iff in E2 as [E2|E2]; bool_prop; lia. }
    repeat case_match; repeat first [done|apply hex_digits_clean|constructor].
  - assert (Hc : Forall clean (take w l)) by (eapply Forall_impl; [done|]; cbn; intros a ?; unfold clean; lia).
    repeat case_match; repeat first [done|apply hex_digits_clean|constructor].
Qed.

Lemma quote_loop_clean fuel l : Forall clean (quote_loop printable fuel l).
Proof.
  revert l. induction fuel as [|fuel IH]; intros [|a l]; cbn [quote_loop]; try constructor.
  destruct (DecodeRune (a :: l)) as [[r w]|] eqn:E.
  - apply Forall_app. split; [by apply escape_rune_clean|apply IH].
  - repeat (constructor; [done|]). apply Forall_app. split; [apply hex_digits_clean|apply IH].
Qed.

(** A quoted string holds no control character. *)
Lemma Quote_clean s : Forall clean (schars (Quote printable s)).
Proof.
  unfold Quote. rewrite schars_of_chars. constructor; [done|]. apply Forall_app. split; [apply quote_loop_clean|by repeat constructor].
Qed.

(** Plain text is quoted as it is. *)
Lemma Quote_plain s : Forall (λ a, 32 ≤ code a < 127 ∧ a ≠ "034"%char ∧ a ≠ "\"%char) (schars s) →
  Quote printable s = of_chars ["034"%char] +:+ s +:+ of_chars ["034"%char].
Proof.
  intros H. unfold Quote. enough (quote_loop printable (String.length s) (schars s) = schars s) as ->.
  { cbn. by rewrite of_chars_app, of_chars_schars. }
  induction s as [|a s IH]; [done|]. inversion_clear H as [|? ? (Hr & H1 & H2) Hf]. cbn [schars String.length quote_loop].
  assert (DecodeRune (a :: schars s) = Some (code a, 1%nat)) as -> by (cbn; by rewrite (proj2 (Z.ltb_lt _ _)) by lia).
  cbn [take drop]. rewrite take_0, drop_0, (IH Hf). unfold escape_rune, IsPrint.
  assert (Hne : ∀ b, a ≠ b → (code a =? code b) = false).
  { intros b Hb. apply Z.eqb_neq. unfold code. intros E%Nat2Z.inj. apply Hb. by rewrite <-(ascii_nat_embedding a), E, ascii_nat_embedding. }
  rewrite (Hne "034"%char H1 : (code a =? 34) = false), (Hne "\"%char H2 : (code a =? 92) = false).
  rewrite (proj2 (Z.leb_le _ 255)), (proj2 (Z.leb_le 32 _)), (proj2 (Z.ltb_lt _ 127)) by lia. done.
Qed.

End QuoteProps.
