(* ===== verification/GoFloat.v ===== *)
(** * Floating point (float64, the verb %.1f of fmt, time.Duration.Hours)

    A float64 is a [spec_float] with a precision of 53 bits, and its operations are
    those of IEEE 754 with rounding to nearest even.  Printing with one decimal
    rounds the exact value of the number, ties to even, as strconv does. *)

From S2P Require Import Prelude GoStrings GoNet GoFmt.
From Stdlib Require Import Ascii String SpecFloat.
Open Scope string_scope.
Open Scope list_scope.
Open Scope Z_scope.

Definition float64 : Type := spec_float.
Definition prec64 : Z := 53.
Definition emax64 : Z := 1024.

Definition fdiv : float64 → float64 → float64 := SFdiv prec64 emax64.
Definition fmul : float64 → float64 → float64 := SFmul prec64 emax64.
Definition fadd : float64 → float64 → float64 := SFadd prec64 emax64.

(** The conversion of an integer. *)
Definition float_of (n : Z) : float64 := binary_normalize prec64 emax64 n 0 false.

(** The quotient of two positive integers, to the nearest integer, ties to even. *)
Definition div_even (a b : Z) : Z :=
  let q := a / b in
  match 2 * (a mod b) ?= b with
  | Lt => q
  | Gt => q + 1
  | Eq => if Z.even q then q else q + 1
  end.

(** The number of tenths of [m * 2 ^ e]. *)
Definition tenths (m e : Z) : Z := if 0 <=? e then m * 2 ^ e * 10 else div_even (m * 10) (2 ^ (- e)).

(** [fmt.Sprintf("%.1f", x)]. *)
Definition format1 (x : float64) : string :=
  let sign (s : bool) := if s then "-" else "" in
  match x with
  | S754_zero s => sign s +:+ "0.0"
  | S754_infinity s => if s then "-Inf" else "+Inf"
  | S754_nan => "NaN"
  | S754_finite s m e => let n := tenths (Z.pos m) e in sign s +:+ Itoa (n / 10) +:+ "." +:+ Itoa (n mod 10)
  end.

(** The conversion of a float64 to int: toward zero. *)
Definition trunc (x : float64) : Z :=
  match x with
  | S754_finite s m e =>
      let n := if 0 <=? e then Z.pos m * 2 ^ e else Z.pos m / 2 ^ (- e) in if s then - n else n
  | _ => 0
  end.

(** [time.Duration.Hours]. *)
Definition Hours (d : Z) : float64 :=
  let hour := 3600 * second in
  fadd (float_of (Z.quot d hour)) (fdiv (float_of (Z.rem d hour)) (float_of hour)).

(** [math.Max(0, x)] for a number. *)
Definition max0 (x : float64) : float64 :=
  match x with S754_finite true _ _ | S754_infinity true => S754_zero false | S754_zero _ => S754_zero false | _ => x end.

(** [int(math.Max(0, d.Hours()/24))]. *)
Definition whole_days (d : Z) : Z := trunc (max0 (fdiv (Hours d) (float_of 24))).

(** [fmt.Sprintf("%.1f", float64(num)/float64(den)*100)] and
    [fmt.Sprintf("%.1f", float64(us)/1000000)]. *)
Definition percent1 (num den : Z) : string := format1 (fmul (fdiv (float_of num) (float_of den)) (float_of 100)).
Definition seconds1 (us : Z) : string := format1 (fdiv (float_of us) (float_of 1000000)).

Example percent_cases :
  (percent1 1 3, percent1 2 3, percent1 1 1, percent1 0 7, percent1 1 1000, percent1 1 2000, percent1 (-1) 3, percent1 9007199254740993 9007199254740992)
  = ("33.3", "66.7", "100.0", "0.0", "0.1", "0.1", "-33.3", "100.0").
Proof. vm_compute. done. Qed.

(** A tie goes to the even digit; 2.65 is below the tie in binary. *)
Example seconds_cases : seconds1 <$> [1250000; 1750000; 1000000; 2650000; 12345678; 999949999]
  = ["1.2"; "1.8"; "1.0"; "2.6"; "12.3"; "999.9"].
Proof. vm_compute. done. Qed.

Example days_cases : whole_days <$> [90 * 24 * 3600 * second; 90 * 24 * 3600 * second - 1; -5; 3600 * second; max_int64]
  = [90; 89; 0; 0; 106751].
Proof. vm_compute. done. Qed.
