(* ===== verification/GoFlag.v ===== *)
(** * Command line flags (package flag)

    A set of declared flags with their values, [Parse] with the grammar of the
    package, the messages of its errors and the usage text. *)

From S2P Require Import Prelude GoStrings GoNet GoFmt GoStrconv.
From Stdlib Require Import Ascii String.
Open Scope string_scope.
Open Scope list_scope.
Open Scope Z_scope.

Inductive FlagValue := FBool (b : bool) | FInt (n : Z) | FString (s : string).
#[export] Instance FlagValue_eq : EqDecision FlagValue. Proof. solve_decision. Defined.

Record FlagDef := mkFlagDef { fd_name : string; fd_default : FlagValue; fd_usage : string }.

(** The values of the declared flags. *)
Abbreviation Values := (gmap string FlagValue).

Definition initial (defs : list FlagDef) : Values := list_to_map ((λ d, (fd_name d, fd_default d)) <$> defs).

Inductive flag_error :=
| EBadSyntax (arg : string)
| EUndefined (name : string)
| EHelp
| EBadBool (value name : string)
| ENeedsArgument (name : string)
| EBadValue (value name : string) (e : num_error).

(** [Value.Set] of the three kinds of flags. *)
Definition Set_ (cur : FlagValue) (name value : string) : result FlagValue flag_error :=
  match cur with
  | FBool _ => match ParseBool value with Some b => Ok (FBool b) | None => Err (EBadBool value name) end
  | FInt _ => match ParseInt0 value with Ok n => Ok (FInt n) | Err e => Err (EBadValue value name e) end
  | FString _ => Ok (FString value)
  end.

(** What an argument is: the text of a flag after its dashes, the terminator, or the
    first positional argument. *)
Inductive arg_kind := ANotFlag | ATerminator | ABad | AFlag (name : string) (value : option string).

Definition split_value (name : string) : string * option string :=
  match name with
  | "" => ("", None)
  | String c t => match Cut t "=" with None => (name, None) | Some (a, v) => (String c a, Some v) end
  end.

Definition flag_text (name : string) : arg_kind :=
  match name with
  | "" => ABad
  | String c _ => if Ascii.eqb c "-" || Ascii.eqb c "=" then ABad else let '(n, v) := split_value name in AFlag n v
  end.

Definition classify (s : string) : arg_kind :=
  match s with
  | String c1 (String c2 t) =>
      if negb (Ascii.eqb c1 "-") then ANotFlag else
      if Ascii.eqb c2 "-" then if String.eqb t "" then ATerminator else flag_text t
      else flag_text (String c2 t)
  | _ => ANotFlag
  end.

(** [FlagSet.Parse]: the values and the arguments after the flags. *)
Fixpoint Parse (vals : Values) (args : list string) : result (Values * list string) flag_error :=
  match args with
  | [] => Ok (vals, [])
  | s :: rest =>
      match classify s with
      | ANotFlag => Ok (vals, args)
      | ATerminator => Ok (vals, rest)
      | ABad => Err (EBadSyntax s)
      | AFlag name value =>
          match vals !! name with
          | None => Err (if String.eqb name "help" || String.eqb name "h" then EHelp else EUndefined name)
          | Some (FBool _ as cur) =>
              match Set_ cur name (default "true" value) with
              | Err e => Err e
              | Ok v => Parse (<[name := v]> vals) rest
              end
          | Some cur =>
              match value, rest with
              | Some value, _ =>
                  match Set_ cur name value with Err e => Err e | Ok v => Parse (<[name := v]> vals) rest end
              | None, value :: rest' =>
                  match Set_ cur name value with Err e => Err e | Ok v => Parse (<[name := v]> vals) rest' end
              | None, [] => Err (ENeedsArgument name)
              end
          end
      end
  end.

(** ** Messages *)

Definition newline : string := String "010" "".

Section Messages.
Context (quote : string → string).

Definition num_text (e : num_error) : string := match e with ErrSyntax => "parse error" | ErrRange => "value out of range" end.

(** [failf]; the request for help has no message. *)
Definition fail_text (e : flag_error) : string :=
  match e with
  | EBadSyntax s => "bad flag syntax: " +:+ s +:+ newline
  | EUndefined name => "flag provided but not defined: -" +:+ name +:+ newline
  | EHelp => ""
  | EBadBool value name => "invalid boolean value " +:+ quote value +:+ " for -" +:+ name +:+ ": parse error" +:+ newline
  | ENeedsArgument name => "flag needs an argument: -" +:+ name +:+ newline
  | EBadValue value name e => "invalid value " +:+ quote value +:+ " for flag -" +:+ name +:+ ": " +:+ num_text e +:+ newline
  end.

(** The entry of a flag in [PrintDefaults], for usages without back quotes and line
    breaks. *)
Definition default_text (d : FlagDef) : string :=
  let head := "  -" +:+ fd_name d +:+ match fd_default d with FBool _ => "" | FInt _ => " int" | FString _ => " string" end in
  head +:+ (if (String.length head <=? 4)%nat then of_chars ["009"%char] else newline +:+ "    " +:+ of_chars ["009"%char]) +:+ fd_usage d +:+
  match fd_default d with
  | FBool b => if b then " (default true)" else ""
  | FInt n => if n =? 0 then "" else " (default " +:+ Itoa n +:+ ")"
  | FString s => if String.eqb s "" then "" else " (default " +:+ quote s +:+ ")"
  end +:+ newline.

(** The flags in the order of their names. *)
Fixpoint insert_flag (d : FlagDef) (l : list FlagDef) : list FlagDef :=
  match l with
  | [] => [d]
  | d' :: l' => if String.ltb (fd_name d) (fd_name d') then d :: l else d' :: insert_flag d l'
  end.

Definition usage_text (program : string) (defs : list FlagDef) : string :=
  "Usage of " +:+ program +:+ ":" +:+ newline +:+ Join (default_text <$> foldr insert_flag [] defs) "".

End Messages.

(** ** What is written is what is set *)

(** A name that can be declared. *)
Definition good_name (name : string) : Prop :=
  match name with
  | "" => False
  | String c _ => c ≠ "-"%char ∧ ContainsByte name "=" = false
  end.

Definition show_value (v : FlagValue) : string :=
  match v with FBool b => if b then "true" else "false" | FInt n => Itoa n | FString s => s end.

Definition same_kind (u v : FlagValue) : Prop :=
  match u, v with
  | FBool _, FBool _ | FString _, FString _ => True
  | FInt _, FInt n => in_int64 n
  | _, _ => False
  end.

(** The ways to write a flag: one dash or two, the value after an equals sign or as the
    next argument; a boolean flag is true without one. *)
Inductive spells (name : string) (v : FlagValue) : list string → Prop :=
| sp_equals d : d ∈ ["-"; "--"] → spells name v [d +:+ name +:+ "=" +:+ show_value v]
| sp_bare d : d ∈ ["-"; "--"] → v = FBool true → spells name v [d +:+ name]
| sp_next d : d ∈ ["-"; "--"] → (∀ b, v ≠ FBool b) → spells name v [d +:+ name; show_value v].

Lemma Cut_absent s c : ContainsByte s c = false → Cut s c = None.
Proof.
  induction s as [|a s IH]; [done|]. rewrite ContainsByte_cons. intros [H1 H2]%orb_false_iff. cbn. by rewrite H1, IH.
Qed.

Lemma Cut_first s t c : ContainsByte s c = false → Cut (s +:+ String c t) c = Some (s, t).
Proof.
  induction s as [|a s IH]; cbn; [intros _; by rewrite Ascii.eqb_refl|].
  intros [H1 H2]%orb_false_iff. by rewrite H1, IH.
Qed.

Lemma good_text name tail : good_name name →
  flag_text (name +:+ tail) = let '(n, v) := split_value (name +:+ tail) in AFlag n v.
Proof.
  destruct name as [|c t]; [done|]. intros [Hc He]. cbn.
  apply Ascii.eqb_neq in Hc as ->. rewrite ContainsByte_cons, Ascii.eqb_sym in He. apply orb_false_iff in He as [-> _]. done.
Qed.

Lemma classify_dash d name tail : d ∈ ["-"; "--"] → good_name name →
  classify (d +:+ name +:+ tail) = flag_text (name +:+ tail).
Proof.
  intros Hd Hn. destruct name as [|c t]; [done|]. destruct Hn as [Hc _]. apply Ascii.eqb_neq in Hc.
  rewrite elem_of_cons, list_elem_of_singleton in Hd. destruct Hd as [-> | ->]; cbn; [by rewrite Hc|done].
Qed.

Lemma classify_bare d name : d ∈ ["-"; "--"] → good_name name → classify (d +:+ name) = AFlag name None.
Proof.
  intros Hd Hn. rewrite <-(sapp_nil_r name) at 1. rewrite classify_dash, good_text, sapp_nil_r by done.
  destruct name as [|c t]; [done|]. destruct Hn as [_ He]. rewrite ContainsByte_cons in He. apply orb_false_iff in He as [_ He].
  unfold split_value. by rewrite Cut_absent.
Qed.

Lemma classify_equals d name value : d ∈ ["-"; "--"] → good_name name →
  classify (d +:+ name +:+ "=" +:+ value) = AFlag name (Some value).
Proof.
  intros Hd Hn. rewrite classify_dash, good_text by done. destruct name as [|c t]; [done|].
  destruct Hn as [_ He]. rewrite ContainsByte_cons in He. apply orb_false_iff in He as [_ He].
  cbn [split_value String.append]. by rewrite (Cut_first t value "=" He).
Qed.

Lemma Set_show u v name : same_kind u v → Set_ u name (show_value v) = Ok v.
Proof.
  destruct u as [b|n|s], v as [b'|n'|s']; cbn; try done; [by destruct b'|]. intros H. by rewrite ParseInt0_Itoa.
Qed.

(** One flag, however it is written, and whatever follows it. *)
Lemma Parse_one vals name u v args rest : vals !! name = Some u → same_kind u v → good_name name → spells name v args →
  Parse vals (args ++ rest) = Parse (<[name := v]> vals) rest.
Proof.
  intros Hu Hk Hn [d Hd|d Hd ->|d Hd Hb]; cbn [app Parse].
  - rewrite classify_equals, Hu by done. pose proof (Set_show u v name Hk) as Hs. destruct u; cbn [from_option]; unfold id; by rewrite Hs.
  - rewrite classify_bare, Hu by done. by destruct u.
  - rewrite classify_bare, Hu by done. pose proof (Set_show u v name Hk) as Hs. destruct u; [|by rewrite Hs..].
    destruct v; [|done..]. by destruct (Hb b0).
Qed.

Inductive written : list (string * FlagValue) → list string → Prop :=
| written_nil : written [] []
| written_cons name v args l rest : spells name v args → written l rest → written ((name, v) :: l) (args ++ rest).

Definition assign (vals : Values) (l : list (string * FlagValue)) : Values :=
  fold_left (λ m kv, <[fst kv := snd kv]> m) l vals.

Definition declared (vals : Values) (kv : string * FlagValue) : Prop :=
  good_name (fst kv) ∧ ∃ u, vals !! fst kv = Some u ∧ same_kind u (snd kv).

Lemma same_kind_trans u v w : same_kind u v → same_kind u w → same_kind v w.
Proof. destruct u, v, w; cbn; done. Qed.

Lemma declared_insert vals name v kv : declared vals (name, v) → declared vals kv → declared (<[name := v]> vals) kv.
Proof.
  intros [_ (u & Hu & Hk)] [Hn (u' & Hu' & Hk')]. split; [done|]. cbn [fst snd] in *. destruct (decide (name = fst kv)) as [->|Hne].
  - exists v. rewrite lookup_insert_eq. split; [done|]. rewrite Hu in Hu'. injection Hu' as ->. by eapply same_kind_trans.
  - exists u'. by rewrite lookup_insert_ne.
Qed.

(** A command line of flags sets each of them, in order; what follows is untouched. *)
Lemma Parse_written l args rest vals : written l args → Forall (declared vals) l →
  Parse vals (args ++ rest) = Parse (assign vals l) rest.
Proof.
  intros Hw. revert vals. induction Hw as [|name v args l more Hs Hw IH]; intros vals Hf; [done|].
  inversion_clear Hf as [|? ? Hd Hf']. pose proof Hd as [Hn (u & Hu & Hk)]. cbn [fst snd] in Hn, Hu, Hk.
  rewrite <-(assoc_L (++)), (Parse_one vals name u v args) by eassumption. rewrite IH; [reflexivity|].
  eapply Forall_impl; [exact Hf'|]. intros kv. by apply declared_insert.
Qed.

(** The first argument that is not a flag ends the parsing. *)
Lemma Parse_positional vals arg rest : classify arg = ANotFlag → Parse vals (arg :: rest) = Ok (vals, arg :: rest).
Proof. intros H. cbn. by rewrite H. Qed.

Lemma classify_positional arg : HasPrefix arg "-" = false → classify arg = ANotFlag.
Proof.
  destruct arg as [|c [|c' t]]; [done..|]. intros H. cbn. destruct (Ascii.eqb_spec c "-") as [->|]; [|done].
  pose proof (HasPrefix_app "-" (String c' t)) as H2. by rewrite <-H2.
Qed.
