(* ===== verification/GoTime.v ===== *)
(** * Calendar dates and [Time.Format] (package time)

    The civil date of an instant in UTC and the formatting of the layout
    elements rcvd uses.  An instant is a count of nanoseconds since 1970. *)

From S2P Require Import Prelude GoStrings GoNet GoFmt.
From Stdlib Require Import Ascii String.
Open Scope string_scope.
Open Scope list_scope.
Open Scope Z_scope.

(** ** The calendar *)

Definition day : Z := 86400 * second.

(** Day of the era of 400 years that starts on 1 March, to year of the era, month and day. *)
Definition civil_of_doe (doe : Z) : Z * Z * Z :=
  let yoe := (doe - doe / 1460 + doe / 36524 - doe / 146096) / 365 in
  let doy := doe - (365 * yoe + yoe / 4 - yoe / 100) in
  let mp := (5 * doy + 2) / 153 in
  let d := doy - (153 * mp + 2) / 5 + 1 in
  let m := if mp <? 10 then mp + 3 else mp - 9 in
  (yoe + (if m <=? 2 then 1 else 0), m, d).

(** Year, month and day of a day number. *)
Definition civil (days : Z) : Z * Z * Z :=
  let z := days + 719468 in
  let '(y, m, d) := civil_of_doe (z mod 146097) in
  (y + 400 * (z / 146097), m, d).

(** The day number of a date; days past the end of a month run into the next. *)
Definition days_of_civil (y m d : Z) : Z :=
  let y := y - (if m <=? 2 then 1 else 0) in
  let yoe := y mod 400 in
  let doy := (153 * (if m >? 2 then m - 3 else m + 9) + 2) / 5 + d - 1 in
  yoe * 365 + yoe / 4 - yoe / 100 + doy + 146097 * (y / 400) - 719468.

(** [t.AddDate(1, 0, 0)] in UTC. *)
Definition add_year (t : Z) : Z :=
  let '(y, m, d) := civil (t / day) in days_of_civil (y + 1) m d * day + t mod day.

(** ** Formatting *)

Definition zpad (w : nat) (n : Z) : string :=
  let s := Itoa n in of_chars (replicate (w - String.length s) "0"%char) +:+ s.

(** The elements of a layout, longest first, with the text they stand for. *)
Definition layout_chunks (t : Z) : list (string * string) :=
  let '(y, mo, d) := civil (t / day) in
  let s := t mod day / second in
  [ (".000000", "." +:+ zpad 6 (t mod second / 1000)); (".000", "." +:+ zpad 3 (t mod second / 1000000));
    ("2006", zpad 4 y); ("01", zpad 2 mo); ("02", zpad 2 d);
    ("15", zpad 2 (s / 3600)); ("04", zpad 2 (s / 60 mod 60)); ("05", zpad 2 (s mod 60)) ].

(** [t.UTC().Format(layout)]: everything that is not an element is copied. *)
Fixpoint format_at (fuel : nat) (t : Z) (layout : string) : string :=
  match fuel, layout with
  | S fuel', String a rest =>
      match List.find (λ c, HasPrefix layout (fst c)) (layout_chunks t) with
      | Some (c, text) => text +:+ format_at fuel' t (str_drop (String.length c) layout)
      | None => String a (format_at fuel' t rest)
      end
  | _, _ => ""
  end.

Definition Format (t : Z) (layout : string) : string := format_at (String.length layout) t layout.

(** ** Examples *)

Example format_examples :
  Format (1219065595 * second) "2006-01-02T15:04:05Z" = "2008-08-18T13:19:55Z" ∧
  Format (951782400 * second + 7654321) "2006-01-02T15:04:05.000000Z" = "2000-02-29T00:00:00.007654Z" ∧
  Format (-1) "2006-01-02T15:04:05.000Z" = "1969-12-31T23:59:59.999Z".
Proof. vm_compute. done. Qed.

Example add_year_examples :
  (λ d, civil (add_year (d * day) / day)) <$> [19782; 20454; 0] = [(2025, 3, 1); (2027, 1, 1); (1971, 1, 1)] ∧
  civil 19782 = (2024, 2, 29).
Proof. vm_compute. done. Qed.
