(* ===== verification/Logger.v ===== *)
(** * The logger (internal/logger/logger.go)

    Levels, the time stamp that [isoWriter] puts before each line, and the levelled
    methods.  The destination is a list of the chunks written to it, one per call of
    its Write method; the n-th write may fail. *)

From S2P Require Import Prelude GoStrings GoNet GoFmt GoTime.
From Stdlib Require Import Ascii String.
Open Scope string_scope.
Open Scope list_scope.
Open Scope Z_scope.

(** ** Definitions *)

Inductive Level := LevelDebug | LevelInfo | LevelWarn | LevelError.

Definition level_num (l : Level) : Z :=
  match l with LevelDebug => 0 | LevelInfo => 1 | LevelWarn => 2 | LevelError => 3 end.

Definition parseLevel (s : string) : Level :=
  let s := ToLower (TrimSpace s) in
  if String.eqb s "debug" then LevelDebug
  else if String.eqb s "warn" || String.eqb s "warning" then LevelWarn
  else if String.eqb s "error" then LevelError
  else LevelInfo.

Definition TimeLayout (precision : string) : string :=
  if String.eqb precision "ms" then "2006-01-02T15:04:05.000Z"
  else if String.eqb precision "us" then "2006-01-02T15:04:05.000000Z"
  else "2006-01-02T15:04:05Z".

(** The destination of the log. *)
Record Dest := mkDest { d_chunks : list string; d_ok : nat → bool }.

Definition dest_write (p : string) (d : Dest) : bool * Dest :=
  if d_ok d (List.length (d_chunks d)) then (true, mkDest (d_chunks d ++ [p]) (d_ok d)) else (false, d).

Definition stamp (layout : string) (now : Z) : string := Format now layout +:+ " ".

(** [isoWriter.Write]: whether it succeeded. *)
Definition Write (layout : string) (now : Z) (p : string) (d : Dest) : bool * Dest :=
  match dest_write (stamp layout now) d with
  | (false, d) => (false, d)
  | (true, d) => dest_write p d
  end.

Record Logger := mkLogger { lg_layout : string; lg_level : Level }.

Definition New (level timestamp : string) : Logger := mkLogger (TimeLayout timestamp) (parseLevel level).
Definition NewDefault : Logger := New "info" "second".

(** [log.Logger.Printf] with Lshortfile: the place of the call, the message and one
    line feed at the end. *)
Definition log_line (site msg : string) : string :=
  site +:+ ": " +:+ msg +:+ (if HasSuffix msg (String "010" "") then "" else String "010" "").

Definition Printf (l : Logger) (now : Z) (site msg : string) (d : Dest) : Dest :=
  snd (Write (lg_layout l) now (log_line site msg) d).

Definition Enabled (l : Logger) (lvl : Level) : bool := level_num lvl >=? level_num (lg_level l).

(** The call of Printf in each levelled method. *)
Definition site_of (lvl : Level) : string :=
  match lvl with
  | LevelDebug => "logger.go:148" | LevelInfo => "logger.go:155"
  | LevelWarn => "logger.go:162" | LevelError => "logger.go:169"
  end.

(** [Debugf], [Infof], [Warnf] and [Errorf]. *)
Definition Logf (lvl : Level) (l : Logger) (now : Z) (msg : string) (d : Dest) : Dest :=
  if Enabled l lvl then Printf l now (site_of lvl) msg d else d.

(** ** What the log holds *)

Record call := mkCall { k_level : Level; k_now : Z; k_msg : string }.

Definition run_calls (l : Logger) (cs : list call) (d : Dest) : Dest :=
  fold_left (λ d c, Logf (k_level c) l (k_now c) (k_msg c) d) cs d.

(** The text a call leaves in the log. *)
Definition entry (l : Logger) (c : call) : list string :=
  [stamp (lg_layout l) (k_now c); log_line (site_of (k_level c)) (k_msg c)].

Lemma Write_ok layout now p d :
  (∀ n, d_ok d n = true) → Write layout now p d = (true, mkDest (d_chunks d ++ [stamp layout now; p]) (d_ok d)).
Proof. intros H. unfold Write, dest_write. rewrite H. cbn. rewrite H. by rewrite <-app_assoc. Qed.

(** The log of a logger is exactly the calls at its level or above, in order, each
    one stamped once with the time of the call; the others leave nothing. *)
Theorem leveled_log_exact level timestamp cs d :
  (∀ n, d_ok d n = true) →
  let l := New level timestamp in
  d_chunks (run_calls l cs d) =
    d_chunks d ++ List.concat (entry l <$> List.filter (λ c, level_num (k_level c) >=? level_num (parseLevel level)) cs).
Proof.
  cbn zeta. unfold run_calls. revert d. induction cs as [|c cs IH]; intros d Hd; cbn [fold_left List.filter].
  { cbn. by rewrite app_nil_r. }
  unfold Logf at 2. unfold Enabled. cbn [lg_level New].
  destruct (level_num (k_level c) >=? level_num (parseLevel level)) eqn:E.
  - unfold Printf. rewrite Write_ok by done. cbn [snd]. rewrite IH by done. cbn. by rewrite <-app_assoc.
  - by apply IH.
Qed.

(** A failing destination loses the line with its stamp, never the stamp alone in
    front of a later line, if the failure is of the first write. *)
Lemma Write_first_fails layout now p d :
  d_ok d (List.length (d_chunks d)) = false → Write layout now p d = (false, d).
Proof. intros H. unfold Write, dest_write. by rewrite H. Qed.

(** A message at info level is not seen by a logger at level warn. *)
Example info_hidden_at_warn d : Logf LevelInfo (New "warn" "second") 0 "DoQ retry: response question mismatch" d = d.
Proof. done. Qed.

Example level_names :
  parseLevel <$> [" Debug "; "warning"; "ERROR"; "verbose"; ""] = [LevelDebug; LevelWarn; LevelError; LevelInfo; LevelInfo].
Proof. vm_compute. done. Qed.

(** A second writer on the unwrapped destination, as the certificate library is
    given, can write between the stamp and the line: the two lines are then mixed,
    one stamped twice and one not at all. *)
Example stamp_torn :
  let l := New "info" "second" in
  let d := snd (dest_write (stamp (lg_layout l) 0) (mkDest [] (λ _, true))) in
  let d := snd (dest_write ("1970-01-01T00:00:00Z INFO obtain" +:+ String "010" "") d) in
  let d := snd (dest_write (log_line "main.go:645" "RCVD running") d) in
  Join (d_chunks d) "" =
    "1970-01-01T00:00:00Z 1970-01-01T00:00:00Z INFO obtain" +:+ String "010" ("main.go:645: RCVD running" +:+ String "010" "").
Proof. vm_compute. done. Qed.

Lemma leveled_log_exact_witness :
  Join (d_chunks (run_calls (New "warn" "ms")
    [mkCall LevelInfo 0 "quiet"; mkCall LevelError 1500000000 "loud"] (mkDest [] (λ _, true)))) ""
  = "1970-01-01T00:00:01.500Z logger.go:169: loud" +:+ String "010" "".
Proof.
  rewrite (leveled_log_exact "warn" "ms" [mkCall LevelInfo 0 "quiet"; mkCall LevelError 1500000000 "loud"]
    (mkDest [] (λ _, true)) (λ _, eq_refl)). vm_compute. reflexivity.
Defined.
