(* ===== verification/GoFilepath.v ===== *)
(** * The part of Go's [path/filepath] package that rcvd uses, on Unix

    Purely lexical operations on slash-separated paths. *)

From S2P Require Import Prelude GoStrings.
From Stdlib Require Import Ascii String.
Open Scope string_scope.
Open Scope list_scope.

Definition IsAbs (path : string) : bool := HasPrefix path "/".

(** One component of [Clean], [stack] holding those kept so far, last first. *)
Definition clean_step (rooted : bool) (stack : list string) (c : string) : list string :=
  if String.eqb c "" || String.eqb c "." then stack
  else if String.eqb c ".." then
    match stack with
    | top :: rest => if String.eqb top ".." then c :: stack else rest
    | [] => if rooted then [] else [c]
    end
  else c :: stack.

Definition Clean (path : string) : string :=
  let rooted := IsAbs path in
  let body := Join (rev (fold_left (clean_step rooted) (Split path "/") [])) "/" in
  if rooted then "/" +:+ body else if String.eqb body "" then "." else body.

(** The path up to and including its last slash. *)
Definition up_to_slash (path : string) : string :=
  match rev (Split path "/") with
  | _ :: ((_ :: _) as front) => Join (rev ("" :: front)) "/"
  | _ => ""
  end.

Definition Dir (path : string) : string := Clean (up_to_slash path).

(** [filepath.Join] of two elements. *)
Definition JoinPath (a b : string) : string :=
  if nonempty a then Clean (a +:+ "/" +:+ b)
  else if nonempty b then Clean b else "".

Example clean_cases :
  Clean <$> [""; "/"; "a/b"; "a//b/./c"; "a/../.."; "/../a"; "a/.."; "/etc/rcvd/"; "../a/../.."]
  = ["."; "/"; "a/b"; "a/b/c"; ".."; "/a"; "."; "/etc/rcvd"; "../.."].
Proof. vm_compute. done. Qed.

Example dir_cases :
  Dir <$> ["/etc/rcvd/rcvd.toml"; "rcvd.toml"; "./x/rcvd.toml"; "/rcvd.toml"; ""; "a/b/"]
  = ["/etc/rcvd"; "."; "x"; "/"; "."; "a/b"].
Proof. vm_compute. done. Qed.

Example join_cases : JoinPath "/etc/rcvd" ".env" = "/etc/rcvd/.env" ∧ JoinPath "." "x/../.env" = ".env".
Proof. vm_compute. done. Qed.

(** A file named relative to a directory of an absolute configuration path is
    found under an absolute path. *)
Lemma Clean_abs path : IsAbs path = true → IsAbs (Clean path) = true.
Proof. intros H. unfold Clean. rewrite H. apply HasPrefix_app. Qed.

Lemma JoinPath_abs a b : IsAbs a = true → IsAbs (JoinPath a b) = true.
Proof.
  intros H. unfold JoinPath, IsAbs in *. apply HasPrefix_spec in H as [t ->]. simpl.
  by apply Clean_abs, HasPrefix_spec; eexists.
Qed.

(** [filepath.Base] and [filepath.Ext]. *)
Fixpoint strip_slashes (rev_chars : list ascii) : list ascii :=
  match rev_chars with "/"%char :: l => strip_slashes l | l => l end.

Definition Base (path : string) : string :=
  if String.eqb path "" then "." else
  let l := rev (strip_slashes (rev (schars path))) in
  match List.last (Split (of_chars l) "/") "" with
  | "" => "/"
  | b => b
  end.

(** The suffix from the last dot of the last element. *)
Definition Ext (path : string) : string :=
  let elem := List.last (Split path "/") "" in
  match rev (Split elem ".") with
  | _ :: [] => ""
  | ext :: _ => "." +:+ ext
  | [] => ""
  end.

Example base_ext_cases :
  (λ p, (Base p, Ext p)) <$> ["/etc/rcvd/rcvd.toml"; "a"; "/"; ""; "x/y.z/"; ".env"; "a.b.c"; "d.e/f"]
  = [("rcvd.toml", ".toml"); ("a", ""); ("/", ""); (".", ""); ("y.z", ""); (".env", ".env"); ("a.b.c", ".c"); ("f", "")].
Proof. vm_compute. done. Qed.
