(* ===== verification/GoContext.v ===== *)
(** * Contexts, deadlines and blocking calls (Go: context, time, net)

    A computation that may block is a function from the instant at which it starts to
    its result and the instant at which it ends, or to nothing when it never returns.
    Local work takes no time; what the network or another goroutine makes the caller
    wait for is an event with a delay, or one that never happens.  A context is done
    when its deadline passes or when it is cancelled.  The predicate [within] is the
    program logic: it bounds when a computation ends, whatever the start. *)

From S2P Require Import Prelude.
Open Scope Z_scope.

(** ** Computations in time *)

Definition T (A : Type) : Type := Z → option (A * Z).

Definition retT {A} (a : A) : T A := λ t, Some (a, t).
Definition bindT {A B} (c : T A) (f : A → T B) : T B :=
  λ t, match c t with Some (a, t') => f a t' | None => None end.
Definition nowT : T Z := λ t, Some (t, t).

Notation "'doT' x ← c ; k" := (bindT c (λ x, k))
  (at level 100, x binder, c at next level, k at level 200, right associativity) : rcvd_scope.

(** ** Contexts *)

Record Ctx := mkCtx {
  c_deadline : option Z;  (* what [ctx.Deadline] returns *)
  c_cancel : option Z     (* the instant at which it is cancelled *) }.

Definition Background : Ctx := mkCtx None None.

(** The earlier of two instants that may be missing. *)
Definition earlier (a b : option Z) : option Z :=
  match a, b with
  | Some x, Some y => Some (Z.min x y)
  | Some x, None => Some x
  | None, _ => b
  end.

(** When [ctx.Done] is closed. *)
Definition done_at (c : Ctx) : option Z := earlier (c_deadline c) (c_cancel c).

(** [context.WithTimeout] called at [t]. *)
Definition WithTimeout (t d : Z) (c : Ctx) : Ctx := mkCtx (earlier (Some (t + d)) (c_deadline c)) (c_cancel c).

(** ** Blocking calls *)

(** An event that the caller waits for: after the delay it has the value, or it never
    happens. *)
Definition event (A : Type) : Type := option (N * A).

(** Waiting for an event until [stop], if there is one; a call that is stopped has
    the value [late].  A call made after [stop] returns at once. *)
Definition await {A} (stop : option Z) (ev : event A) (late : A) : T A := λ t,
  match ev, stop with
  | Some (δ, a), None => Some (a, t + Z.of_N δ)
  | Some (δ, a), Some d => if t + Z.of_N δ <? d then Some (a, t + Z.of_N δ) else Some (late, Z.max t d)
  | None, Some d => Some (late, Z.max t d)
  | None, None => None
  end.

(** A wait that nothing cuts short: a mutex held by others, a sleep. *)
Definition delay (d : N) : T () := λ t, Some ((), t + Z.of_N d).

(** ** When computations end *)

(** Started at any instant, [c] ends, at most [w] after the later of its start and [d]. *)
Definition within {A} (d w : Z) (c : T A) : Prop :=
  ∀ t, ∃ a t', c t = Some (a, t') ∧ t ≤ t' ≤ Z.max t d + w.

Lemma within_ret {A} d (a : A) : within d 0 (retT a).
Proof. intros t. exists a, t. split; [done|lia]. Qed.

Lemma within_weaken {A} d w w' (c : T A) : w ≤ w' → within d w c → within d w' c.
Proof. intros Hw H t. destruct (H t) as (a & t' & ? & ?). exists a, t'. split; [done|lia]. Qed.

Lemma within_bind {A B} d w1 w2 (c : T A) (f : A → T B) :
  0 ≤ w1 → within d w1 c → (∀ a, within d w2 (f a)) → within d (w1 + w2) (bindT c f).
Proof.
  intros Hw Hc Hf t. destruct (Hc t) as (a & t1 & E1 & ?). destruct (Hf a t1) as (b & t2 & E2 & ?).
  exists b, t2. unfold bindT. rewrite E1. split; [done|lia].
Qed.

(** The cut rule for a first part that waits for nothing but what [d] bounds. *)
Lemma within_bind0 {A B} d w (c : T A) (f : A → T B) :
  within d 0 c → (∀ a, within d w (f a)) → within d w (bindT c f).
Proof. apply (within_bind d 0 w). lia. Qed.

Lemma within_now {B} d w (f : Z → T B) : (∀ t, within d w (f t)) → within d w (bindT nowT f).
Proof. intros H t. exact (H t t). Qed.

Lemma within_await {A} d s (ev : event A) late : s ≤ d → within d 0 (await (Some s) ev late).
Proof.
  intros Hs t. unfold await. destruct ev as [[δ a]|].
  - destruct (Z.ltb_spec (t + Z.of_N δ) s); eexists _, _; (split; [reflexivity|lia]).
  - eexists _, _. split; [reflexivity|lia].
Qed.

Lemma within_delay d n : within d (Z.of_N n) (delay n).
Proof. intros t. exists (), (t + Z.of_N n). split; [done|lia]. Qed.

#[export] Hint Resolve within_ret within_await within_delay : rcvd.

(** ** Lemmas *)

Lemma bind_run {A B} (c : T A) (f : A → T B) t a t' : c t = Some (a, t') → bindT c f t = f a t'.
Proof. intros H. unfold bindT. by rewrite H. Qed.

Lemma now_run {B} (f : Z → T B) t : bindT nowT f t = f t t.
Proof. done. Qed.

Lemma earlier_le a b d : a = Some d → ∃ s, earlier a b = Some s ∧ s ≤ d.
Proof. intros ->. destruct b as [y|]; simpl; eexists; (split; [reflexivity|lia]). Qed.

Lemma earlier_comm a b : earlier a b = earlier b a.
Proof. destruct a, b; simpl; try done. by rewrite Z.min_comm. Qed.

Lemma earlier_le_r a b d : b = Some d → ∃ s, earlier a b = Some s ∧ s ≤ d.
Proof. rewrite earlier_comm. apply earlier_le. Qed.

(** A call that is made when its time is up is stopped at once. *)
Lemma await_late {A} s (ev : event A) late t : s ≤ t → await (Some s) ev late t = Some (late, t).
Proof.
  intros Hs. unfold await. destruct ev as [[δ a]|]; [|by rewrite Z.max_l].
  rewrite (proj2 (Z.ltb_ge _ _)) by lia. by rewrite Z.max_l.
Qed.

(** An event that happens in time is seen. *)
Lemma await_in_time {A} stop δ (a late : A) t : (∀ s, stop = Some s → t + Z.of_N δ < s) →
  await stop (Some (δ, a)) late t = Some (a, t + Z.of_N δ).
Proof. intros H. unfold await. destruct stop as [s|]; [|done]. by rewrite (proj2 (Z.ltb_lt _ _) (H s eq_refl)). Qed.
