(* ===== verification/Threads.v ===== *)
(** * Goroutines that share memory

    A goroutine is a program of atomic sections: each reads and changes the shared
    state in one step (a section under a mutex, an atomic counter, an exchange on the
    network), and what it read decides how the program goes on.  A pool of goroutines
    runs in any interleaving of their sections, with goroutines started at any moment
    and the rest of the process acting on the state in between.

    [wp] is a rely-guarantee reading of a program: every section keeps an invariant of
    the shared state and changes it only along a preorder, whatever the others do in
    between along the same preorder.  [pool_sound] is its adequacy for pools;
    [sched_terminates] says that goroutines which are started need nobody's help to end. *)

From S2P Require Import Prelude.

Inductive prog (S A : Type) : Type :=
| Ret (a : A)
| Act (X : Type) (f : S → X * S) (k : X → prog S A).
Arguments Ret {S A} a.
Arguments Act {S A X} f k.

Fixpoint bindP {S A B} (p : prog S A) (q : A → prog S B) : prog S B :=
  match p with
  | Ret a => q a
  | Act f k => Act f (λ x, bindP (k x) q)
  end.

Notation "'doP' x ← c ; k" := (bindP c (λ x, k))
  (at level 100, x binder, c at next level, k at level 200, right associativity) : rcvd_scope.

(** One atomic section; one that only reads; one that only writes. *)
Definition atomic {S A} (f : S → A * S) : prog S A := Act f Ret.
Definition readP {S A} (f : S → A) : prog S A := atomic (λ s, (f s, s)).
Definition writeP {S} (f : S → S) : prog S () := atomic (λ s, ((), f s)).

(** The program alone, without interference. *)
Fixpoint run {S A} (p : prog S A) (s : S) : A * S :=
  match p with
  | Ret a => (a, s)
  | Act f k => let '(x, s') := f s in run (k x) s'
  end.

(** Its first [n] sections: what is left to do, and the state. *)
Fixpoint run_for {S A} (n : nat) (p : prog S A) (s : S) : prog S A * S :=
  match n, p with
  | Datatypes.S n, Act f k => let '(x, s') := f s in run_for n (k x) s'
  | _, _ => (p, s)
  end.

(** Its next section, if there is one. *)
Definition prog_step {S A} (p : prog S A) (s : S) : option (prog S A * S) :=
  match p with
  | Ret _ => None
  | Act f k => let '(x, s') := f s in Some (k x, s')
  end.

Lemma prog_step_atomic {S A B} (f : S → A * S) (k : A → prog S B) s :
  prog_step (bindP (atomic f) k) s = let '(x, s') := f s in Some (k x, s').
Proof. done. Qed.

Lemma prog_step_write {S} (f : S → S) s : prog_step (writeP f) s = Some (Ret (), f s).
Proof. done. Qed.

Lemma run_bind {S A B} (p : prog S A) (q : A → prog S B) s :
  run (bindP p q) s = let '(a, s') := run p s in run (q a) s'.
Proof.
  revert s. induction p as [a|X f k IH]; intros s; [done|]. cbn. destruct (f s) as [x s']. apply IH.
Qed.

Lemma run_read {S A} (f : S → A) s : run (readP f) s = (f s, s).
Proof. done. Qed.
Lemma run_write {S} (f : S → S) s : run (writeP f) s = ((), f s).
Proof. done. Qed.
Lemma run_atomic {S A} (f : S → A * S) s : run (atomic f) s = f s.
Proof. cbn. by destruct (f s). Qed.
Create Rewrite HintDb runs.
#[global] Hint Rewrite @run_bind @run_read @run_write @run_atomic : runs.

(** A program on a part of the state. *)
Section Zoom.
Context {S T : Type} (get : S → T) (put : T → S → S).

Fixpoint zoom {A} (p : prog T A) : prog S A :=
  match p with
  | Ret a => Ret a
  | Act f k => Act (λ s, let '(x, t) := f (get s) in (x, put t s)) (λ x, zoom (k x))
  end.

Context (get_put : ∀ t s, get (put t s) = t) (put_get : ∀ s, put (get s) s = s)
  (put_put : ∀ t t' s, put t (put t' s) = put t s).

Lemma run_zoom {A} (p : prog T A) s : run (zoom p) s = let '(a, t) := run p (get s) in (a, put t s).
Proof.
  revert s. induction p as [a|X f k IH]; intros s; cbn; [by rewrite put_get|].
  destruct (f (get s)) as [x t]. rewrite IH, get_put. destruct (run (k x) t) as [a t']. by rewrite put_put.
Qed.

End Zoom.

(** ** Rely and guarantee *)

Section Rely.
Context {S : Type} (I : S → Prop) (R : S → S → Prop) `{!PreOrder R}.

(** From a state that the others may have moved along [R]: every section keeps [I],
    moves along [R], and the result satisfies [Q] whenever it is looked at. *)
Fixpoint wp {A} (p : prog S A) (Q : A → S → Prop) (s : S) : Prop :=
  match p with
  | Ret a => ∀ s', R s s' → I s' → Q a s'
  | Act f k => ∀ s', R s s' → I s' → I (snd (f s')) ∧ R s' (snd (f s')) ∧ wp (k (fst (f s'))) Q (snd (f s'))
  end.

Lemma wp_later {A} (p : prog S A) Q s s' : R s s' → wp p Q s → wp p Q s'.
Proof. destruct p as [a|X f k]; cbn; intros Hr H s2 H2; apply H; by transitivity s'. Qed.

Lemma wp_close {A} (p : prog S A) Q s : (∀ s', R s s' → I s' → wp p Q s') → wp p Q s.
Proof.
  destruct p as [a|X f k]; cbn; intros H s' Hr Hi; [apply (H s' Hr Hi s'); [reflexivity|done]|].
  apply (H s' Hr Hi s'); [reflexivity|done].
Qed.

Lemma wp_mono {A} (p : prog S A) (Q Q' : A → S → Prop) s : wp p Q s → (∀ a s', R s s' → I s' → Q a s' → Q' a s') → wp p Q' s.
Proof.
  revert s. induction p as [a|X f k IH]; cbn; intros s H HQ; [by eauto|].
  intros s' Hr Hi. destruct (H s' Hr Hi) as (H1 & H2 & H3). split_and!; [done..|]. apply IH; [done|].
  intros a s2 Hr2. apply HQ. by etrans; [|etrans].
Qed.

Lemma wp_bind {A B} (p : prog S A) (q : A → prog S B) Q s : wp p (λ a s', wp (q a) Q s') s → wp (bindP p q) Q s.
Proof.
  revert s. induction p as [a|X f k IH]; cbn; intros s H; [by apply wp_close|].
  intros s' Hr Hi. destruct (H s' Hr Hi) as (H1 & H2 & H3). split_and!; [done..|]. by apply IH.
Qed.

Lemma wp_ret {A} (a : A) (Q : A → S → Prop) s : (∀ s', R s s' → I s' → Q a s') → wp (Ret a) Q s.
Proof. done. Qed.

Lemma wp_atomic {A} (f : S → A * S) (Q : A → S → Prop) s :
  (∀ s', R s s' → I s' → I (snd (f s')) ∧ R s' (snd (f s')) ∧ ∀ s2, R (snd (f s')) s2 → I s2 → Q (fst (f s')) s2) → wp (atomic f) Q s.
Proof. done. Qed.

Lemma wp_read {A} (f : S → A) (Q : A → S → Prop) s :
  (∀ s' s2, R s s' → I s' → R s' s2 → I s2 → Q (f s') s2) → wp (readP f) Q s.
Proof. intros H. apply wp_atomic. intros s' Hr Hi. cbn. split_and!; [done|reflexivity|]. intros s2. by apply H. Qed.

(** A program of which only its effect on the state matters. *)
Lemma wp_write (f : S → S) (Q : () → S → Prop) s :
  (∀ s', I s' → I (f s') ∧ R s' (f s')) → (∀ s', R s s' → I s' → Q () s') → wp (writeP f) Q s.
Proof.
  intros Hf HQ. apply wp_atomic. intros s' Hr Hi. cbn. destruct (Hf s' Hi) as [H1 H2]. split_and!; [done..|].
  intros s2 Hr2. apply HQ. etrans; [exact Hr|]. by etrans.
Qed.

End Rely.

(** A program on a part of the state keeps the invariant of the whole if it keeps that
    of the part. *)
Section WpZoom.
Context {S T : Type} (get : S → T) (put : T → S → S) (I : S → Prop) (R : S → S → Prop) (J : T → Prop).
Context (get_ok : ∀ s, I s → J (get s)) (put_ok : ∀ s t, I s → J t → I (put t s) ∧ R s (put t s)).

Lemma wp_zoom {A} (p : prog T A) (Q : A → Prop) : (∀ t, wp J (λ _ _, True) p (λ a _, Q a) t) → ∀ s, wp I R (zoom get put p) (λ a _, Q a) s.
Proof.
  induction p as [a|X f k IH]; cbn; intros H s s' Hr Hi; [exact (H (get s) (get s') Logic.I (get_ok _ Hi))|].
  assert (Hg : ∀ t, J t → J (snd (f t)) ∧ wp J (λ _ _, True) (k (fst (f t))) (λ a _, Q a) (snd (f t))).
  { intros t Ht. by destruct (H t t Logic.I Ht) as (H1 & _ & H2). }
  destruct (Hg (get s') (get_ok _ Hi)) as [H1 H2]. destruct (f (get s')) as [x t]. cbn in *.
  destruct (put_ok s' t Hi H1) as [H3 H4]. split_and!; [done..|]. apply IH. intros t'.
  by apply (wp_later J (λ _ _, True) (PreOrder0 := Build_PreOrder _ (λ _, Logic.I) (λ _ _ _ _ _, Logic.I)) _ _ t).
Qed.

End WpZoom.

Section Pools.
Context {S : Type} (I : S → Prop) (R : S → S → Prop) `{!PreOrder R}.

(** ** Pools *)

Context {T A : Type} (body : T → prog S A) (may : T → Prop) (env : S → S → Prop).

(** A goroutine: what it was started for, the state it was started in, and what it has
    still to do. *)
Record thread := mkThread { th_task : T; th_start : S; th_prog : prog S A }.

(** A section of one of the goroutines. *)
Inductive sched : list thread * S → list thread * S → Prop :=
| sched_act l1 l2 t s0 X (f : S → X * S) k s :
    sched (l1 ++ mkThread t s0 (Act f k) :: l2, s) (l1 ++ mkThread t s0 (k (fst (f s))) :: l2, snd (f s)).

(** Or a new goroutine, or something else that changes the state. *)
Inductive pool_step : list thread * S → list thread * S → Prop :=
| pool_run c c' : sched c c' → pool_step c c'
| pool_start l s t : may t → pool_step (l, s) (l ++ [mkThread t s (body t)], s)
| pool_env l s s' : env s s' → pool_step (l, s) (l, s').

Context (Q : T → S → A → S → Prop).

Definition thread_ok (s : S) (th : thread) : Prop := wp I R (th_prog th) (Q (th_task th) (th_start th)) s.

Definition pool_ok (c : list thread * S) : Prop := I (snd c) ∧ Forall (thread_ok (snd c)) (fst c).

Lemma threads_later s s' l : R s s' → Forall (thread_ok s) l → Forall (thread_ok s') l.
Proof. intros Hr H. eapply Forall_impl; [exact H|]. intros th. by apply wp_later. Qed.

Context (body_ok : ∀ t s, may t → I s → wp I R (body t) (Q t s) s) (env_ok : ∀ s s', env s s' → I s → I s' ∧ R s s').

Lemma pool_step_ok c c' : pool_step c c' → pool_ok c → pool_ok c'.
Proof.
  intros [c0 c1 [l1 l2 t s0 X f k s]|l s t Hm|l s s' He] [Hi Hf]; cbn in *; split; cbn.
  - apply Forall_app in Hf as [_ [Ht _]%Forall_cons]. apply (Ht s); [reflexivity|done].
  - apply Forall_app in Hf as [H1 [Ht H2]%Forall_cons]. destruct (Ht s ltac:(reflexivity) Hi) as (_ & Hr & Hw).
    apply Forall_app. split; [by eapply threads_later|]. apply Forall_cons. split; [done|by eapply threads_later].
  - done.
  - apply Forall_app. split; [done|]. apply Forall_singleton. by apply body_ok.
  - by apply (env_ok s s').
  - destruct (env_ok s s' He Hi) as [_ Hr]. by eapply threads_later.
Qed.

(** Adequacy: the invariant holds in every state a pool reaches, and what a goroutine
    has ended with satisfies its post-condition. *)
Lemma pool_sound s l s' : I s → rtc pool_step ([], s) (l, s') →
  I s' ∧ ∀ t s0 a, mkThread t s0 (Ret a) ∈ l → Q t s0 a s'.
Proof.
  intros Hi H. assert (Hok : pool_ok (l, s')).
  { assert (H0 : pool_ok ([], s)) by (split; [done|constructor]). revert H H0. generalize ([] : list thread, s), (l, s').
    induction 1 as [|c c1 c2 Hs _ IH]; [done|]. intros H0. eapply IH, pool_step_ok; eauto. }
  destruct Hok as [Hi' Hf]. split; [done|]. intros t s0 a Ha. rewrite Forall_forall in Hf.
  specialize (Hf _ Ha). apply (Hf s'); [reflexivity|done].
Qed.

(** A goroutine that the others leave alone does what its program does when it runs. *)
Lemma sched_run l1 l2 t s0 p s :
  rtc sched (l1 ++ mkThread t s0 p :: l2, s) (l1 ++ mkThread t s0 (Ret (fst (run p s))) :: l2, snd (run p s)).
Proof.
  revert s. induction p as [a|X f k IH]; intros s; [apply rtc_refl|]. eapply rtc_l; [by constructor|]. cbn [run].
  destruct (f s) as [x s']. cbn. apply IH.
Qed.

(** One goroutine is started and runs to its end. *)
Lemma pool_serve l s t : may t →
  rtc pool_step (l, s) (l ++ [mkThread t s (Ret (fst (run (body t) s)))], snd (run (body t) s)).
Proof.
  intros Hm. eapply rtc_l; [by apply pool_start|]. eapply (rtc_subrel sched); [|apply sched_run]. intros c c'. apply pool_run.
Qed.

(** ** Termination *)

(** [q] is what is left of [p] after its next section. *)
Definition next {B} (q p : prog S B) : Prop := match p with Ret _ => False | Act _ k => ∃ x, q = k x end.

Lemma next_wf {B} : well_founded (@next B).
Proof. intros p. induction p as [a|X f k IH]; constructor; [done|]. intros q [x ->]. apply IH. Qed.

Inductive advance : list thread → list thread → Prop :=
| advance_at l1 l2 t s0 p q : next q p → advance (l1 ++ mkThread t s0 q :: l2) (l1 ++ mkThread t s0 p :: l2).

Lemma advance_cons t s0 p l : Acc advance l → Acc advance (mkThread t s0 p :: l).
Proof.
  revert l. induction (next_wf p) as [p _ IHp]. intros l Hl. induction Hl as [l Hl IHl]. constructor.
  intros l' H. inversion H as [l1 l2 t' s0' p' q Hn E1 E2]. destruct l1 as [|th l1]; simplify_eq/=.
  - apply IHp; [done|]. by constructor.
  - apply IHl. by constructor.
Qed.

Lemma advance_wf : well_founded advance.
Proof.
  intros l. induction l as [|[t s0 p] l IH]; [|by apply advance_cons]. constructor. intros l' H.
  inversion H as [l1 l2 t s0 p q Hn E1 E2]. by destruct l1.
Qed.

(** Goroutines that are started end, whatever the order in which they run and however
    many there are: no schedule of their sections goes on forever. *)
Lemma sched_terminates c : Acc (flip sched) c.
Proof.
  destruct c as [l s]. revert s. induction (advance_wf l) as [l _ IH]. intros s. constructor. intros c' H.
  inversion H as [l1 l2 t s0 X f k s1 E1 E2]. subst. apply IH. constructor. by eexists.
Qed.

(** None waits for another: as long as one has not ended, one can run. *)
Lemma sched_progress l s : (∀ th, th ∈ l → ∃ a, th_prog th = Ret a) ∨ ∃ c', sched (l, s) c'.
Proof.
  induction l as [|[t s0 [a|X f k]] l IH].
  - left. intros th H. by apply elem_of_nil in H.
  - destruct IH as [IH|[[l' s'] IH]]; [left|right].
    + intros th [->|H]%elem_of_cons; [by exists a|by apply IH].
    + inversion IH as [l1 l2 t' s0' X f k s1 E1 E2]. subst. eexists. apply (sched_act (mkThread t s0 (Ret a) :: l1)).
  - right. eexists. apply (sched_act []).
Qed.

End Pools.
Arguments thread : clear implicits.
Arguments mkThread {S T A} _ _ _.
#[global] Arguments wp : simpl never.
#[global] Arguments bindP : simpl never.
#[global] Arguments run : simpl never.
