(* ===== verification/Config.v ===== *)
(** * Configuration (internal/config: config.go, pin.go)

    The configuration records, the SPKI pin format, the sources of the DNS-01
    token, validation with its defaults, and the two ways to load a file.  Strings
    of a configuration are taken to be ASCII, as [GoStrings] says.

    Code outside the repository and the operating system are arguments: what the
    process can read ([OS]), the table of record type names of the DNS library
    ([StringToType]) and the TOML decoder ([TomlDecode]).  Each error the code
    returns is a constructor of [cfg_error].  What the process writes to standard
    error is not modelled. *)

From S2P Require Import Prelude GoStrings GoBase64 GoNet GoFilepath.
From Stdlib Require Import Ascii String.
Open Scope string_scope.
Open Scope list_scope.
Open Scope Z_scope.

(** ** Data *)

Record ResolverConfig := mkResolverConfig { rc_Enabled : bool; rc_Listen : string }.

Record UpstreamConfig := mkUpstreamConfig {
  u_Enabled : bool; u_ListenDoH : string; u_ListenDoT : string; u_ListenDoQ : string;
  u_DoH3 : bool; u_AdvertiseIPs : list string; u_TLSCertHosts : list string;
  u_TLSAutomation : bool; u_TLSCertAutoGen : bool; u_TLSCert : string; u_TLSKey : string }.

Record UpstreamServer := mkUpstreamServer {
  us_Name : string; us_Host : string; us_IP : string; us_Port : Z;
  us_DoQ : bool; us_DoT : bool; us_DoH : bool;
  us_DoHPath : string; us_DoH3 : bool; us_PinnedPubKey : string }.

Record DNSSECConfig := mkDNSSECConfig { ds_Enabled : bool; ds_ValidateAll : bool; ds_RootKeyFile : string }.

Record BlocklistConfig := mkBlocklistConfig {
  bl_Enabled : bool; bl_Files : list string; bl_UpdateURLs : list string; bl_UpdateInterval : string }.

Record AllowlistConfig := mkAllowlistConfig {
  al_Enabled : bool; al_Mode : string; al_Files : list string; al_QTypes : list string }.

Record CacheConfig := mkCacheConfig {
  cc_Enabled : bool; cc_Type : string; cc_MaxSize : Z; cc_TTLMin : Z; cc_TTLMax : Z;
  cc_NegTTLMax : Z; cc_ServeStaleMaxS : Z; cc_Prefetch : bool }.

Record MetricsConfig := mkMetricsConfig { me_Enabled : bool; me_Listen : string }.

Record LoggingConfig := mkLoggingConfig {
  lo_Level : string; lo_Format : string; lo_Timestamp : string; lo_File : string }.

Record FallbackConfig := mkFallbackConfig {
  fb_Phase1TimeoutMs : Z; fb_Phase1DurationS : Z; fb_Phase2FailureThreshold : Z;
  fb_Phase2SlowThresholdMs : Z; fb_HealthCheckIntervalS : Z }.

Record TLSAutomationConfig := mkTLSAutomationConfig {
  ta_OnDemand : bool; ta_AllowedDomains : list string; ta_StorageDir : string; ta_Email : string;
  ta_Staging : bool; ta_Challenge : string; ta_DNSProvider : string;
  ta_DNSAPIToken : string; ta_DNSAPITokenEnv : string; ta_DNSAPITokenFile : string; ta_DNSAPITokenKey : string }.

Record Config := mkConfig {
  cfg_StatsEnabled : bool; cfg_Resolver : ResolverConfig; cfg_UpstreamService : UpstreamConfig;
  cfg_Upstreams : list UpstreamServer; cfg_DNSSEC : DNSSECConfig; cfg_Blocklists : BlocklistConfig;
  cfg_Allowlist : AllowlistConfig; cfg_Cache : CacheConfig; cfg_Metrics : MetricsConfig;
  cfg_Logging : LoggingConfig; cfg_Fallback : FallbackConfig; cfg_TLSAutomation : TLSAutomationConfig }.

(** Assignments to parts of a [Config]. *)
Definition set_Resolver (r : ResolverConfig) (c : Config) : Config :=
  mkConfig (cfg_StatsEnabled c) r (cfg_UpstreamService c) (cfg_Upstreams c) (cfg_DNSSEC c) (cfg_Blocklists c)
    (cfg_Allowlist c) (cfg_Cache c) (cfg_Metrics c) (cfg_Logging c) (cfg_Fallback c) (cfg_TLSAutomation c).
Definition set_Cache (x : CacheConfig) (c : Config) : Config :=
  mkConfig (cfg_StatsEnabled c) (cfg_Resolver c) (cfg_UpstreamService c) (cfg_Upstreams c) (cfg_DNSSEC c)
    (cfg_Blocklists c) (cfg_Allowlist c) x (cfg_Metrics c) (cfg_Logging c) (cfg_Fallback c) (cfg_TLSAutomation c).
Definition set_Logging (x : LoggingConfig) (c : Config) : Config :=
  mkConfig (cfg_StatsEnabled c) (cfg_Resolver c) (cfg_UpstreamService c) (cfg_Upstreams c) (cfg_DNSSEC c)
    (cfg_Blocklists c) (cfg_Allowlist c) (cfg_Cache c) (cfg_Metrics c) x (cfg_Fallback c) (cfg_TLSAutomation c).
Definition set_Fallback (x : FallbackConfig) (c : Config) : Config :=
  mkConfig (cfg_StatsEnabled c) (cfg_Resolver c) (cfg_UpstreamService c) (cfg_Upstreams c) (cfg_DNSSEC c)
    (cfg_Blocklists c) (cfg_Allowlist c) (cfg_Cache c) (cfg_Metrics c) (cfg_Logging c) x (cfg_TLSAutomation c).
Definition set_TLSAutomation (x : TLSAutomationConfig) (c : Config) : Config :=
  mkConfig (cfg_StatsEnabled c) (cfg_Resolver c) (cfg_UpstreamService c) (cfg_Upstreams c) (cfg_DNSSEC c)
    (cfg_Blocklists c) (cfg_Allowlist c) (cfg_Cache c) (cfg_Metrics c) (cfg_Logging c) (cfg_Fallback c) x.
Definition set_DNSAPIToken (v : string) (t : TLSAutomationConfig) : TLSAutomationConfig :=
  mkTLSAutomationConfig (ta_OnDemand t) (ta_AllowedDomains t) (ta_StorageDir t) (ta_Email t) (ta_Staging t)
    (ta_Challenge t) (ta_DNSProvider t) v (ta_DNSAPITokenEnv t) (ta_DNSAPITokenFile t) (ta_DNSAPITokenKey t).

(** The errors, one per return statement. *)
Inductive pin_error := EPinPrefix | EPinBase64 | EPinLength (n : nat).

Inductive token_error :=
| EMultipleSources (set : list string) | EKeyWithoutFile | EEnvUnset (name : string) | EFileWithoutKey
| EDotenvStat | EDotenvRead | EDotenvEmpty (key : string) | EDotenvMissing (key : string).

Inductive listen_error := EListenSplit | EListenPort | EListenHost.

Inductive upstream_error :=
| EUpName | EUpHost | EUpIP (ip : string) | EUpProto | EUpDoH3 | EUpPortMissing | EUpPort (p : Z) | EUpPin (e : pin_error).

Inductive cfg_error :=
| ERead | EParse | EUnknownKeys (keys : list string) | ECacheConflict (keys : list string)
| EToken (e : token_error)
| ENoMode | EListen (field addr : string) (e : listen_error) | EPort53 (addr : string)
| ENoUpstream | EUpstream (i : nat) (e : upstream_error)
| EAdvertiseDisabled | EAdvertiseNoListener | EAdvertiseIP (i : nat) (addr : string) | EAdvertiseUnspecified (i : nat) (addr : string)
| EAutogenPinned (i : nat) (name : string)
| EChallenge (s : string) | EOrphanDNS01 | EProviderMissing | EProviderUnsupported (s : string) | ETokenMissing
| EAllowMode | EAllowExempt | EAllowModeUnknown (s : string) | EAllowFiles | EQTypeUnknown (s : string) | EQTypeDuplicate (s : string)
| ERootKeyFile (path : string) | ECacheType (s : string)
| ELogJSON | ELogFormat (s : string) | ELogTimestamp (s : string).

(** ** What the process can observe of its system *)

Record OS := mkOS {
  Getenv : string → string;            (* "" when unset *)
  Stat : string → option Z;            (* the permission bits *)
  ReadFile : string → option string;
  LookupPort : string → option Z       (* the local services database, for udp *) }.

(** ** Pins (pin.go) *)

Definition PinPrefix : string := "sha256//".
Definition pinSHA256Len : nat := 32.

Definition ParsePin (s : string) : result string pin_error :=
  if negb (HasPrefix s PinPrefix) then Err EPinPrefix else
  match Std.DecodeString (TrimPrefix s PinPrefix) with
  | None => Err EPinBase64
  | Some raw => if negb (String.length raw =? pinSHA256Len)%nat then Err (EPinLength (String.length raw)) else Ok raw
  end.

(** [sum256] stands for [sha256.Sum256]; a certificate is its raw
    SubjectPublicKeyInfo. *)
Definition SPKIPin (sum256 : string → string) (rawSPKI : string) : string :=
  PinPrefix +:+ Std.EncodeToString (sum256 rawSPKI).

Definition validatePinnedPubKey (pin : string) : option pin_error :=
  if String.eqb pin "" then None else
  match ParsePin pin with Ok _ => None | Err e => Some e end.

(** ** Small helpers *)

Definition DialHost (u : UpstreamServer) : string :=
  if negb (String.eqb (us_IP u) "") then us_IP u else us_Host u.

Definition SupportedDNSProviders : list string := ["cloudflare"].

Definition IsSupportedDNSProvider (name : string) : bool :=
  existsb (λ p, String.eqb p name) SupportedDNSProviders.

Definition listenPortIs53 (os : OS) (port : string) : bool :=
  match Atoi port with
  | Some n => n =? 53
  | None => match LookupPort os port with Some n => n =? 53 | None => false end
  end.

Definition validateListenAddr (addr : string) : option listen_error :=
  if String.eqb addr "" then None else
  match SplitHostPort addr with
  | None => Some EListenSplit
  | Some (host, port) =>
      if String.eqb port "" then Some EListenPort
      else if String.eqb host "" then None
      else match ParseAddr host with None => Some EListenHost | Some _ => None end
  end.

(** The loop of [QTypeCodes]: [seen] is the set of codes, [codes] the result so far. *)
Fixpoint qtype_loop (StringToType : string → option Z) (names : list string) (codes : list Z)
    : result (list Z) cfg_error :=
  match names with
  | [] => Ok codes
  | name :: names' =>
      match StringToType (ToUpper (TrimSpace name)) with
      | None => Err (EQTypeUnknown name)
      | Some code =>
          if existsb (Z.eqb code) codes then Err (EQTypeDuplicate name)
          else qtype_loop StringToType names' (codes ++ [code])
      end
  end.

Definition QTypeCodes (StringToType : string → option Z) (a : AllowlistConfig) : result (list Z) cfg_error :=
  qtype_loop StringToType (al_QTypes a) [].

(** ** The DNS-01 token *)

(** One layer of matching quotes is removed. *)
Definition strip_quotes (v : string) : string :=
  match schars v with
  | q :: ((_ :: _) as rest) =>
      if (Ascii.eqb q "034" || Ascii.eqb q "039") && Ascii.eqb (List.last rest "000"%char) q
      then of_chars (removelast rest) else v
  | _ => v
  end.

(** The value a line gives to [key], if it gives one. *)
Definition dotenv_line (key raw : string) : option string :=
  let line := TrimSpace raw in
  if String.eqb line "" || HasPrefix line "#" then None else
  let line := TrimPrefix line "export " in
  match Cut line "=" with
  | None => None
  | Some (k, v) => if negb (String.eqb (TrimSpace k) key) then None else Some (strip_quotes (TrimSpace v))
  end.

Fixpoint dotenv_lines (key : string) (lines : list string) : result string token_error :=
  match lines with
  | [] => Err (EDotenvMissing key)
  | raw :: lines' =>
      match dotenv_line key raw with
      | None => dotenv_lines key lines'
      | Some v => if String.eqb v "" then Err (EDotenvEmpty key) else Ok v
      end
  end.

Definition tokenFromDotenv (os : OS) (path key : string) : result string token_error :=
  match Stat os path with
  | None => Err EDotenvStat
  | Some _ =>
      match ReadFile os path with
      | None => Err EDotenvRead
      | Some data => dotenv_lines key (Split data "010")
      end
  end.

(** The names of the sources that are set. *)
Definition token_sources (t : TLSAutomationConfig) : list string :=
  (if nonempty (ta_DNSAPIToken t) then ["dns_api_token"] else []) ++
  (if nonempty (ta_DNSAPITokenEnv t) then ["dns_api_token_env"] else []) ++
  (if nonempty (ta_DNSAPITokenFile t) then ["dns_api_token_file"] else []).

Definition resolveDNSAPIToken (os : OS) (configDir : string) (t : TLSAutomationConfig)
    : result TLSAutomationConfig token_error :=
  let set := token_sources t in
  if (1 <? List.length set)%nat then Err (EMultipleSources set) else
  if nonempty (ta_DNSAPITokenKey t) && negb (nonempty (ta_DNSAPITokenFile t)) then Err EKeyWithoutFile else
  if nonempty (ta_DNSAPITokenEnv t) then
    let val := Getenv os (ta_DNSAPITokenEnv t) in
    if String.eqb val "" then Err (EEnvUnset (ta_DNSAPITokenEnv t)) else Ok (set_DNSAPIToken val t)
  else if nonempty (ta_DNSAPITokenFile t) then
    if String.eqb (ta_DNSAPITokenKey t) "" then Err EFileWithoutKey else
    let path := ta_DNSAPITokenFile t in
    let path := if negb (IsAbs path) then JoinPath configDir path else path in
    try val ← tokenFromDotenv os path (ta_DNSAPITokenKey t);
    Ok (set_DNSAPIToken val t)
  else Ok t.

(** ** Validation *)

Definition default_listen (c : Config) : Config :=
  let r := cfg_Resolver c in
  if rc_Enabled r && String.eqb (rc_Listen r) "" then set_Resolver (mkResolverConfig true "127.0.0.1:5300") c else c.

Definition listen_addrs (c : Config) : list (string * string) :=
  [("resolver.listen", rc_Listen (cfg_Resolver c));
   ("upstream_service.listen_doh", u_ListenDoH (cfg_UpstreamService c));
   ("upstream_service.listen_dot", u_ListenDoT (cfg_UpstreamService c));
   ("upstream_service.listen_doq", u_ListenDoQ (cfg_UpstreamService c));
   ("metrics.listen", me_Listen (cfg_Metrics c))].

Fixpoint validate_listens (l : list (string * string)) : result () cfg_error :=
  match l with
  | [] => Ok ()
  | (field, addr) :: l' =>
      match validateListenAddr addr with Some e => Err (EListen field addr e) | None => validate_listens l' end
  end.

Definition is_loopback_host (host : string) : bool :=
  match ParseIP host with None => false | Some ip => IsLoopback ip end.

Definition validate_port53 (os : OS) (r : ResolverConfig) : result () cfg_error :=
  if rc_Enabled r then
    match SplitHostPort (rc_Listen r) with
    | Some (host, port) =>
        if listenPortIs53 os port && negb (is_loopback_host host) then Err (EPort53 (rc_Listen r)) else Ok ()
    | None => Ok ()
    end
  else Ok ().

Definition validate_upstream (up : UpstreamServer) : result () upstream_error :=
  if String.eqb (us_Name up) "" then Err EUpName else
  if String.eqb (us_Host up) "" then Err EUpHost else
  if nonempty (us_IP up) && bool_decide (ParseIP (us_IP up) = None) then Err (EUpIP (us_IP up)) else
  if negb (us_DoQ up) && negb (us_DoT up) && negb (us_DoH up) then Err EUpProto else
  if us_DoH3 up && negb (us_DoH up) then Err EUpDoH3 else
  if us_Port up =? 0 then Err EUpPortMissing else
  if (us_Port up <? 0) || (us_Port up >? 65535) then Err (EUpPort (us_Port up)) else
  match validatePinnedPubKey (us_PinnedPubKey up) with Some e => Err (EUpPin e) | None => Ok () end.

(** The loop ranges over copies: the default of [DoHPath] it sets on [up] is lost. *)
Fixpoint validate_upstreams (i : nat) (ups : list UpstreamServer) : result () cfg_error :=
  match ups with
  | [] => Ok ()
  | up :: ups' =>
      match validate_upstream up with Err e => Err (EUpstream i e) | Ok _ => validate_upstreams (S i) ups' end
  end.

Fixpoint validate_advertise_ips (i : nat) (addrs : list string) : result () cfg_error :=
  match addrs with
  | [] => Ok ()
  | addr :: addrs' =>
      match ParseIP addr with
      | None => Err (EAdvertiseIP i addr)
      | Some ip => if IsUnspecified ip then Err (EAdvertiseUnspecified i addr) else validate_advertise_ips (S i) addrs'
      end
  end.

Definition validate_advertise (u : UpstreamConfig) : result () cfg_error :=
  match u_AdvertiseIPs u with
  | [] => Ok ()
  | addrs =>
      if negb (u_Enabled u) then Err EAdvertiseDisabled else
      if String.eqb (u_ListenDoH u) "" && String.eqb (u_ListenDoT u) "" && String.eqb (u_ListenDoQ u) ""
      then Err EAdvertiseNoListener else validate_advertise_ips 0 addrs
  end.

Fixpoint first_pinned (i : nat) (ups : list UpstreamServer) : result () cfg_error :=
  match ups with
  | [] => Ok ()
  | up :: ups' =>
      if String.eqb (us_PinnedPubKey up) "" then first_pinned (S i) ups' else Err (EAutogenPinned i (us_Name up))
  end.

Definition validate_autogen (c : Config) : result () cfg_error :=
  let u := cfg_UpstreamService c in
  if u_Enabled u && u_TLSCertAutoGen u then first_pinned 0 (cfg_Upstreams c) else Ok ().

Definition validateTLSAutomation (requireToken : bool) (t : TLSAutomationConfig) : result () cfg_error :=
  let challenge := ta_Challenge t in
  if nonempty challenge && negb (String.eqb challenge "http") && negb (String.eqb challenge "dns01")
  then Err (EChallenge challenge) else
  if negb (String.eqb challenge "dns01") then
    if nonempty (ta_DNSProvider t) || nonempty (ta_DNSAPIToken t) || nonempty (ta_DNSAPITokenEnv t)
       || nonempty (ta_DNSAPITokenFile t) || nonempty (ta_DNSAPITokenKey t)
    then Err EOrphanDNS01 else Ok ()
  else
  if String.eqb (ta_DNSProvider t) "" then Err EProviderMissing else
  if negb (IsSupportedDNSProvider (ta_DNSProvider t)) then Err (EProviderUnsupported (ta_DNSProvider t)) else
  if requireToken && String.eqb (ta_DNSAPIToken t) "" then Err ETokenMissing else Ok ().

Definition validateAllowlist (StringToType : string → option Z) (a : AllowlistConfig) : result () cfg_error :=
  if negb (al_Enabled a) then Ok () else
  if String.eqb (al_Mode a) "" then Err EAllowMode else
  if String.eqb (al_Mode a) "exempt" then Err EAllowExempt else
  if negb (String.eqb (al_Mode a) "default-deny") then Err (EAllowModeUnknown (al_Mode a)) else
  match al_Files a with
  | [] => Err EAllowFiles
  | _ => try _ ← QTypeCodes StringToType a; Ok ()
  end.

Definition validate_root_key (os : OS) (d : DNSSECConfig) : result () cfg_error :=
  if ds_Enabled d && nonempty (ds_RootKeyFile d) then
    match Stat os (ds_RootKeyFile d) with None => Err (ERootKeyFile (ds_RootKeyFile d)) | Some _ => Ok () end
  else Ok ().

Definition resolveCacheType (c : CacheConfig) : result CacheConfig cfg_error :=
  let mode := ToLower (TrimSpace (cc_Type c)) in
  let preset tmin tmax neg stale :=
    Ok (mkCacheConfig (cc_Enabled c) mode (cc_MaxSize c) tmin tmax neg stale (cc_Prefetch c)) in
  if String.eqb mode "light" then preset 0 3600 0 0 else
  if String.eqb mode "standard" then preset 60 86400 0 0 else
  if String.eqb mode "aggressive" then preset 300 604800 300 3600 else
  if String.eqb mode "" then
    preset (if cc_TTLMin c =? 0 then 60 else cc_TTLMin c) (if cc_TTLMax c =? 0 then 86400 else cc_TTLMax c)
           (cc_NegTTLMax c) (cc_ServeStaleMaxS c)
  else Err (ECacheType mode).

Definition default_max_size (c : CacheConfig) : CacheConfig :=
  if cc_Enabled c && (cc_MaxSize c =? 0)
  then mkCacheConfig (cc_Enabled c) (cc_Type c) 4096 (cc_TTLMin c) (cc_TTLMax c) (cc_NegTTLMax c) (cc_ServeStaleMaxS c) (cc_Prefetch c)
  else c.

Definition default_fallback (f : FallbackConfig) : FallbackConfig :=
  let dflt d v := if v =? 0 then d else v in
  mkFallbackConfig (dflt 2000 (fb_Phase1TimeoutMs f)) (dflt 300 (fb_Phase1DurationS f))
    (dflt 3 (fb_Phase2FailureThreshold f)) (fb_Phase2SlowThresholdMs f) (dflt 30 (fb_HealthCheckIntervalS f)).

Definition default_logging (l : LoggingConfig) : LoggingConfig :=
  let dflt d v := if String.eqb v "" then d else v in
  mkLoggingConfig (dflt "info" (lo_Level l)) (dflt "text" (lo_Format l)) (dflt "second" (lo_Timestamp l))
    (dflt "/var/log/rcvd/rcvd.log" (lo_File l)).

Definition validate_logging (l : LoggingConfig) : result () cfg_error :=
  if String.eqb (lo_Format l) "json" then Err ELogJSON else
  if negb (String.eqb (lo_Format l) "text") then Err (ELogFormat (lo_Format l)) else
  if existsb (String.eqb (lo_Timestamp l)) ["second"; "ms"; "us"] then Ok () else Err (ELogTimestamp (lo_Timestamp l)).

Section Ops.
Context (os : OS) (StringToType : string → option Z).

Definition validate (requireToken : bool) (c : Config) : result Config cfg_error :=
  if negb (rc_Enabled (cfg_Resolver c)) && negb (u_Enabled (cfg_UpstreamService c)) then Err ENoMode else
  let c := default_listen c in
  check validate_listens (listen_addrs c);
  check validate_port53 os (cfg_Resolver c);
  if bool_decide (cfg_Upstreams c = []) then Err ENoUpstream else
  check validate_upstreams 0 (cfg_Upstreams c);
  check validate_advertise (cfg_UpstreamService c);
  check validate_autogen c;
  check validateTLSAutomation requireToken (cfg_TLSAutomation c);
  check validateAllowlist StringToType (cfg_Allowlist c);
  check validate_root_key os (cfg_DNSSEC c);
  try cache ← resolveCacheType (cfg_Cache c);
  let c := set_Cache (default_max_size cache) c in
  let c := set_Fallback (default_fallback (cfg_Fallback c)) c in
  let c := set_Logging (default_logging (cfg_Logging c)) c in
  check validate_logging (cfg_Logging c);
  Ok c.

Definition Validate (c : Config) : result Config cfg_error := validate true c.

(** ** Loading *)

Record MetaData := mkMetaData { Undecoded : list string; IsDefined : string → string → bool }.

(** [toml.Decode]: overwrites in a [Config] the keys the text has. *)
Context (TomlDecode : string → Config → option (Config * MetaData)).

(** The value the decoder starts from: zero, and [true] where that is the default. *)
Definition seed : Config :=
  mkConfig false (mkResolverConfig false "") (mkUpstreamConfig false "" "" "" false [] [] false false "" "") []
    (mkDNSSECConfig true false "") (mkBlocklistConfig true [] [] "") (mkAllowlistConfig false "" [] [])
    (mkCacheConfig true "" 0 0 0 0 0 false) (mkMetricsConfig false "") (mkLoggingConfig "" "" "" "")
    (mkFallbackConfig 0 0 0 0 0) (mkTLSAutomationConfig false [] "" "" false "" "" "" "" "" "").

Definition manual_cache_keys : list string := ["ttl_min"; "ttl_max"; "neg_ttl_max"; "serve_stale_max_s"].

Definition cache_conflicts (md : MetaData) : list string :=
  if IsDefined md "cache" "type" then List.filter (IsDefined md "cache") manual_cache_keys else [].

Definition load (path : string) (materializeToken : bool) : result Config cfg_error :=
  match ReadFile os path with
  | None => Err ERead
  | Some data =>
      match TomlDecode data seed with
      | None => Err EParse
      | Some (cfg, md) =>
          if bool_decide (Undecoded md = []) then
            if bool_decide (cache_conflicts md = []) then
              if materializeToken then
                match resolveDNSAPIToken os (Dir path) (cfg_TLSAutomation cfg) with
                | Err e => Err (EToken e)
                | Ok t => validate true (set_TLSAutomation t cfg)
                end
              else validate false cfg
            else Err (ECacheConflict (cache_conflicts md))
          else Err (EUnknownKeys (Undecoded md))
      end
  end.

Definition Load (path : string) : result Config cfg_error := load path true.
Definition LoadForDiagnostics (path : string) : result Config cfg_error := load path false.

(** The listen addresses [Warnings] warns about. *)
Definition Warnings (c : Config) : list string :=
  let r := cfg_Resolver c in
  if rc_Enabled r then
    match SplitHostPort (rc_Listen r) with
    | Some (host, port) =>
        if listenPortIs53 os port then [] else
        match ParseIP host with
        | Some ip => if negb (IsLoopback ip) && negb (IsUnspecified ip) then [rc_Listen r] else []
        | None => []
        end
    | None => []
    end
  else [].

End Ops.

(** ** What validation accepts *)

Definition pin_ok (pin : string) : Prop :=
  pin = "" ∨ ∃ d, pin = PinPrefix +:+ d ∧ ∃ raw, Std.DecodeString d = Some raw ∧ String.length raw = pinSHA256Len.

(** An address nobody has to look up: nothing, or an IP literal or no host, and a port. *)
Definition literal_addr (addr : string) : Prop :=
  addr = "" ∨ ∃ host port, SplitHostPort addr = Some (host, port) ∧ port ≠ "" ∧
    (host = "" ∨ is_Some (ParseAddr host)).

Definition no_cleartext_port (os : OS) (r : ResolverConfig) : Prop :=
  rc_Enabled r = true → ∀ host port, SplitHostPort (rc_Listen r) = Some (host, port) →
    listenPortIs53 os port = true → ∃ ip, ParseIP host = Some ip ∧ IsLoopback ip = true.

Record upstream_ok (u : UpstreamServer) : Prop := mkUpOk {
  uo_name : us_Name u ≠ "";
  uo_host : us_Host u ≠ "";
  uo_ip : us_IP u = "" ∨ is_Some (ParseIP (us_IP u));
  uo_proto : us_DoQ u = true ∨ us_DoT u = true ∨ us_DoH u = true;
  uo_doh3 : us_DoH3 u = true → us_DoH u = true;
  uo_port : 1 ≤ us_Port u ≤ 65535;
  uo_pin : pin_ok (us_PinnedPubKey u) }.

Definition advertise_ok (u : UpstreamConfig) : Prop :=
  u_AdvertiseIPs u = [] ∨
  (u_Enabled u = true ∧ (u_ListenDoH u ≠ "" ∨ u_ListenDoT u ≠ "" ∨ u_ListenDoQ u ≠ "") ∧
   ∀ a, a ∈ u_AdvertiseIPs u → ∃ ip, ParseIP a = Some ip ∧ IsUnspecified ip = false).

Definition tls_automation_ok (requireToken : bool) (t : TLSAutomationConfig) : Prop :=
  (ta_Challenge t ∈ [""; "http"] ∧ ta_DNSProvider t = "" ∧ ta_DNSAPIToken t = "" ∧ ta_DNSAPITokenEnv t = "" ∧
     ta_DNSAPITokenFile t = "" ∧ ta_DNSAPITokenKey t = "") ∨
  (ta_Challenge t = "dns01" ∧ ta_DNSProvider t = "cloudflare" ∧ (requireToken = true → ta_DNSAPIToken t ≠ "")).

Definition qtypes_ok (StringToType : string → option Z) (names : list string) : Prop :=
  ∃ codes, Forall2 (λ n c, StringToType (ToUpper (TrimSpace n)) = Some c) names codes ∧ NoDup codes.

Definition allowlist_ok (StringToType : string → option Z) (a : AllowlistConfig) : Prop :=
  al_Enabled a = true → al_Mode a = "default-deny" ∧ al_Files a ≠ [] ∧ qtypes_ok StringToType (al_QTypes a).

Definition cache_modes : list string := ["light"; "standard"; "aggressive"; ""].

(** The configurations the daemon runs with, as a predicate. *)
Record acceptable (os : OS) (StringToType : string → option Z) (requireToken : bool) (c : Config) : Prop := mkAcceptable {
  ac_mode : rc_Enabled (cfg_Resolver c) = true ∨ u_Enabled (cfg_UpstreamService c) = true;
  ac_listen : Forall (λ fa, literal_addr fa.2) (listen_addrs c);
  ac_port53 : no_cleartext_port os (cfg_Resolver c);
  ac_upstreams : cfg_Upstreams c ≠ [] ∧ Forall upstream_ok (cfg_Upstreams c);
  ac_advertise : advertise_ok (cfg_UpstreamService c);
  ac_autogen : u_Enabled (cfg_UpstreamService c) = true → u_TLSCertAutoGen (cfg_UpstreamService c) = true →
    Forall (λ u, us_PinnedPubKey u = "") (cfg_Upstreams c);
  ac_tls : tls_automation_ok requireToken (cfg_TLSAutomation c);
  ac_allow : allowlist_ok StringToType (cfg_Allowlist c);
  ac_root : ds_Enabled (cfg_DNSSEC c) = true → ds_RootKeyFile (cfg_DNSSEC c) ≠ "" → is_Some (Stat os (ds_RootKeyFile (cfg_DNSSEC c)));
  ac_cache : ToLower (TrimSpace (cc_Type (cfg_Cache c))) ∈ cache_modes;
  ac_format : lo_Format (cfg_Logging c) ∈ [""; "text"];
  ac_stamp : lo_Timestamp (cfg_Logging c) ∈ [""; "second"; "ms"; "us"] }.

(** The defaults, as docs/CONFIG.md lists them: what a key that is left out (or is
    empty, or 0) stands for. *)
Definition or_int (d v : Z) : Z := if v =? 0 then d else v.
Definition or_str (d v : string) : string := if String.eqb v "" then d else v.

(** The presets of the cache: minimum and maximum lifetime, lifetime of negative
    answers, and how long stale answers are served. *)
Definition documented_presets : list (string * (Z * Z * Z * Z)) :=
  [("light", (0, 3600, 0, 0)); ("standard", (60, 86400, 0, 0)); ("aggressive", (300, 604800, 300, 3600))].

Definition preset_row (mode : string) : option (Z * Z * Z * Z) :=
  snd <$> List.find (λ row, String.eqb (fst row) mode) documented_presets.

Definition cache_bounds (c : CacheConfig) : Z * Z * Z * Z := (cc_TTLMin c, cc_TTLMax c, cc_NegTTLMax c, cc_ServeStaleMaxS c).

(** [c'] is [c] with the defaults filled in, section by section. *)
Record documented_defaults (c c' : Config) : Prop := mkDocumented {
  dd_same : (cfg_StatsEnabled c', cfg_UpstreamService c', cfg_Upstreams c', cfg_DNSSEC c', cfg_Blocklists c', cfg_Allowlist c', cfg_Metrics c', cfg_TLSAutomation c')
    = (cfg_StatsEnabled c, cfg_UpstreamService c, cfg_Upstreams c, cfg_DNSSEC c, cfg_Blocklists c, cfg_Allowlist c, cfg_Metrics c, cfg_TLSAutomation c);
  dd_resolver : cfg_Resolver c' = mkResolverConfig (rc_Enabled (cfg_Resolver c))
    (if rc_Enabled (cfg_Resolver c) then or_str "127.0.0.1:5300" (rc_Listen (cfg_Resolver c)) else rc_Listen (cfg_Resolver c));
  dd_cache_keys : (cc_Enabled (cfg_Cache c'), cc_Type (cfg_Cache c'), cc_Prefetch (cfg_Cache c'))
    = (cc_Enabled (cfg_Cache c), ToLower (TrimSpace (cc_Type (cfg_Cache c))), cc_Prefetch (cfg_Cache c));
  dd_cache_size : cc_MaxSize (cfg_Cache c') = if cc_Enabled (cfg_Cache c) then or_int 4096 (cc_MaxSize (cfg_Cache c)) else cc_MaxSize (cfg_Cache c);
  dd_cache_bounds : cache_bounds (cfg_Cache c') =
    match preset_row (ToLower (TrimSpace (cc_Type (cfg_Cache c)))) with
    | Some row => row
    | None => (or_int 60 (cc_TTLMin (cfg_Cache c)), or_int 86400 (cc_TTLMax (cfg_Cache c)), cc_NegTTLMax (cfg_Cache c), cc_ServeStaleMaxS (cfg_Cache c))
    end;
  dd_fallback : cfg_Fallback c' = mkFallbackConfig (or_int 2000 (fb_Phase1TimeoutMs (cfg_Fallback c))) (or_int 300 (fb_Phase1DurationS (cfg_Fallback c)))
    (or_int 3 (fb_Phase2FailureThreshold (cfg_Fallback c))) (fb_Phase2SlowThresholdMs (cfg_Fallback c)) (or_int 30 (fb_HealthCheckIntervalS (cfg_Fallback c)));
  dd_logging : cfg_Logging c' = mkLoggingConfig (or_str "info" (lo_Level (cfg_Logging c))) (or_str "text" (lo_Format (cfg_Logging c)))
    (or_str "second" (lo_Timestamp (cfg_Logging c))) (or_str "/var/log/rcvd/rcvd.log" (lo_File (cfg_Logging c))) }.

(** The configuration as the code completes it. *)
Definition cache_defaults (c : CacheConfig) : CacheConfig :=
  match resolveCacheType c with Ok c => default_max_size c | Err _ => c end.

Definition normalize (c : Config) : Config :=
  let c := default_listen c in
  let c := set_Cache (cache_defaults (cfg_Cache c)) c in
  let c := set_Fallback (default_fallback (cfg_Fallback c)) c in
  set_Logging (default_logging (cfg_Logging c)) c.

(** ** Each check against its predicate *)

Lemma nonempty_true s : nonempty s = true ↔ s ≠ "".
Proof. unfold nonempty. rewrite negb_true_iff, String.eqb_neq. done. Qed.
Lemma nonempty_false s : nonempty s = false ↔ s = "".
Proof. unfold nonempty. rewrite negb_false_iff, String.eqb_eq. done. Qed.

Lemma ParsePin_spec pin raw :
  ParsePin pin = Ok raw ↔
  ∃ d, pin = PinPrefix +:+ d ∧ Std.DecodeString d = Some raw ∧ String.length raw = pinSHA256Len.
Proof.
  unfold ParsePin. destruct (HasPrefix pin PinPrefix) eqn:E; cbn [negb].
  - apply HasPrefix_spec in E as [d ->]. rewrite TrimPrefix_app. split.
    + intros H. split_in H. injection H as <-. bool_prop. eauto.
    + intros (d' & Hd & Hr & Hl). apply sapp_inj_l in Hd as <-. by rewrite Hr, Hl.
  - split; [done|]. intros (d & -> & _). by rewrite HasPrefix_app in E.
Qed.

Lemma validatePinnedPubKey_spec pin : validatePinnedPubKey pin = None ↔ pin_ok pin.
Proof.
  unfold validatePinnedPubKey, pin_ok. destruct (String.eqb_spec pin ""); [tauto|].
  destruct (ParsePin pin) as [raw|e] eqn:E.
  - apply ParsePin_spec in E as (d & ? & ?). split; [eauto 6|done].
  - split; [done|]. intros [|(d & Hd & raw & Hr & Hl)]; [done|].
    assert (ParsePin pin = Ok raw) by (apply ParsePin_spec; eauto). congruence.
Qed.

Lemma validateListenAddr_spec addr : validateListenAddr addr = None ↔ literal_addr addr.
Proof.
  unfold validateListenAddr, literal_addr. destruct (String.eqb_spec addr ""); [tauto|].
  destruct (SplitHostPort addr) as [[host port]|]; [|split; [done|by intros [|(? & ? & ? & _)]]].
  destruct (String.eqb_spec port ""); [split; [done|intros [|(? & ? & [= <- <-] & ? & _)]; done]|].
  destruct (String.eqb_spec host ""); [split; [eauto 8|done]|].
  destruct (ParseAddr host) eqn:E; split; try done.
  - intros _. right. exists host, port. rewrite E. eauto.
  - intros [|(? & ? & [= <- <-] & ? & [|[]])]; congruence.
Qed.

Lemma validate_listens_spec l : validate_listens l = Ok () ↔ Forall (λ fa, literal_addr fa.2) l.
Proof.
  induction l as [|[f a] l IH]; simpl; [by split|]. rewrite Forall_cons, <-IH. cbn [snd].
  rewrite <-validateListenAddr_spec. destruct (validateListenAddr a); intuition congruence.
Qed.

Lemma is_loopback_host_spec host :
  is_loopback_host host = true ↔ ∃ ip, ParseIP host = Some ip ∧ IsLoopback ip = true.
Proof.
  unfold is_loopback_host. destruct (ParseIP host) as [ip|]; split; try done.
  - eauto.
  - by intros (? & [= <-] & ?).
  - by intros (? & ? & ?).
Qed.

Lemma validate_port53_spec os r : validate_port53 os r = Ok () ↔ no_cleartext_port os r.
Proof.
  unfold validate_port53, no_cleartext_port. destruct (rc_Enabled r); [|by split].
  destruct (SplitHostPort (rc_Listen r)) as [[h p]|]; [|by split].
  setoid_rewrite <-is_loopback_host_spec.
  destruct (listenPortIs53 os p) eqn:E; simpl.
  - destruct (is_loopback_host h) eqn:L; simpl; split; try done.
    + intros _ _ ? ? [= <- <-]. done.
    + intros H. specialize (H eq_refl h p eq_refl E). congruence.
  - split; [|done]. intros _ _ ? ? [= <- <-]. congruence.
Qed.

Lemma validate_upstream_spec u : validate_upstream u = Ok () ↔ upstream_ok u.
Proof.
  unfold validate_upstream. split.
  - intros H. split_in H. bool_prop. constructor; try done; try lia.
    + destruct (nonempty (us_IP u)) eqn:E; [right|left; by apply nonempty_false].
      simpl in *. bool_prop. by apply not_eq_None_Some.
    + destruct (us_DoQ u), (us_DoT u), (us_DoH u); simpl in *; auto.
    + destruct (us_DoH3 u), (us_DoH u); simpl in *; done.
    + by apply validatePinnedPubKey_spec.
  - intros [Hn Hh Hi Hp H3 Hport Hpin]. apply validatePinnedPubKey_spec in Hpin. rewrite Hpin.
    apply String.eqb_neq in Hn as ->. apply String.eqb_neq in Hh as ->.
    assert (nonempty (us_IP u) && bool_decide (ParseIP (us_IP u) = None) = false) as ->.
    { apply andb_false_iff. destruct Hi as [Hi|Hi]; [left; by apply nonempty_false|right].
      apply bool_decide_eq_false. by apply not_eq_None_Some. }
    assert (us_DoH3 u && negb (us_DoH u) = false) as ->.
    { destruct (us_DoH3 u); [by rewrite H3|done]. }
    assert (negb (us_DoQ u) && negb (us_DoT u) && negb (us_DoH u) = false) as ->.
    { destruct Hp as [-> | [-> | ->]]; cbn; by rewrite ?andb_false_r. }
    cases_lia.
Qed.

Lemma validate_upstreams_spec i ups : validate_upstreams i ups = Ok () ↔ Forall upstream_ok ups.
Proof.
  revert i. induction ups as [|u ups IH]; intros i; simpl; [by split|].
  rewrite Forall_cons, <-validate_upstream_spec, <-(IH (S i)).
  destruct (validate_upstream u) as [[]|]; intuition congruence.
Qed.

Lemma validate_advertise_ips_spec i addrs :
  validate_advertise_ips i addrs = Ok () ↔ ∀ a, a ∈ addrs → ∃ ip, ParseIP a = Some ip ∧ IsUnspecified ip = false.
Proof.
  rewrite <-Forall_forall. revert i. induction addrs as [|a addrs IH]; intros i; simpl; [by split|].
  rewrite Forall_cons, <-(IH (S i)). destruct (ParseIP a) as [ip|].
  - destruct (IsUnspecified ip) eqn:E; (split; [|intros [(? & [= <-] & ?) ?]]); try congruence. eauto.
  - split; [done|]. by intros [(? & ? & ?) ?].
Qed.

Lemma validate_advertise_spec u : validate_advertise u = Ok () ↔ advertise_ok u.
Proof.
  unfold validate_advertise, advertise_ok. destruct (u_AdvertiseIPs u) as [|a l] eqn:E; [tauto|].
  rewrite <-(validate_advertise_ips_spec 0). destruct (u_Enabled u); cbn [negb]; [|intuition congruence].
  destruct (String.eqb_spec (u_ListenDoH u) ""), (String.eqb_spec (u_ListenDoT u) ""),
    (String.eqb_spec (u_ListenDoQ u) ""); cbn [andb]; intuition congruence.
Qed.

Lemma first_pinned_spec i ups : first_pinned i ups = Ok () ↔ Forall (λ u, us_PinnedPubKey u = "") ups.
Proof.
  revert i. induction ups as [|u ups IH]; intros i; simpl; [by split|]. rewrite Forall_cons, <-(IH (S i)).
  destruct (String.eqb_spec (us_PinnedPubKey u) ""); intuition congruence.
Qed.

Lemma validateTLSAutomation_spec req t : validateTLSAutomation req t = Ok () ↔ tls_automation_ok req t.
Proof.
  unfold validateTLSAutomation, tls_automation_ok, IsSupportedDNSProvider, nonempty.
  rewrite !elem_of_cons, elem_of_nil. cbn [existsb SupportedDNSProviders].
  destruct (String.eqb_spec (ta_Challenge t) "dns01") as [->|Hc]; cbn [negb].
  - cbn -[String.eqb] in *. change (String.eqb "dns01" "") with false. change (String.eqb "dns01" "http") with false. cbn -[String.eqb].
    destruct (String.eqb_spec (ta_DNSProvider t) ""); [intuition congruence|].
    destruct (String.eqb_spec "cloudflare" (ta_DNSProvider t)) as [<-|]; cbn; [|intuition congruence].
    destruct req, (String.eqb_spec (ta_DNSAPIToken t) ""); cbn; intuition congruence.
  - destruct (String.eqb_spec (ta_Challenge t) "http"), (String.eqb_spec (ta_Challenge t) ""),
      (String.eqb_spec (ta_DNSProvider t) ""), (String.eqb_spec (ta_DNSAPIToken t) ""),
      (String.eqb_spec (ta_DNSAPITokenEnv t) ""), (String.eqb_spec (ta_DNSAPITokenFile t) ""),
      (String.eqb_spec (ta_DNSAPITokenKey t) ""); cbn; intuition congruence.
Qed.

Lemma qtype_loop_spec st names codes res :
  NoDup codes →
  qtype_loop st names codes = Ok res ↔
  ∃ new, res = codes ++ new ∧ Forall2 (λ n c, st (ToUpper (TrimSpace n)) = Some c) names new ∧ NoDup res.
Proof.
  revert codes. induction names as [|n names IH]; intros codes Hnd; simpl.
  - split.
    + intros [= <-]. exists []. by rewrite app_nil_r.
    + intros (new & -> & H & _). inversion H. by rewrite app_nil_r.
  - destruct (st _) as [code|] eqn:E; [|split; [done|intros (? & _ & H & _); inversion H; congruence]].
    destruct (existsb (Z.eqb code) codes) eqn:Ex.
    + apply existsb_elem in Ex as (c & Hc & Ec). apply Z.eqb_eq in Ec as <-. split; [done|].
      intros (new & -> & H & Hn). inversion H; subst. apply NoDup_app in Hn as (_ & Hd & _).
      exfalso. apply (Hd code Hc). assert (y = code) as -> by congruence. by left.
    + assert (Hni : code ∉ codes).
      { intros Hin. apply existsb_false with (x := code) in Ex; [|done]. by rewrite Z.eqb_refl in Ex. }
      rewrite IH by (apply NoDup_app; split_and!; [done|set_solver|apply NoDup_singleton]).
      split.
      * intros (new & -> & H & Hn). exists (code :: new). rewrite <-app_assoc in *. eauto.
      * intros (new & -> & H & Hn). inversion H; subst. assert (y = code) as -> by congruence.
        exists l'. rewrite <-app_assoc. eauto.
Qed.

Lemma validateAllowlist_spec st a : validateAllowlist st a = Ok () ↔ allowlist_ok st a.
Proof.
  unfold validateAllowlist, allowlist_ok, QTypeCodes, qtypes_ok.
  destruct (al_Enabled a); cbn [negb]; [|by split].
  destruct (String.eqb_spec (al_Mode a) "default-deny") as [->|Hm]; cbn.
  - destruct (al_Files a) as [|f fs]; [intuition congruence|].
    pose proof (λ res, qtype_loop_spec st (al_QTypes a) [] res (NoDup_nil_2)) as Hq.
    destruct (qtype_loop st (al_QTypes a) []) as [codes|e]; cbn.
    + destruct (proj1 (Hq codes) eq_refl) as (new & -> & H & Hn). split; [|done]. intros _ _. eauto 6.
    + split; [done|]. intros H. destruct (H eq_refl) as (_ & _ & codes & H2 & Hn).
      by assert (Err e = Ok codes) by (apply Hq; eauto).
  - destruct (String.eqb (al_Mode a) ""), (String.eqb (al_Mode a) "exempt"); (split; [done|]);
      intros H; by destruct (H eq_refl).
Qed.

Lemma resolveCacheType_spec c :
  is_ok (resolveCacheType c) = true ↔ ToLower (TrimSpace (cc_Type c)) ∈ cache_modes.
Proof.
  unfold resolveCacheType, cache_modes. rewrite !elem_of_cons, elem_of_nil.
  repeat match goal with |- context [String.eqb ?a ?b] => destruct (String.eqb_spec a b) as [?|?] end; cbn; intuition congruence.
Qed.

Lemma validate_logging_spec l :
  validate_logging (default_logging l) = Ok () ↔
  lo_Format l ∈ [""; "text"] ∧ lo_Timestamp l ∈ [""; "second"; "ms"; "us"].
Proof.
  unfold validate_logging, default_logging. cbn -[String.eqb]. rewrite !elem_of_cons, !elem_of_nil.
  destruct (String.eqb_spec (lo_Format l) "") as [->|Hf];
    destruct (String.eqb_spec (lo_Timestamp l) "") as [->|Ht]; cbn -[String.eqb];
    repeat match goal with |- context [String.eqb ?a ?b] => destruct (String.eqb_spec a b) as [?|?] end;
    cbn; intuition congruence.
Qed.

(** ** Validation refines its specification *)

Lemma default_listen_fields c :
  let d := default_listen c in
  cfg_UpstreamService d = cfg_UpstreamService c ∧ cfg_Upstreams d = cfg_Upstreams c ∧ cfg_DNSSEC d = cfg_DNSSEC c ∧
  cfg_Allowlist d = cfg_Allowlist c ∧ cfg_Cache d = cfg_Cache c ∧ cfg_Logging d = cfg_Logging c ∧
  cfg_Fallback d = cfg_Fallback c ∧ cfg_TLSAutomation d = cfg_TLSAutomation c ∧ cfg_Metrics d = cfg_Metrics c ∧
  rc_Enabled (cfg_Resolver d) = rc_Enabled (cfg_Resolver c).
Proof. unfold default_listen. destruct (rc_Enabled _) eqn:E, (String.eqb _ _); cbn; by rewrite ?E. Qed.

(** The default address is a literal, and not on port 53. *)
Lemma default_listen_ok os c :
  (Forall (λ fa, literal_addr fa.2) (listen_addrs (default_listen c)) ↔ Forall (λ fa, literal_addr fa.2) (listen_addrs c)) ∧
  (no_cleartext_port os (cfg_Resolver (default_listen c)) ↔ no_cleartext_port os (cfg_Resolver c)).
Proof.
  unfold default_listen. destruct (rc_Enabled (cfg_Resolver c)) eqn:Ee; [|done]. cbn [andb].
  destruct (String.eqb_spec (rc_Listen (cfg_Resolver c)) "") as [El|_]; [|done]. split.
  - unfold listen_addrs. cbn. rewrite !Forall_cons. cbn. rewrite El.
    assert (H1 : literal_addr "127.0.0.1:5300") by (apply validateListenAddr_spec; vm_compute; reflexivity).
    assert (H2 : literal_addr "") by by left. tauto.
  - unfold no_cleartext_port. cbn [cfg_Resolver set_Resolver rc_Enabled rc_Listen]. rewrite El. split; intros _ _ host port.
    + by intros [=].
    + assert (E : SplitHostPort "127.0.0.1:5300" = Some ("127.0.0.1", "5300")) by (vm_compute; reflexivity).
      rewrite E. intros [= <- <-]. unfold listenPortIs53. by assert (Atoi "5300" = Some 5300) as -> by (vm_compute; reflexivity).
Qed.

Lemma normalize_upstreams c : cfg_Upstreams (normalize c) = cfg_Upstreams c.
Proof. unfold normalize. cbn. by rewrite (proj1 (proj2 (default_listen_fields c))). Qed.

Lemma normalize_service c : cfg_UpstreamService (normalize c) = cfg_UpstreamService c.
Proof. unfold normalize. cbn. by rewrite (proj1 (default_listen_fields c)). Qed.

Lemma validate_autogen_spec c :
  validate_autogen c = Ok () ↔
  (u_Enabled (cfg_UpstreamService c) = true → u_TLSCertAutoGen (cfg_UpstreamService c) = true →
    Forall (λ u, us_PinnedPubKey u = "") (cfg_Upstreams c)).
Proof.
  unfold validate_autogen. rewrite <-(first_pinned_spec 0).
  destruct (u_Enabled _), (u_TLSCertAutoGen _); cbn; intuition congruence.
Qed.

Lemma validate_root_key_spec os d :
  validate_root_key os d = Ok () ↔
  (ds_Enabled d = true → ds_RootKeyFile d ≠ "" → is_Some (Stat os (ds_RootKeyFile d))).
Proof.
  unfold validate_root_key. rewrite <-nonempty_true. destruct (ds_Enabled d), (nonempty _); cbn; try by intuition.
  destruct (Stat _ _); split; intros H; try done. by destruct (H eq_refl eq_refl).
Qed.

Section Spec.
Context (os : OS) (StringToType : string → option Z).
Local Abbreviation validate := (validate os StringToType).
Local Abbreviation acceptable := (acceptable os StringToType).

Lemma normalize_eq c x : resolveCacheType (cfg_Cache c) = Ok x →
  normalize c = set_Logging (default_logging (cfg_Logging c)) (set_Fallback (default_fallback (cfg_Fallback c))
      (set_Cache (default_max_size x) (default_listen c))).
Proof.
  pose proof (default_listen_fields c) as F. cbv zeta in F. destruct F as (_ & _ & _ & _ & Fc & Fl & Ff & _).
  intros Hx. unfold normalize, cache_defaults. rewrite Fc, Hx. cbn. by rewrite Fl, Ff.
Qed.

Lemma validate_sound requireToken c c' :
  validate requireToken c = Ok c' → acceptable requireToken c ∧ c' = normalize c.
Proof.
  unfold Config.validate. pose proof (default_listen_fields c) as F. cbv zeta in F.
  destruct F as (Fu & Fus & Fd & Fa & Fc & Fl & Ff & Ft & Fm & Fr).
  intros H. destruct (negb _ && negb _) eqn:Em; [done|].
  apply check_ok in H as [H1%validate_listens_spec H]. apply check_ok in H as [H2%validate_port53_spec H].
  destruct (bool_decide _) eqn:Eu; [done|]. apply bool_decide_eq_false in Eu.
  apply check_ok in H as [H3%validate_upstreams_spec H]. apply check_ok in H as [H4%validate_advertise_spec H].
  apply check_ok in H as [H5 H]. apply check_ok in H as [H6%validateTLSAutomation_spec H].
  apply check_ok in H as [H7%validateAllowlist_spec H]. apply check_ok in H as [H8 H].
  pose proof (proj1 (validate_autogen_spec _) H5) as H5'. pose proof (proj1 (validate_root_key_spec _ _) H8) as H8'. clear H5 H8.
  apply bind_ok in H as (x & Hx & H). apply check_ok in H as [H9 H]. injection H as <-.
  cbn in H9. rewrite ?Fu, ?Fus, ?Fd, ?Fa, ?Fc, ?Fl, ?Ft in *. apply validate_logging_spec in H9 as [??].
  split; [|cbn; rewrite ?Fl, ?Ff; symmetry; by apply normalize_eq].
  apply (proj1 (default_listen_ok os c)) in H1. apply (proj2 (default_listen_ok os c)) in H2. constructor; rewrite ?Fr; try done; try by split.
  + by destruct (rc_Enabled (cfg_Resolver c)), (u_Enabled (cfg_UpstreamService c)); [left|left|right|].
  + apply resolveCacheType_spec. by rewrite Hx.
Qed.

Lemma validate_complete requireToken c :
  acceptable requireToken c → validate requireToken c = Ok (normalize c).
Proof.
  unfold Config.validate. pose proof (default_listen_fields c) as F. cbv zeta in F.
  destruct F as (Fu & Fus & Fd & Fa & Fc & Fl & Ff & Ft & Fm & Fr).
  intros [A1 A2 A3 [A4 A4'] A5 A6 A7 A8 A9 A10 A11 A12].
  assert (negb (rc_Enabled (cfg_Resolver c)) && negb (u_Enabled (cfg_UpstreamService c)) = false) as ->
    by (destruct A1 as [-> | ->]; cbn; by rewrite ?andb_false_r).
  apply (proj1 (default_listen_ok os c)), validate_listens_spec in A2 as ->. apply (proj2 (default_listen_ok os c)), validate_port53_spec in A3 as ->. cbn [res_bind].
  rewrite bool_decide_eq_false_2 by by rewrite Fus.
  rewrite Fus, Fu, Ft, Fa, Fd, Fc. rewrite (proj2 (validate_upstreams_spec 0 _) A4'). cbn [res_bind].
  rewrite (proj2 (validate_advertise_spec _) A5). cbn [res_bind].
  rewrite (proj2 (validate_autogen_spec _)) by (rewrite Fu, Fus; done). cbn [res_bind].
  rewrite (proj2 (validateTLSAutomation_spec _ _) A7). cbn [res_bind].
  rewrite (proj2 (validateAllowlist_spec _ _) A8). cbn [res_bind].
  rewrite (proj2 (validate_root_key_spec _ _) A9). cbn [res_bind].
  apply resolveCacheType_spec in A10. destruct (resolveCacheType (cfg_Cache c)) as [x|] eqn:Hx; [|done].
  cbn [res_bind]. cbn. rewrite Fl, Ff. rewrite (proj2 (validate_logging_spec _)) by done. cbn.
  by rewrite (normalize_eq c x Hx).
Qed.

(** What the code fills in is what the documentation lists. *)
Lemma cache_documented c x : resolveCacheType c = Ok x →
  default_max_size x = mkCacheConfig (cc_Enabled c) (ToLower (TrimSpace (cc_Type c)))
    (if cc_Enabled c then or_int 4096 (cc_MaxSize c) else cc_MaxSize c) (cc_TTLMin x) (cc_TTLMax x) (cc_NegTTLMax x) (cc_ServeStaleMaxS x) (cc_Prefetch c) ∧
  cache_bounds x = match preset_row (ToLower (TrimSpace (cc_Type c))) with
    | Some row => row
    | None => (or_int 60 (cc_TTLMin c), or_int 86400 (cc_TTLMax c), cc_NegTTLMax c, cc_ServeStaleMaxS c)
    end.
Proof.
  intros H. assert (Hm : ToLower (TrimSpace (cc_Type c)) ∈ cache_modes) by (apply resolveCacheType_spec; by rewrite H).
  unfold cache_modes in Hm. rewrite !elem_of_cons, elem_of_nil in Hm. revert H. unfold resolveCacheType, or_int. cbv zeta.
  destruct Hm as [-> | [-> | [-> | [-> | []]]]]; intros [= <-]; unfold default_max_size; cbn;
    (split; [destruct (cc_Enabled c); cbn; [destruct (cc_MaxSize c =? 0)|]; done|done]).
Qed.

Lemma normalize_documented c c' : ToLower (TrimSpace (cc_Type (cfg_Cache c))) ∈ cache_modes → c' = normalize c ↔ documented_defaults c c'.
Proof.
  intros Hm%resolveCacheType_spec. destruct (resolveCacheType (cfg_Cache c)) as [x|] eqn:Hx; [|done].
  rewrite (normalize_eq c x Hx). destruct (cache_documented _ _ Hx) as [-> Hb].
  assert (Hr : cfg_Resolver (default_listen c) = mkResolverConfig (rc_Enabled (cfg_Resolver c))
    (if rc_Enabled (cfg_Resolver c) then or_str "127.0.0.1:5300" (rc_Listen (cfg_Resolver c)) else rc_Listen (cfg_Resolver c))).
  { unfold default_listen, or_str. destruct (cfg_Resolver c) as [[] l] eqn:Er; cbn; [destruct (String.eqb _ _); cbn|]; done. }
  assert (Hd : (cfg_StatsEnabled (default_listen c), cfg_Blocklists (default_listen c)) = (cfg_StatsEnabled c, cfg_Blocklists c))
    by (unfold default_listen; by destruct (_ && _)).
  pose proof (default_listen_fields c) as F. cbv zeta in F. destruct F as (Fu & Fus & Fd & Fa & _ & _ & _ & Ft & Fm & _).
  destruct (default_listen c) as [st rs us ups ds bl al ca me lo fb ta]. cbn in *. injection Hd as -> ->. subst. split.
  - intros ->. by constructor.
  - intros [D1 D2 D3 D4 D5 D6 D7]. destruct c' as [st' rs' us' ups' ds' bl' al' ca' me' lo' fb' ta']. cbn in *.
    injection D1 as -> -> -> -> -> -> -> ->. subst. rewrite <-Hb in D5. destruct ca'; cbn in *. unfold cache_bounds in D5. cbn in D5.
    injection D3 as -> -> ->. injection D5 as -> -> -> ->. by subst.
Qed.


(** *** Defaults are filled in once *)

Lemma default_listen_stable c l f x :
  let d := set_Logging l (set_Fallback f (set_Cache x (default_listen c))) in default_listen d = d.
Proof.
  cbv zeta. unfold default_listen at 1. cbn [cfg_Resolver set_Logging set_Fallback set_Cache].
  unfold default_listen at 1 2. destruct (rc_Enabled (cfg_Resolver c) && String.eqb (rc_Listen (cfg_Resolver c)) "") eqn:E;
    cbv zeta; [done|by rewrite E].
Qed.

Lemma cache_mode_fixed s : ToLower (TrimSpace s) ∈ cache_modes →
  ToLower (TrimSpace (ToLower (TrimSpace s))) = ToLower (TrimSpace s).
Proof. unfold cache_modes. rewrite !elem_of_cons, elem_of_nil. by intros [-> | [-> | [-> | [-> | []]]]]. Qed.

Lemma default_max_size_idem c : default_max_size (default_max_size c) = default_max_size c.
Proof.
  unfold default_max_size. destruct (cc_Enabled c && (cc_MaxSize c =? 0)) eqn:E; cbn; [|by rewrite E].
  by rewrite andb_false_r.
Qed.

Lemma resolveCacheType_idem c x :
  resolveCacheType c = Ok x → resolveCacheType (default_max_size x) = Ok (default_max_size x).
Proof.
  intros H. assert (Hm : ToLower (TrimSpace (cc_Type c)) ∈ cache_modes) by (apply resolveCacheType_spec; by rewrite H).
  unfold cache_modes in Hm. rewrite !elem_of_cons, elem_of_nil in Hm.
  unfold resolveCacheType in H. cbv zeta in H. destruct c as [en ty sz tmin tmax neg stale pre]; cbn [cc_Type cc_Enabled cc_MaxSize cc_TTLMin cc_TTLMax cc_NegTTLMax cc_ServeStaleMaxS cc_Prefetch] in *.
  destruct Hm as [E | [E | [E | [E | []]]]]; rewrite E in H; injection H as <-;
    unfold default_max_size; cbn [cc_Enabled cc_MaxSize]; destruct (en && (sz =? 0)); try reflexivity;
    unfold resolveCacheType; cbn; cases_lia.
Qed.

Lemma normalize_idem c : ToLower (TrimSpace (cc_Type (cfg_Cache c))) ∈ cache_modes → normalize (normalize c) = normalize c.
Proof.
  intros Hm%resolveCacheType_spec. destruct (resolveCacheType (cfg_Cache c)) as [x|] eqn:Hx; [|done].
  rewrite (normalize_eq c x Hx). erewrite normalize_eq; [|apply (resolveCacheType_idem _ _ Hx)].
  cbn [cfg_Logging cfg_Fallback set_Logging set_Fallback set_Cache]. rewrite default_max_size_idem.
  assert (Hf : ∀ f, default_fallback (default_fallback f) = default_fallback f)
    by (intros f; unfold default_fallback; cbn; repeat f_equal; cases_lia).
  assert (Hl : ∀ l, default_logging (default_logging l) = default_logging l)
    by (intros l; unfold default_logging; cbn -[String.eqb]; repeat f_equal; by cases_lia).
  rewrite Hf, Hl, default_listen_stable. done.
Qed.

Lemma acceptable_normalize requireToken c : acceptable requireToken c → acceptable requireToken (normalize c).
Proof.
  intros [A1 A2 A3 [A4 A4'] A5 A6 A7 A8 A9 A10 A11 A12].
  apply (proj1 (default_listen_ok os c)) in A2. apply (proj2 (default_listen_ok os c)) in A3.
  pose proof A10 as Hm. apply resolveCacheType_spec in Hm. destruct (resolveCacheType (cfg_Cache c)) as [x|] eqn:Hx; [|done].
  pose proof (default_listen_fields c) as F. cbv zeta in F.
  destruct F as (Fu & Fus & Fd & Fa & Fc & Fl & Ff & Ft & Fm & Fr).
  rewrite (normalize_eq c x Hx). pose proof (default_listen_stable c (default_logging (cfg_Logging c))
    (default_fallback (cfg_Fallback c)) (default_max_size x)) as Hs. cbv zeta in Hs.
  constructor; rewrite ?Hs; cbn; rewrite ?Fu, ?Fus, ?Fd, ?Fa, ?Ft, ?Fr; try done.
  - apply resolveCacheType_spec. by rewrite (resolveCacheType_idem _ _ Hx).
  - destruct (String.eqb_spec (lo_Format (cfg_Logging c)) ""); set_solver.
  - destruct (String.eqb_spec (lo_Timestamp (cfg_Logging c)) ""); set_solver.
Qed.

(** Validating a validated configuration changes nothing: a configuration the
    loader returns is accepted again, unchanged. *)
Theorem validate_idempotent requireToken c c' :
  validate requireToken c = Ok c' → validate requireToken c' = Ok c'.
Proof.
  intros [H ->]%validate_sound. rewrite validate_complete by by apply acceptable_normalize.
  f_equal. apply normalize_idem, H.
Qed.

End Spec.

(** ** Where the token comes from *)

Lemma normalize_TLSAutomation c : cfg_TLSAutomation (normalize c) = cfg_TLSAutomation c.
Proof. unfold normalize. cbn. apply (default_listen_fields c). Qed.

Lemma normalize_set_TLSAutomation t c : normalize (set_TLSAutomation t c) = set_TLSAutomation t (normalize c).
Proof. unfold normalize, default_listen. cbn. by destruct (_ && _). Qed.

(** The value a single configured source gives. *)
Inductive token_from (os : OS) (configDir : string) (t : TLSAutomationConfig) : string → Prop :=
| from_inline : ta_DNSAPIToken t ≠ "" → token_from os configDir t (ta_DNSAPIToken t)
| from_env : ta_DNSAPITokenEnv t ≠ "" → Getenv os (ta_DNSAPITokenEnv t) ≠ "" →
    token_from os configDir t (Getenv os (ta_DNSAPITokenEnv t))
| from_file v : ta_DNSAPITokenFile t ≠ "" → ta_DNSAPITokenKey t ≠ "" → v ≠ "" →
    tokenFromDotenv os (if IsAbs (ta_DNSAPITokenFile t) then ta_DNSAPITokenFile t
                        else JoinPath configDir (ta_DNSAPITokenFile t)) (ta_DNSAPITokenKey t) = Ok v →
    token_from os configDir t v.

Lemma dotenv_lines_nonempty key lines v : dotenv_lines key lines = Ok v → v ≠ "".
Proof.
  induction lines as [|l lines IH]; simpl; [done|]. destruct (dotenv_line key l) as [w|]; [|done].
  destruct (String.eqb_spec w ""); [done|]. by intros [= <-].
Qed.

Lemma tokenFromDotenv_nonempty os path key v : tokenFromDotenv os path key = Ok v → v ≠ "".
Proof. unfold tokenFromDotenv. intros H. split_in H. by eapply dotenv_lines_nonempty. Qed.

(** A successful resolution only sets the token, from the one source there is. *)
Lemma resolveDNSAPIToken_spec os dir t t' :
  resolveDNSAPIToken os dir t = Ok t' →
  t' = set_DNSAPIToken (ta_DNSAPIToken t') t ∧ (List.length (token_sources t) ≤ 1)%nat ∧
  (ta_DNSAPIToken t' ≠ "" → List.length (token_sources t) = 1%nat ∧ token_from os dir t (ta_DNSAPIToken t')) ∧
  (ta_DNSAPITokenEnv t = "" → ta_DNSAPITokenFile t = "" → t' = t).
Proof.
  unfold resolveDNSAPIToken. cbv zeta. destruct (1 <? _)%nat eqn:En; [done|]. apply Nat.ltb_ge in En.
  destruct (nonempty (ta_DNSAPITokenKey t) && _); [done|].
  destruct (nonempty (ta_DNSAPITokenEnv t)) eqn:Ee.
  { apply nonempty_true in Ee as Ee'. destruct (String.eqb_spec (Getenv os (ta_DNSAPITokenEnv t)) ""); [done|].
    intros [= <-]. cbn. split_and!; try done. intros _. split; [|by constructor].
    unfold token_sources in *. rewrite Ee in *. destruct (nonempty (ta_DNSAPIToken t)), (nonempty (ta_DNSAPITokenFile t)); cbn in *; lia. }
  apply nonempty_false in Ee as Ee'. destruct (nonempty (ta_DNSAPITokenFile t)) eqn:Ef.
  { apply nonempty_true in Ef as Ef'. destruct (String.eqb_spec (ta_DNSAPITokenKey t) ""); [done|].
    intros (v & Hv & [= <-])%bind_ok. cbn. split_and!; try done. intros _. split.
    - unfold token_sources in *. rewrite Ee, Ef in *. destruct (nonempty (ta_DNSAPIToken t)); cbn in *; lia.
    - apply from_file; try done; [by eapply tokenFromDotenv_nonempty|]. by destruct (IsAbs _). }
  intros [= <-]. split_and!; try done; [by destruct t|].
  intros Ht. split; [|by constructor]. unfold token_sources. rewrite Ee, Ef. by apply nonempty_true in Ht as ->.
Qed.

Section Loading.
Context (os : OS) (StringToType : string → option Z).
Context (TomlDecode : string → Config → option (Config * MetaData)).
Local Abbreviation Load := (Load os StringToType TomlDecode).
Local Abbreviation LoadForDiagnostics := (LoadForDiagnostics os StringToType TomlDecode).

(** What a path decodes to when its keys are all known and do not conflict. *)
Definition decodes (path : string) (cfg : Config) : Prop :=
  ∃ data md, ReadFile os path = Some data ∧ TomlDecode data seed = Some (cfg, md) ∧
    Undecoded md = [] ∧ cache_conflicts md = [].

Lemma load_inv path b c : load os StringToType TomlDecode path b = Ok c →
  ∃ cfg, decodes path cfg ∧
    if b then ∃ t, resolveDNSAPIToken os (Dir path) (cfg_TLSAutomation cfg) = Ok t ∧
                   validate os StringToType true (set_TLSAutomation t cfg) = Ok c
    else validate os StringToType false cfg = Ok c.
Proof.
  unfold load, decodes. intros H. destruct (ReadFile os path) as [data|]; [|done].
  destruct (TomlDecode data seed) as [[cfg md]|] eqn:Hdec; [|done].
  case_bool_decide; [|done]. case_bool_decide; [|done]. exists cfg. split; [eauto 8|].
  destruct b; cbn in H |- *; [|exact H]. destruct (resolveDNSAPIToken _ _ _) as [t|]; [eauto|done].
Qed.

Lemma load_diagnostics path cfg : decodes path cfg →
  load os StringToType TomlDecode path false = validate os StringToType false cfg.
Proof.
  intros (data & md & Hr & Hd & Hu & Hc). unfold load. rewrite Hr, Hd.
  rewrite bool_decide_eq_true_2 by done. by rewrite bool_decide_eq_true_2.
Qed.

(** A daemon that starts with the DNS-01 challenge has a non-empty token, and it
    came from exactly one of the three sources in the file. *)
Theorem Load_token_source path c :
  Load path = Ok c → ta_Challenge (cfg_TLSAutomation c) = "dns01" →
  ∃ cfg, decodes path cfg ∧ List.length (token_sources (cfg_TLSAutomation cfg)) = 1%nat ∧
    token_from os (Dir path) (cfg_TLSAutomation cfg) (ta_DNSAPIToken (cfg_TLSAutomation c)).
Proof.
  intros (cfg & Hd & t & Ht & [Ha ->]%validate_sound)%load_inv. rewrite normalize_TLSAutomation. cbn. intros Hc.
  exists cfg. split; [done|]. apply resolveDNSAPIToken_spec in Ht as (_ & _ & Ht & _). apply Ht.
  destruct (ac_tls _ _ _ _ Ha) as [(Hn & _)|(_ & _ & Hn)]; [|by apply Hn].
  cbn in Hn. rewrite Hc in Hn. set_solver.
Qed.

(** The read-only verbs accept every file the daemon accepts, and see the same
    configuration up to the token. *)
Theorem LoadForDiagnostics_agrees path c :
  Load path = Ok c →
  ∃ c', LoadForDiagnostics path = Ok c' ∧
    c = set_TLSAutomation (set_DNSAPIToken (ta_DNSAPIToken (cfg_TLSAutomation c)) (cfg_TLSAutomation c')) c'.
Proof.
  intros (cfg & Hd & t & Ht & [Ha ->]%validate_sound)%load_inv.
  apply resolveDNSAPIToken_spec in Ht as (Hs & _ & _ & Hid). exists (normalize cfg). split.
  - unfold Config.LoadForDiagnostics. rewrite (load_diagnostics _ _ Hd). apply validate_complete.
    destruct Ha as [A1 A2 A3 A4 A5 A6 A7 A8 A9 A10 A11 A12]. constructor; try done.
    cbn in A7. destruct A7 as [(B1 & B2 & B3 & B4 & B5 & B6)|(B1 & B2 & _)]; rewrite Hs in *; cbn in *.
    + left. assert (t = cfg_TLSAutomation cfg) as -> by (rewrite Hs; by apply Hid). done.
    + right. done.
  - rewrite normalize_set_TLSAutomation, (normalize_TLSAutomation cfg).
    cbn [cfg_TLSAutomation set_TLSAutomation]. by rewrite <-Hs.
Qed.

End Loading.

(** ** Reading back a dotenv file *)

Lemma trim_left_le s : (String.length (trim_left s) ≤ String.length s)%nat.
Proof. induction s as [|a s IH]; simpl; [lia|]. destruct (is_space a); simpl; lia. Qed.

Lemma trim_right_le s : (String.length (trim_right s) ≤ String.length s)%nat.
Proof. induction s as [|a s IH]; simpl; [lia|]. destruct (_ && _); simpl; lia. Qed.

Lemma trim_left_full s : String.length (trim_left s) = String.length s → trim_left s = s.
Proof.
  destruct s as [|a s]; simpl; [done|]. destruct (is_space a); [|done].
  pose proof (trim_left_le s). lia.
Qed.

Lemma TrimSpace_fixed s : TrimSpace s = s → trim_left s = s ∧ trim_right s = s.
Proof.
  unfold TrimSpace. intros H. assert (E : trim_left s = s).
  { apply trim_left_full. pose proof (trim_right_le (trim_left s)). pose proof (trim_left_le s).
    apply (f_equal String.length) in H. lia. }
  by rewrite E in H.
Qed.

Lemma trim_right_app s t : trim_right t = t → t ≠ "" → trim_right (s +:+ t) = s +:+ t.
Proof.
  intros Ht Hn. induction s as [|a s IH]; [done|]. simpl. rewrite IH.
  destruct (String.eqb_spec (s +:+ t) "") as [E|]; [|by rewrite andb_false_r].
  destruct s; simpl in E; [done|discriminate].
Qed.

Lemma Cut_app k c v : ContainsByte k c = false → Cut (k +:+ String c v) c = Some (k, v).
Proof.
  induction k as [|a k IH]; simpl; [by rewrite Ascii.eqb_refl|].
  rewrite ContainsByte_cons. intros [-> H]%orb_false_iff. by rewrite IH.
Qed.

(** The characters of a variable name. *)
Definition is_key_char (a : ascii) : bool := is_alnum a || Ascii.eqb a "_".
Definition is_key (k : string) : bool := nonempty k && forallb is_key_char (schars k).

Lemma key_char_facts a : is_key_char a = true →
  is_space a = false ∧ Ascii.eqb "=" a = false ∧ Ascii.eqb "#" a = false ∧ Ascii.eqb "010" a = false.
Proof. destruct a as [[] [] [] [] [] [] [] []]; vm_compute; intuition congruence. Qed.

Lemma key_no_byte k c : forallb is_key_char (schars k) = true →
  (∀ a, is_key_char a = true → Ascii.eqb c a = false) → ContainsByte k c = false.
Proof.
  intros H Hc. unfold ContainsByte. apply existsb_false. intros a Ha. apply Hc.
  by apply (proj1 (forallb_elem _ _) H).
Qed.

Lemma key_trimmed k : forallb is_key_char (schars k) = true → TrimSpace k = k.
Proof.
  intros H. assert (E : trim_left k = k).
  { destruct k as [|a k]; [done|]. simpl in *. apply andb_true_iff in H as [Ha _].
    by apply key_char_facts in Ha as [-> _]. }
  unfold TrimSpace. rewrite E. clear E. induction k as [|a k IH]; [done|]. simpl in *.
  apply andb_true_iff in H as [Ha H]. apply key_char_facts in Ha as [-> _]. cbn. by rewrite IH.
Qed.

(** A prefix without [=] that is not made of key characters is no prefix of an assignment. *)
Lemma key_no_prefix p k r : forallb is_key_char (schars p) = false → ContainsByte p "=" = false →
  forallb is_key_char (schars k) = true → HasPrefix (k +:+ String "=" r) p = false.
Proof.
  unfold HasPrefix. revert k. induction p as [|b p IH]; intros k; simpl; [done|].
  rewrite ContainsByte_cons. intros Hp [Hb Hq]%orb_false_iff Hk. apply Ascii.eqb_neq in Hb.
  destruct k as [|a k]; simpl in *.
  - destruct (ascii_dec b "="); [congruence|done].
  - apply andb_true_iff in Hk as [Ha Hk]. destruct (ascii_dec b a) as [->|]; [|done].
    rewrite Ha in Hp. by apply IH.
Qed.

(** The ways to write a value: as it is, when nothing would be removed from it,
    or between two quotes of the same kind. *)
Definition written_as (v raw : string) : Prop :=
  (raw = v ∧ TrimSpace v = v ∧ strip_quotes v = v) ∨
  raw = String "034" (v +:+ String "034" "") ∨ raw = String "039" (v +:+ String "039" "").

Lemma strip_quotes_quoted q v : Ascii.eqb q "034" || Ascii.eqb q "039" = true →
  strip_quotes (String q (v +:+ String q "")) = v.
Proof.
  intros Hq. unfold strip_quotes. cbn [schars]. rewrite schars_app. cbn [schars].
  destruct (schars v ++ [q]) as [|a l] eqn:E; [by destruct (schars v)|].
  rewrite Hq, <-E, last_last, Ascii.eqb_refl, removelast_last. apply of_chars_schars.
Qed.

Lemma written_as_spec v raw : v ≠ "" → written_as v raw →
  trim_right raw = raw ∧ raw ≠ "" ∧ strip_quotes (TrimSpace raw) = v.
Proof.
  intros Hv. assert (Hq : ∀ q, is_space q = false → Ascii.eqb q "034" || Ascii.eqb q "039" = true →
    raw = String q (v +:+ String q "") → trim_right raw = raw ∧ raw ≠ "" ∧ strip_quotes (TrimSpace raw) = v).
  { intros q Hs Hq ->. assert (Ht : trim_right (String q (v +:+ String q "")) = String q (v +:+ String q "")).
    { change (String q (v +:+ String q "")) with (String q v +:+ String q ""). apply trim_right_app; [|done].
      simpl. by rewrite Hs. }
    split_and!; [done..|]. unfold TrimSpace. cbn [trim_left]. rewrite Hs, Ht. by apply strip_quotes_quoted. }
  intros [(-> & Ht & Hs)|[H|H]]; [|by apply (Hq "034"%char)|by apply (Hq "039"%char)].
  apply TrimSpace_fixed in Ht as Ht'. rewrite Ht, Hs. tauto.
Qed.

(** A line [key=value], also with [export] before it. *)
Lemma dotenv_line_assign ex key v raw :
  ex ∈ [""; "export "] → is_key key = true → v ≠ "" → written_as v raw →
  dotenv_line key (ex +:+ key +:+ String "=" raw) = Some v.
Proof.
  intros Hex [Hk1%nonempty_true Hk]%andb_true_iff Hv (Hr1 & Hr2 & Hr3)%written_as_spec; [|done].
  set (asg := key +:+ String "=" raw).
  assert (Hl : trim_left (ex +:+ asg) = ex +:+ asg).
  { rewrite !elem_of_cons, elem_of_nil in Hex. destruct Hex as [-> | [-> | []]]; [|done].
    subst asg. destruct key as [|a key]; [done|]. simpl in *. apply andb_true_iff in Hk as [Ha _].
    by apply key_char_facts in Ha as [-> _]. }
  assert (Ht : TrimSpace (ex +:+ asg) = ex +:+ asg).
  { unfold TrimSpace. rewrite Hl. subst asg. rewrite <-sapp_assoc. apply trim_right_app; [|done].
    simpl. destruct (String.eqb_spec (trim_right raw) ""); [congruence|]. by rewrite Hr1. }
  assert (Hp : TrimPrefix (ex +:+ asg) "export " = asg).
  { rewrite !elem_of_cons, elem_of_nil in Hex. destruct Hex as [-> | [-> | []]]; [|apply TrimPrefix_app].
    unfold TrimPrefix. change ("" +:+ asg) with asg. subst asg. by rewrite key_no_prefix. }
  assert (Hh : HasPrefix (ex +:+ asg) "#" = false).
  { rewrite !elem_of_cons, elem_of_nil in Hex. destruct Hex as [-> | [-> | []]]; [|done].
    change ("" +:+ asg) with asg. subst asg. by apply key_no_prefix. }
  unfold dotenv_line. rewrite Ht, Hh, Hp. destruct (String.eqb_spec (ex +:+ asg) "") as [E|].
  { subst asg. destruct ex, key; done. }
  cbn [orb]. subst asg. rewrite Cut_app by (apply key_no_byte; [done|]; intros a Ha; by apply key_char_facts in Ha as (_ & ? & _)).
  rewrite (key_trimmed key Hk), String.eqb_refl. cbn. by rewrite Hr3.
Qed.

Lemma Split_Join l c : l ≠ [] → Forall (λ s, ContainsByte s c = false) l → Split (Join l (String c "")) c = l.
Proof.
  intros Hn H. induction H as [|s l Hs H IH]; [done|]. destruct l as [|t l]; [by apply Split_nosep|].
  rewrite Join_cons. change (String c "" +:+ Join (t :: l) (String c "")) with (String c (Join (t :: l) (String c ""))).
  rewrite Split_app_sep, IH, (Split_nosep s) by done. done.
Qed.

Lemma dotenv_lines_app key pre l : Forall (λ s, dotenv_line key s = None) pre →
  dotenv_lines key (pre ++ l) = dotenv_lines key l.
Proof. induction 1 as [|s pre Hs _ IH]; simpl; [done|]. by rewrite Hs. Qed.

(** A token written to a dotenv file, plain or quoted and with or without
    [export], is read back as it was, whatever other lines the file has, as long
    as no earlier line sets the same key. *)
Theorem dotenv_roundtrip os path perm key v raw ex pre post :
  is_key key = true → v ≠ "" → written_as v raw → ex ∈ [""; "export "] →
  Forall (λ l, ContainsByte l "010" = false) (pre ++ (ex +:+ key +:+ String "=" raw) :: post) →
  Forall (λ l, dotenv_line key l = None) pre →
  Stat os path = Some perm →
  ReadFile os path = Some (Join (pre ++ (ex +:+ key +:+ String "=" raw) :: post) (String "010" "")) →
  tokenFromDotenv os path key = Ok v.
Proof.
  intros Hk Hv Hw Hex Hnl Hpre Hs Hr. unfold tokenFromDotenv. rewrite Hs, Hr.
  rewrite Split_Join; [|by destruct pre|done]. rewrite dotenv_lines_app by done. cbn [dotenv_lines].
  rewrite (dotenv_line_assign ex key v raw) by done. by destruct (String.eqb_spec v "").
Qed.

(** ** Pins *)

(** The pin printed for a certificate parses back to the digest of its key. *)
Theorem ParsePin_SPKIPin sum256 rawSPKI :
  String.length (sum256 rawSPKI) = pinSHA256Len → ParsePin (SPKIPin sum256 rawSPKI) = Ok (sum256 rawSPKI).
Proof. intros H. apply ParsePin_spec. exists (Std.EncodeToString (sum256 rawSPKI)). by rewrite Std.padded_Decode_Encode. Qed.

(** ** Cache settings *)

(** A preset owns the four knobs, and all of them are in range. *)
Lemma preset_bounds c x : resolveCacheType c = Ok x → cc_Type x ≠ "" →
  0 ≤ cc_TTLMin x ∧ cc_TTLMin x < cc_TTLMax x ∧ cc_TTLMax x ≤ 604800 ∧
  0 ≤ cc_NegTTLMax x ≤ 300 ∧ 0 ≤ cc_ServeStaleMaxS x ≤ 3600.
Proof. unfold resolveCacheType. cbv zeta. intros H. split_in H; injection H as <-; cbn; bool_prop; intuition lia. Qed.

(** ** Examples *)

Definition ex_os : OS :=
  mkOS (λ n, if String.eqb n "RCVD_TOKEN" then "s3cret" else "")
       (λ p, if String.eqb p "/etc/rcvd/.env" then Some 384 else None)
       (λ p, if String.eqb p "/etc/rcvd/.env" then Some (Join ["# token"; "export CF_TOKEN='abc def'"; ""] (String "010" ""))
             else if String.eqb p "/etc/rcvd/rcvd.toml" then Some "(toml)" else None)
       (λ p, if String.eqb p "domain" then Some 53 else None).

Definition ex_types (s : string) : option Z :=
  if String.eqb s "A" then Some 1 else if String.eqb s "AAAA" then Some 28 else None.

Definition ex_upstream : UpstreamServer :=
  mkUpstreamServer "Quad9" "dns.quad9.net" "9.9.9.9" 853 true true false "" false "".

Definition ex_config (listen : string) : Config :=
  mkConfig false (mkResolverConfig true listen) (mkUpstreamConfig false "" "" "" false [] [] false false "" "")
    [ex_upstream] (mkDNSSECConfig true false "") (mkBlocklistConfig true [] [] "") (mkAllowlistConfig false "" [] [])
    (mkCacheConfig true " Light " 0 0 0 0 0 false) (mkMetricsConfig false "") (mkLoggingConfig "" "" "" "")
    (mkFallbackConfig 0 0 0 0 0)
    (mkTLSAutomationConfig false [] "" "" false "dns01" "cloudflare" "" "" ".env" "CF_TOKEN").

Definition ex_toml (data : string) (c : Config) : option (Config * MetaData) :=
  Some (ex_config "", mkMetaData [] (λ _ k, String.eqb k "type")).

Definition config_result (r : result Config cfg_error) : option (string * string * Z * string) + cfg_error :=
  match r with
  | Ok c => inl (Some (rc_Listen (cfg_Resolver c), cc_Type (cfg_Cache c), cc_TTLMax (cfg_Cache c), ta_DNSAPIToken (cfg_TLSAutomation c)))
  | Err e => inr e
  end.

Example load_example :
  config_result (Load ex_os ex_types ex_toml "/etc/rcvd/rcvd.toml") = inl (Some ("127.0.0.1:5300", "light", 3600, "abc def")) ∧
  config_result (LoadForDiagnostics ex_os ex_types ex_toml "/etc/rcvd/rcvd.toml") = inl (Some ("127.0.0.1:5300", "light", 3600, "")) ∧
  config_result (Load ex_os ex_types ex_toml "/nowhere") = inr ERead.
Proof. vm_compute. done. Qed.

Example listen_examples :
  (λ l, config_result (validate ex_os ex_types false (ex_config l))) <$>
    ["127.0.0.1:53"; "[::1]:53"; "[::1%lo]:53"; ":53"; "0.0.0.0:domain"; "192.168.1.1:+053"; "localhost:5300"; "1.2.3.4"; "1.2.3.4:"]
  = [inl (Some ("127.0.0.1:53", "light", 3600, "")); inl (Some ("[::1]:53", "light", 3600, ""));
     inr (EPort53 "[::1%lo]:53"); inr (EPort53 ":53"); inr (EPort53 "0.0.0.0:domain"); inr (EPort53 "192.168.1.1:+053");
     inr (EListen "resolver.listen" "localhost:5300" EListenHost); inr (EListen "resolver.listen" "1.2.3.4" EListenSplit);
     inr (EListen "resolver.listen" "1.2.3.4:" EListenPort)].
Proof. vm_compute. done. Qed.

(** An address on every interface, or with a zone, is reachable from the network
    and accepted without a warning; a single network address is warned about. *)
Example wildcard_not_warned :
  (λ l, (is_ok (validate ex_os ex_types false (ex_config l)), Warnings ex_os (ex_config l))) <$>
    ["192.168.1.1:5300"; "0.0.0.0:5300"; ":5300"; "[fe80::1%eth0]:5300"]
  = [(true, ["192.168.1.1:5300"]); (true, []); (true, []); (true, [])].
Proof. vm_compute. done. Qed.

(** The default of [doh_path] is not stored. *)
Example doh_path_default_lost :
  let up := mkUpstreamServer "Q" "dns.quad9.net" "" 443 false false true "" false "" in
  let c := ex_config "" in
  match validate ex_os ex_types false (mkConfig (cfg_StatsEnabled c) (cfg_Resolver c) (cfg_UpstreamService c) [up] (cfg_DNSSEC c)
    (cfg_Blocklists c) (cfg_Allowlist c) (cfg_Cache c) (cfg_Metrics c) (cfg_Logging c) (cfg_Fallback c) (cfg_TLSAutomation c)) with
  | Ok c' => us_DoHPath <$> cfg_Upstreams c' = [""]
  | Err _ => False
  end.
Proof. vm_compute. done. Qed.

Lemma validate_idempotent_witness :
  validate ex_os ex_types false (normalize (ex_config "")) = Ok (normalize (ex_config "")).
Proof. apply (validate_idempotent ex_os ex_types false (ex_config "")). vm_compute. reflexivity. Defined.

Definition ex_loaded : Config := normalize (set_TLSAutomation (set_DNSAPIToken "abc def" (cfg_TLSAutomation (ex_config ""))) (ex_config "")).

Lemma Load_token_source_witness :
  ∃ cfg, decodes ex_os ex_toml "/etc/rcvd/rcvd.toml" cfg ∧
    List.length (token_sources (cfg_TLSAutomation cfg)) = 1%nat ∧
    token_from ex_os (Dir "/etc/rcvd/rcvd.toml") (cfg_TLSAutomation cfg) "abc def".
Proof. apply (Load_token_source ex_os ex_types ex_toml "/etc/rcvd/rcvd.toml" ex_loaded); vm_compute; reflexivity. Defined.

Lemma LoadForDiagnostics_agrees_witness :
  ∃ c', LoadForDiagnostics ex_os ex_types ex_toml "/etc/rcvd/rcvd.toml" = Ok c' ∧
    ex_loaded = set_TLSAutomation (set_DNSAPIToken "abc def" (cfg_TLSAutomation c')) c'.
Proof. apply (LoadForDiagnostics_agrees ex_os ex_types ex_toml "/etc/rcvd/rcvd.toml" ex_loaded). vm_compute. reflexivity. Defined.

Lemma dotenv_roundtrip_witness : tokenFromDotenv ex_os "/etc/rcvd/.env" "CF_TOKEN" = Ok "abc def".
Proof.
  apply (dotenv_roundtrip ex_os "/etc/rcvd/.env" 384 "CF_TOKEN" "abc def" "'abc def'" "export " ["# token"] [""]);
    try (vm_compute; reflexivity); try done; [right; right; reflexivity|set_solver|repeat constructor|repeat constructor].
Defined.

Lemma ParsePin_SPKIPin_witness :
  ParsePin (SPKIPin (λ _, "0123456789abcdef0123456789abcdef") "key") = Ok "0123456789abcdef0123456789abcdef".
Proof. apply (ParsePin_SPKIPin (λ _, "0123456789abcdef0123456789abcdef") "key"). reflexivity. Defined.
