(* ===== verification/Automation.v ===== *)
(** * Certificate automation of Mode 2 (internal/rcvd_tls/automation.go)

    What the manager asks of the certificate library: which challenges it may use,
    for which names, from which authority, and when certificates are obtained.  The
    library itself, which talks to the authority, is not part of the repository; the
    outcomes of its calls are the record [AutoEnv]. *)

From S2P Require Import Prelude GoStrings GoNet GoFmt GoFilepath GoTime Logger Config.
From Stdlib Require Import Ascii String.
Open Scope string_scope.
Open Scope list_scope.
Open Scope Z_scope.

(** ** Configuration and state *)

Record AutomationConfig := mkAutomationConfig {
  ac_OnDemand : bool; ac_AllowedDomains : list string; ac_StorageDir : string; ac_Email : string; ac_Staging : bool;
  ac_Challenge : string; ac_DNSProvider : string; ac_DNSAPIToken : string; ac_LogTimestamp : string }.

Inductive auto_error :=
| EConfigRequired | EOnDemandDomains | EDNSProvider | EDNSAPIToken | EInvalidChallenge (c : string)
| EHomeDir | EStorageDir (dir : string) | EUnsupportedProvider (p : string).

Inductive manage_error := EManageAsync | EManageSync.

(** The directory servers of Let's Encrypt. *)
Inductive CADirectory := LetsEncryptProductionCA | LetsEncryptStagingCA.

Record DNS01Solver := mkSolver {
  ds_provider : string; ds_token : string; PropagationTimeout : Z; PropagationDelay : Z }.

(** [is_TestCA] is [None] when the library's default is kept. *)
Record ACMEIssuer := mkIssuer {
  is_Email : string; is_DisableHTTPChallenge : bool; is_DisableTLSALPNChallenge : bool;
  is_DNS01Solver : option DNS01Solver; is_CA : CADirectory; is_TestCA : option CADirectory }.

(** [m_onDemand]: the decision function the library is given for names it meets in a
    handshake; without one it obtains nothing on demand. *)
Record Manager := mkManager { m_cfg : AutomationConfig; m_storage : string; m_issuer : ACMEIssuer; m_onDemand : option (string → bool) }.

Record AutoEnv := mkAutoEnv {
  ae_home : option string;             (* os.UserHomeDir *)
  ae_mkdir : string → bool;            (* os.MkdirAll succeeds *)
  ae_async : list string → bool;       (* ManageAsync succeeds *)
  ae_sync : list string → bool         (* ManageSync succeeds *) }.

(** ** Operations *)

(** The layout of the bridged log lines. *)
Definition isoLayout (precision : string) : string :=
  if String.eqb precision "ms" then "2006-01-02T15:04:05.000Z"
  else if String.eqb precision "us" then "2006-01-02T15:04:05.000000Z"
  else "2006-01-02T15:04:05Z".

Definition newNoCleartextDNS01Solver (cfg : AutomationConfig) : result DNS01Solver auto_error :=
  if String.eqb (ac_DNSProvider cfg) "cloudflare"
  then Ok (mkSolver "cloudflare" (ac_DNSAPIToken cfg) (-1) (30 * second))
  else Err (EUnsupportedProvider (ac_DNSProvider cfg)).

(** The checks at the top of [NewManager]. *)
Definition manager_checks (cfg : AutomationConfig) : result () auto_error :=
  if ac_OnDemand cfg && bool_decide (ac_AllowedDomains cfg = []) then Err EOnDemandDomains else
  if String.eqb (ac_Challenge cfg) "dns01" then
    if String.eqb (ac_DNSProvider cfg) "" then Err EDNSProvider else
    if String.eqb (ac_DNSAPIToken cfg) "" then Err EDNSAPIToken else Ok ()
  else if nonempty (ac_Challenge cfg) && negb (String.eqb (ac_Challenge cfg) "http")
  then Err (EInvalidChallenge (ac_Challenge cfg)) else Ok ().

Definition storage_dir (env : AutoEnv) (cfg : AutomationConfig) : result string auto_error :=
  if nonempty (ac_StorageDir cfg) then Ok (ac_StorageDir cfg) else
  match ae_home env with
  | None => Err EHomeDir
  | Some home => Ok (JoinPath home ".rcvd/certs")
  end.

Definition new_issuer (cfg : AutomationConfig) : result ACMEIssuer auto_error :=
  try tmpl ←
    (if String.eqb (ac_Challenge cfg) "dns01" then
       try solver ← newNoCleartextDNS01Solver cfg;
       Ok (mkIssuer (ac_Email cfg) true true (Some solver) LetsEncryptProductionCA None)
     else Ok (mkIssuer (ac_Email cfg) false false None LetsEncryptProductionCA None));
  Ok (if ac_Staging cfg
      then mkIssuer (is_Email tmpl) (is_DisableHTTPChallenge tmpl) (is_DisableTLSALPNChallenge tmpl) (is_DNS01Solver tmpl)
             LetsEncryptStagingCA (Some LetsEncryptStagingCA)
      else tmpl).

(** [IsAllowed], of the configuration the manager keeps: [true] for a nil error. *)
Definition allowed_in (cfg : AutomationConfig) (name : string) : bool := existsb (String.eqb name) (ac_AllowedDomains cfg).

Definition IsAllowed (m : Manager) : string → bool := allowed_in (m_cfg m).

Definition NewManager (env : AutoEnv) (cfg : option AutomationConfig) : result Manager auto_error :=
  match cfg with
  | None => Err EConfigRequired
  | Some cfg =>
      check manager_checks cfg;
      try storageDir ← storage_dir env cfg;
      if negb (ae_mkdir env storageDir) then Err (EStorageDir storageDir) else
      try issuer ← new_issuer cfg;
      Ok (mkManager cfg storageDir issuer (if ac_OnDemand cfg then Some (allowed_in cfg) else None))
  end.

(** What the listeners are given: the library's own configuration for on-demand
    certificates, otherwise one that offers only h2. *)
Inductive base_tls := LibraryTLS | BaseTLS (NextProtos : list string).

Definition GetTLSConfig (m : Manager) : base_tls := if ac_OnDemand (m_cfg m) then LibraryTLS else BaseTLS ["h2"].

(** The call of the library [ManageDomains] makes, if any. *)
Inductive manage_call := ManageAsync (ds : list string) | ManageSync (ds : list string).

Definition manage_call_of (m : Manager) : option manage_call :=
  match ac_AllowedDomains (m_cfg m) with
  | [] => None
  | ds => Some (if ac_OnDemand (m_cfg m) then ManageAsync ds else ManageSync ds)
  end.

Definition ManageDomains (env : AutoEnv) (m : Manager) : option manage_error :=
  match manage_call_of m with
  | None => None
  | Some (ManageAsync ds) => if ae_async env ds then None else Some EManageAsync
  | Some (ManageSync ds) => if ae_sync env ds then None else Some EManageSync
  end.

(** The automation configuration [setupTLS] builds from the file. *)
Definition automation_of (t : TLSAutomationConfig) (timestamp : string) : AutomationConfig :=
  mkAutomationConfig (ta_OnDemand t) (ta_AllowedDomains t) (ta_StorageDir t) (ta_Email t) (ta_Staging t) (ta_Challenge t)
    (ta_DNSProvider t) (ta_DNSAPIToken t) timestamp.

(** ** Properties *)

(** The two copies of the layout agree: one time format in the whole log file. *)
Lemma isoLayout_TimeLayout p : isoLayout p = TimeLayout p.
Proof. done. Qed.

Lemma new_issuer_inv cfg i : new_issuer cfg = Ok i →
  (ac_Challenge cfg = "dns01" ∧ is_DisableHTTPChallenge i = true ∧ is_DisableTLSALPNChallenge i = true ∧
     is_DNS01Solver i = Some (mkSolver (ac_DNSProvider cfg) (ac_DNSAPIToken cfg) (-1) (30 * second)) ∧
     ac_DNSProvider cfg ∈ SupportedDNSProviders ∨
   ac_Challenge cfg ≠ "dns01" ∧ is_DNS01Solver i = None) ∧
  is_CA i = (if ac_Staging cfg then LetsEncryptStagingCA else LetsEncryptProductionCA).
Proof.
  unfold new_issuer, newNoCleartextDNS01Solver. destruct (String.eqb_spec (ac_Challenge cfg) "dns01") as [Hc|Hc].
  - destruct (String.eqb_spec (ac_DNSProvider cfg) "cloudflare") as [Hp|]; [|done]. cbn. intros [= <-].
    rewrite Hp. destruct (ac_Staging cfg); cbn; (split; [left; split_and!; [done..|left]|done]).
  - cbn. intros [= <-]. destruct (ac_Staging cfg); cbn; (split; [right; done|done]).
Qed.

Lemma NewManager_inv env cfg m : NewManager env (Some cfg) = Ok m →
  manager_checks cfg = Ok () ∧ storage_dir env cfg = Ok (m_storage m) ∧ m_cfg m = cfg ∧ new_issuer cfg = Ok (m_issuer m) ∧
  m_onDemand m = (if ac_OnDemand cfg then Some (allowed_in cfg) else None).
Proof.
  unfold NewManager. rewrite check_ok, bind_ok. intros (H1 & dir & H2 & H3). destruct (ae_mkdir env dir); [cbn in H3|done].
  apply bind_ok in H3 as (i & H4 & [= <-]). done.
Qed.

(** C34: What a manager lets the certificate library do.  With the DNS-01 challenge the
    library's propagation probe is switched off (PropagationTimeout = -1), the two
    challenges that need an inbound connection are disabled, the provider is one the
    configuration knows and its token is not empty; with any other challenge there is no
    DNS-01 solver at all.  For on-demand issuance the decision function is installed: it
    is IsAllowed, it admits exactly the configured names, and there is at least one;
    without on-demand issuance no decision function is installed.  The staging
    authority is used exactly when it is configured. *)
Theorem issuance_guarded env cfg m :
  NewManager env (Some cfg) = Ok m →
  (match is_DNS01Solver (m_issuer m) with
   | Some s => ac_Challenge cfg = "dns01" ∧ PropagationTimeout s = -1 ∧ ds_provider s ∈ SupportedDNSProviders ∧ ds_token s ≠ "" ∧
       is_DisableHTTPChallenge (m_issuer m) = true ∧ is_DisableTLSALPNChallenge (m_issuer m) = true
   | None => ac_Challenge cfg ∈ ["http"; ""]
   end) ∧
  (if ac_OnDemand cfg then m_onDemand m = Some (IsAllowed m) ∧ ∃ d, IsAllowed m d = true else m_onDemand m = None) ∧
  (∀ name, IsAllowed m name = true ↔ name ∈ ac_AllowedDomains cfg) ∧
  is_CA (m_issuer m) = (if ac_Staging cfg then LetsEncryptStagingCA else LetsEncryptProductionCA).
Proof.
  intros (Hk & _ & Hm & [Hi Hca]%new_issuer_inv & Ho)%NewManager_inv. unfold manager_checks in Hk.
  assert (Hall : ∀ name, IsAllowed m name = true ↔ name ∈ ac_AllowedDomains cfg).
  { intros name. unfold IsAllowed, allowed_in. rewrite Hm, existsb_elem. setoid_rewrite String.eqb_eq. naive_solver. }
  destruct (ac_OnDemand cfg && bool_decide (ac_AllowedDomains cfg = [])) eqn:Eo; [done|].
  split_and!; [| |done|exact Hca].
  - destruct Hi as [(Hc & H1 & H2 & -> & Hp)|[Hc ->]].
    + rewrite Hc in Hk. cbn in Hk. destruct (String.eqb_spec (ac_DNSProvider cfg) ""); [done|].
      destruct (String.eqb_spec (ac_DNSAPIToken cfg) ""); [done|]. done.
    + apply String.eqb_neq in Hc. rewrite Hc in Hk. unfold nonempty in Hk.
      destruct (String.eqb_spec (ac_Challenge cfg) "") as [->|]; [set_solver|].
      destruct (String.eqb_spec (ac_Challenge cfg) "http") as [->|]; [set_solver|done].
  - destruct (ac_OnDemand cfg); [|done]. split; [by unfold IsAllowed; rewrite Hm|]. cbn in Eo. apply bool_decide_eq_false in Eo.
    destruct (ac_AllowedDomains cfg) as [|d ds] eqn:E; [done|]. exists d. apply Hall. left.
Qed.

(** For a configuration that passed validation, the manager can only be refused
    because on-demand issuance has no names, or because of the storage directory:
    a wrong challenge, provider or token has been reported when the file was read. *)
Theorem validated_manager os StringToType c cfg env e :
  Config.validate os StringToType true c = Ok cfg →
  NewManager env (Some (automation_of (cfg_TLSAutomation cfg) (lo_Timestamp (cfg_Logging cfg)))) = Err e →
  match e with
  | EOnDemandDomains => ta_OnDemand (cfg_TLSAutomation cfg) = true ∧ ta_AllowedDomains (cfg_TLSAutomation cfg) = []
  | EHomeDir => ta_StorageDir (cfg_TLSAutomation cfg) = "" ∧ ae_home env = None
  | EStorageDir dir => ae_mkdir env dir = false
  | _ => False
  end.
Proof.
  intros [Ha ->]%validate_sound. pose proof (ac_tls _ _ _ _ Ha) as Ht.
  assert (Et : cfg_TLSAutomation (normalize c) = cfg_TLSAutomation c) by (cbn; apply default_listen_fields). rewrite Et.
  set (t := cfg_TLSAutomation c) in *. set (a := automation_of t _).
  assert (Hk : manager_checks a = if ta_OnDemand t && bool_decide (ta_AllowedDomains t = []) then Err EOnDemandDomains else Ok ()).
  { unfold manager_checks, a. cbn [automation_of ac_OnDemand ac_AllowedDomains ac_Challenge ac_DNSProvider ac_DNSAPIToken].
    destruct (ta_OnDemand t && bool_decide (ta_AllowedDomains t = [])); [done|].
    destruct Ht as [(Hc & _)|(-> & -> & Htok)].
    - rewrite !elem_of_cons, elem_of_nil in Hc. destruct Hc as [-> |[-> |[]]]; done.
    - cbn. by destruct (String.eqb_spec (ta_DNSAPIToken t) "") as [E|]; [destruct (Htok eq_refl E)|]. }
  assert (Hi : ∃ i, new_issuer a = Ok i).
  { unfold new_issuer, newNoCleartextDNS01Solver, a. cbn [automation_of ac_Challenge ac_DNSProvider].
    destruct Ht as [(Hc & _)|(-> & -> & _)]; [|by eexists].
    rewrite !elem_of_cons, elem_of_nil in Hc. destruct Hc as [-> |[-> |[]]]; by eexists. }
  unfold NewManager. rewrite Hk. destruct (ta_OnDemand t && _) eqn:Eo; cbn.
  { intros [= <-]. by bool_prop. }
  unfold storage_dir. cbn [ac_StorageDir a automation_of]. unfold nonempty.
  destruct (String.eqb_spec (ta_StorageDir t) "") as [Es|Es]; cbn [negb].
  - destruct (ae_home env) as [home|]; cbn; [|by intros [= <-]].
    destruct (ae_mkdir env _) eqn:Em; cbn; [|by intros [= <-]]. destruct Hi as [i ->]. done.
  - cbn. destruct (ae_mkdir env _) eqn:Em; cbn; [|by intros [= <-]]. destruct Hi as [i ->]. done.
Qed.

(** Without a list of names and without on-demand issuance nothing is ever obtained,
    and the manager reports success. *)
Lemma no_domains_no_certificate env m :
  ac_AllowedDomains (m_cfg m) = [] → ManageDomains env m = None ∧ manage_call_of m = None.
Proof. unfold ManageDomains, manage_call_of. by intros ->. Qed.

(** Start-up waits for the certificates and fails with them exactly in the mode that
    issues in advance. *)
Lemma ManageDomains_blocks env m d ds :
  ac_AllowedDomains (m_cfg m) = d :: ds → ac_OnDemand (m_cfg m) = false →
  ManageDomains env m = (if ae_sync env (d :: ds) then None else Some EManageSync).
Proof. unfold ManageDomains, manage_call_of. by intros -> ->. Qed.

(** ** Witnesses *)

Definition ex_auto_env : AutoEnv := mkAutoEnv (Some "/home/rcvd") (λ _, true) (λ _, true) (λ _, true).
Definition ex_dns01 : AutomationConfig :=
  mkAutomationConfig true ["dns.example"] "" "" true "dns01" "cloudflare" "token" "second".
Definition ex_manager : Manager :=
  mkManager ex_dns01 "/home/rcvd/.rcvd/certs"
    (mkIssuer "" true true (Some (mkSolver "cloudflare" "token" (-1) (30 * second))) LetsEncryptStagingCA (Some LetsEncryptStagingCA))
    (Some (allowed_in ex_dns01)).

Example ex_new_manager : NewManager ex_auto_env (Some ex_dns01) = Ok ex_manager.
Proof. vm_compute. done. Qed.

Lemma issuance_guarded_witness : m_onDemand ex_manager = Some (IsAllowed ex_manager) ∧ IsAllowed ex_manager "dns.example" = true ∧
  ¬ ("other.example" ∈ ac_AllowedDomains ex_dns01).
Proof.
  destruct (issuance_guarded ex_auto_env ex_dns01 ex_manager ltac:(vm_compute; reflexivity)) as (_ & [H1 _] & H & _).
  split; [exact H1|]. split; [apply H; left|]. intros Hin%H. vm_compute in Hin. discriminate Hin.
Defined.

Definition ex_auto_config : Config :=
  set_TLSAutomation (mkTLSAutomationConfig true [] "" "" false "dns01" "cloudflare" "token" "" "" "") (ex_config "127.0.0.1:5300").

Lemma validated_manager_witness :
  ta_OnDemand (cfg_TLSAutomation (normalize ex_auto_config)) = true ∧ ta_AllowedDomains (cfg_TLSAutomation (normalize ex_auto_config)) = [].
Proof.
  apply (validated_manager ex_os ex_types ex_auto_config (normalize ex_auto_config) ex_auto_env EOnDemandDomains); vm_compute; reflexivity.
Defined.
