(* ===== verification/DnsMsg.v ===== *)
(** * DNS messages and the interface of the DNS library

    The message types are the structures of [github.com/miekg/dns] that rcvd
    reads and writes.  The library's functions are not part of the repository:
    they are the operations of the class [DnsLib], an argument of every
    definition that calls them, and what rcvd relies on about them is the
    class [DnsLaws].  [toyLib] is a small concrete instance on which examples
    evaluate and which shows that the laws can hold together. *)

From S2P Require Import Prelude GoStrings.
From Stdlib Require Import Ascii String.
Open Scope string_scope.
Open Scope list_scope.
Open Scope Z_scope.

(** ** Constants of the protocol *)

Definition TypeA : Z := 1.
Definition TypeNS : Z := 2.
Definition TypeCNAME : Z := 5.
Definition TypeSOA : Z := 6.
Definition TypeAAAA : Z := 28.
Definition TypeDNAME : Z := 39.
Definition TypeOPT : Z := 41.
Definition TypeDS : Z := 43.
Definition TypeRRSIG : Z := 46.
Definition TypeNSEC : Z := 47.
Definition TypeDNSKEY : Z := 48.
Definition TypeNSEC3 : Z := 50.
Definition TypeSVCB : Z := 64.
Definition ClassINET : Z := 1.

Definition RcodeSuccess : Z := 0.
Definition RcodeFormatError : Z := 1.
Definition RcodeServerFailure : Z := 2.
Definition RcodeNameError : Z := 3.
Definition RcodeRefused : Z := 5.

Definition MinMsgSize : Z := 512.
Definition MaxMsgSize : Z := 65535.
Definition ExtendedErrorCodeProhibited : Z := 18.

(** ** Records *)

Record Question := mkQuestion { qName : string; qType : Z; qClass : Z }.

Record RR_Header := mkHeader { hName : string; hRrtype : Z; hClass : Z; hTtl : Z }.

Inductive EDNS0 : Type :=
| EDNS0_EDE (infoCode : Z) (extraText : string)
| EDNS0_Other (code : Z) (data : string).

(** An OPT record as its methods [UDPSize], [Do] and its option list show it. *)
Record OPT := mkOPT { optUDPSize : Z; optDo : bool; optOption : list EDNS0 }.

Record RRSIG := mkRRSIG {
  sigTypeCovered : Z; sigAlgorithm : Z; sigInception : Z; sigExpiration : Z;
  sigKeyTag : Z; sigSignerName : string; sigSignature : string }.
Record DNSKEY := mkDNSKEY { keyFlags : Z; keyProtocol : Z; keyAlgorithm : Z; keyPublicKey : string }.
Record DS := mkDS { dsKeyTag : Z; dsAlgorithm : Z; dsDigestType : Z; dsDigest : string }.
Record NSEC := mkNSEC { nsecNextDomain : string; nsecTypeBitMap : list Z }.
Record NSEC3 := mkNSEC3 {
  nsec3Hash : Z; nsec3Flags : Z; nsec3Iterations : Z; nsec3Salt : string;
  nsec3NextDomain : string; nsec3TypeBitMap : list Z }.
Record SOA := mkSOA {
  soaNs : string; soaMbox : string; soaSerial : Z; soaRefresh : Z; soaRetry : Z;
  soaExpire : Z; soaMinttl : Z }.

(** The SvcParams rcvd emits. *)
Inductive SVCBKeyValue : Type :=
| SVCBAlpn (alpn : list string)
| SVCBPort (port : Z)
| SVCBDoHPath (template : string)
| SVCBIPv4Hint (hint : list (list Z))
| SVCBIPv6Hint (hint : list (list Z)).

(** The dynamic type of a [dns.RR], with the data rcvd looks at. *)
Inductive RData : Type :=
| D_OPT (o : OPT)
| D_SOA (s : SOA)
| D_CNAME (target : string)
| D_DNAME (target : string)
| D_RRSIG (s : RRSIG)
| D_DNSKEY (k : DNSKEY)
| D_DS (d : DS)
| D_NSEC (n : NSEC)
| D_NSEC3 (n : NSEC3)
| D_SVCB (priority : Z) (target : string) (value : list SVCBKeyValue)
| D_Other (data : string).

Record RR := mkRR { rHdr : RR_Header; rData : RData }.

Record MsgHdr := mkMsgHdr {
  mId : Z; mResponse : bool; mOpcode : Z; mAuthoritative : bool; mTruncated : bool;
  mRecursionDesired : bool; mRecursionAvailable : bool; mAuthenticatedData : bool;
  mCheckingDisabled : bool; mRcode : Z }.

Record Msg := mkMsg {
  mHdr :> MsgHdr;
  mQuestion : list Question;
  mAnswer : list RR;
  mNs : list RR;
  mExtra : list RR }.

(** The zero [dns.MsgHdr] with an Id, the Response flag and an Rcode, which is
    how every synthesized reply starts. *)
Definition replyHdr (id rcode : Z) : MsgHdr :=
  mkMsgHdr id true 0 false false false false false false rcode.

Definition set_Id (id : Z) (m : Msg) : Msg :=
  mkMsg (mkMsgHdr id (mResponse m) (mOpcode m) (mAuthoritative m) (mTruncated m)
           (mRecursionDesired m) (mRecursionAvailable m) (mAuthenticatedData m)
           (mCheckingDisabled m) (mRcode m))
        (mQuestion m) (mAnswer m) (mNs m) (mExtra m).

Definition set_AD (ad : bool) (m : Msg) : Msg :=
  mkMsg (mkMsgHdr (mId m) (mResponse m) (mOpcode m) (mAuthoritative m) (mTruncated m)
           (mRecursionDesired m) (mRecursionAvailable m) ad
           (mCheckingDisabled m) (mRcode m))
        (mQuestion m) (mAnswer m) (mNs m) (mExtra m).

Definition set_Extra (ex : list RR) (m : Msg) : Msg :=
  mkMsg (mHdr m) (mQuestion m) (mAnswer m) (mNs m) ex.

Definition rrtype (rr : RR) : Z := hRrtype (rHdr rr).
Definition is_opt (rr : RR) : bool := rrtype rr =? TypeOPT.

(** The dynamic type and the header of every record agree about OPT, as in a
    message the library parsed or built. *)
Definition rr_wf (rr : RR) : Prop := rrtype rr = TypeOPT ↔ ∃ o, rData rr = D_OPT o.
Definition opt_wf (m : Msg) : Prop := ∀ rr, rr ∈ mExtra m → rr_wf rr.

#[global] Instance Question_eq_dec : EqDecision Question.
Proof. solve_decision. Defined.
#[global] Instance RR_Header_eq_dec : EqDecision RR_Header.
Proof. solve_decision. Defined.
#[global] Instance EDNS0_eq_dec : EqDecision EDNS0.
Proof. solve_decision. Defined.
#[global] Instance OPT_eq_dec : EqDecision OPT.
Proof. solve_decision. Defined.
#[global] Instance RRSIG_eq_dec : EqDecision RRSIG.
Proof. solve_decision. Defined.
#[global] Instance DNSKEY_eq_dec : EqDecision DNSKEY.
Proof. solve_decision. Defined.
#[global] Instance DS_eq_dec : EqDecision DS.
Proof. solve_decision. Defined.
#[global] Instance NSEC_eq_dec : EqDecision NSEC.
Proof. solve_decision. Defined.
#[global] Instance NSEC3_eq_dec : EqDecision NSEC3.
Proof. solve_decision. Defined.
#[global] Instance SOA_eq_dec : EqDecision SOA.
Proof. solve_decision. Defined.
#[global] Instance SVCBKeyValue_eq_dec : EqDecision SVCBKeyValue.
Proof. solve_decision. Defined.
#[global] Instance RData_eq_dec : EqDecision RData.
Proof. solve_decision. Defined.
#[global] Instance RR_eq_dec : EqDecision RR.
Proof. solve_decision. Defined.
#[global] Instance MsgHdr_eq_dec : EqDecision MsgHdr.
Proof. solve_decision. Defined.
#[global] Instance Msg_eq_dec : EqDecision Msg.
Proof. solve_decision. Defined.

(** ** The library's operations *)

Class DnsLib := {
  (** Lower-cased, fully qualified form of a name. *)
  CanonicalName : string → string;
  Fqdn : string → string;
  IsSubDomain : string → string → bool;
  SplitDomainName : string → list string;
  (** Lookups in the maps [dns.TypeToString] and [dns.ClassToString]: the
      empty string for a number the map does not have. *)
  TypeToString : Z → string;
  ClassToString : Z → string;
  (** [m.IsEdns0()]: the OPT record it returns a pointer to, and the position
      of that record in [m.Extra]. *)
  IsEdns0 : Msg → option (nat * OPT);
  (** The record that [m.SetEdns0(size, do)] appends to [m.Extra]. *)
  newOPT : Z → bool → RR;
  (** [m.Truncate(size)], [m.Pack()] and [m.Unpack(buf)]. *)
  Truncate : Z → Msg → Msg;
  Pack : Msg → option string;
  Unpack : string → option Msg
}.

Section Ops.
Context {dl : DnsLib}.

(** [m.SetEdns0(size, do)] appends an OPT record; it does not replace one. *)
Definition SetEdns0 (size : Z) (do : bool) (m : Msg) : Msg :=
  set_Extra (mExtra m ++ [newOPT size do]) m.

(** [opt := m.IsEdns0(); opt != nil && opt.Do()]. *)
Definition edns_do (m : Msg) : bool :=
  match IsEdns0 m with Some (_, o) => optDo o | None => false end.

(** Writing through the pointer that [IsEdns0] returned. *)
Definition update_opt (i : nat) (f : OPT → OPT) (m : Msg) : Msg :=
  set_Extra (alter (λ rr, match rData rr with
                          | D_OPT o => mkRR (rHdr rr) (D_OPT (f o))
                          | _ => rr
                          end) i (mExtra m)) m.

End Ops.

(** What rcvd relies on. *)
Class DnsLaws `(L : DnsLib) : Prop := {
  (** "IsEdns0 checks if the message has a EDNS0 (EDNS) set; it returns the OPT
      record, or nil if the message has none." *)
  IsEdns0_Some m i o : IsEdns0 m = Some (i, o) →
    ∃ h, mExtra m !! i = Some (mkRR h (D_OPT o)) ∧ hRrtype h = TypeOPT;
  IsEdns0_None m : opt_wf m →
    IsEdns0 m = None ↔ ∀ rr, rr ∈ mExtra m → rrtype rr ≠ TypeOPT;
  (** The record SetEdns0 appends carries the size and the DO bit it was given. *)
  newOPT_spec size do :
    ∃ h, newOPT size do = mkRR h (D_OPT (mkOPT size do [])) ∧ hRrtype h = TypeOPT;
  (** Type and class mnemonics contain no vertical bar. *)
  TypeToString_bar t : ContainsByte (TypeToString t) "|" = false;
  ClassToString_bar c : ContainsByte (ClassToString c) "|" = false
}.

(** "Truncate ensures the reply message will fit into the requested buffer size by
    removing records that exceed the requested size": it adds none and leaves the
    question and the AD bit. *)
Class TruncateLaws (L : DnsLib) : Prop := {
  Truncate_question size m : mQuestion (Truncate size m) = mQuestion m;
  Truncate_answer size m rr : rr ∈ mAnswer (Truncate size m) → rr ∈ mAnswer m;
  Truncate_ns size m rr : rr ∈ mNs (Truncate size m) → rr ∈ mNs m;
  Truncate_extra size m rr : rr ∈ mExtra (Truncate size m) → rr ∈ mExtra m;
  Truncate_ad size m : mAuthenticatedData (Truncate size m) = mAuthenticatedData m }.

(** ** A concrete instance *)

Fixpoint last_opt (i : nat) (l : list RR) : option (nat * OPT) :=
  match l with
  | [] => None
  | rr :: l' =>
      match last_opt (S i) l' with
      | Some r => Some r
      | None =>
          match rData rr with
          | D_OPT o => if is_opt rr then Some (i, o) else None
          | _ => None
          end
      end
  end.

Definition toyFqdn (s : string) : string := TrimSuffix s "." +:+ ".".

Definition toyTypes : list (Z * string) :=
  [(1, "A"); (2, "NS"); (5, "CNAME"); (6, "SOA"); (28, "AAAA"); (39, "DNAME"); (41, "OPT");
   (43, "DS"); (46, "RRSIG"); (47, "NSEC"); (48, "DNSKEY"); (50, "NSEC3"); (64, "SVCB")].

Definition assoc_str (l : list (Z * string)) (t : Z) : string :=
  match list_find (λ p, fst p = t) l with Some (_, p) => snd p | None => "" end.

Definition toyLib : DnsLib := {|
  CanonicalName s := ToLower (toyFqdn s);
  Fqdn := toyFqdn;
  IsSubDomain parent child :=
    bool_decide (ToLower (toyFqdn child) = ToLower (toyFqdn parent)) ||
    bool_decide (ToLower (TrimSuffix parent ".") ∈ parent_suffixes (ToLower (TrimSuffix child ".")));
  SplitDomainName s := if bool_decide (TrimSuffix s "." = "") then [] else Split (TrimSuffix s ".") ".";
  TypeToString := assoc_str toyTypes;
  ClassToString := assoc_str [(1, "IN"); (3, "CH"); (4, "HS")];
  IsEdns0 m := last_opt 0 (mExtra m);
  newOPT size do := mkRR (mkHeader "." TypeOPT size 0) (D_OPT (mkOPT size do []));
  Truncate _ m := m;
  Pack _ := Some "";
  Unpack _ := None
|}.

(** ** Lemmas *)

Lemma last_opt_Some i l j o :
  last_opt i l = Some (j, o) →
  ∃ h k, j = (i + k)%nat ∧ l !! k = Some (mkRR h (D_OPT o)) ∧ hRrtype h = TypeOPT.
Proof.
  revert i; induction l as [|rr l IH]; intros i; simpl; [done|].
  destruct (last_opt (S i) l) as [[j' o']|] eqn:E.
  - intros [= -> ->]. apply IH in E as (h & k & -> & Hk & Hh). exists h, (S k). split_and!; [lia|done|done].
  - destruct rr as [h d]; simpl. destruct d; try done. unfold is_opt, rrtype; simpl.
    destruct (hRrtype h =? TypeOPT) eqn:Eh; [|done]. intros [= <- <-].
    exists h, 0%nat. split_and!; [lia|done|by apply Z.eqb_eq].
Qed.

Lemma last_opt_None i l :
  (∀ rr, rr ∈ l → rr_wf rr) → last_opt i l = None ↔ ∀ rr, rr ∈ l → rrtype rr ≠ TypeOPT.
Proof.
  revert i; induction l as [|rr l IH]; intros i Hwf; simpl.
  { split; [|done]. intros _ rr Hrr. by apply elem_of_nil in Hrr. }
  specialize (IH (S i) (λ r Hr, Hwf r (list_elem_of_further _ _ _ Hr))).
  pose proof (Hwf rr (list_elem_of_here _ _)) as Hr. unfold rr_wf in Hr.
  setoid_rewrite elem_of_cons. destruct (last_opt (S i) l) as [[j o]|] eqn:E.
  - split; [done|]. intros H. exfalso. destruct IH as [_ IH].
    discriminate IH. intros r ?; apply H; auto.
  - destruct IH as [IH _]. specialize (IH eq_refl). unfold is_opt. split.
    + intros H r [->|?]; [|auto]. intros Ht. apply Hr in Ht as [o Ho]. rewrite Ho in H.
      destruct (Z.eqb_spec (rrtype rr) TypeOPT); [done|]. apply n, Hr. eauto.
    + intros H. destruct (rData rr); try done.
      destruct (Z.eqb_spec (rrtype rr) TypeOPT); [|done]. exfalso. by apply (H rr); [left|].
Qed.

#[global] Instance toyLaws : DnsLaws toyLib.
Proof.
  split.
  - intros m i o H. apply last_opt_Some in H as (h & k & -> & Hk & Hh). eauto.
  - intros m Hwf. by apply last_opt_None.
  - intros size do. by eexists.
  - intros t. simpl. unfold assoc_str.
    destruct (list_find _ toyTypes) as [[n [u s]]|] eqn:E; [|done].
    apply list_find_Some in E as (E & _ & _). apply list_elem_of_lookup_2 in E.
    repeat (apply elem_of_cons in E as [[= -> ->]|E]; [done|]). by apply elem_of_nil in E.
  - intros t. simpl. unfold assoc_str.
    destruct (list_find _ _) as [[n [u s]]|] eqn:E; [|done].
    apply list_find_Some in E as (E & _ & _). apply list_elem_of_lookup_2 in E.
    repeat (apply elem_of_cons in E as [[= -> ->]|E]; [done|]). by apply elem_of_nil in E.
Qed.
