(* ===== verification/Cache.v ===== *)
(** * The response cache (internal/cache/cache.go)

    The cache shared by both modes: a map from question keys to responses with
    an expiry, bounded in size, with negative caching and serve-stale.  The
    clock is an argument of the operations ([now], in nanoseconds), and so is
    the order in which Go's [range] visits the map when an entry is evicted.

    [Get] takes the lock twice (a read section, then a write section for the
    lazy delete), so the concurrent behaviour is a step relation [cstep] whose
    steps are the critical sections of all operations. *)

From S2P Require Import Prelude GoStrings DnsMsg.
From Stdlib Require Import Ascii String.
Open Scope string_scope.
Open Scope list_scope.
Open Scope Z_scope.

(** ** State *)

Record CacheEntry := mkEntry { eResponse : Msg; eExpiresAt : Z }.

Record Options := mkOptions {
  oEnabled : bool; oMaxSize : Z; oTTLMin : Z; oTTLMax : Z; oNegTTLMax : Z; oServeStaleMaxS : Z }.

Record Cache := mkCache {
  enabled : bool; maxSize : Z; ttlMin : Z; ttlMax : Z; negTTLMax : Z; serveStaleMaxS : Z;
  entries : gmap string CacheEntry }.

Definition with_entries (c : Cache) (m : gmap string CacheEntry) : Cache :=
  mkCache (enabled c) (maxSize c) (ttlMin c) (ttlMax c) (negTTLMax c) (serveStaleMaxS c) m.

(** ** Operations *)

Definition IsExpired (now : Z) (e : CacheEntry) : bool := eExpiresAt e <? now.

Definition New (opts : Options) : Cache :=
  let maxSize := if oMaxSize opts <=? 0 then 4096 else oMaxSize opts in
  let ttlMin := if oTTLMin opts <? 0 then 0 else oTTLMin opts in
  let ttlMax := if oTTLMax opts <=? 0 then 86400 else oTTLMax opts in
  mkCache (oEnabled opts) maxSize ttlMin ttlMax (oNegTTLMax opts) (oServeStaleMaxS opts) ∅.

Definition isNegative (resp : Msg) : bool :=
  if mRcode resp =? RcodeNameError then true
  else if (mRcode resp =? RcodeSuccess) && (List.length (mAnswer resp) =? 0)%nat then true
  else false.

Fixpoint negTTL_loop (ns : list RR) : Z :=
  match ns with
  | [] => 0
  | rr :: ns' => match rData rr with D_SOA _ => hTtl (rHdr rr) | _ => negTTL_loop ns' end
  end.
Definition negTTL (resp : Msg) : Z := negTTL_loop (mNs resp).

(** One round of the minimum loops of [extractMinTTL]. *)
Definition min_step (minTTL : Z) (rr : RR) : Z :=
  if hTtl (rHdr rr) <? to_u32 minTTL then hTtl (rHdr rr) else minTTL.

Definition extractMinTTL (resp : Msg) : Z :=
  let m := fold_left min_step (mAnswer resp) 86400 in
  let m := fold_left min_step (mNs resp) m in
  let m := fold_left (λ m rr, if rrtype rr =? TypeOPT then m else min_step m rr) (mExtra resp) m in
  if m =? 86400 then 60 else m.

(** One round of the scan of [evictOldest] over the map. *)
Definition evict_step (acc : string * Z) (kv : string * CacheEntry) : string * Z :=
  let '(oldestKey, oldestTime) := acc in
  let '(key, entry) := kv in
  if String.eqb oldestKey "" || (eExpiresAt entry <? oldestTime)
  then (key, eExpiresAt entry) else (oldestKey, oldestTime).

(** [order m] is the sequence in which [range m] visits the entries. *)
Definition evictOldest (order : gmap string CacheEntry → list (string * CacheEntry))
    (m : gmap string CacheEntry) : gmap string CacheEntry :=
  if (size m =? 0)%nat then m else
  let oldestKey := fst (fold_left evict_step (order m) ("", 0)) in
  if String.eqb oldestKey "" then m else delete oldestKey m.

Definition Clear (c : Cache) : Cache := with_entries c ∅.

Definition Size (c : Cache) : Z := Z.of_nat (size (entries c)).

Record Stats := mkStats {
  sSize : Z; sMaxSize : Z; sTTLMin : Z; sTTLMax : Z; sNegTTLMax : Z; sServeStaleMaxS : Z }.

Definition GetStats (c : Cache) : Stats :=
  mkStats (Size c) (maxSize c) (ttlMin c) (ttlMax c) (negTTLMax c) (serveStaleMaxS c).

Definition NegativeCachingEnabled (c : Cache) : bool := 0 <? negTTLMax c.
Definition ServeStaleEnabled (c : Cache) : bool := 0 <? serveStaleMaxS c.

Section Ops.
Context {dl : DnsLib}.

(** [q] is [req.Question[0]]; the callers have checked that it exists. *)
Definition cacheKey (q : Question) (req : Msg) : string :=
  let do := if edns_do req then "1" else "0" in
  qName q +:+ "|" +:+ TypeToString (qType q) +:+ "|" +:+ ClassToString (qClass q) +:+ "|" +:+ do.

(** What the read-locked section of [Get], and the expiry test after it, find:
    a miss, an expired entry (still to be deleted unless serve-stale keeps
    it), or a hit. *)
Inductive lookup_result := Miss | Expired (key : string) | Hit (m : Msg).

Definition Get_lookup (c : Cache) (now : Z) (req : option Msg) : lookup_result :=
  if negb (enabled c) then Miss else
  match req with
  | None => Miss
  | Some req =>
      match mQuestion req with
      | [] => Miss
      | q :: _ =>
          let key := cacheKey q req in
          match entries c !! key with
          | None => Miss
          | Some entry =>
              if IsExpired now entry
              then if serveStaleMaxS c <=? 0 then Expired key else Miss
              else Hit (eResponse entry)
          end
      end
  end.

(** The write-locked section of [Get]. *)
Definition Get_delete (c : Cache) (key : string) : Cache := with_entries c (delete key (entries c)).

Definition Get (c : Cache) (now : Z) (req : option Msg) : option Msg * Cache :=
  match Get_lookup c now req with
  | Miss => (None, c)
  | Expired key => (None, Get_delete c key)
  | Hit m => (Some m, c)
  end.

Definition GetStale (c : Cache) (now : Z) (req : option Msg) : option Msg :=
  if negb (enabled c) || (serveStaleMaxS c <=? 0) then None else
  match req with
  | None => None
  | Some req =>
      match mQuestion req with
      | [] => None
      | q :: _ =>
          match entries c !! cacheKey q req with
          | None => None
          | Some entry =>
              let staleFor := time_sub now (eExpiresAt entry) in
              if staleFor <=? 0 then None
              else if staleFor >? seconds (serveStaleMaxS c) then None
              else Some (eResponse entry)
          end
      end
  end.

(** The guards of [Put] on the response's Question section. *)
Definition put_question_ok (q : Question) (resp : Msg) : bool :=
  match mQuestion resp with
  | [] => true
  | [r] => (qType q =? qType r) && (qClass q =? qClass r) &&
           String.eqb (CanonicalName (qName q)) (CanonicalName (qName r))
  | _ => false
  end.

(** The TTL [Put] stores a response with; [None] when it does not store it. *)
Definition put_ttl (c : Cache) (resp : Msg) : option Z :=
  if isNegative resp then
    if negTTLMax c <=? 0 then None else
    let ttl := negTTL resp in
    if ttl <=? 0 then None else
    Some (if ttl >? negTTLMax c then negTTLMax c else ttl)
  else
    let ttl := extractMinTTL resp in
    let ttl := if ttl <? ttlMin c then ttlMin c else ttl in
    Some (if ttl >? ttlMax c then ttlMax c else ttl).

Definition Put (order : gmap string CacheEntry → list (string * CacheEntry))
    (c : Cache) (now : Z) (req resp : option Msg) : Cache :=
  if negb (enabled c) then c else
  match req, resp with
  | Some req, Some resp =>
      match mQuestion req with
      | [] => c
      | q :: _ =>
          if negb (put_question_ok q resp) then c else
          match put_ttl c resp with
          | None => c
          | Some ttl =>
              let key := cacheKey q req in
              let expiresAt := now + seconds ttl in
              let m := entries c in
              let m := if (maxSize c <=? Z.of_nat (size m)) && bool_decide (m !! key = None)
                       then evictOldest order m else m in
              with_entries c (<[key := mkEntry resp expiresAt]> m)
          end
      end
  | _, _ => c
  end.

(** ** Interleavings

    The state of a run: the cache, the lazy deletes that some goroutine has
    decided on and not yet done, and the history of completed calls. *)

Inductive event :=
| EGet (now : Z) (req : option Msg) (res : option Msg)
| EGetStale (now : Z) (req : option Msg) (res : option Msg)
| EPut (now : Z) (req resp : option Msg)
| EClear.

Record run := mkRun { r_cache : Cache; r_pending : list string; r_hist : list event }.

Inductive cstep : run → run → Prop :=
| step_miss c p h now req :
    Get_lookup c now req = Miss →
    cstep (mkRun c p h) (mkRun c p (EGet now req None :: h))
| step_hit c p h now req m :
    Get_lookup c now req = Hit m →
    cstep (mkRun c p h) (mkRun c p (EGet now req (Some m) :: h))
| step_expired c p h now req key :
    Get_lookup c now req = Expired key →
    cstep (mkRun c p h) (mkRun c (key :: p) (EGet now req None :: h))
| step_delete c p1 key p2 h :
    cstep (mkRun c (p1 ++ key :: p2) h) (mkRun (Get_delete c key) (p1 ++ p2) h)
| step_stale c p h now req :
    cstep (mkRun c p h) (mkRun c p (EGetStale now req (GetStale c now req) :: h))
| step_put c p h order now req resp :
    (∀ m, order m ≡ₚ map_to_list m) →
    cstep (mkRun c p h) (mkRun (Put order c now req resp) p (EPut now req resp :: h))
| step_clear c p h :
    cstep (mkRun c p h) (mkRun (Clear c) p (EClear :: h)).

Definition reachable (opts : Options) : run → Prop := rtc cstep (mkRun (New opts) [] []).

End Ops.

(** A [range] over a Go map visits every entry once, in some order. *)
Definition range_order (order : gmap string CacheEntry → list (string * CacheEntry)) : Prop :=
  ∀ m, order m ≡ₚ map_to_list m.

(** ** Eviction *)

Lemma evict_fold_from l k t :
  k ≠ "" → (∀ k' e, (k', e) ∈ l → k' ≠ "") →
  let '(k1, t1) := fold_left evict_step l (k, t) in
  (t1 ≤ t ∧ ∀ k' e, (k', e) ∈ l → t1 ≤ eExpiresAt e) ∧
  ((k1 = k ∧ t1 = t) ∨ ∃ e, (k1, e) ∈ l ∧ t1 = eExpiresAt e) ∧ k1 ≠ "".
Proof.
  revert k t; induction l as [|[k0 e0] l IH]; intros k t Hk Hl; simpl.
  { split_and!; [lia| |auto|done]. intros k' e H. by apply elem_of_nil in H. }
  rewrite (proj2 (String.eqb_neq k "") Hk); simpl.
  assert (Hk0 : k0 ≠ "") by (eapply Hl, list_elem_of_here).
  assert (Hl' : ∀ k' e, (k', e) ∈ l → k' ≠ "") by (intros; eapply Hl, list_elem_of_further; eauto).
  destruct (eExpiresAt e0 <? t) eqn:E; bool_prop.
  - specialize (IH k0 (eExpiresAt e0) Hk0 Hl').
    destruct (fold_left evict_step l (k0, eExpiresAt e0)) as [k1 t1].
    destruct IH as ((? & Hmin) & Hwho & ?). split_and!; [lia| | |done].
    + intros k' e [[= -> ->]|Hin]%elem_of_cons; [done|eauto].
    + right. destruct Hwho as [[-> ->]|(e & ? & ?)].
      * exists e0. split; [apply list_elem_of_here|done].
      * exists e. split; [by apply list_elem_of_further|done].
  - specialize (IH k t Hk Hl').
    destruct (fold_left evict_step l (k, t)) as [k1 t1].
    destruct IH as ((? & Hmin) & Hwho & ?). split_and!; [lia| | |done].
    + intros k' e [[= -> ->]|Hin]%elem_of_cons; [lia|eauto].
    + destruct Hwho as [[-> ->]|(e & ? & ?)]; [auto|].
      right. exists e. split; [by apply list_elem_of_further|done].
Qed.

(** [evictOldest] removes exactly one entry, and no entry expires sooner than
    the one removed, whatever the iteration order. *)
Lemma evictOldest_spec order m :
  range_order order → m ≠ ∅ → (∀ k, is_Some (m !! k) → k ≠ "") →
  ∃ k0 e0, m !! k0 = Some e0 ∧ evictOldest order m = delete k0 m ∧
           ∀ k e, m !! k = Some e → eExpiresAt e0 ≤ eExpiresAt e.
Proof.
  intros Hord Hne Hkeys. unfold evictOldest.
  destruct (Nat.eqb_spec (size m) 0) as [H0|_]; [by apply map_size_empty_iff in H0|].
  assert (Hl : ∀ k e, (k, e) ∈ order m ↔ m !! k = Some e).
  { intros k e. rewrite (Hord m). apply elem_of_map_to_list. }
  destruct (order m) as [|[k e] l] eqn:El.
  { exfalso. apply Hne, map_eq. intros k. rewrite lookup_empty.
    destruct (m !! k) as [e|] eqn:E; [|done]. apply Hl in E. by apply elem_of_nil in E. }
  assert (Hk : m !! k = Some e) by (apply Hl, list_elem_of_here).
  assert (Hk0 : k ≠ "") by eauto.
  assert (Hl' : ∀ k' e', (k', e') ∈ l → k' ≠ "").
  { intros k' e' H. apply Hkeys. exists e'. apply Hl. by apply list_elem_of_further. }
  pose proof (evict_fold_from l k (eExpiresAt e) Hk0 Hl') as H.
  change (fold_left evict_step ((k, e) :: l) ("", 0))
    with (fold_left evict_step l (k, eExpiresAt e)).
  destruct (fold_left evict_step l (k, eExpiresAt e)) as [k1 t1]. simpl.
  destruct H as ((Ht & Hmin) & Hwho & Hk1).
  rewrite (proj2 (String.eqb_neq k1 "") Hk1).
  assert (Hfound : ∃ e1, m !! k1 = Some e1 ∧ t1 = eExpiresAt e1).
  { destruct Hwho as [[-> ->]|(e1 & Hin & ->)]; [eauto|].
    exists e1. split; [|done]. apply Hl. by apply list_elem_of_further. }
  destruct Hfound as (e1 & He1 & ->). exists k1, e1. split_and!; [done|done|].
  intros k' e' H. apply Hl, elem_of_cons in H as [[= -> ->]|H]; eauto.
Qed.

(** ** The minimum TTL of a response *)

(** The TTLs that count: every record but the OPT pseudo-records of Extra. *)
Definition counted_rrs (resp : Msg) : list RR :=
  mAnswer resp ++ mNs resp ++ List.filter (λ rr, negb (is_opt rr)) (mExtra resp).

Lemma fold_min_filter l m :
  fold_left (λ m rr, if rrtype rr =? TypeOPT then m else min_step m rr) l m =
  fold_left min_step (List.filter (λ rr, negb (is_opt rr)) l) m.
Proof.
  revert m; induction l as [|rr l IH]; intros m; simpl; [done|].
  unfold is_opt. destruct (rrtype rr =? TypeOPT); simpl; apply IH.
Qed.

Lemma fold_min_spec l m :
  0 ≤ m ≤ 86400 → (∀ rr, rr ∈ l → 0 ≤ hTtl (rHdr rr)) →
  let r := fold_left min_step l m in
  0 ≤ r ≤ m ∧ (∀ rr, rr ∈ l → r ≤ hTtl (rHdr rr)) ∧
  (r = m ∨ ∃ rr, rr ∈ l ∧ r = hTtl (rHdr rr)).
Proof.
  revert m; induction l as [|rr l IH]; intros m Hm Hl; simpl.
  { split_and!; [lia|lia| |by left]. intros rr H. by apply elem_of_nil in H. }
  assert (Hrr : 0 ≤ hTtl (rHdr rr)) by (apply Hl, list_elem_of_here).
  assert (Hl' : ∀ rr, rr ∈ l → 0 ≤ hTtl (rHdr rr)) by (intros; apply Hl; by apply list_elem_of_further).
  assert (Hs : 0 ≤ min_step m rr ≤ m ∧ min_step m rr ≤ hTtl (rHdr rr) ∧
               (min_step m rr = m ∨ min_step m rr = hTtl (rHdr rr))).
  { unfold min_step. rewrite to_u32_id by lia. destruct (hTtl (rHdr rr) <? m) eqn:E; bool_prop; lia. }
  destruct (IH (min_step m rr)) as (Hr & Hall & Hwho); [lia|done|].
  split_and!; [lia|lia| |].
  - intros r [->|Hin]%elem_of_cons; [lia|eauto].
  - destruct Hwho as [Hw|(r & ? & ?)].
    + destruct Hs as (_ & _ & [?|?]); [left; lia|right]. exists rr.
      split; [apply list_elem_of_here|lia].
    + right. exists r. split; [by apply list_elem_of_further|done].
Qed.

(** TTL fields are 32-bit unsigned. *)
Definition ttl_wf (resp : Msg) : Prop :=
  ∀ rr, rr ∈ mAnswer resp ++ mNs resp ++ mExtra resp → 0 ≤ hTtl (rHdr rr) < 2 ^ 32.

Lemma elem_of_filter_nonopt rr l :
  rr ∈ List.filter (λ r, negb (is_opt r)) l ↔ rr ∈ l ∧ is_opt rr = false.
Proof. by rewrite !list_elem_of_In, filter_In, negb_true_iff. Qed.

Lemma ttl_wf_counted resp : ttl_wf resp → ∀ rr, rr ∈ counted_rrs resp → 0 ≤ hTtl (rHdr rr).
Proof.
  intros Hwf rr Hin. apply Hwf. unfold counted_rrs in Hin.
  rewrite !elem_of_app, elem_of_filter_nonopt in Hin. rewrite !elem_of_app. tauto.
Qed.

Lemma extractMinTTL_fold resp :
  extractMinTTL resp =
  let r := fold_left min_step (counted_rrs resp) 86400 in if r =? 86400 then 60 else r.
Proof. unfold extractMinTTL, counted_rrs. by rewrite fold_min_filter, !fold_left_app. Qed.

Lemma extractMinTTL_range resp : ttl_wf resp → 0 ≤ extractMinTTL resp < 86400.
Proof.
  intros Hwf. rewrite extractMinTTL_fold.
  pose proof (fold_min_spec (counted_rrs resp) 86400 ltac:(lia) (ttl_wf_counted _ Hwf)) as (? & _).
  simpl in *. destruct (_ =? 86400) eqn:E; bool_prop; lia.
Qed.

(** The TTL a positive response is cached with is computed from the
    smallest TTL among its records, the OPT pseudo-record left out: when some
    record has a TTL below 86400 the result is attained by a record and no
    record is below it; otherwise (no record at all, but also when every
    record lives a day or longer) the result is 60 seconds. *)
Theorem extractMinTTL_spec resp :
  ttl_wf resp →
  ((∃ rr, rr ∈ counted_rrs resp ∧ hTtl (rHdr rr) < 86400) →
     (∃ rr, rr ∈ counted_rrs resp ∧ extractMinTTL resp = hTtl (rHdr rr)) ∧
     (∀ rr, rr ∈ counted_rrs resp → extractMinTTL resp ≤ hTtl (rHdr rr))) ∧
  ((∀ rr, rr ∈ counted_rrs resp → 86400 ≤ hTtl (rHdr rr)) → extractMinTTL resp = 60).
Proof.
  intros Hwf. rewrite extractMinTTL_fold.
  destruct (fold_min_spec (counted_rrs resp) 86400 ltac:(lia) (ttl_wf_counted _ Hwf))
    as (Hr & Hall & Hwho). simpl in *. split.
  - intros (rr & Hin & Hlt). apply Hall in Hin as Hle.
    rewrite (proj2 (Z.eqb_neq _ _)) by lia. split; [|done]. destruct Hwho as [?|?]; [lia|done].
  - intros Hbig. rewrite (proj2 (Z.eqb_eq _ _)); [done|].
    destruct Hwho as [?|(rr & Hin & Heq)]; [done|]. apply Hbig in Hin as ?. lia.
Qed.

(** ** TTL bounds *)

(** Every response that [Put] stores gets a lifetime within the configured
    bounds: a positive one within [ttlMin, ttlMax], a negative one within
    (0, negTTLMax] and never longer than the TTL of its SOA record. *)
Theorem put_ttl_bounds c resp ttl :
  ttlMin c ≤ ttlMax c → put_ttl c resp = Some ttl →
  (isNegative resp = false ∧ ttlMin c ≤ ttl ≤ ttlMax c) ∨
  (isNegative resp = true ∧ 0 < ttl ≤ negTTLMax c ∧ ttl ≤ negTTL resp).
Proof.
  unfold put_ttl. intros Hb H. destruct (isNegative resp); [right|left]; split; try done;
    split_in H; injection H as <-; bool_prop; cases_lia.
Qed.

Section Props.
Context {dl : DnsLib}.

(** ** Well-formedness *)

Definition cache_wf (c : Cache) : Prop :=
  0 < maxSize c ∧ Size c ≤ maxSize c ∧ ∀ k, is_Some (entries c !! k) → k ≠ "".

Lemma New_wf opts : cache_wf (New opts).
Proof.
  unfold New, cache_wf, Size; simpl. rewrite map_size_empty.
  split_and!; [case_match; bool_prop; lia|case_match; bool_prop; lia|].
  intros k [e He]. by rewrite lookup_empty in He.
Qed.

Lemma cacheKey_nonempty q req : cacheKey q req ≠ "".
Proof. unfold cacheKey. by destruct (qName q). Qed.

Lemma with_entries_wf c m :
  cache_wf c → Z.of_nat (size m) ≤ maxSize c → (∀ k, is_Some (m !! k) → k ≠ "") →
  cache_wf (with_entries c m).
Proof. by intros (? & ? & ?) ? ?. Qed.

Lemma Get_delete_wf c key : cache_wf c → cache_wf (Get_delete c key).
Proof.
  intros Hwf. pose proof Hwf as (? & Hs & Hk). apply with_entries_wf; [done| |].
  - unfold Size in Hs. rewrite map_size_delete. case_match; unfold id; lia.
  - intros k [e He]. apply lookup_delete_Some in He as [_ He]. eauto.
Qed.

Lemma Clear_wf c : cache_wf c → cache_wf (Clear c).
Proof.
  intros Hwf. apply with_entries_wf; [done| |].
  - rewrite map_size_empty. destruct Hwf. lia.
  - intros k [e He]. by rewrite lookup_empty in He.
Qed.

(** The map [Put] inserts into. *)
Definition put_base (order : gmap string CacheEntry → list (string * CacheEntry))
    (c : Cache) (key : string) : gmap string CacheEntry :=
  if (maxSize c <=? Size c) && bool_decide (entries c !! key = None)
  then evictOldest order (entries c) else entries c.

(** A response is admitted under [q], with a lifetime of [ttl] seconds. *)
Definition admitted (c : Cache) (q : Question) (resp : Msg) (ttl : Z) : Prop :=
  enabled c = true ∧ put_question_ok q resp = true ∧ put_ttl c resp = Some ttl.

(** [Put] either changes nothing or inserts one entry. *)
Lemma Put_cases order c now req resp :
  Put order c now req resp = c ∨
  ∃ m q qs r ttl, req = Some m ∧ mQuestion m = q :: qs ∧ resp = Some r ∧ admitted c q r ttl ∧
    Put order c now req resp =
    with_entries c (<[cacheKey q m := mkEntry r (now + seconds ttl)]> (put_base order c (cacheKey q m))).
Proof.
  unfold Put, admitted, put_base, Size. destruct (enabled c); simpl; [|by left].
  destruct req as [m|], resp as [r|]; try by left.
  destruct (mQuestion m) as [|q qs] eqn:Eq; [by left|].
  destruct (put_question_ok q r) eqn:Eok; simpl; [|by left].
  destruct (put_ttl c r) as [ttl|] eqn:Et; [|by left].
  right. exists m, q, qs, r, ttl. by rewrite Eq.
Qed.

Lemma Put_admitted order c now m q qs r ttl :
  mQuestion m = q :: qs → admitted c q r ttl →
  Put order c now (Some m) (Some r) =
  with_entries c (<[cacheKey q m := mkEntry r (now + seconds ttl)]> (put_base order c (cacheKey q m))).
Proof. unfold Put, admitted, put_base, Size. intros -> (-> & -> & ->). done. Qed.

Lemma put_base_sub order c key k e :
  put_base order c key !! k = Some e → entries c !! k = Some e.
Proof.
  unfold put_base. case_match; [|done]. unfold evictOldest. repeat case_match; try done.
  by intros [_ ?]%lookup_delete_Some.
Qed.

Lemma wf_nonempty c : cache_wf c → maxSize c ≤ Size c → entries c ≠ ∅.
Proof. intros (? & _) Hs E. unfold Size in Hs. rewrite E, map_size_empty in Hs. lia. Qed.

Lemma put_base_size order c key e :
  range_order order → cache_wf c →
  Z.of_nat (size (<[key := e]> (put_base order c key))) ≤ maxSize c.
Proof.
  intros Hord Hwf. pose proof Hwf as (Hpos & Hs & Hk). unfold put_base.
  destruct (maxSize c <=? Size c) eqn:Efull; bool_prop; simpl.
  - case_bool_decide as Hnone.
    + destruct (evictOldest_spec order (entries c)) as (k0 & e0 & Hk0 & -> & _); [done| |done|].
      { by apply wf_nonempty. }
      rewrite map_size_insert_None by (by apply lookup_delete_None; right).
      rewrite map_size_delete, Hk0. unfold Size in *. lia.
    + rewrite map_size_insert_Some by (by apply not_eq_None_Some). done.
  - unfold Size in *. rewrite map_size_insert. case_match; unfold id; lia.
Qed.

Lemma Put_wf order c now req resp :
  range_order order → cache_wf c → cache_wf (Put order c now req resp).
Proof.
  intros Hord Hwf. destruct (Put_cases order c now req resp) as [->|(m & q & qs & r & ttl & -> & _ & -> & _ & ->)];
    [done|].
  apply with_entries_wf; [done|by apply put_base_size|].
  intros k [e He]. apply lookup_insert_Some in He as [[<- _]|[_ He]].
  - apply cacheKey_nonempty.
  - apply put_base_sub in He. destruct Hwf as (_ & _ & Hk). eauto.
Qed.

Lemma cstep_wf r r' : cstep r r' → cache_wf (r_cache r) → cache_wf (r_cache r').
Proof.
  destruct 1; simpl; try done; auto using Get_delete_wf, Clear_wf, Put_wf.
Qed.

#[local] Hint Resolve New_wf cstep_wf Put_wf Clear_wf Get_delete_wf : rcvd.

(** However the critical sections of concurrent [Get], [GetStale], [Put]
    and [Clear] calls interleave, and in whatever order Go iterates over the
    map, the cache never holds more than [maxSize] entries. *)
Theorem reachable_bounded opts r :
  reachable opts r → 0 < maxSize (r_cache r) ∧ Size (r_cache r) ≤ maxSize (r_cache r).
Proof.
  intros H. assert (Hwf : cache_wf (r_cache r)) by
    (revert H; unfold reachable; apply (rtc_ind_r (λ r, cache_wf (r_cache r))); eauto with rcvd).
  by destruct Hwf as (? & ? & _).
Qed.

(** ** Lookup after insertion *)

(** C36: A stored response is served, unchanged, to every request with the same
    key from the moment it is put until its lifetime ends, and to none after
    that; the cache is not changed by the hit. *)
Theorem put_get order c now now' m q qs r ttl m' q' qs' :
  mQuestion m = q :: qs → admitted c q r ttl →
  mQuestion m' = q' :: qs' → cacheKey q' m' = cacheKey q m →
  let c' := Put order c now (Some m) (Some r) in
  (now' ≤ now + seconds ttl → Get c' now' (Some m') = (Some r, c')) ∧
  (now + seconds ttl < now' → fst (Get c' now' (Some m')) = None).
Proof.
  intros Hq Ha Hq' Hkey. pose proof Ha as (He & _). cbn zeta.
  rewrite (Put_admitted order c now m q qs r ttl Hq Ha).
  unfold Get, Get_lookup; simpl. rewrite He, Hq', Hkey, lookup_insert_eq. unfold IsExpired; simpl.
  split; intros; destruct (Z.ltb_spec (now + seconds ttl) now'); try lia; [done|].
  by destruct (serveStaleMaxS c <=? 0).
Qed.

(** When the cache is full and the key is new, [Put] drops one entry, no
    other entry expiring sooner, and keeps all the rest; otherwise it keeps
    every entry. *)
Theorem put_evicts_soonest order c now m q qs r ttl :
  range_order order → cache_wf c → mQuestion m = q :: qs → admitted c q r ttl →
  let key := cacheKey q m in
  let new := mkEntry r (now + seconds ttl) in
  if (maxSize c <=? Size c) && bool_decide (entries c !! key = None)
  then ∃ k0 e0, entries c !! k0 = Some e0 ∧
         (∀ k e, entries c !! k = Some e → eExpiresAt e0 ≤ eExpiresAt e) ∧
         entries (Put order c now (Some m) (Some r)) = <[key := new]> (delete k0 (entries c))
  else entries (Put order c now (Some m) (Some r)) = <[key := new]> (entries c).
Proof.
  intros Hord Hwf Hq Ha. cbn zeta.
  rewrite (Put_admitted order c now m q qs r ttl Hq Ha). simpl. unfold put_base.
  destruct (_ && _) eqn:E; [|done]. bool_prop.
  destruct (evictOldest_spec order (entries c)) as (k0 & e0 & ? & -> & ?); eauto using wf_nonempty.
  by destruct Hwf as (_ & _ & ?).
Qed.

(** [GetStale] answers exactly when the entry has expired and did so no
    longer ago than the serve-stale window. *)
Theorem GetStale_spec c now m q qs r :
  mQuestion m = q :: qs → 0 < serveStaleMaxS c ≤ 9223372036 →
  GetStale c now (Some m) = Some r ↔
  enabled c = true ∧ ∃ e, entries c !! cacheKey q m = Some e ∧ eResponse e = r ∧
    eExpiresAt e < now ≤ eExpiresAt e + serveStaleMaxS c * second.
Proof.
  intros Hq Hs. unfold GetStale. rewrite Hq, (proj2 (Z.leb_gt _ _)), orb_false_r by lia.
  destruct (enabled c); simpl; [|by split; [|intros [? _]]].
  destruct (entries c !! cacheKey q m) as [e|]; [|split; [done|by intros (_ & ? & ? & _)]].
  rewrite seconds_exact by lia.
  assert (Hle := time_sub_le now (eExpiresAt e) (serveStaleMaxS c * second)).
  unfold in_int64, max_int64, min_int64, second in *.
  assert (Hpos := time_sub_pos now (eExpiresAt e)).
  destruct (Z.leb_spec (time_sub now (eExpiresAt e)) 0); [|rewrite Z.gtb_ltb;
    destruct (Z.ltb_spec (serveStaleMaxS c * 1000000000) (time_sub now (eExpiresAt e)))].
  - split; [done|]. intros (_ & e' & [= <-] & _ & ?). lia.
  - split; [done|]. intros (_ & e' & [= <-] & _ & ?). lia.
  - split; [intros [= <-]; split; [done|]; exists e; repeat split; lia|].
    by intros (_ & e' & [= <-] & -> & _).
Qed.

(** ** Every answer comes from a [Put] *)

(** A [Put] event of the history accounts for [resp] under [key] until [expiry]. *)
Definition justified (opts : Options) (hist : list event) (key : string) (resp : Msg) (expiry : Z) : Prop :=
  ∃ now req q qs ttl,
    EPut now (Some req) (Some resp) ∈ hist ∧ mQuestion req = q :: qs ∧ cacheKey q req = key ∧
    admitted (New opts) q resp ttl ∧ expiry = now + seconds ttl.

Lemma justified_weaken opts ev hist key resp expiry :
  justified opts hist key resp expiry → justified opts (ev :: hist) key resp expiry.
Proof.
  intros (now & req & q & qs & ttl & Hin & ?). exists now, req, q, qs, ttl.
  split; [by apply list_elem_of_further|done].
Qed.

(** The configuration does not change during a run. *)
Definition same_config (opts : Options) (c : Cache) : Prop := ∃ m, c = with_entries (New opts) m.

Definition entries_justified (opts : Options) (r : run) : Prop :=
  same_config opts (r_cache r) ∧
  ∀ k e, entries (r_cache r) !! k = Some e →
    justified opts (r_hist r) k (eResponse e) (eExpiresAt e).

Lemma Put_config order opts c now req resp :
  same_config opts c → same_config opts (Put order c now req resp).
Proof.
  intros [m ->]. destruct (Put_cases order (with_entries (New opts) m) now req resp)
    as [->|(? & ? & ? & ? & ? & _ & _ & _ & _ & ->)]; eexists; done.
Qed.

Lemma Put_justified opts order c p h now req resp :
  entries_justified opts (mkRun c p h) →
  entries_justified opts (mkRun (Put order c now req resp) p (EPut now req resp :: h)).
Proof.
  intros [Hc HJ]. split; [by apply Put_config|]. simpl in *. intros k e.
  destruct (Put_cases order c now req resp) as [->|(m & q & qs & r & ttl & -> & Hq & -> & Ha & ->)].
  { intros ?%HJ. by apply justified_weaken. }
  simpl. intros [[<- <-]|[_ ?%put_base_sub%HJ]]%lookup_insert_Some; [|by apply justified_weaken].
  exists now, m, q, qs, ttl. destruct Hc as [? ->].
  split_and!; [apply list_elem_of_here|done|done|done|done].
Qed.

Lemma cstep_justified opts r r' :
  cstep r r' → entries_justified opts r → entries_justified opts r'.
Proof.
  destruct 1; intros HJ; try (by apply Put_justified); destruct HJ as [Hc HJ];
    split; simpl in *; try done; try (destruct Hc as [? ->]; by eexists); intros k e He.
  all: first [ by apply justified_weaken, HJ
             | by apply lookup_delete_Some in He as [_ He%HJ]
             | by rewrite lookup_empty in He ].
Qed.

Lemma reachable_justified opts r : reachable opts r → entries_justified opts r.
Proof.
  apply (rtc_ind_r (entries_justified opts)).
  - split; [by exists ∅|]. intros k e. simpl. by rewrite lookup_empty.
  - intros ? ? _ Hs HJ. by eapply cstep_justified.
Qed.

Lemma Get_lookup_hit c now req m :
  Get_lookup c now req = Hit m →
  ∃ msg q qs e, req = Some msg ∧ mQuestion msg = q :: qs ∧
    entries c !! cacheKey q msg = Some e ∧ eResponse e = m ∧ now ≤ eExpiresAt e.
Proof.
  unfold Get_lookup. intros H. destruct (enabled c); [|discriminate].
  destruct req as [msg|]; [|discriminate]. destruct (mQuestion msg) as [|q qs] eqn:Eq; [discriminate|].
  destruct (entries c !! cacheKey q msg) as [e|] eqn:Ee; [|discriminate].
  unfold IsExpired in H. split_in H. injection H as <-. bool_prop. simpl in *.
  exists msg, q, qs, e. done.
Qed.

(** What a history may contain: a hit is accounted for by an earlier [Put]
    under the same key, still within its lifetime. *)
Definition hits_justified (opts : Options) (h : list event) : Prop :=
  ∀ h1 h2 now req m, h = h1 ++ EGet now req (Some m) :: h2 →
    ∃ msg q qs expiry, req = Some msg ∧ mQuestion msg = q :: qs ∧
      justified opts h2 (cacheKey q msg) m expiry ∧ now ≤ expiry.

Lemma hits_justified_cons opts ev h :
  hits_justified opts h → (∀ now req m, ev ≠ EGet now req (Some m)) →
  hits_justified opts (ev :: h).
Proof.
  intros Hh Hev [|ev' h1] h2 now req m E; simplify_eq/=; [naive_solver|by eapply Hh].
Qed.

Lemma cstep_hits opts r r' :
  cstep r r' → entries_justified opts r → hits_justified opts (r_hist r) → hits_justified opts (r_hist r').
Proof.
  destruct 1 as [| ? ? ? ? ? ? Hhit | | | | |]; intros HJ Hh; simpl in *; try done;
    try (apply hits_justified_cons; [done|]; intros; discriminate).
  intros [|ev h1] h2 now' req' m' E; simplify_eq/=; [|by eapply Hh].
  apply Get_lookup_hit in Hhit as (msg & q & qs & e & -> & Hq & He & <- & Hle).
  exists msg, q, qs, (eExpiresAt e). split_and!; [done|done| |done]. by apply HJ.
Qed.

(** C12: In every interleaving of concurrent calls, a response that [Get]
    returns was stored before by a [Put] for a request with the same key, the
    stored response carried either no question or the request's own question,
    and the lifetime computed for it at that time has not ended. *)
Theorem reachable_hits_justified opts r h1 h2 now req m :
  reachable opts r → r_hist r = h1 ++ EGet now req (Some m) :: h2 →
  ∃ msg q qs now0 req0 q0 qs0 ttl,
    req = Some msg ∧ mQuestion msg = q :: qs ∧
    EPut now0 (Some req0) (Some m) ∈ h2 ∧ mQuestion req0 = q0 :: qs0 ∧
    cacheKey q msg = cacheKey q0 req0 ∧
    admitted (New opts) q0 m ttl ∧ now ≤ now0 + seconds ttl.
Proof.
  intros Hr E. assert (Hh : hits_justified opts (r_hist r)).
  { clear E. revert r Hr. apply (rtc_ind_r (λ r, hits_justified opts (r_hist r))).
    - intros [|? ?] ? ? ? ? ?; discriminate.
    - intros r r' Hr Hs IH. eapply cstep_hits; eauto using reachable_justified. }
  destruct (Hh _ _ _ _ _ E)
    as (msg & q & qs & ex & -> & Hq & (now0 & req0 & q0 & qs0 & ttl & Hin & Hq0 & Hk & Ha & ->) & Hle).
  by exists msg, q, qs, now0, req0, q0, qs0, ttl.
Qed.

(** ** Keys *)

(** Two requests share a key only if they ask the same name, type and class
    with the same DO bit, as long as the types and classes involved have
    distinct mnemonics. *)
Theorem cacheKey_inj q1 r1 q2 r2 :
  DnsLaws dl →
  (TypeToString (qType q1) = TypeToString (qType q2) → qType q1 = qType q2) →
  (ClassToString (qClass q1) = ClassToString (qClass q2) → qClass q1 = qClass q2) →
  cacheKey q1 r1 = cacheKey q2 r2 → q1 = q2 ∧ edns_do r1 = edns_do r2.
Proof.
  intros HL Ht Hc. unfold cacheKey.
  set (d1 := if edns_do r1 then "1" else "0"). set (d2 := if edns_do r2 then "1" else "0").
  intros H. change ("|" +:+ d1) with (String "|" d1) in H. change ("|" +:+ d2) with (String "|" d2) in H.
  rewrite <-!sapp_assoc in H.
  apply last_sep_inj in H as [H Hd];
    [|subst d1; by destruct (edns_do r1)|subst d2; by destruct (edns_do r2)].
  rewrite !sapp_assoc in H. rewrite <-!(sapp_assoc (qName _)) in H.
  rewrite <-!(sapp_assoc (qName _ +:+ _)) in H.
  apply last_sep_inj in H as [H Hcl]; [|apply ClassToString_bar..].
  rewrite !sapp_assoc in H. apply last_sep_inj in H as [Hn Hty]; [|apply TypeToString_bar..].
  split.
  - destruct q1, q2; simpl in *. by rewrite Hn, Ht, Hc.
  - subst d1 d2. by destruct (edns_do r1), (edns_do r2).
Qed.

(** Types without a mnemonic all render as the empty string, so two
    different such types share a key, and the answer to one is served as the
    answer to the other. *)
Theorem cacheKey_collision order c now m q qs r ttl t m' q' :
  mQuestion m = q :: qs → admitted c q r ttl → 0 ≤ seconds ttl →
  TypeToString (qType q) = "" → TypeToString t = "" →
  q' = mkQuestion (qName q) t (qClass q) → mQuestion m' = [q'] → edns_do m' = edns_do m →
  fst (Get (Put order c now (Some m) (Some r)) now (Some m')) = Some r.
Proof.
  intros Hq Ha Hs Ht Ht' -> Hq' Hdo. unfold Get.
  pose proof Ha as (He & _). rewrite (Put_admitted order c now m q qs r ttl Hq Ha).
  unfold Get_lookup. simpl. rewrite He, Hq'. unfold cacheKey at 1 2; simpl. rewrite Hdo, Ht, Ht', lookup_insert_eq.
  unfold IsExpired; simpl. by destruct (Z.ltb_spec (now + seconds ttl) now); [lia|].
Qed.

End Props.

(** ** Witnesses *)

Definition ex_q : Question := mkQuestion "example.com." TypeA ClassINET.
Definition ex_query (qs : list Question) : Msg :=
  mkMsg (mkMsgHdr 7 false 0 false false true false false false 0) qs [] [] [].
Definition ex_req : Msg := ex_query [ex_q].
Definition ex_rr (ttl : Z) : RR := mkRR (mkHeader "example.com." TypeA ClassINET ttl) (D_Other "192.0.2.1").
Definition ex_resp : Msg := mkMsg (replyHdr 7 RcodeSuccess) [ex_q] [ex_rr 120] [] [].
Definition ex_opts : Options := mkOptions true 1 60 86400 0 3600.
Definition ex_range (m : gmap string CacheEntry) : list (string * CacheEntry) := map_to_list m.
Definition ex_q2 : Question := mkQuestion "example.org." TypeA ClassINET.
Definition ex_resp2 : Msg := mkMsg (replyHdr 9 RcodeSuccess) [ex_q2] [ex_rr 30] [] [].
Definition ex_cache : Cache := @Put toyLib ex_range (New ex_opts) 0 (Some ex_req) (Some ex_resp).

Lemma ex_resp_ttl_wf : ttl_wf ex_resp.
Proof. unfold ttl_wf. apply Forall_forall. repeat constructor; simpl; lia. Qed.

Lemma extractMinTTL_spec_witness :
  ∃ rr, rr ∈ counted_rrs ex_resp ∧ extractMinTTL ex_resp = hTtl (rHdr rr).
Proof.
  apply (extractMinTTL_spec ex_resp ex_resp_ttl_wf). exists (ex_rr 120).
  split; [apply list_elem_of_here|done].
Defined.

Lemma put_ttl_bounds_witness :
  (isNegative ex_resp = false ∧ 60 ≤ 120 ≤ 86400) ∨
  (isNegative ex_resp = true ∧ 0 < 120 ≤ 0 ∧ 120 ≤ negTTL ex_resp).
Proof. apply (put_ttl_bounds (New ex_opts) ex_resp 120); [done|reflexivity]. Defined.

Lemma ex_run : reachable (dl := toyLib) ex_opts
  (mkRun ex_cache [] [EGet (60 * second) (Some ex_req) (Some ex_resp); EPut 0 (Some ex_req) (Some ex_resp)]).
Proof.
  eapply rtc_l; [by apply (step_put _ _ _ ex_range 0 (Some ex_req) (Some ex_resp))|].
  eapply rtc_l; [apply (step_hit _ _ _ (60 * second) (Some ex_req) ex_resp)|apply rtc_refl].
  vm_compute. done.
Defined.

Lemma reachable_bounded_witness : 0 < maxSize ex_cache ∧ Size ex_cache ≤ maxSize ex_cache.
Proof. exact (reachable_bounded (dl := toyLib) ex_opts _ ex_run). Defined.

Lemma ex_admitted : admitted (dl := toyLib) (New ex_opts) ex_q ex_resp 120.
Proof. repeat split; reflexivity. Defined.

Lemma put_get_witness :
  Get (dl := toyLib) ex_cache (100 * second) (Some ex_req) = (Some ex_resp, ex_cache).
Proof.
  refine (proj1 (put_get (dl := toyLib) ex_range (New ex_opts) 0 (100 * second)
    ex_req ex_q [] ex_resp 120 ex_req ex_q [] eq_refl ex_admitted eq_refl eq_refl) _).
  vm_compute. discriminate.
Defined.

Lemma ex_range_ok : range_order ex_range.
Proof. intros m. reflexivity. Qed.

Lemma ex_cache_wf : cache_wf ex_cache.
Proof. apply (Put_wf (dl := toyLib)); [apply ex_range_ok|apply New_wf]. Qed.

Lemma put_evicts_soonest_witness :
  ∃ k0 e0, entries ex_cache !! k0 = Some e0 ∧
    (∀ k e, entries ex_cache !! k = Some e → eExpiresAt e0 ≤ eExpiresAt e) ∧
    entries (Put (dl := toyLib) ex_range ex_cache 5 (Some (ex_query [ex_q2])) (Some ex_resp2)) =
    <[cacheKey (dl := toyLib) ex_q2 (ex_query [ex_q2]) := mkEntry ex_resp2 (5 + seconds 60)]>
      (delete k0 (entries ex_cache)).
Proof.
  refine (put_evicts_soonest (dl := toyLib) ex_range ex_cache 5 (ex_query [ex_q2]) ex_q2 [] ex_resp2 60 _ _ _ _);
    [apply ex_range_ok|apply ex_cache_wf|done|repeat split; reflexivity].
Defined.

Lemma GetStale_spec_witness :
  GetStale (dl := toyLib) ex_cache (130 * second) (Some ex_req) = Some ex_resp.
Proof.
  apply (GetStale_spec (dl := toyLib) ex_cache (130 * second) ex_req ex_q [] ex_resp); [done|vm_compute; split; congruence|].
  split; [done|]. exists (mkEntry ex_resp (seconds 120)). repeat split; vm_compute; congruence.
Defined.

Lemma reachable_hits_justified_witness :
  ∃ msg q qs now0 req0 q0 qs0 ttl,
    Some ex_req = Some msg ∧ mQuestion msg = q :: qs ∧
    EPut now0 (Some req0) (Some ex_resp) ∈ [EPut 0 (Some ex_req) (Some ex_resp)] ∧
    mQuestion req0 = q0 :: qs0 ∧
    cacheKey (dl := toyLib) q msg = cacheKey (dl := toyLib) q0 req0 ∧
    admitted (dl := toyLib) (New ex_opts) q0 ex_resp ttl ∧ 60 * second ≤ now0 + seconds ttl.
Proof.
  exact (reachable_hits_justified (dl := toyLib) ex_opts _ [] _ (60 * second) (Some ex_req) ex_resp ex_run eq_refl).
Defined.

Lemma cacheKey_inj_witness :
  ex_q = ex_q ∧ edns_do (dl := toyLib) ex_req = edns_do (dl := toyLib) ex_req.
Proof.
  apply (cacheKey_inj (dl := toyLib) ex_q ex_req ex_q ex_req toyLaws); done.
Defined.

Definition ex_q_unknown (t : Z) : Question := mkQuestion "example.com." t ClassINET.

(** TYPE65280's answer comes back for TYPE65281. *)
Lemma cacheKey_collision_witness :
  fst (Get (dl := toyLib)
         (Put (dl := toyLib) ex_range (New ex_opts) 0 (Some (ex_query [ex_q_unknown 65280]))
              (Some (mkMsg (replyHdr 7 RcodeSuccess) [] [ex_rr 120] [] [])))
         0 (Some (ex_query [ex_q_unknown 65281])))
  = Some (mkMsg (replyHdr 7 RcodeSuccess) [] [ex_rr 120] [] []).
Proof.
  apply (cacheKey_collision (dl := toyLib) ex_range (New ex_opts) 0 (ex_query [ex_q_unknown 65280])
           (ex_q_unknown 65280) [] _ 120 65281 _ (ex_q_unknown 65281)); try done.
Defined.
