(* ===== verification/Blocklist.v ===== *)
(** * The blocklist (internal/blocklist/blocklist.go)

    Blocked names in two sets, plain entries and wildcard entries, with the
    tolerant loaders and the hot reload.  Go's [map[string]bool] values are
    only ever set to [true], so the maps are sets of names.  The file system
    and the HTTP client are arguments of the loaders. *)

From S2P Require Import Prelude GoStrings GoRegexp GoBufio GoNet.
From Stdlib Require Import Ascii String.
Open Scope string_scope.
Open Scope list_scope.
Open Scope Z_scope.

(** ** State and lookup *)

Record Blocklist := mkBlocklist {
  domains : gset string; wildcard : gset string; bl_enabled : bool }.

Definition New (enabled : bool) : Blocklist := mkBlocklist ∅ ∅ enabled.

Definition IsBlocked (b : Blocklist) (domain : string) : bool :=
  if negb (bl_enabled b) then false else
  let domain := ToLower (TrimSuffix domain ".") in
  if bool_decide (domain ∈ domains b) then true else
  existsb (λ suffix, bool_decide (suffix ∈ domains b) || bool_decide ("*." +:+ suffix ∈ wildcard b))
          (parent_suffixes domain).

(** ** Host names *)

Definition label_outer (a : ascii) : bool := is_alnum a || Ascii.eqb a "_".
Definition label_inner (a : ascii) : bool := label_outer a || Ascii.eqb a "-".

(** [^[a-zA-Z0-9_]([a-zA-Z0-9_-]{0,61}[a-zA-Z0-9_])?$]. *)
Definition hostLabelRE : re := label_re label_outer label_inner.

Definition isValidHostname (host : string) : bool :=
  let host := TrimSuffix host "." in
  let host := if HasPrefix host "*." then str_drop 2 host else host in
  if String.eqb host "" then false else
  forallb (MatchString hostLabelRE) (Split host ".").

(** ** Loading *)

(** The two maps a scan fills. *)
Definition sets : Type := gset string * gset string.

Definition addEntry (s : sets) (domain : string) : sets :=
  let domain := ToLower (TrimSuffix domain ".") in
  if HasPrefix domain "*." then (fst s, {[domain]} ∪ snd s) else ({[domain]} ∪ fst s, snd s).

(** Add the entry if it is a valid host name, count it as skipped if not. *)
Definition tryEntry (acc : Z * sets) (domain : string) : Z * sets :=
  let '(skipped, s) := acc in
  if isValidHostname domain then (skipped, addEntry s domain) else (skipped + 1, s).

(** One line of a list file. *)
Definition scan_line (acc : Z * sets) (text : string) : Z * sets :=
  let line := TrimSpace text in
  if String.eqb line "" || HasPrefix line "#" then acc else
  match Fields line with
  | [] => acc
  | f :: fs =>
      match ParseIP f with
      | Some _ => fold_left tryEntry fs acc
      | None =>
          match fs with
          | [] => tryEntry acc f
          | _ => let '(skipped, s) := acc in (skipped + 1, s)
          end
      end
  end.

(** Returns the skipped count, whether the scan failed, and the maps. *)
Definition scanInto (r : Reader) (s : sets) : Z * bool * sets :=
  let '(skipped, s') := fold_left scan_line (fst (ScanLines MaxScanTokenSize (rdData r))) (0, s) in
  (skipped, scan_failed MaxScanTokenSize r, s').

Definition parseFile (b : Blocklist) (r : Reader) : Z * bool * Blocklist :=
  let '(skipped, failed, tmp) := scanInto r (∅, ∅) in
  if failed then (skipped, true, b)
  else (skipped, false, mkBlocklist (fst tmp ∪ domains b) (snd tmp ∪ wildcard b) (bl_enabled b)).

Section IO.
(** [os.Open]: [None] when the file cannot be opened. *)
Context (open : string → option Reader).
(** [client.Get]: [None] on a transport error, else the status and the body. *)
Context (fetch : string → option (Z * Reader)).

Definition loadFile (b : Blocklist) (path : string) : Z * bool * Blocklist :=
  match open path with
  | None => (0, true, b)
  | Some r => parseFile b r
  end.

(** The loop of [LoadFiles]; [err] is the path that failed, if any. *)
Fixpoint LoadFiles_from (skipped : Z) (b : Blocklist) (paths : list string)
    : Z * option string * Blocklist :=
  match paths with
  | [] => (skipped, None, b)
  | path :: rest =>
      let '(n, failed, b') := loadFile b path in
      if failed then (skipped + n, Some path, b') else LoadFiles_from (skipped + n) b' rest
  end.
Definition LoadFiles (b : Blocklist) (paths : list string) := LoadFiles_from 0 b paths.

Definition loadURL (b : Blocklist) (url : string) : Z * bool * Blocklist :=
  match fetch url with
  | None => (0, true, b)
  | Some (status, body) => if negb (status =? 200) then (0, true, b) else parseFile b body
  end.

Fixpoint LoadURLs_from (skipped : Z) (b : Blocklist) (urls : list string)
    : Z * option string * Blocklist :=
  match urls with
  | [] => (skipped, None, b)
  | url :: rest =>
      let '(n, failed, b') := loadURL b url in
      if failed then (skipped + n, Some url, b') else LoadURLs_from (skipped + n) b' rest
  end.
Definition LoadURLs (b : Blocklist) (urls : list string) := LoadURLs_from 0 b urls.

Record ReloadResult := mkReload {
  rDomains : Z; rWildcards : Z; rFilesOK : Z; rFilesErr : Z; rSkipped : Z }.

(** One file of the reload: a file that fails mid-scan has already written
    into the new maps. *)
Definition reload_file (acc : ReloadResult * sets) (path : string) : ReloadResult * sets :=
  let '(res, s) := acc in
  let failed := mkReload (rDomains res) (rWildcards res) (rFilesOK res) (rFilesErr res + 1) (rSkipped res) in
  match open path with
  | None => (failed, s)
  | Some r =>
      let '(skipped, err, s') := scanInto r s in
      if err then (failed, s')
      else (mkReload (rDomains res) (rWildcards res) (rFilesOK res + 1) (rFilesErr res)
                     (rSkipped res + skipped), s')
  end.

Definition ReplaceFromFiles (b : Blocklist) (paths : list string) : ReloadResult * Blocklist :=
  let '(res, s) := fold_left reload_file paths (mkReload 0 0 0 0 0, (∅, ∅)) in
  (mkReload (Z.of_nat (size (fst s))) (Z.of_nat (size (snd s))) (rFilesOK res) (rFilesErr res) (rSkipped res),
   mkBlocklist (fst s) (snd s) (bl_enabled b)).

End IO.

(** ** Direct updates *)

Definition addDomainNoLock (b : Blocklist) (domain : string) : Blocklist :=
  let domain := ToLower domain in
  let domain := TrimSuffix domain "." in
  if HasPrefix domain "*."
  then mkBlocklist (domains b) ({[domain]} ∪ wildcard b) (bl_enabled b)
  else mkBlocklist ({[domain]} ∪ domains b) (wildcard b) (bl_enabled b).
Definition addDomain := addDomainNoLock.
Definition Add := addDomain.

Definition Clear (b : Blocklist) : Blocklist := mkBlocklist ∅ ∅ (bl_enabled b).
Definition Size (b : Blocklist) : Z := Z.of_nat (size (domains b)) + Z.of_nat (size (wildcard b)).
(** The three counters of [Stats]: total, domains, wildcard. *)
Definition Stats (b : Blocklist) : Z * Z * Z :=
  (Size b, Z.of_nat (size (domains b)), Z.of_nat (size (wildcard b))).

(** ** What being blocked means *)

Lemma blocked_iff b d :
  IsBlocked b d = true ↔
  bl_enabled b = true ∧
  ((∃ e, e ∈ domains b ∧ at_or_below (normalize d) e) ∨
   (∃ e, "*." +:+ e ∈ wildcard b ∧ below (normalize d) e)).
Proof.
  unfold IsBlocked. fold (normalize d). set (n := normalize d).
  destruct (bl_enabled b); simpl; [|naive_solver].
  case_bool_decide as Hin; [split; [|done]|].
  { intros _. split; [done|]. left. exists n. by split; [|left]. }
  rewrite existsb_elem. setoid_rewrite elem_of_parent_suffixes.
  setoid_rewrite orb_true_iff. setoid_rewrite bool_decide_eq_true. unfold at_or_below, below. split.
  - intros (e & Hx & [He|He]); split; eauto 8.
  - intros [_ [(e & He & [->|Hx])|(e & He & Hx)]]; [done|eauto|eauto].
Qed.

(** A name is blocked exactly when the list is enabled and, compared without
    a trailing dot and ignoring case, the name is at or below a plain entry or
    strictly below the suffix of a wildcard entry. *)
Theorem IsBlocked_spec b d :
  IsBlocked b d = true ↔
  bl_enabled b = true ∧
  ((∃ e, e ∈ domains b ∧ at_or_below (normalize d) e) ∨
   (∃ e, "*." +:+ e ∈ wildcard b ∧ below (normalize d) e)).
Proof. apply blocked_iff. Qed.

Lemma IsBlocked_normalize b d d' : normalize d = normalize d' → IsBlocked b d = IsBlocked b d'.
Proof. intros E. apply eq_true_iff_eq. rewrite !blocked_iff. by rewrite E. Qed.

(** Being blocked grows with the sets. *)
Lemma IsBlocked_mono b b' d :
  bl_enabled b = bl_enabled b' → domains b ⊆ domains b' → wildcard b ⊆ wildcard b' →
  IsBlocked b d = true → IsBlocked b' d = true.
Proof. intros He Hd Hw. rewrite !blocked_iff, He. set_solver. Qed.

(** ** Loaded entries are well formed *)

Definition host_ok (h : string) : Prop := ∀ l, l ∈ Split h "." → label_ok label_outer label_inner l.

Definition plain_ok (d : string) : Prop := host_ok d ∧ ToLower d = d.
Definition wild_ok (w : string) : Prop := ∃ s, w = "*." +:+ s ∧ host_ok s ∧ ToLower s = s.
Definition sets_ok (s : sets) : Prop := (∀ d, d ∈ fst s → plain_ok d) ∧ (∀ w, w ∈ snd s → wild_ok w).
Definition bl_ok (b : Blocklist) : Prop := sets_ok (domains b, wildcard b).

Lemma label_classes a : label_outer a = true → label_inner a = true.
Proof. unfold label_inner. by intros ->. Qed.

Lemma label_outer_lower a : label_outer (lower_char a) = label_outer a.
Proof. by destruct a as [[] [] [] [] [] [] [] []]. Qed.
Lemma label_inner_lower a : label_inner (lower_char a) = label_inner a.
Proof. by destruct a as [[] [] [] [] [] [] [] []]. Qed.

Lemma host_ok_ToLower h : host_ok h → host_ok (ToLower h).
Proof.
  intros Hh l. rewrite Split_ToLower. intros (x & -> & Hx)%list_elem_of_fmap.
  by apply label_ok_lower; [apply label_outer_lower|apply label_inner_lower|apply Hh].
Qed.

Lemma host_ok_forallb h : forallb (MatchString hostLabelRE) (Split h ".") = true ↔ host_ok h.
Proof.
  rewrite forallb_elem. unfold host_ok. split; intros H l Hl; apply H in Hl;
    by apply (label_re_spec label_outer label_inner l label_classes).
Qed.

(** The loader accepts a line's host name exactly when, without a trailing
    dot and an optional leading "*.", every label has 1 to 63 letters, digits,
    underscores or hyphens and neither starts nor ends with a hyphen. *)
Theorem isValidHostname_spec host :
  isValidHostname host = true ↔
  let t := TrimSuffix host "." in host_ok (if HasPrefix t "*." then str_drop 2 t else t).
Proof.
  unfold isValidHostname. cbn zeta. set (h := if HasPrefix _ _ then _ else _).
  destruct (String.eqb_spec h "") as [->|_]; [|apply host_ok_forallb].
  split; [done|]. intros H. destruct (H "" (list_elem_of_here _ _)) as ([Hl _] & _). simpl in Hl. lia.
Qed.

Lemma valid_cases host :
  isValidHostname host = true →
  (∃ s, normalize host = "*." +:+ s ∧ host_ok s ∧ ToLower s = s) ∨
  (HasPrefix (normalize host) "*." = false ∧ plain_ok (normalize host)).
Proof.
  intros H. assert (Hh := H). unfold isValidHostname in Hh.
  destruct (String.eqb _ "") in Hh; [done|]. apply host_ok_forallb in Hh. clear H.
  unfold normalize in *. rewrite HasPrefix_star_ToLower.
  destruct (HasPrefix (TrimSuffix host ".") "*.") eqn:E.
  - left. apply HasPrefix_spec in E as [s E]. rewrite E in Hh. simpl in Hh. rewrite E.
    exists (ToLower s). split_and!; [done|by apply host_ok_ToLower|apply ToLower_idem].
  - right. split; [done|]. split; [by apply host_ok_ToLower|apply ToLower_idem].
Qed.

Lemma addEntry_ok s d : isValidHostname d = true → sets_ok s → sets_ok (addEntry s d).
Proof.
  intros Hv [Hp Hw]. unfold addEntry. fold (normalize d).
  destruct (valid_cases d Hv) as [(t & E & Ht & Hlow)|(E & Hok)].
  - rewrite E, HasPrefix_app. split; simpl; [done|].
    intros w [->%elem_of_singleton|?]%elem_of_union; [by exists t|auto].
  - rewrite E. split; simpl; [|done]. intros x [->%elem_of_singleton|?]%elem_of_union; auto.
Qed.

Lemma tryEntry_ok acc d : sets_ok (snd acc) → sets_ok (snd (tryEntry acc d)).
Proof.
  destruct acc as [n s]; simpl. intros Hs. destruct (isValidHostname d) eqn:E; simpl; [|done].
  by apply addEntry_ok.
Qed.

Lemma scan_line_ok acc text : sets_ok (snd acc) → sets_ok (snd (scan_line acc text)).
Proof.
  intros Hs. unfold scan_line. destruct (_ || _); [done|].
  destruct (Fields (TrimSpace text)) as [|f fs]; [done|]. destruct (ParseIP f).
  - apply (fold_left_inv (λ acc, sets_ok (snd acc))); [intros; by apply tryEntry_ok|done].
  - destruct fs; [by apply tryEntry_ok|]. by destruct acc.
Qed.

Lemma scanInto_ok r s : sets_ok s → sets_ok (snd (scanInto r s)).
Proof.
  intros Hs. unfold scanInto.
  pose proof (fold_left_inv (λ acc, sets_ok (snd acc)) scan_line
    (fst (ScanLines MaxScanTokenSize (rdData r))) (0, s) scan_line_ok Hs) as H.
  by destruct (fold_left _ _ _).
Qed.

Lemma empty_ok : sets_ok (∅, ∅).
Proof. split; intros x Hx; by apply elem_of_empty in Hx. Qed.

Lemma union_ok s1 s2 : sets_ok s1 → sets_ok s2 → sets_ok (fst s1 ∪ fst s2, snd s1 ∪ snd s2).
Proof. unfold sets_ok; simpl. set_solver. Qed.

#[local] Hint Resolve empty_ok union_ok scanInto_ok : rcvd.

Lemma parseFile_ok b r : bl_ok b → bl_ok (snd (parseFile b r)).
Proof.
  intros Hb. unfold parseFile. pose proof (scanInto_ok r (∅, ∅) empty_ok) as H.
  destruct (scanInto r (∅, ∅)) as [[n failed] tmp]. simpl in H. destruct failed; simpl; [done|].
  by apply (union_ok tmp (domains b, wildcard b)).
Qed.

(** ** Loading is additive *)

Definition sets_le (s1 s2 : sets) : Prop := fst s1 ⊆ fst s2 ∧ snd s1 ⊆ snd s2.

Lemma parseFile_mono b r :
  let b' := snd (parseFile b r) in
  bl_enabled b' = bl_enabled b ∧ domains b ⊆ domains b' ∧ wildcard b ⊆ wildcard b'.
Proof.
  unfold parseFile. destruct (scanInto r (∅, ∅)) as [[n []] tmp]; simpl; [done|]. set_solver.
Qed.

Section IOProps.
Context (open : string → option Reader) (fetch : string → option (Z * Reader)).

Lemma loadFile_inv (P : Blocklist → Prop) b path :
  (∀ b r, P b → P (snd (parseFile b r))) → P b → P (snd (loadFile open b path)).
Proof. intros HP Hb. unfold loadFile. destruct (open path); [auto|done]. Qed.

Lemma loadURL_inv (P : Blocklist → Prop) b url :
  (∀ b r, P b → P (snd (parseFile b r))) → P b → P (snd (loadURL fetch b url)).
Proof.
  intros HP Hb. unfold loadURL. destruct (fetch url) as [[st r]|]; [|done]. destruct (negb _); [done|auto].
Qed.

(** What every parsed file preserves, the loaders preserve. *)
Lemma LoadFiles_inv (P : Blocklist → Prop) b paths :
  (∀ b r, P b → P (snd (parseFile b r))) → P b → P (snd (LoadFiles open b paths)).
Proof.
  intros HP. unfold LoadFiles. generalize 0. revert b; induction paths as [|path paths IH]; intros b n Hb;
    simpl; [done|].
  pose proof (loadFile_inv P b path HP Hb). destruct (loadFile open b path) as [[k []] b']; simpl in *; auto.
Qed.

Lemma LoadURLs_inv (P : Blocklist → Prop) b urls :
  (∀ b r, P b → P (snd (parseFile b r))) → P b → P (snd (LoadURLs fetch b urls)).
Proof.
  intros HP. unfold LoadURLs. generalize 0. revert b; induction urls as [|url urls IH]; intros b n Hb;
    simpl; [done|].
  pose proof (loadURL_inv P b url HP Hb). destruct (loadURL fetch b url) as [[k []] b']; simpl in *; auto.
Qed.

Lemma reload_file_ok acc path : sets_ok (snd acc) → sets_ok (snd (reload_file open acc path)).
Proof.
  destruct acc as [res s]; simpl. intros Hs. destruct (open path) as [r|]; [|done].
  pose proof (scanInto_ok r s Hs) as H. by destruct (scanInto r s) as [[n []] s'].
Qed.

(** Every entry any loader (files, URLs, hot reload) puts in the live sets
    is lower case with valid labels, plain entries in one set and "*."
    entries in the other, whatever the files contain and however the load
    ends. *)
Theorem loaders_ok b paths urls :
  bl_ok b →
  bl_ok (snd (LoadFiles open b paths)) ∧ bl_ok (snd (LoadURLs fetch b urls)) ∧
  bl_ok (snd (ReplaceFromFiles open b paths)).
Proof.
  intros Hb. split_and!.
  - by apply LoadFiles_inv; [apply parseFile_ok|].
  - by apply LoadURLs_inv; [apply parseFile_ok|].
  - unfold ReplaceFromFiles.
    pose proof (fold_left_inv (λ acc, sets_ok (snd acc)) (reload_file open) paths
      (mkReload 0 0 0 0 0, (∅, ∅)) reload_file_ok empty_ok) as H.
    by destruct (fold_left _ _ _) as [res [d w]].
Qed.

(** The startup loaders only add: a name blocked before a load is blocked
    after it, also when the load fails half way. *)
Theorem load_keeps_blocked b paths urls d :
  IsBlocked b d = true →
  IsBlocked (snd (LoadFiles open b paths)) d = true ∧ IsBlocked (snd (LoadURLs fetch b urls)) d = true.
Proof.
  intros Hb. assert (HP : ∀ b r, IsBlocked b d = true → IsBlocked (snd (parseFile b r)) d = true).
  { intros b' r. pose proof (parseFile_mono b' r) as (? & ? & ?). by apply IsBlocked_mono. }
  split; [by apply LoadFiles_inv|by apply LoadURLs_inv].
Qed.

End IOProps.

(** ** A reload is exactly the files *)

(** Membership in either of the two sets: [true] selects the plain ones. *)
Definition sel (plain : bool) (s : sets) : gset string := if plain then fst s else snd s.

(** A scanning step adds what it would add to empty sets. *)
Definition additive (f : Z * sets → Z * sets) : Prop :=
  ∀ n s p e, e ∈ sel p (snd (f (n, s))) ↔ e ∈ sel p (snd (f (0, (∅, ∅)))) ∨ e ∈ sel p s.

Lemma sel_empty p e : e ∈ sel p (∅, ∅) ↔ False.
Proof. destruct p; simpl; by rewrite elem_of_empty. Qed.

Lemma additive_id : additive id.
Proof. intros n s p e. simpl. rewrite sel_empty. tauto. Qed.

Lemma additive_comp f g : additive f → additive g → additive (λ a, g (f a)).
Proof.
  intros Hf Hg n s p e. destruct (f (n, s)) as [n1 s1] eqn:E1, (f (0, (∅, ∅))) as [n2 s2] eqn:E2.
  specialize (Hf n s p e). rewrite E1, E2 in Hf. simpl in Hf.
  rewrite (Hg n1 s1), (Hg n2 s2), Hf. tauto.
Qed.

Lemma additive_fold {A} (f : Z * sets → A → Z * sets) l :
  (∀ a, additive (λ acc, f acc a)) → additive (fold_left f l).
Proof.
  intros Hf. induction l as [|a l IH]; simpl; [apply additive_id|].
  apply (additive_comp (λ acc, f acc a)); auto.
Qed.

Lemma tryEntry_additive d : additive (λ acc, tryEntry acc d).
Proof.
  intros n s p e. unfold tryEntry. destruct (isValidHostname d); simpl.
  - unfold addEntry. destruct (HasPrefix _ "*."), p; simpl; set_solver.
  - rewrite sel_empty. tauto.
Qed.

Lemma scan_line_additive text : additive (λ acc, scan_line acc text).
Proof.
  unfold scan_line. destruct (_ || _); [apply additive_id|].
  destruct (Fields (TrimSpace text)) as [|f fs]; [apply additive_id|].
  destruct (ParseIP f); [apply additive_fold, tryEntry_additive|].
  destruct fs; [apply tryEntry_additive|].
  intros n s' p e. simpl. rewrite sel_empty. tauto.
Qed.

(** The names a line lists: none on a comment; in the format of a hosts file those that
    follow the address; a line of one word lists that word, and other lines nothing. *)
Definition line_names (text : string) : list string :=
  let line := TrimSpace text in
  if String.eqb line "" || HasPrefix line "#" then [] else
  match Fields line with
  | [] => []
  | f :: fs => if ParseIP f is Some _ then fs else match fs with [] => [f] | _ => [] end
  end.

(** A line lists an entry: a valid host name, taken without its last dot and in lower case. *)
Definition lists (text e : string) : Prop := ∃ name, name ∈ line_names text ∧ isValidHostname name = true ∧ e = normalize name.

(** The lines of a file, up to the point where its scan stops. *)
Definition file_lines (r : Reader) : list string := fst (ScanLines MaxScanTokenSize (rdData r)).

Lemma tryEntry_sel p e l : e ∈ sel p (snd (fold_left tryEntry l (0, (∅, ∅)))) ↔
  (∃ name, name ∈ l ∧ isValidHostname name = true ∧ e = normalize name) ∧ HasPrefix e "*." = negb p.
Proof.
  induction l as [|d l IH]; cbn [fold_left]; [rewrite sel_empty; set_solver|].
  destruct (tryEntry (0, (∅, ∅)) d) as [n s] eqn:Et.
  rewrite (additive_fold tryEntry l tryEntry_additive n s p e), IH. setoid_rewrite elem_of_cons.
  assert (Hs : e ∈ sel p s ↔ (isValidHostname d = true ∧ e = normalize d) ∧ HasPrefix e "*." = negb p); [|naive_solver].
  revert Et. unfold tryEntry, addEntry. fold (normalize d). destruct (isValidHostname d); [|intros [= <- <-]; rewrite sel_empty; naive_solver].
  destruct (HasPrefix (normalize d) "*.") eqn:Eh; intros [= <- <-]; destruct p; cbn [sel fst snd negb];
    rewrite ?elem_of_union, ?elem_of_singleton, ?elem_of_empty; (split; [try tauto|intros [[_ ->] Hp]; try congruence; tauto]);
    intros [->|[]]; by rewrite Eh.
Qed.

Lemma scan_line_sel p e text : e ∈ sel p (snd (scan_line (0, (∅, ∅)) text)) ↔ lists text e ∧ HasPrefix e "*." = negb p.
Proof.
  assert (Hn : e ∈ sel p (∅, ∅) ↔ (∃ name, name ∈ [] ∧ isValidHostname name = true ∧ e = normalize name) ∧ HasPrefix e "*." = negb p)
    by (rewrite sel_empty; set_solver).
  unfold scan_line, lists, line_names. destruct (_ || _)%bool; [exact Hn|].
  destruct (Fields (TrimSpace text)) as [|f fs]; [exact Hn|].
  destruct (ParseIP f); [apply tryEntry_sel|]. destruct fs; [apply (tryEntry_sel p e [f])|exact Hn].
Qed.

Lemma scanInto_sel r s p e : e ∈ sel p (snd (scanInto r s)) ↔
  (∃ text, text ∈ file_lines r ∧ lists text e ∧ HasPrefix e "*." = negb p) ∨ e ∈ sel p s.
Proof.
  assert (Hf : snd (scanInto r s) = snd (fold_left scan_line (file_lines r) (0, s))) by (unfold scanInto, file_lines; by destruct (fold_left _ _ _)).
  rewrite Hf. clear Hf. generalize 0%Z. revert s. induction (file_lines r) as [|text l IH]; intros s n; cbn [fold_left]; [set_solver|].
  destruct (scan_line (n, s) text) as [n' s'] eqn:E. rewrite IH.
  pose proof (scan_line_additive text n s p e) as Ha. cbn beta in Ha. rewrite E, scan_line_sel in Ha. cbn [snd] in Ha. rewrite Ha.
  setoid_rewrite elem_of_cons. naive_solver.
Qed.

Section Reload.
Context (open : string → option Reader).

(** An entry of a file that can be opened. *)
Definition in_files (paths : list string) (e : string) : Prop :=
  ∃ path rd text, path ∈ paths ∧ open path = Some rd ∧ text ∈ file_lines rd ∧ lists text e.

(** A file that can be opened and read to its end. *)
Definition readable (path : string) : bool := match open path with Some rd => negb (scan_failed MaxScanTokenSize rd) | None => false end.

Lemma reload_file_step res s path res' s' : reload_file open (res, s) path = (res', s') →
  (∀ p e, e ∈ sel p s' ↔ in_files [path] e ∧ HasPrefix e "*." = negb p ∨ e ∈ sel p s) ∧
  rFilesOK res' = rFilesOK res + (if readable path then 1 else 0) ∧ rFilesErr res' = rFilesErr res + (if readable path then 0 else 1).
Proof.
  unfold reload_file, readable, in_files. setoid_rewrite list_elem_of_singleton. destruct (open path) as [rd|] eqn:Eo.
  2: intros [= <- <-]; cbn; split_and!; [intros p e; split; [by right|]|lia..]; intros [[(? & ? & ? & -> & ? & _) _]|]; [congruence|done].
  pose proof (scanInto_sel rd s) as Hs. assert (Hf : snd (fst (scanInto rd s)) = scan_failed MaxScanTokenSize rd) by (unfold scanInto; by destruct (fold_left _ _ _)).
  destruct (scanInto rd s) as [[n err] s1]. cbn [fst snd] in Hs, Hf. subst err. intros H.
  assert (Hs' : s1 = s') by (destruct (scan_failed _ _); congruence). subst s1.
  split; [intros p e; rewrite Hs; naive_solver|]. destruct (scan_failed _ _); injection H as <-; cbn; lia.
Qed.

Lemma reload_fold paths res s res' s' : fold_left (reload_file open) paths (res, s) = (res', s') →
  (∀ p e, e ∈ sel p s' ↔ in_files paths e ∧ HasPrefix e "*." = negb p ∨ e ∈ sel p s) ∧
  rFilesOK res' = rFilesOK res + Z.of_nat (List.length (List.filter readable paths)) ∧
  rFilesOK res' + rFilesErr res' = rFilesOK res + rFilesErr res + Z.of_nat (List.length paths).
Proof.
  revert res s. induction paths as [|path paths IH]; intros res s; cbn [fold_left List.filter List.length].
  { intros [= <- <-]. split_and!; [|cbn; lia..]. unfold in_files. set_solver. }
  destruct (reload_file open (res, s) path) as [res1 s1] eqn:E. intros (H1 & H2 & H3)%IH. apply reload_file_step in E as (E1 & E2 & E3).
  split_and!; [|destruct (readable path); cbn [List.length]; lia..].
  intros p e. rewrite H1, E1. unfold in_files. setoid_rewrite elem_of_cons. setoid_rewrite elem_of_nil. naive_solver.
Qed.


(** When none of the configured files can be opened, a hot reload replaces
    the live set by the empty one: every name blocked before is let through. *)
Theorem reload_unreadable_wipes b paths d :
  (∀ path, path ∈ paths → open path = None) →
  let '(res, b') := ReplaceFromFiles open b paths in
  rFilesErr res = Z.of_nat (List.length paths) ∧ domains b' = ∅ ∧ wildcard b' = ∅ ∧ IsBlocked b' d = false.
Proof.
  intros Hno. unfold ReplaceFromFiles.
  assert (H : ∀ res s, fold_left (reload_file open) paths (res, s) =
    (mkReload (rDomains res) (rWildcards res) (rFilesOK res)
       (rFilesErr res + Z.of_nat (List.length paths)) (rSkipped res), s)).
  { clear b d. induction paths as [|path paths IH]; intros res s; simpl.
    - destruct res; simpl. by rewrite Z.add_0_r.
    - rewrite (Hno path) by apply list_elem_of_here.
      rewrite IH by (intros; apply Hno; by apply list_elem_of_further). simpl. do 2 f_equal. lia. }
  rewrite H. simpl. split_and!; try done.
  apply not_true_iff_false. rewrite blocked_iff. simpl. set_solver.
Qed.

End Reload.

(** Adding a name blocks it and everything below it when it is a plain
    name, and only what is below it when it is written with "*."; names that
    were not matched before and are not below the added one stay unblocked. *)
Theorem Add_spec b d n :
  bl_enabled b = true →
  IsBlocked (Add b d) n = true ↔
  IsBlocked b n = true ∨
  (if HasPrefix (normalize d) "*."
   then below (normalize n) (str_drop 2 (normalize d))
   else at_or_below (normalize n) (normalize d)).
Proof.
  intros He. unfold Add, addDomain, addDomainNoLock. rewrite <-ToLower_TrimSuffix_dot. fold (normalize d).
  rewrite !blocked_iff. destruct (HasPrefix (normalize d) "*.") eqn:E;
    cbn [domains wildcard bl_enabled]; rewrite He.
  - apply HasPrefix_spec in E as [s ->].
    assert (Hd : str_drop 2 ("*." +:+ s) = s) by done. rewrite Hd.
    setoid_rewrite elem_of_union. setoid_rewrite elem_of_singleton.
    assert (Hinj : ∀ e, "*." +:+ e = "*." +:+ s ↔ e = s) by (intros; split; [apply sapp_inj_l|by intros ->]).
    setoid_rewrite Hinj. naive_solver.
  - set_solver.
Qed.

(** ** Witnesses *)

Definition ex_file : Reader :=
  mkReader ("# ads" +:+ nl +:+ "0.0.0.0 Ads.Example.com tracker.example.net." +:+ nl +:+
            "*.telemetry.test" +:+ nl +:+ "-bad-" +:+ nl) false.
Definition ex_open (path : string) : option Reader := if String.eqb path "list" then Some ex_file else None.
Definition ex_fetch (url : string) : option (Z * Reader) := Some (200, ex_file).
Definition ex_list : Blocklist := snd (LoadFiles ex_open (New true) ["list"]).

Example ex_list_contents :
  domains ex_list = {["tracker.example.net"; "ads.example.com"]} ∧
  wildcard ex_list = {["*.telemetry.test"]} ∧ fst (LoadFiles ex_open (New true) ["list"]) = (1, None).
Proof. split_and!; vm_compute; done. Qed.

Lemma ex_New_ok : bl_ok (New true).
Proof. apply empty_ok. Qed.

Lemma loaders_ok_witness :
  bl_ok ex_list ∧ bl_ok (snd (LoadURLs ex_fetch (New true) ["u"])) ∧
  bl_ok (snd (ReplaceFromFiles ex_open (New true) ["list"])).
Proof. exact (loaders_ok ex_open ex_fetch (New true) ["list"] ["u"] ex_New_ok). Defined.

Lemma load_keeps_blocked_witness :
  IsBlocked (snd (LoadFiles ex_open (Add (New true) "x.org") ["list"; "gone"])) "a.X.org." = true ∧
  IsBlocked (snd (LoadURLs ex_fetch (Add (New true) "x.org") ["u"])) "a.X.org." = true.
Proof. apply (load_keeps_blocked ex_open ex_fetch). vm_compute. done. Defined.

Lemma reload_unreadable_wipes_witness :
  let '(res, b') := ReplaceFromFiles ex_open ex_list ["gone"] in
  rFilesErr res = 1 ∧ domains b' = ∅ ∧ wildcard b' = ∅ ∧ IsBlocked b' "ads.example.com." = false.
Proof.
  apply (reload_unreadable_wipes ex_open ex_list ["gone"] "ads.example.com.").
  intros path H. apply list_elem_of_singleton in H as ->. reflexivity.
Defined.

Lemma Add_spec_witness : IsBlocked (Add (New true) "*.Example.com.") "a.example.COM" = true.
Proof.
  apply (Add_spec (New true) "*.Example.com." "a.example.COM"); [reflexivity|]. right.
  exists "a". reflexivity.
Defined.
