(* ===== verification/Allowlist.v ===== *)
(** * The allowlist (internal/allowlist/allowlist.go)

    The default-deny filter: plain, wildcard and exact-only entries, with a
    strict loader that either installs a complete set or leaves the live one
    alone.  The file system is an argument of the loader. *)

From S2P Require Import Prelude GoStrings GoRegexp GoBufio GoNet.
From Stdlib Require Import Ascii String.
Open Scope string_scope.
Open Scope list_scope.
Open Scope Z_scope.

(** ** State *)

Record Allowlist := mkAllowlist {
  domains : gset string; wildcard : gset string; exact : gset string }.

Definition New : Allowlist := mkAllowlist ∅ ∅ ∅.

(** [len(domains) == 0 && len(wildcard) == 0 && len(exact) == 0]. *)
Definition no_entries (a : Allowlist) : bool :=
  (size (domains a) =? 0)%nat && (size (wildcard a) =? 0)%nat && (size (exact a) =? 0)%nat.

Definition Allowed (a : Allowlist) (name : string) : bool :=
  if String.eqb name "" then false else
  if no_entries a then false else
  let domain := ToLower (TrimSuffix name ".") in
  if bool_decide (domain ∈ domains a) || bool_decide (domain ∈ exact a) then true else
  existsb (λ suffix, bool_decide (suffix ∈ domains a) || bool_decide ("*." +:+ suffix ∈ wildcard a))
          (parent_suffixes domain).

(** ** Entries *)

Inductive entry_error := EmptyEntry | EmptyWildcard | BareTLD | InvalidHost | InvalidLabel.

Definition label_outer : ascii → bool := is_alnum.
Definition label_inner (a : ascii) : bool := is_alnum a || Ascii.eqb a "-".
Definition hostLabelRE : re := label_re label_outer label_inner.

Definition chr (c : ascii) : re := Chr (Ascii.eqb c).

(** [^(\*\.)?LABEL(\.LABEL)+$] with the label pattern above. *)
Definition allowlistHostRE : re :=
  Cat (Opt (Cat (chr "*") (chr ".")))
      (Cat hostLabelRE (Plus (Cat (chr ".") hostLabelRE))).

Definition validateAllowlistEntry (entry : string) : result () entry_error :=
  let host := TrimSuffix entry "." in
  if String.eqb host "" then Err EmptyEntry else
  let star := HasPrefix host "*." in
  let host := if star then str_drop 2 host else host in
  if star && String.eqb host "" then Err EmptyWildcard else
  if negb (ContainsByte host ".") then Err BareTLD else
  if negb (MatchString allowlistHostRE host) then Err InvalidHost else
  if forallb (MatchString hostLabelRE) (Split host ".") then Ok () else Err InvalidLabel.

Fixpoint firstField (s : string) : string :=
  match s with
  | "" => ""
  | String a s' =>
      if Ascii.eqb a " " || Ascii.eqb a "009" then "" else String a (firstField s')
  end.

(** ** Loading *)

Inductive load_error :=
| ErrOpen (path : string)
| ErrHostsFormat (path : string) (line : Z)
| ErrFields (path : string) (line : Z)
| ErrExactWildcard (path : string) (line : Z)
| ErrEntry (path : string) (line : Z) (e : entry_error)
| ErrScan
| ErrEmptyAllowlist.

(** What a line is: nothing (blank or comment) or an entry; an error refuses the load. *)
Inductive line_entry := Blank | Exact (e : string) | Wild (e : string) | Plain (e : string).

Definition parse_line (label : string) (lineNo : Z) (text : string) : result line_entry load_error :=
  let raw := TrimSpace text in
  if String.eqb raw "" || HasPrefix raw "#" then Ok Blank else
  match ParseIP (firstField raw) with
  | Some _ => Err (ErrHostsFormat label lineNo)
  | None =>
      match Fields raw with
      | [entry] =>
          let exactOnly := HasPrefix entry "=" in
          let entry := if exactOnly then str_drop 1 entry else entry in
          if exactOnly && HasPrefix entry "*." then Err (ErrExactWildcard label lineNo) else
          match validateAllowlistEntry entry with
          | Err e => Err (ErrEntry label lineNo e)
          | Ok _ =>
              let normalized := ToLower (TrimSuffix entry ".") in
              Ok (if exactOnly then Exact normalized
                  else if HasPrefix normalized "*." then Wild normalized
                  else Plain normalized)
          end
      | _ => Err (ErrFields label lineNo)
      end
  end.

Definition add_entry (a : Allowlist) (e : line_entry) : Allowlist :=
  match e with
  | Blank => a
  | Exact n => mkAllowlist (domains a) (wildcard a) ({[n]} ∪ exact a)
  | Wild n => mkAllowlist (domains a) ({[n]} ∪ wildcard a) (exact a)
  | Plain n => mkAllowlist ({[n]} ∪ domains a) (wildcard a) (exact a)
  end.

Fixpoint scan_lines (label : string) (lineNo : Z) (lines : list string) (a : Allowlist)
    : result Allowlist load_error :=
  match lines with
  | [] => Ok a
  | text :: rest =>
      try e ← parse_line label (lineNo + 1) text;
      scan_lines label (lineNo + 1) rest (add_entry a e)
  end.

(** The scanner's buffer may grow to one mebibyte. *)
Definition scan_limit : Z := 1024 * 1024.

Definition scanAllowlistReader (r : Reader) (a : Allowlist) (label : string) : result Allowlist load_error :=
  try a' ← scan_lines label 0 (fst (ScanLines scan_limit (rdData r))) a;
  if scan_failed scan_limit r then Err ErrScan else Ok a'.

Section IO.
Context (open : string → option Reader).

Definition scanAllowlistFile (path : string) (a : Allowlist) : result Allowlist load_error :=
  match open path with
  | None => Err (ErrOpen path)
  | Some r => scanAllowlistReader r a path
  end.

Fixpoint scan_files (paths : list string) (a : Allowlist) : result Allowlist load_error :=
  match paths with
  | [] => Ok a
  | path :: rest => try a' ← scanAllowlistFile path a; scan_files rest a'
  end.

(** The error, if any, and the live set afterwards. *)
Definition LoadFiles (a : Allowlist) (paths : list string) : option load_error * Allowlist :=
  match scan_files paths New with
  | Err e => (Some e, a)
  | Ok fresh => if no_entries fresh then (Some ErrEmptyAllowlist, a) else (None, fresh)
  end.

End IO.

(** ** Reporting *)

(** [range] visits a map in any order; the result is sorted, so the order of
    [elements] serves. *)
Definition Entries (a : Allowlist) : list string :=
  merge_sort String.le
    (elements (domains a) ++ elements (wildcard a) ++ (String "=" <$> elements (exact a))).

Definition Size (a : Allowlist) : Z :=
  Z.of_nat (size (domains a)) + Z.of_nat (size (wildcard a)) + Z.of_nat (size (exact a)).

(** ** What being allowed means *)

Lemma no_entries_spec a : no_entries a = true ↔ domains a = ∅ ∧ wildcard a = ∅ ∧ exact a = ∅.
Proof.
  unfold no_entries. rewrite !andb_true_iff, !Nat.eqb_eq, !size_empty_iff, !leibniz_equiv_iff. tauto.
Qed.

Lemma allowed_iff a n :
  Allowed a n = true ↔
  n ≠ "" ∧
  (normalize n ∈ exact a ∨
   (∃ e, e ∈ domains a ∧ at_or_below (normalize n) e) ∨
   (∃ e, "*." +:+ e ∈ wildcard a ∧ below (normalize n) e)).
Proof.
  unfold Allowed. fold (normalize n). set (d := normalize n).
  destruct (String.eqb_spec n "") as [->|Hn]; [naive_solver|].
  destruct (no_entries a) eqn:He.
  { apply no_entries_spec in He as (-> & -> & ->). set_solver. }
  destruct (bool_decide (d ∈ domains a) || bool_decide (d ∈ exact a)) eqn:E.
  - split; [intros _|done]. split; [done|]. apply orb_true_iff in E.
    rewrite !bool_decide_eq_true in E. destruct E; [|by left].
    right; left. exists d. by split; [|left].
  - bool_prop. rewrite existsb_elem. setoid_rewrite elem_of_parent_suffixes.
    setoid_rewrite orb_true_iff. setoid_rewrite bool_decide_eq_true. unfold at_or_below, below. split.
    + intros (e & Hx & [?|?]); split; eauto 8.
    + intros [_ [?|[(e & ? & [->|?])|(e & ? & ?)]]]; [done|done|eauto|eauto].
Qed.

(** A name is allowed exactly when it is not empty and, compared without a
    trailing dot and ignoring case, it is an exact entry, is at or below a
    plain entry, or is strictly below the suffix of a wildcard entry. *)
Theorem Allowed_spec a n :
  Allowed a n = true ↔
  n ≠ "" ∧
  (normalize n ∈ exact a ∨
   (∃ e, e ∈ domains a ∧ at_or_below (normalize n) e) ∨
   (∃ e, "*." +:+ e ∈ wildcard a ∧ below (normalize n) e)).
Proof. apply allowed_iff. Qed.

Lemma Allowed_normalize a n n' :
  n ≠ "" → n' ≠ "" → normalize n = normalize n' → Allowed a n = Allowed a n'.
Proof. intros ? ? E. apply eq_true_iff_eq. rewrite !allowed_iff, E. tauto. Qed.

(** ** Entries the loader accepts *)

Definition host_ok (h : string) : Prop := ∀ l, l ∈ Split h "." → label_ok label_outer label_inner l.

(** A host name of at least two labels. *)
Definition entry_host_ok (h : string) : Prop := host_ok h ∧ (2 ≤ List.length (Split h "."))%nat.

Lemma entry_label_classes a : label_outer a = true → label_inner a = true.
Proof. unfold label_inner, label_outer. by intros ->. Qed.

Lemma label_match l : MatchString hostLabelRE l = true ↔ label_ok label_outer label_inner l.
Proof. apply label_re_spec, entry_label_classes. Qed.

Lemma labels_match h : forallb (MatchString hostLabelRE) (Split h ".") = true ↔ host_ok h.
Proof.
  rewrite forallb_elem. unfold host_ok. split; intros H l Hl; apply H in Hl; by apply label_match.
Qed.

Lemma ContainsByte_Split s c : ContainsByte s c = true ↔ (2 ≤ List.length (Split s c))%nat.
Proof.
  destruct (ContainsByte s c) eqn:E.
  - split; [intros _|done]. unfold ContainsByte in E.
    assert (H : ∃ x y, s = x +:+ String c y).
    { clear -E. induction s as [|a s IH]; simpl in E; [done|]. apply orb_true_iff in E as [E|E].
      - apply Ascii.eqb_eq in E as <-. by exists "", s.
      - destruct (IH E) as (x & y & ->). by exists (String a x), y. }
    destruct H as (x & y & ->). rewrite Split_app_sep, length_app.
    pose proof (length_Split x c). pose proof (length_Split y c). lia.
  - rewrite Split_nosep by done. simpl. split; [done|lia].
Qed.

Lemma chr_matches c : re_matches (chr c) (String c "").
Proof. constructor. apply Ascii.eqb_refl. Qed.

(** Each label after a dot. *)
Fixpoint dotted (ls : list string) : string :=
  match ls with [] => "" | l :: ls' => ("." +:+ l) +:+ dotted ls' end.

(** A dotted sequence of labels matches the coarse pattern. *)
Lemma dotted_matches ls :
  (∀ l, l ∈ ls → re_matches hostLabelRE l) →
  re_matches (Star (Cat (chr ".") hostLabelRE)) (dotted ls).
Proof.
  induction ls as [|l ls IH]; intros Hl; [constructor|].
  apply (m_star_cons _ ("." +:+ l) (dotted ls)).
  - apply (m_cat (chr ".") hostLabelRE "." l); [apply chr_matches|]. apply Hl, list_elem_of_here.
  - apply IH. intros. apply Hl. by apply list_elem_of_further.
Qed.

Lemma Join_foldr l ls : Join (l :: ls) "." = l +:+ dotted ls.
Proof.
  revert l; induction ls as [|k ls IH]; intros l.
  - simpl. by rewrite sapp_nil_r.
  - rewrite Join_cons, IH. done.
Qed.

Lemma host_matches h : entry_host_ok h → MatchString allowlistHostRE h = true.
Proof.
  intros [Hh Hl]. rewrite MatchString_spec, <-(Join_Split h ".").
  unfold host_ok in Hh. destruct (Split h ".") as [|l [|k ls]]; simpl in Hl; [lia|lia|].
  rewrite !Join_foldr. change (re_matches allowlistHostRE ("" +:+ (l +:+ ("." +:+ k) +:+ dotted ls))).
  assert (Hm : ∀ x, x ∈ l :: k :: ls → re_matches hostLabelRE x).
  { intros x Hx. by apply MatchString_spec, label_match, Hh. }
  apply m_cat; [apply m_alt_l; constructor|]. apply m_cat; [apply Hm, list_elem_of_here|].
  apply m_cat.
  - apply (m_cat (chr ".") hostLabelRE "." k); [apply chr_matches|]. apply Hm. set_solver.
  - apply dotted_matches. intros. apply Hm. set_solver.
Qed.

Lemma validate_iff entry :
  is_ok (validateAllowlistEntry entry) = true ↔
  let t := TrimSuffix entry "." in entry_host_ok (if HasPrefix t "*." then str_drop 2 t else t).
Proof.
  unfold validateAllowlistEntry. cbn zeta. set (t := TrimSuffix entry ".").
  set (h := if HasPrefix t "*." then str_drop 2 t else t).
  assert (Hh : h = "" → ¬ entry_host_ok h) by (intros -> [_ Hl]; simpl in Hl; lia).
  destruct (String.eqb_spec t "") as [Et|_].
  { split; [done|]. intros H. exfalso. apply Hh; [|done]. subst h. by rewrite Et. }
  destruct (HasPrefix t "*." && String.eqb h "") eqn:Es.
  { split; [done|]. intros H. exfalso. bool_prop. by apply Hh. }
  destruct (ContainsByte h ".") eqn:Ec; simpl.
  - apply ContainsByte_Split in Ec. destruct (forallb _ (Split h ".")) eqn:Ef.
    + apply labels_match in Ef. rewrite host_matches by done. simpl. by split.
    + destruct (MatchString allowlistHostRE h); simpl; (split; [done|]);
        intros [H _]; apply labels_match in H; congruence.
  - split; [done|]. intros [_ H]. apply ContainsByte_Split in H. congruence.
Qed.

(** The strict loader accepts an entry exactly when, without a trailing dot
    and an optional leading "*.", it is a host name of at least two labels,
    each of 1 to 63 letters, digits or inner hyphens: bare top-level domains
    and underscore labels are refused. *)
Theorem validateAllowlistEntry_spec entry :
  is_ok (validateAllowlistEntry entry) = true ↔
  let t := TrimSuffix entry "." in entry_host_ok (if HasPrefix t "*." then str_drop 2 t else t).
Proof. apply validate_iff. Qed.

(** ** Loading is strict and atomic *)

(** The shape of the entries a successful load installs. *)
Definition line_ok (e : line_entry) : Prop :=
  match e with
  | Blank => True
  | Exact n => entry_host_ok n ∧ ToLower n = n
  | Plain n => entry_host_ok n ∧ ToLower n = n
  | Wild n => ∃ s, n = "*." +:+ s ∧ entry_host_ok s ∧ ToLower s = s
  end.

Definition al_ok (a : Allowlist) : Prop :=
  (∀ e, e ∈ exact a → line_ok (Exact e)) ∧ (∀ e, e ∈ domains a → line_ok (Plain e)) ∧
  (∀ e, e ∈ wildcard a → line_ok (Wild e)).

Lemma entry_host_ok_ToLower h : entry_host_ok h → entry_host_ok (ToLower h).
Proof.
  intros [Hh Hl]. split; [|by rewrite Split_ToLower, length_fmap].
  intros l. rewrite Split_ToLower. intros (x & -> & Hx)%list_elem_of_fmap. apply label_ok_lower; [by intros [[] [] [] [] [] [] [] []]..|by apply Hh].
Qed.

Lemma star_not_host h : HasPrefix h "*." = true → ¬ entry_host_ok h.
Proof.
  intros [t ->]%HasPrefix_spec [Hh _].
  destruct (Hh "*") as (_ & Hc & _); [|done]. apply list_elem_of_here.
Qed.

Lemma parse_line_ok label n text e : parse_line label n text = Ok e → line_ok e.
Proof.
  unfold parse_line. intros H. destruct (_ || _); [by injection H as <-|].
  destruct (ParseIP _); [done|]. destruct (Fields _) as [|f [|]]; [done| |done].
  set (x := if HasPrefix f "=" then str_drop 1 f else f) in *.
  destruct (HasPrefix f "=" && HasPrefix x "*.") eqn:Es; [done|].
  destruct (validateAllowlistEntry x) as [[]|] eqn:Ev; [|done].
  assert (Hv : is_ok (validateAllowlistEntry x) = true) by (by rewrite Ev).
  apply validate_iff in Hv. cbn zeta in Hv. injection H as <-.
  rewrite HasPrefix_star_ToLower. destruct (HasPrefix (TrimSuffix x ".") "*.") eqn:Ep.
  - apply HasPrefix_spec in Ep as [s Ep]. rewrite Ep in *. simpl in Hv.
    destruct (HasPrefix f "=") eqn:Ef.
    + exfalso. simpl in Es. destruct (TrimSuffix_cases x ".") as [Ex|[Ex _]].
      * rewrite Ex, Ep, sapp_assoc, HasPrefix_app in Es. done.
      * rewrite <-Ex, Ep, HasPrefix_app in Es. done.
    + exists (ToLower s). split_and!; [done|by apply entry_host_ok_ToLower|apply ToLower_idem].
  - destruct (HasPrefix f "="); (split; [by apply entry_host_ok_ToLower|apply ToLower_idem]).
Qed.

Lemma add_entry_ok a e : al_ok a → line_ok e → al_ok (add_entry a e).
Proof.
  intros (He & Hd & Hw) Hok. destruct e; [done| | |]; split_and!; try done;
    cbn [add_entry domains wildcard exact]; intros x [->%elem_of_singleton|?]%elem_of_union; auto.
Qed.

Lemma scan_lines_ok label n lines a a' : scan_lines label n lines a = Ok a' → al_ok a → al_ok a'.
Proof.
  revert n a; induction lines as [|text lines IH]; intros n a H Ha; simpl in H; [by injection H as <-|].
  destruct (parse_line label (n + 1) text) as [e|] eqn:E; simpl in H; [|done].
  eapply IH; [exact H|]. apply add_entry_ok; [done|]. by eapply parse_line_ok.
Qed.

Section IOProps.
Context (open : string → option Reader).

Lemma scanFile_ok path a a' : scanAllowlistFile open path a = Ok a' → al_ok a → al_ok a'.
Proof.
  unfold scanAllowlistFile, scanAllowlistReader. destruct (open path) as [r|]; [|done].
  destruct (scan_lines _ _ _ _) eqn:E; simpl; [|done]. destruct (scan_failed _ _); [done|].
  intros [= <-]. by eapply scan_lines_ok.
Qed.

Lemma scan_files_ok paths a a' : scan_files open paths a = Ok a' → al_ok a → al_ok a'.
Proof.
  revert a; induction paths as [|p paths IH]; intros a; simpl; [by intros [= <-]|].
  destruct (scanAllowlistFile open p a) eqn:E; simpl; [|done]. eauto using scanFile_ok.
Qed.

Lemma New_ok : al_ok New.
Proof. split_and!; simpl; intros e He; by apply elem_of_empty in He. Qed.

(** C18: A load either fails and leaves the live set exactly as it was, or
    installs a set that is not empty and whose every entry is lower case with
    at least two valid labels. *)
Theorem LoadFiles_atomic a paths :
  (∃ e, LoadFiles open a paths = (Some e, a)) ∨
  (∃ a', LoadFiles open a paths = (None, a') ∧ no_entries a' = false ∧ al_ok a').
Proof.
  unfold LoadFiles. destruct (scan_files open paths New) as [a'|e] eqn:E; [|by left; exists e].
  destruct (no_entries a') eqn:En; [by left; eexists|]. right. exists a'.
  split_and!; [done|done|]. by eapply scan_files_ok; [|apply New_ok].
Qed.

Lemma LoadFiles_ok a paths a' : LoadFiles open a paths = (None, a') → al_ok a'.
Proof.
  unfold LoadFiles. destruct (scan_files open paths New) as [a1|] eqn:E; [|done].
  destruct (no_entries a1); [done|]. intros [= <-]. by eapply scan_files_ok; [|apply New_ok].
Qed.

(** No wildcard or plain entry is as wide as a top-level domain. *)
Lemma al_ok_dot a n : al_ok a → Allowed a n = true → ContainsByte (normalize n) "." = true.
Proof.
  intros (He & Hd & Hw) H. apply allowed_iff in H as [_ [H|[(e & H & [->|[x ->]])|(e & H & [x ->])]]].
  - apply ContainsByte_Split. by apply He in H as [[_ ?] _].
  - apply ContainsByte_Split. by apply Hd in H as [[_ ?] _].
  - apply ContainsByte_Split. change ("." +:+ e) with (String "." e). rewrite Split_app_sep, length_app.
    pose proof (length_Split x "."). pose proof (length_Split e "."). lia.
  - apply ContainsByte_Split. change ("." +:+ e) with (String "." e). rewrite Split_app_sep, length_app.
    pose proof (length_Split x "."). pose proof (length_Split e "."). lia.
Qed.

(** ** Nothing is dropped, nothing is invented *)

Definition entry_in (a : Allowlist) (e : line_entry) : Prop :=
  match e with
  | Blank => False
  | Exact n => n ∈ exact a
  | Wild n => n ∈ wildcard a
  | Plain n => n ∈ domains a
  end.

(** Line [i] (from 0) of [lines] parses as [e]. *)
Definition line_gives (label : string) (n : Z) (lines : list string) (e : line_entry) : Prop :=
  ∃ i text, lines !! i = Some text ∧ parse_line label (n + Z.of_nat i + 1) text = Ok e.

Lemma entry_in_add a e x : entry_in (add_entry a e) x ↔ (x = e ∧ e ≠ Blank) ∨ entry_in a x.
Proof. destruct e, x; simpl; set_solver. Qed.

Lemma line_gives_cons label n text lines e :
  line_gives label n (text :: lines) e ↔
  parse_line label (n + 1) text = Ok e ∨ line_gives label (n + 1) lines e.
Proof.
  unfold line_gives. split.
  - intros ([|i] & t & Hl & Hp); simpl in Hl.
    + left. injection Hl as <-. by replace (n + Z.of_nat 0 + 1) with (n + 1) in Hp by lia.
    + right. exists i, t. split; [done|]. by replace (n + 1 + Z.of_nat i + 1) with (n + Z.of_nat (S i) + 1) by lia.
  - intros [Hp|(i & t & Hl & Hp)].
    + exists 0%nat, text. split; [done|]. by replace (n + Z.of_nat 0 + 1) with (n + 1) by lia.
    + exists (S i), t. split; [done|]. by replace (n + Z.of_nat (S i) + 1) with (n + 1 + Z.of_nat i + 1) by lia.
Qed.

Lemma scan_lines_in label n lines a a' :
  scan_lines label n lines a = Ok a' →
  (∀ e, entry_in a' e ↔ (e ≠ Blank ∧ line_gives label n lines e) ∨ entry_in a e) ∧
  (∀ i text, lines !! i = Some text → ∃ e, parse_line label (n + Z.of_nat i + 1) text = Ok e).
Proof.
  revert n a; induction lines as [|text lines IH]; intros n a H; simpl in H.
  { injection H as <-. split; [|done]. intros e. split; [by right|].
    intros [[_ (i & t & Hl & _)]|?]; [by rewrite lookup_nil in Hl|done]. }
  destruct (parse_line label (n + 1) text) as [x|] eqn:E; simpl in H; [|done].
  destruct (IH _ _ H) as [H1 H2]. split.
  - intros e. rewrite H1, entry_in_add, line_gives_cons, E. naive_solver congruence.
  - intros [|i] t Hl; simpl in Hl.
    + injection Hl as <-. exists x. by replace (n + Z.of_nat 0 + 1) with (n + 1) by lia.
    + destruct (H2 i t Hl) as [e He]. exists e.
      by replace (n + Z.of_nat (S i) + 1) with (n + 1 + Z.of_nat i + 1) by lia.
Qed.

(** The file was read to its end, and every line of it was understood. *)
Definition file_clean (path : string) (r : Reader) : Prop :=
  open path = Some r ∧ scan_failed scan_limit r = false ∧
  ∀ i text, fst (ScanLines scan_limit (rdData r)) !! i = Some text →
    ∃ e, parse_line path (Z.of_nat i + 1) text = Ok e.

Definition file_gives (path : string) (r : Reader) (e : line_entry) : Prop :=
  line_gives path 0 (fst (ScanLines scan_limit (rdData r))) e.

Lemma scan_files_in paths a a' :
  scan_files open paths a = Ok a' →
  (∀ e, entry_in a' e ↔
     (e ≠ Blank ∧ ∃ path r, path ∈ paths ∧ open path = Some r ∧ file_gives path r e) ∨ entry_in a e) ∧
  (∀ path, path ∈ paths → ∃ r, file_clean path r).
Proof.
  revert a; induction paths as [|p paths IH]; intros a; simpl.
  { intros [= <-]. split; [set_solver|]. intros path Hp. by apply elem_of_nil in Hp. }
  unfold scanAllowlistFile, scanAllowlistReader. destruct (open p) as [r|] eqn:Eo; simpl; [|done].
  destruct (scan_lines p 0 _ a) as [a1|] eqn:E; simpl; [|done].
  destruct (scan_failed scan_limit r) eqn:Ef; simpl; [done|]. intros H.
  destruct (IH _ H) as [H1 H2]. destruct (scan_lines_in _ _ _ _ _ E) as [H3 H4]. split.
  - intros e. rewrite H1, H3. setoid_rewrite elem_of_cons. unfold file_gives. naive_solver.
  - intros path [->|Hp]%elem_of_cons; [|auto]. exists r. split_and!; [done|done|]. exact H4.
Qed.

(** The loader is strict: when a load succeeds, every configured file was
    opened and read to its end, every one of its lines was blank, a comment or
    a valid entry, and the installed set holds exactly those entries. *)
Theorem LoadFiles_strict a paths a' :
  LoadFiles open a paths = (None, a') →
  (∀ path, path ∈ paths → ∃ r, file_clean path r) ∧
  (∀ e, entry_in a' e ↔
     e ≠ Blank ∧ ∃ path r, path ∈ paths ∧ open path = Some r ∧ file_gives path r e).
Proof.
  unfold LoadFiles. destruct (scan_files open paths New) as [a1|] eqn:E; [|done].
  destruct (no_entries a1); [done|]. intros [= <-]. destruct (scan_files_in _ _ _ E) as [H1 H2].
  split; [done|]. intros e. rewrite H1. assert (¬ entry_in New e) by (destruct e; simpl; set_solver). tauto.
Qed.

(** After a successful load no name without a dot is allowed: an entry can
    be no wider than a two-label domain, so top-level domains are refused. *)
Theorem load_refuses_tlds a paths a' n :
  LoadFiles open a paths = (None, a') → ContainsByte (normalize n) "." = false → Allowed a' n = false.
Proof.
  intros Hl Hn. apply not_true_iff_false. intros H.
  apply al_ok_dot in H; [congruence|]. by eapply LoadFiles_ok.
Qed.

End IOProps.

(** ** Reporting *)

Lemma elem_of_Entries a e :
  e ∈ Entries a ↔ e ∈ domains a ∨ e ∈ wildcard a ∨ ∃ x, e = "=" +:+ x ∧ x ∈ exact a.
Proof.
  unfold Entries. rewrite merge_sort_Permutation, !elem_of_app, !elem_of_elements, list_elem_of_fmap.
  by setoid_rewrite elem_of_elements.
Qed.

(** [Entries] lists every entry once in each form it was loaded, in byte
    order, and its length is [Size]. *)
Theorem Entries_spec a :
  StronglySorted String.le (Entries a) ∧ Z.of_nat (List.length (Entries a)) = Size a ∧
  ∀ e, e ∈ Entries a ↔ e ∈ domains a ∨ e ∈ wildcard a ∨ ∃ x, e = "=" +:+ x ∧ x ∈ exact a.
Proof.
  split_and!; [| |apply elem_of_Entries]; unfold Entries.
  - apply StronglySorted_merge_sort; apply _.
  - rewrite merge_sort_Permutation, !length_app, length_fmap. unfold Size, size, set_size. simpl. lia.
Qed.

(** ** Witnesses *)

Definition ex_file : Reader :=
  mkReader ("# sandbox" +:+ nl +:+ "Example.com." +:+ nl +:+ "*.pypi.org" +:+ nl +:+ "=api.test.net" +:+ nl) false.
Definition ex_open (path : string) : option Reader := if String.eqb path "allow" then Some ex_file else None.
Definition ex_allow : Allowlist := snd (LoadFiles ex_open New ["allow"]).

Lemma ex_load : LoadFiles ex_open New ["allow"] = (None, ex_allow).
Proof. vm_compute. reflexivity. Defined.

Example ex_allow_entries : Entries ex_allow = ["*.pypi.org"; "=api.test.net"; "example.com"].
Proof. vm_compute. done. Qed.

Example ex_allow_decisions :
  Allowed ex_allow <$> ["example.com."; "A.B.Example.COM"; "pypi.org."; "x.pypi.org."; "api.test.net."; "x.api.test.net."; "com."; ""]
  = [true; true; false; true; true; false; false; false].
Proof. vm_compute. done. Qed.

Lemma LoadFiles_strict_witness :
  (∀ path, path ∈ ["allow"] → ∃ r, file_clean ex_open path r) ∧
  (∀ e, entry_in ex_allow e ↔
     e ≠ Blank ∧ ∃ path r, path ∈ ["allow"] ∧ ex_open path = Some r ∧ file_gives path r e).
Proof. exact (LoadFiles_strict ex_open New ["allow"] ex_allow ex_load). Defined.

Lemma load_refuses_tlds_witness : Allowed ex_allow "org." = false.
Proof. exact (load_refuses_tlds ex_open New ["allow"] ex_allow "org." ex_load eq_refl). Defined.
