(* ===== verification/Statistics.v ===== *)
(** * Runtime counters (internal/statistics/statistics.go)

    The [Stats] structure is a vector of [int64] counters, indexed here by
    field name, all updated with atomic operations.  [recordLatencyInto] loops
    on compare-and-swap; its step relation [lat_step] interleaves any number of
    recorders at the granularity of single atomic instructions. *)

From S2P Require Import Prelude.
Open Scope list_scope.
Open Scope Z_scope.

Inductive counter :=
| TotalQueries | CacheHits | CacheMisses | StaleServed
| BlockedQueries | BlocklistFilesLoaded | DeniedQueries
| ServfailResponses | NxdomainResponses | SuccessResponses | OtherResponses
| UpstreamQueries | UpstreamErrors | UpstreamFallbacks
| DoQQueries | DoTQueries | DoHQueries | DoQIdleRetries
| DoQServed | DoTServed | DoHServed
| DnssecValidated | DnssecFailed | DnssecUnsigned
| LatencyMinUs | LatencyMaxUs | LatencyTotalUs | LatencyCount
| Mode2LatencyMinUs | Mode2LatencyMaxUs | Mode2LatencyTotalUs | Mode2LatencyCount.

#[global] Instance counter_eq_dec : EqDecision counter.
Proof. solve_decision. Defined.

Record Stats := mkStats { startTime : Z; cnt : counter → Z }.

Definition New (now : Z) : Stats := mkStats now (λ _, 0).

Definition Uptime (now : Z) (s : Stats) : Z := time_sub now (startTime s).

Definition store (c : counter) (v : Z) (s : Stats) : Stats :=
  mkStats (startTime s) (λ c', if decide (c' = c) then v else cnt s c').

(** [atomic.AddInt64(&s.c, d)]. *)
Definition add (c : counter) (d : Z) (s : Stats) : Stats := store c (wrap64 (cnt s c + d)) s.
Definition inc (c : counter) (s : Stats) : Stats := add c 1 s.

Definition AddBlocklistFile (s : Stats) : Stats := inc BlocklistFilesLoaded s.
Definition SetBlocklistFiles (n : Z) (s : Stats) : Stats := store BlocklistFilesLoaded n s.

Definition rcodeNOERROR : Z := 0.
Definition rcodeSERVFAIL : Z := 2.
Definition rcodeNXDOMAIN : Z := 3.

Definition response_bucket (rcode : Z) : counter :=
  if rcode =? rcodeNOERROR then SuccessResponses
  else if rcode =? rcodeSERVFAIL then ServfailResponses
  else if rcode =? rcodeNXDOMAIN then NxdomainResponses
  else OtherResponses.

Definition RecordResponse (rcode : Z) (s : Stats) : Stats := inc (response_bucket rcode) s.

(** The four counters of one latency timer. *)
Record latency := mkLatency { lTotal : counter; lCount : counter; lMin : counter; lMax : counter }.
Definition mode1_latency : latency := mkLatency LatencyTotalUs LatencyCount LatencyMinUs LatencyMaxUs.
Definition mode2_latency : latency :=
  mkLatency Mode2LatencyTotalUs Mode2LatencyCount Mode2LatencyMinUs Mode2LatencyMaxUs.

(** One sample recorded without interference: each loop then ends in its first round. *)
Definition recordLatencyInto (l : latency) (us : Z) (s : Stats) : Stats :=
  let s := add (lTotal l) us s in
  let s := inc (lCount l) s in
  let s := let cur := cnt s (lMin l) in
           if negb (cur =? 0) && (cur <=? us) then s else store (lMin l) us s in
  let cur := cnt s (lMax l) in
  if us <=? cur then s else store (lMax l) us s.

Definition RecordLatency (us : Z) (s : Stats) : Stats := recordLatencyInto mode1_latency us s.
Definition RecordMode2Latency (us : Z) (s : Stats) : Stats := recordLatencyInto mode2_latency us s.

(** The computed fields of a snapshot; the other fields are copies of counters. *)
Record Snapshot := mkSnapshot {
  snUptime : Z; snCounters : counter → Z; snLatencyAvgUs : Z; snMode2LatencyAvgUs : Z;
  snCacheSize : Z; snCacheMaxSize : Z }.

Definition TakeSnapshot (now : Z) (cacheSize cacheMaxSize : Z) (s : Stats) : Snapshot :=
  let count := cnt s LatencyCount in
  let total := cnt s LatencyTotalUs in
  let avgUs := if 0 <? count then Z.quot total count else 0 in
  let m2count := cnt s Mode2LatencyCount in
  let m2total := cnt s Mode2LatencyTotalUs in
  let m2avgUs := if 0 <? m2count then Z.quot m2total m2count else 0 in
  mkSnapshot (Uptime now s) (cnt s) avgUs m2avgUs cacheSize cacheMaxSize.

(** ** Lock-free minimum and maximum

    The two cells of a timer, shared by recorders that each run the two loops
    of [recordLatencyInto]: load, test, compare-and-swap. *)

Inductive lat_pc :=
| AtMin                      (* about to load the minimum *)
| CasMin (cur : Z)           (* loaded [cur], about to swap *)
| AtMax
| CasMax (cur : Z)
| Finished.

Record lat_state := mkLat { c_min : Z; c_max : Z; threads : list (Z * lat_pc) }.

(** One atomic instruction of one recorder with sample [us]. *)
Definition lat_exec (us mn mx : Z) (pc : lat_pc) : Z * Z * lat_pc :=
  match pc with
  | AtMin => if negb (mn =? 0) && (mn <=? us) then (mn, mx, AtMax) else (mn, mx, CasMin mn)
  | CasMin cur => if mn =? cur then (us, mx, AtMax) else (mn, mx, AtMin)
  | AtMax => if us <=? mx then (mn, mx, Finished) else (mn, mx, CasMax mx)
  | CasMax cur => if mx =? cur then (mn, us, Finished) else (mn, mx, AtMax)
  | Finished => (mn, mx, Finished)
  end.

Inductive lat_step : lat_state → lat_state → Prop :=
| lat_step_thread mn mx ts i us pc mn' mx' pc' :
    ts !! i = Some (us, pc) → lat_exec us mn mx pc = (mn', mx', pc') →
    lat_step (mkLat mn mx ts) (mkLat mn' mx' (<[i := (us, pc')]> ts)).

(** ** Counter lemmas *)

Lemma cnt_store_eq c v s : cnt (store c v s) c = v.
Proof. simpl. by rewrite decide_True. Qed.

Lemma cnt_store_ne c c' v s : c' ≠ c → cnt (store c v s) c' = cnt s c'.
Proof. intros. simpl. by rewrite decide_False. Qed.

Lemma cnt_inc_ne c c' s : c' ≠ c → cnt (inc c s) c' = cnt s c'.
Proof. apply cnt_store_ne. Qed.

Lemma cnt_inc_eq c s : in_int64 (cnt s c + 1) → cnt (inc c s) c = cnt s c + 1.
Proof. intros. unfold inc, add. rewrite cnt_store_eq. by apply wrap64_id. Qed.

(** The four buckets together. *)
Definition responses (s : Stats) : Z :=
  cnt s SuccessResponses + cnt s ServfailResponses + cnt s NxdomainResponses + cnt s OtherResponses.

(** Every counter is at least [d] below the largest [int64]. *)
Definition headroom (d : Z) (s : Stats) : Prop := ∀ c, 0 ≤ cnt s c ≤ max_int64 - d.

Lemma headroom_inc c d s : 0 ≤ d → headroom (d + 1) s → headroom d (inc c s).
Proof.
  intros Hd H c'. pose proof (H c') as Hc'. pose proof (H c) as Hc.
  destruct (decide (c' = c)) as [->|]; [|rewrite cnt_inc_ne by done; lia].
  rewrite cnt_inc_eq; [lia|]. unfold in_int64, min_int64, max_int64 in *. lia.
Qed.

Lemma headroom_le d d' s : d' ≤ d → headroom d s → headroom d' s.
Proof. intros ? H c. specialize (H c). lia. Qed.

Lemma cnt_inc d c c' s :
  1 ≤ d → headroom d s → cnt (inc c s) c' = cnt s c' + (if decide (c' = c) then 1 else 0).
Proof.
  intros Hd H. destruct (decide (c' = c)) as [->|]; [|rewrite cnt_inc_ne by done; lia].
  apply cnt_inc_eq. specialize (H c). unfold in_int64, min_int64, max_int64 in *. lia.
Qed.

(** Every reply is accounted for exactly once: [RecordResponse] raises the
    sum of the four response buckets by one, whatever the rcode, and touches
    no other counter. *)
Theorem RecordResponse_total rcode s :
  headroom 1 s →
  responses (RecordResponse rcode s) = responses s + 1 ∧
  (∀ c, c ∉ [SuccessResponses; ServfailResponses; NxdomainResponses; OtherResponses] →
     cnt (RecordResponse rcode s) c = cnt s c).
Proof.
  intros H. unfold RecordResponse, responses. split.
  - rewrite !(cnt_inc 1) by (lia || done). unfold response_bucket.
    destruct (rcode =? rcodeNOERROR), (rcode =? rcodeSERVFAIL), (rcode =? rcodeNXDOMAIN);
      repeat case_decide; try done; lia.
  - intros c Hc. apply cnt_inc_ne. intros ->. apply Hc. unfold response_bucket.
    destruct (rcode =? rcodeNOERROR), (rcode =? rcodeSERVFAIL), (rcode =? rcodeNXDOMAIN); set_solver.
Qed.

(** ** Latency timers *)

(** The value of the minimum cell accounts for the recorders that are past
    their first loop: it is the least of the initial value and their samples,
    and symmetrically for the maximum. Samples are positive. *)
Definition past_min (pc : lat_pc) : bool := match pc with AtMin | CasMin _ => false | _ => true end.
Definition past_max (pc : lat_pc) : bool := match pc with Finished => true | _ => false end.

Definition lat_inv (s : lat_state) : Prop :=
  (∀ us pc, (us, pc) ∈ threads s → 0 < us) ∧ 0 ≤ c_min s ∧ 0 ≤ c_max s ∧
  (∀ us pc, (us, pc) ∈ threads s → past_min pc = true → 0 < c_min s ≤ us) ∧
  (∀ us pc, (us, pc) ∈ threads s → past_max pc = true → us ≤ c_max s) ∧
  (0 < c_min s → ∃ us pc, (us, pc) ∈ threads s ∧ c_min s = us) ∧
  (0 < c_max s → ∃ us pc, (us, pc) ∈ threads s ∧ c_max s = us) ∧
  (∀ us cur, (us, CasMin cur) ∈ threads s → cur = 0 ∨ us < cur) ∧
  (∀ us cur, (us, CasMax cur) ∈ threads s → cur < us).

Definition lat_init (samples : list Z) : lat_state := mkLat 0 0 ((λ us, (us, AtMin)) <$> samples).

Lemma lat_init_inv samples : Forall (λ us, 0 < us) samples → lat_inv (lat_init samples).
Proof.
  intros Hs. rewrite Forall_forall in Hs. unfold lat_inv, lat_init; simpl.
  assert (Ht : ∀ us pc, (us, pc) ∈ (λ us, (us, AtMin)) <$> samples → us ∈ samples ∧ pc = AtMin).
  { intros us pc (x & [= -> ->] & Hx)%list_elem_of_fmap. done. }
  split_and!; try lia.
  - intros us pc [? _]%Ht. auto.
  - by intros us pc [_ ->]%Ht.
  - by intros us pc [_ ->]%Ht.
  - by intros us cur [_ ?]%Ht.
  - by intros us cur [_ ?]%Ht.
Qed.

(** What changes when one recorder moves. *)
Lemma elem_insert_thread (ts : list (Z * lat_pc)) i us pc us' pc' us0 pc0 :
  ts !! i = Some (us, pc) → (us0, pc0) ∈ <[i := (us', pc')]> ts →
  (us0, pc0) = (us', pc') ∨ (us0, pc0) ∈ ts.
Proof.
  intros Hi H. apply list_elem_of_lookup in H as [j Hj].
  apply list_lookup_insert_Some in Hj as [(_ & <- & _)|[_ Hj]]; [by left|].
  right. by eapply list_elem_of_lookup_2.
Qed.

Lemma elem_thread_kept (ts : list (Z * lat_pc)) i us pc pc' us0 pc0 :
  ts !! i = Some (us, pc) → (us0, pc0) ∈ ts →
  (us0, pc0) ∈ <[i := (us, pc')]> ts ∨ (us0 = us ∧ (us, pc') ∈ <[i := (us, pc')]> ts).
Proof.
  intros Hi [j Hj]%list_elem_of_lookup. pose proof (lookup_lt_Some _ _ _ Hi) as Hl.
  assert (Hin : (us, pc') ∈ <[i := (us, pc')]> ts)
    by (eapply list_elem_of_lookup_2, list_lookup_insert_eq; done).
  destruct (decide (i = j)) as [<-|Hne]; [right; split; [congruence|done]|].
  left. eapply list_elem_of_lookup_2. by rewrite list_lookup_insert_ne.
Qed.

(** One instruction: how the cells move and what the recorder then knows. *)
Lemma lat_exec_cases us mn mx pc mn' mx' pc' :
  lat_exec us mn mx pc = (mn', mx', pc') →
  ((mn' = mn ∨ (∃ cur, pc = CasMin cur ∧ mn = cur ∧ mn' = us)) ∧
   (mx' = mx ∨ (∃ cur, pc = CasMax cur ∧ mx = cur ∧ mx' = us))) ∧
  (past_min pc' = true → past_min pc = true ∨ (mn' = us ∨ (mn ≠ 0 ∧ mn ≤ us))) ∧
  (past_max pc' = true → past_max pc = true ∨ us ≤ mx') ∧
  (∀ cur, pc' = CasMin cur → cur = 0 ∨ us < cur) ∧ (∀ cur, pc' = CasMax cur → cur < us).
Proof.
  destruct pc as [|cur| |cur|]; simpl; intros H; split_in H; injection H as <- <- <-; bool_prop;
    split_and!; try (by left); try (by right; eexists); try discriminate; simpl; try done;
    try (by intros; simplify_eq); try (intros; simplify_eq; lia); eauto.
Qed.

Lemma lat_step_inv s s' : lat_step s s' → lat_inv s → lat_inv s'.
Proof.
  intros [mn mx ts i us pc mn' mx' pc' Hi He] (Hpos & H0 & H0' & Hmin & Hmax & Amin & Amax & Cmin & Cmax).
  simpl in *. apply lat_exec_cases in He as ((Hmn & Hmx) & Pmin & Pmax & Nmin & Nmax).
  assert (Hin : (us, pc) ∈ ts) by (by eapply list_elem_of_lookup_2).
  assert (Hus : 0 < us) by eauto.
  assert (Hmn' : 0 ≤ mn' ∧ (mn ≠ 0 → 0 < mn' ≤ mn) ∧ (mn' = mn ∨ mn' = us)).
  { destruct Hmn as [->|(cur & -> & <- & ->)]; [lia|]. destruct (Cmin _ _ Hin); lia. }
  assert (Hmx' : mx ≤ mx' ∧ (mx' = mx ∨ mx' = us)).
  { destruct Hmx as [->|(cur & -> & <- & ->)]; [lia|]. pose proof (Cmax _ _ Hin). lia. }
  assert (Hsplit := λ u0 p0, elem_insert_thread ts i us pc us pc' u0 p0 Hi).
  assert (Hnew : ∀ u0 p0, (u0, p0) ∈ ts → ∃ p1, (u0, p1) ∈ <[i:=(us, pc')]> ts).
  { intros u0 p0 [?|[-> ?]]%(elem_thread_kept ts i us pc pc' u0 p0 Hi); eauto. }
  unfold lat_inv; simpl. split_and!; try lia.
  - intros u0 p0 [[= -> ->]|?]%Hsplit; eauto.
  - intros u0 p0 [[= -> ->]|?]%Hsplit Hp.
    + destruct (Pmin Hp) as [Hp'|[->|?]]; [pose proof (Hmin _ _ Hin Hp'); lia|lia|lia].
    + pose proof (Hmin u0 p0 ltac:(done) Hp). lia.
  - intros u0 p0 [[= -> ->]|?]%Hsplit Hp.
    + destruct (Pmax Hp) as [Hp'|?]; [pose proof (Hmax _ _ Hin Hp'); lia|lia].
    + pose proof (Hmax u0 p0 ltac:(done) Hp). lia.
  - intros Hgt. destruct Hmn' as (_ & _ & [->| ->]).
    + destruct (Amin Hgt) as (u0 & p0 & ? & ->). destruct (Hnew u0 p0) as [p1 ?]; eauto.
    + destruct (Hnew us pc Hin) as [p1 ?]. eauto.
  - intros Hgt. destruct Hmx' as (_ & [->| ->]).
    + destruct (Amax Hgt) as (u0 & p0 & ? & ->). destruct (Hnew u0 p0) as [p1 ?]; eauto.
    + destruct (Hnew us pc Hin) as [p1 ?]. eauto.
  - intros u0 cur [[= -> <-]|?]%Hsplit; eauto.
  - intros u0 cur [[= -> <-]|?]%Hsplit; eauto.
Qed.

Lemma lat_samples s s' : lat_step s s' → (fst <$> threads s') = (fst <$> threads s).
Proof.
  intros [mn mx ts i us pc mn' mx' pc' Hi _]. simpl. rewrite list_fmap_insert.
  apply list_insert_id. by rewrite list_lookup_fmap, Hi.
Qed.

(** C37: However the compare-and-swap loops of concurrent recorders interleave,
    once all of them have finished the minimum and maximum cells hold exactly
    the least and the greatest of the (positive) samples. *)
Theorem latency_cas_correct samples s :
  samples ≠ [] → Forall (λ us, 0 < us) samples →
  rtc lat_step (lat_init samples) s → Forall (λ t, snd t = Finished) (threads s) →
  (c_min s ∈ samples ∧ ∀ us, us ∈ samples → c_min s ≤ us) ∧
  (c_max s ∈ samples ∧ ∀ us, us ∈ samples → us ≤ c_max s).
Proof.
  intros Hne Hpos Hrun Hdone. rewrite Forall_forall in Hdone.
  assert (Hinv : lat_inv s ∧ (fst <$> threads s) = samples).
  { clear Hdone. revert s Hrun. apply (rtc_ind_r (λ s, lat_inv s ∧ (fst <$> threads s) = samples)).
    - split; [by apply lat_init_inv|]. simpl. rewrite <-list_fmap_compose. apply list_fmap_id.
    - intros s s' _ Hs [Hi Hf]. split; [by eapply lat_step_inv|]. by rewrite (lat_samples s s'). }
  destruct Hinv as [(H0 & _ & _ & Hmin & Hmax & Amin & Amax & _) Hf].
  assert (Hin : ∀ us, us ∈ samples → (us, Finished) ∈ threads s).
  { intros us. rewrite <-Hf. intros ([u p] & -> & Hp)%list_elem_of_fmap. by rewrite <-(Hdone (u, p)). }
  assert (Hout : ∀ us pc, (us, pc) ∈ threads s → us ∈ samples).
  { intros us pc Hp. rewrite <-Hf. apply list_elem_of_fmap. by exists (us, pc). }
  destruct samples as [|u0 samples]; [done|].
  pose proof (Hin u0 (list_elem_of_here _ _)) as Hu0.
  pose proof (H0 _ _ Hu0). pose proof (Hmin _ _ Hu0 eq_refl). pose proof (Hmax _ _ Hu0 eq_refl).
  destruct Amin as (u1 & p1 & Hu1 & E1); [lia|]. destruct Amax as (u2 & p2 & Hu2 & E2); [lia|].
  split; (split; [rewrite ?E1, ?E2; eauto|]); intros us Hus%Hin;
    [by apply (Hmin _ _ Hus)|by apply (Hmax _ _ Hus)].
Qed.

(** ** Every field stays an [int64] *)

(** What the rest of the daemon does to the counters. *)
Inductive stats_op :=
| OpAdd (c : counter) (d : Z) | OpResponse (rcode : Z) | OpLatency (us : Z) | OpMode2Latency (us : Z)
| OpAddBlocklistFile | OpSetBlocklistFiles (n : Z).

Definition apply_op (op : stats_op) (s : Stats) : Stats :=
  match op with
  | OpAdd c d => add c d s
  | OpResponse rcode => RecordResponse rcode s
  | OpLatency us => RecordLatency us s
  | OpMode2Latency us => RecordMode2Latency us s
  | OpAddBlocklistFile => AddBlocklistFile s
  | OpSetBlocklistFiles n => SetBlocklistFiles n s
  end.

(** The arguments are machine integers. *)
Definition op_typed (op : stats_op) : Prop :=
  match op with
  | OpLatency us | OpMode2Latency us => in_int64 us
  | OpSetBlocklistFiles n => in_int64 n
  | _ => True
  end.

Definition typed (s : Stats) : Prop := ∀ c, in_int64 (cnt s c).

Lemma typed_store c v s : in_int64 v → typed s → typed (store c v s).
Proof. intros Hv Hs c'. simpl. by destruct (decide (c' = c)). Qed.

Lemma typed_add c d s : typed s → typed (add c d s).
Proof. apply typed_store. apply wrap64_range. Qed.

Lemma typed_latency l us s : in_int64 us → typed s → typed (recordLatencyInto l us s).
Proof.
  intros Hu Hs. unfold recordLatencyInto, inc. apply (typed_add (lTotal l) us), (typed_add (lCount l) 1) in Hs. cbv zeta.
  set (s1 := add (lCount l) 1 _) in *. destruct (negb (cnt s1 (lMin l) =? 0) && (cnt s1 (lMin l) <=? us)).
  - destruct (us <=? _); [done|by apply typed_store].
  - destruct (us <=? _); [|apply typed_store; [done|]]; by apply typed_store.
Qed.

Lemma typed_op op s : op_typed op → typed s → typed (apply_op op s).
Proof.
  destruct op as [c d|rcode|us|us| |n]; simpl; intros Ho Hs;
    [by apply typed_add|by apply typed_add|by apply typed_latency|by apply typed_latency|by apply typed_add|by apply typed_store].
Qed.

(** Whatever is recorded in whatever order, every counter and every average of a
    snapshot is a value of its declared type: sums wrap instead of growing. *)
Theorem counters_typed now now' size max ops :
  Forall op_typed ops →
  let s := fold_left (λ s op, apply_op op s) ops (New now) in
  let sn := TakeSnapshot now' size max s in
  (∀ c, in_int64 (snCounters sn c)) ∧ in_int64 (snLatencyAvgUs sn) ∧ in_int64 (snMode2LatencyAvgUs sn).
Proof.
  intros Hops. cbv zeta. set (s := fold_left _ _ _).
  assert (Hs : typed s).
  { subst s. assert (H0 : typed (New now)) by (intros c; simpl; unfold in_int64, min_int64, max_int64; lia).
    revert H0. generalize (New now). induction Hops as [|op ops Ho Hops IH]; intros s0 Hs0; simpl; [done|]. by apply IH, typed_op. }
  assert (Hq : ∀ a b, in_int64 a → in_int64 (if 0 <? b then Z.quot a b else 0)).
  { intros a b Ha. destruct (Z.ltb_spec 0 b); [|unfold in_int64, min_int64, max_int64; lia].
    pose proof (Z.quot_le_upper_bound a b). unfold in_int64, min_int64, max_int64 in *. destruct (Z.le_ge_cases 0 a).
    - pose proof (Z.quot_pos a b ltac:(lia) ltac:(lia)). pose proof (Z.quot_le_upper_bound a b a ltac:(lia) ltac:(nia)). lia.
    - pose proof (Z.quot_pos (- a) b ltac:(lia) ltac:(lia)) as Hp. pose proof (Z.quot_le_upper_bound (- a) b (- a) ltac:(lia) ltac:(nia)).
      rewrite Z.quot_opp_l in * by lia. lia. }
  simpl. split_and!; [exact Hs|by apply Hq|by apply Hq].
Qed.

(** ** Witnesses *)

Lemma RecordResponse_total_witness :
  responses (RecordResponse 5 (New 0)) = 1 ∧
  (∀ c, c ∉ [SuccessResponses; ServfailResponses; NxdomainResponses; OtherResponses] →
     cnt (RecordResponse 5 (New 0)) c = 0).
Proof. apply (RecordResponse_total 5 (New 0)). intros c. simpl. vm_compute. split; discriminate. Defined.

(** Two recorders: the second one's first swap fails and is retried. *)
Lemma ex_lat_run :
  rtc lat_step (lat_init [7; 3]) (mkLat 3 7 [(7, Finished); (3, Finished)]).
Proof.
  change (lat_init [7; 3]) with (mkLat 0 0 [(7, AtMin); (3, AtMin)]).
  do 1 (eapply rtc_l; [eapply (lat_step_thread _ _ _ 0); reflexivity|]).
  do 1 (eapply rtc_l; [eapply (lat_step_thread _ _ _ 1); reflexivity|]).
  do 1 (eapply rtc_l; [eapply (lat_step_thread _ _ _ 0); reflexivity|]).
  do 3 (eapply rtc_l; [eapply (lat_step_thread _ _ _ 1); reflexivity|]).
  do 2 (eapply rtc_l; [eapply (lat_step_thread _ _ _ 0); reflexivity|]).
  do 1 (eapply rtc_l; [eapply (lat_step_thread _ _ _ 1); reflexivity|]).
  apply rtc_refl.
Qed.

Lemma latency_cas_correct_witness :
  (3 ∈ [7; 3] ∧ ∀ us, us ∈ [7; 3] → 3 ≤ us) ∧ (7 ∈ [7; 3] ∧ ∀ us, us ∈ [7; 3] → us ≤ 7).
Proof.
  refine (latency_cas_correct [7; 3] (mkLat 3 7 [(7, Finished); (3, Finished)]) _ _ ex_lat_run _);
    [done|repeat constructor|repeat constructor].
Defined.

Lemma counters_typed_witness :
  in_int64 (snLatencyAvgUs (TakeSnapshot 7 0 0 (fold_left (λ s op, apply_op op s)
    [OpLatency max_int64; OpLatency max_int64; OpResponse 2] (New 0)))).
Proof.
  refine (proj1 (proj2 (counters_typed 0 7 0 0 [OpLatency max_int64; OpLatency max_int64; OpResponse 2] _))).
  repeat constructor; unfold in_int64, min_int64, max_int64; lia.
Defined.
