(* ===== verification/Reports.v ===== *)
(** * Reports and the control socket (internal/statistics: statistics.go, audit.go, socket.go)

    The text of --stats and --audit, line by line, with the number formatting it
    uses, the path of the control socket, and how the daemon answers a request on
    it.  Padding counts code points. *)

From S2P Require Import Prelude GoStrings GoNet GoFmt GoStrconv GoFloat GoFilepath Threads Statistics.
From Stdlib Require Import Ascii String.
Open Scope string_scope.
Open Scope list_scope.
Open Scope Z_scope.

(** ** Data *)

Record InstanceInfo := mkInstanceInfo {
  ii_ConfigPath : string; ii_SocketPath : string; ii_Mode1Enabled : bool; ii_Mode2Enabled : bool;
  ii_DNSSECEnabled : bool; ii_AllowlistEnabled : bool;
  ii_CacheType : string; ii_CacheNegCache : bool; ii_CacheServeStaleS : Z }.

Record UpstreamConnInfo := mkConnInfo { ci_Name : string; ci_State : string; ci_Errors : Z; ci_LastError : string }.

Record AuditInfo := mkAuditInfo {
  ai_ConfigPath : string; ai_SocketPath : string;
  ai_Mode1Enabled : bool; ai_Mode1Listen : string; ai_Mode1Loopback : bool;
  ai_Mode2Enabled : bool; ai_Mode2ListenDoH : string; ai_Mode2DoH3 : bool; ai_Mode2ListenDoT : string; ai_Mode2ListenDoQ : string;
  ai_CacheEnabled : bool; ai_CacheType : string; ai_CacheNegCache : bool; ai_CacheNegTTLMax : Z; ai_CacheStaleS : Z }.

Record ListenerLive := mkListenerLive {
  ll_Mode1UDP : string; ll_Mode1TCP : string; ll_Mode2DoH : string; ll_Mode2DoT : string; ll_Mode2DoQ : string }.

Record LiveAudit := mkLiveAudit {
  la_listeners : ListenerLive; la_CacheSize : Z; la_CacheMaxSize : Z; la_Connections : list UpstreamConnInfo }.

(** ** Formatting *)

Definition nl : string := String "010" "".

Definition onOff (b : bool) : string := if b then "on" else "off".

(** A label or value padded on the right to a width ([%*s] with a negative width, [%-20s]). *)
Definition padr (w : nat) (s : string) : string := s +:+ of_chars (replicate (w - RuneCount s) " "%char).

(** Groups of three digits: the loop of [fmtInt] after the first group. *)
Fixpoint groups3 (l : list ascii) : list ascii :=
  match l with
  | a :: b :: c :: l' => ","%char :: a :: b :: c :: groups3 l'
  | _ => []
  end.

Definition comma_digits (s : list ascii) : list ascii :=
  if (List.length s <=? 3)%nat then s else
  let remainder := (List.length s mod 3)%nat in
  let rest := groups3 (drop remainder s) in
  if (0 <? remainder)%nat then take remainder s ++ rest else tail rest.

(** A negative number is formatted by a recursive call on its negation. *)
Fixpoint fmtInt_fuel (fuel : nat) (n : Z) : option (list ascii) :=
  match fuel with
  | O => None
  | S fuel' =>
      if n <? 0 then match fmtInt_fuel fuel' (wrap64 (- n)) with Some s => Some ("-"%char :: s) | None => None end
      else Some (comma_digits (schars (Itoa n)))
  end.

Definition fmtInt (n : Z) : string := of_chars (default [] (fmtInt_fuel 2 n)).

Definition compactDuration (secs : Z) : string :=
  if Z.rem secs 3600 =? 0 then Itoa (Z.quot secs 3600) +:+ "h"
  else if Z.rem secs 60 =? 0 then Itoa (Z.quot secs 60) +:+ "m"
  else Itoa secs +:+ "s".

(** [d.Round(time.Second)]: half away from zero, saturating. *)
Definition round_second (d : Z) : Z :=
  let r := Z.rem d second in
  if d <? 0 then
    let r := - r in
    if r + r <? second then d + r
    else let d1 := wrap64 (d - second + r) in if d1 <? d then d1 else min_int64
  else
    if r + r <? second then d - r
    else let d1 := wrap64 (d + second - r) in if d <? d1 then d1 else max_int64.

(** The numbers of whole days, hours, minutes and seconds; the conversions to
    float64 in the source are exact on these magnitudes. *)
Definition duration_parts (d : Z) : Z * Z * Z * Z :=
  (Z.quot d (24 * 3600 * second), Z.rem (Z.quot d (3600 * second)) 24, Z.rem (Z.quot d (60 * second)) 60, Z.rem (Z.quot d second) 60).

Definition formatDuration (d : Z) : string :=
  let '(days, h, m, s) := duration_parts (round_second d) in
  if days >? 0 then Itoa days +:+ "d " +:+ Itoa h +:+ "h " +:+ Itoa m +:+ "m " +:+ Itoa s +:+ "s"
  else if h >? 0 then Itoa h +:+ "h " +:+ Itoa m +:+ "m " +:+ Itoa s +:+ "s"
  else if m >? 0 then Itoa m +:+ "m " +:+ Itoa s +:+ "s"
  else Itoa s +:+ "s".

Definition cacheTypeDesc (info : InstanceInfo) : string :=
  let parts := (if ii_CacheNegCache info then ["neg-cache on"] else []) ++
    (if ii_CacheServeStaleS info >? 0 then ["serve-stale ≤" +:+ compactDuration (ii_CacheServeStaleS info)] else []) in
  let parts := match parts with [] => ["positive-only, no serve-stale"] | _ => parts end in
  ii_CacheType info +:+ "   " +:+ Join parts ", ".

Definition firstNonEmpty (vals : list string) : string := List.hd "" (List.filter nonempty vals).

Definition inboundPlaintextVerdict (loopback : bool) : string :=
  if loopback then "loopback only" else "NON-loopback (exposed)".

(** ** --stats *)

(** Lines of the two indentations. *)
Definition field (label v : string) : string := "    " +:+ padr 22 label +:+ " " +:+ v +:+ nl.
Definition sub (label v : string) : string := "      " +:+ padr 20 label +:+ " " +:+ v +:+ nl.

Definition pct (num den : Z) : string := if den <=? 0 then "n/a" else percent1 num den +:+ "%".

Definition formatLatency (us : Z) : string :=
  if us >=? 1000000 then seconds1 us +:+ "s"
  else if us >=? 1000 then Itoa (Z.quot us 1000) +:+ "ms"
  else Itoa us +:+ "µs".

Definition conn_lines (c : UpstreamConnInfo) : list string :=
  ("      " +:+ padr 20 (ci_Name c) +:+ " " +:+ ci_State c +:+
     (if ci_Errors c >? 0 then "  (" +:+ Itoa (ci_Errors c) +:+ " consecutive err)" else "") +:+ nl) ::
  (if nonempty (ci_LastError c) then ["        last error: " +:+ ci_LastError c +:+ nl] else []).

Section Render.
Context (snap : Snapshot) (info : InstanceInfo) (conns : list UpstreamConnInfo).
Local Abbreviation c := (snCounters snap).

Definition render_header (version : string) : list string :=
  ["RCVD Statistics" +:+ nl] ++
  (if nonempty version then [field "Version:" version] else []) ++
  [field "Uptime:" (formatDuration (snUptime snap))] ++
  (if nonempty (ii_ConfigPath info) then [field "Config:" (ii_ConfigPath info)] else []) ++
  (if nonempty (ii_SocketPath info) then [field "Socket:" (ii_SocketPath info)] else []) ++
  ["    Active Modes:" +:+ nl; "      MODE-1 " +:+ onOff (ii_Mode1Enabled info) +:+ nl;
   "      MODE-2 " +:+ onOff (ii_Mode2Enabled info) +:+ nl; nl].

Definition render_health : list string :=
  ["SERVICE HEALTH" +:+ nl; field "Success rate:" (pct (c SuccessResponses) (wrap64 (c SuccessResponses + c ServfailResponses)))] ++
  (if c StaleServed >? 0
   then [field "Served stale:" (fmtInt (c StaleServed) +:+ "   upstream failure; bounded-stale, never cleartext")] else []).

(** The part of the total that no response bucket accounts for. *)
Definition unaccounted : Z :=
  wrap64 (c TotalQueries - (c SuccessResponses + c ServfailResponses + c NxdomainResponses + c OtherResponses)).

Definition render_queries : list string :=
  ["QUERIES" +:+ nl; field "Total handled:" (fmtInt (c TotalQueries)); "    Responses:" +:+ nl;
   sub "Success:" (fmtInt (c SuccessResponses) +:+ "    " +:+ pct (c SuccessResponses) (c TotalQueries));
   sub "SERVFAIL:" (fmtInt (c ServfailResponses) +:+ "    " +:+ pct (c ServfailResponses) (c TotalQueries));
   sub "NXDOMAIN:" (fmtInt (c NxdomainResponses))] ++
  (if c OtherResponses >? 0
   then [sub "Other rcode:" (fmtInt (c OtherResponses) +:+ "    " +:+ pct (c OtherResponses) (c TotalQueries))] else []) ++
  (if unaccounted >? 0 then [sub "Unaccounted:" (fmtInt unaccounted +:+ "    pre-send pack/write drops")] else []) ++ [nl].

Definition render_cache : list string :=
  ["    Cache:" +:+ nl] ++
  (if nonempty (ii_CacheType info) then [sub "Type:" (cacheTypeDesc info)] else []) ++
  [sub "Size:" (fmtInt (snCacheSize snap) +:+ " / " +:+ fmtInt (snCacheMaxSize snap));
   sub "Hit rate:" (pct (c CacheHits) (wrap64 (c CacheHits + c CacheMisses)) +:+ "    " +:+ fmtInt (c CacheHits) +:+ " hits / " +:+
                    fmtInt (c CacheMisses) +:+ " misses")] ++
  (if c StaleServed >? 0
   then [sub "Served stale:" (fmtInt (c StaleServed) +:+ "   (upstream failure; bounded-stale, never cleartext)")] else []) ++ [nl].

Definition render_mode1 : list string :=
  if negb (ii_Mode1Enabled info) then [] else
  ["MODE-1 - FORWARDER (outbound)" +:+ nl; field "Upstream queries:" (fmtInt (c UpstreamQueries));
   field "Upstream errors:" (fmtInt (c UpstreamErrors)); field "Fallback events:" (fmtInt (c UpstreamFallbacks));
   field "By protocol:" ("DoQ " +:+ fmtInt (c DoQQueries) +:+ "    DoT " +:+ fmtInt (c DoTQueries) +:+ "    DoH " +:+ fmtInt (c DoHQueries))] ++
  (if c LatencyCount >? 0
   then [field "Miss latency:" (formatLatency (snLatencyAvgUs snap) +:+ " avg    min: " +:+ formatLatency (c LatencyMinUs) +:+
           "    max: " +:+ formatLatency (c LatencyMaxUs));
         "      encrypted upstream round-trip on cache MISS only (excludes hits);" +:+ nl;
         "      includes the encrypted-transport handshake + DNSSEC chain walk. Cache HITS" +:+ nl;
         "      skip the network entirely (served from local memory), so they are near-instant." +:+ nl] else []) ++
  [nl; "    Connections:" +:+ nl] ++
  match conns with
  | [] => ["      (per-upstream health pending — run --verify-upstream for full rcvd verification)" +:+ nl]
  | _ => mjoin (conn_lines <$> conns)
  end ++ [nl].

Definition render_mode2 : list string :=
  if negb (ii_Mode2Enabled info) then [] else
  ["MODE-2 SERVER (client-facing)" +:+ nl; field "DoH served:" (fmtInt (c DoHServed)); field "DoT served:" (fmtInt (c DoTServed));
   field "DoQ served:" (fmtInt (c DoQServed))] ++
  (if c Mode2LatencyCount >? 0
   then [field "Client service:" (formatLatency (snMode2LatencyAvgUs snap) +:+ " avg    min: " +:+ formatLatency (c Mode2LatencyMinUs) +:+
           "    max: " +:+ formatLatency (c Mode2LatencyMaxUs));
         "      request-in > response-out at THIS listener (what a pinned client sees)." +:+ nl;
         "      cache HITS skip the network (local memory) and are near-instant; a MISS" +:+ nl;
         "      adds this instance's own upstream fetch (see Mode-1 " +:+ String "034" ("Miss latency" +:+ String "034" ") —") +:+ nl;
         "      which is why max can spike while a warm avg stays low." +:+ nl] else []) ++ [nl].

Definition render_doq : list string :=
  if c DoQIdleRetries >? 0
  then ["DoQ TRANSPORT" +:+ nl;
        field "Idle retries:" (fmtInt (c DoQIdleRetries) +:+ "   idle-gap re-dials, all recovered (per-event log at debug)"); nl]
  else [].

Definition render_dnssec : list string :=
  ("DNSSEC" +:+ nl) ::
  (if negb (ii_DNSSECEnabled info) then ["    disabled" +:+ nl +:+ nl] else
   let signed := wrap64 (c DnssecValidated + c DnssecFailed) in
   [field "Validated:" (fmtInt (c DnssecValidated)); field "Failed (bogus):" (fmtInt (c DnssecFailed));
    field "Unsigned:" (fmtInt (c DnssecUnsigned));
    if signed >? 0
    then field "Validation rate:" (pct (c DnssecValidated) signed +:+ "    " +:+ fmtInt (c DnssecValidated) +:+ " of " +:+ fmtInt signed +:+ " signed responses")
    else field "Validation rate:" "n/a (no signed responses yet)"; nl]).

Definition render_filtering : list string :=
  ["FILTERING" +:+ nl;
   if c BlocklistFilesLoaded >? 0 then field "Blocklists:" (fmtInt (c BlocklistFilesLoaded) +:+ " file(s) loaded")
   else field "Blocklists:" "none loaded";
   field "Blocked (NXDOMAIN):" (fmtInt (c BlockedQueries))] ++
  (if (c DeniedQueries >? 0) || ii_AllowlistEnabled info then [field "Denied (allowlist):" (fmtInt (c DeniedQueries))] else []).

Definition render_lines (version : string) : list string :=
  render_header version ++ render_health ++ render_queries ++ render_cache ++ render_mode1 ++ render_mode2 ++
  render_doq ++ render_dnssec ++ render_filtering.

Definition Render (version : string) : string := Join (render_lines version) "".

End Render.

(** ** --audit *)

Definition afield (label v : string) : string := "    " +:+ padr 24 label +:+ " " +:+ v +:+ nl.

Definition boundVerdict (bound : string) : string := if nonempty bound then "bound" else "NOT BOUND".

Section Audit.
Context (a : AuditInfo) (live : LiveAudit).
Local Abbreviation ll := (la_listeners live).

Definition audit_header (version : string) (uptime : Z) : list string :=
  ["RCVD Audit — configured posture + live runtime" +:+ nl;
   "    (live TLS/reachability checks: --verify-self, --verify-upstream)" +:+ nl] ++
  (if nonempty version then [afield "Version:" version] else []) ++
  [afield "Uptime:" (formatDuration uptime)] ++
  (if nonempty (ai_ConfigPath a) then [afield "Config:" (ai_ConfigPath a)] else []) ++
  (if nonempty (ai_SocketPath a) then [afield "Socket:" (ai_SocketPath a)] else []) ++ [nl].

(** The live state of the Mode 1 listener: one verdict, or two when UDP and TCP differ. *)
Definition mode1_bound : string :=
  if negb (Bool.eqb (String.eqb (ll_Mode1UDP ll) "") (String.eqb (ll_Mode1TCP ll) ""))
  then "UDP " +:+ boundVerdict (ll_Mode1UDP ll) +:+ " / TCP " +:+ boundVerdict (ll_Mode1TCP ll)
  else boundVerdict (firstNonEmpty [ll_Mode1UDP ll; ll_Mode1TCP ll]).

Definition mode2_line (addr proto bound : string) : list string :=
  if nonempty addr
  then ["    MODE-2  " +:+ padr 18 addr +:+ " " +:+ padr 24 proto +:+ " TLS-only, " +:+ boundVerdict bound +:+ nl] else [].

Definition audit_listeners : list string :=
  ["LISTENERS (inbound)" +:+ nl] ++
  (if ai_Mode1Enabled a
   then ["    MODE-1  " +:+ padr 18 (ai_Mode1Listen a) +:+ " UDP+TCP   plaintext, " +:+
           (if ai_Mode1Loopback a then "loopback-only" else "NON-loopback") +:+ "   (" +:+ mode1_bound +:+ ")" +:+ nl]
   else ["    MODE-1  (disabled)" +:+ nl]) ++
  (if ai_Mode2Enabled a then
     let lines := mode2_line (ai_Mode2ListenDoH a) (if ai_Mode2DoH3 a then "DoH (HTTP/2 + HTTP/3)" else "DoH (HTTP/2)") (ll_Mode2DoH ll) ++
                  mode2_line (ai_Mode2ListenDoT a) "DoT" (ll_Mode2DoT ll) ++ mode2_line (ai_Mode2ListenDoQ a) "DoQ" (ll_Mode2DoQ ll) in
     match lines with [] => ["    MODE-2  (enabled, but no endpoint address configured)" +:+ nl] | _ => lines end
   else ["    MODE-2  (disabled)" +:+ nl]) ++ [nl].

Definition audit_posture : list string :=
  ["NO-CLEARTEXT POSTURE (design guarantees)" +:+ nl;
   afield "Port 53 binding:" "loopback-only enforced   (rejects non-loopback :53 at startup)";
   afield "Cleartext fallback:" "disabled                 (all upstreams fail → SERVFAIL, never plaintext)"] ++
  (if ai_Mode1Enabled a
   then [afield "Inbound plaintext:" (inboundPlaintextVerdict (ai_Mode1Loopback a) +:+
           "            (Mode-1 plaintext listener on " +:+ ai_Mode1Listen a +:+ ")")] else []) ++
  (if ai_Mode2Enabled a
   then [afield "Inbound encryption:" "all MODE-2 endpoints TLS-only   (no cleartext-HTTP DoH mode exists)"] else []) ++ [nl].

Definition audit_upstreams : list string :=
  match la_Connections live with
  | [] => []
  | conns =>
      if negb (ai_Mode1Enabled a) then [] else
      nl :: ("UPSTREAMS (live health)" +:+ nl) ::
      ((λ c, "    " +:+ padr 20 (ci_Name c) +:+ " " +:+ ci_State c +:+
             (if ci_Errors c >? 0 then "   (" +:+ Itoa (ci_Errors c) +:+ " consecutive err)" else "") +:+ nl) <$> conns)
  end.

(** With the cache disabled the report ends here. *)
Definition audit_cache : list string :=
  ("CACHE POSTURE" +:+ nl) ::
  (if negb (ai_CacheEnabled a) then [afield "Type:" "disabled"] else
   [afield "Type:" (if nonempty (ai_CacheType a) then ai_CacheType a else "standard")] ++
   (if la_CacheMaxSize live >? 0
    then [afield "Entries:" (fmtInt (la_CacheSize live) +:+ " / " +:+ fmtInt (la_CacheMaxSize live) +:+ "   (live)")] else []) ++
   [if ai_CacheNegCache a then afield "Negative caching:" ("on  (NXDOMAIN/NODATA ≤ " +:+ compactDuration (ai_CacheNegTTLMax a) +:+ ")")
    else afield "Negative caching:" "off";
    if ai_CacheStaleS a >? 0
    then afield "Serve-stale:" ("on  (≤ " +:+ compactDuration (ai_CacheStaleS a) +:+ " past expiry; validated answers only, never cleartext)")
    else afield "Serve-stale:" "off"] ++ audit_upstreams).

Definition audit_lines (version : string) (uptime : Z) : list string :=
  audit_header version uptime ++ audit_listeners ++ audit_posture ++ audit_cache.

Definition RenderAudit (version : string) (uptime : Z) : string := Join (audit_lines version uptime) "".

End Audit.

(** ** The control socket *)

(** What [SocketPath] asks the system: the path with its symbolic links resolved,
    whether /run/rcvd is a directory, XDG_RUNTIME_DIR, whether its rcvd directory
    can be made, and the directory for temporary files. *)
Record SocketEnv := mkSocketEnv {
  sk_resolve : string → option string; sk_run_dir : bool; sk_xdg : string; sk_mkdir : string → bool; sk_tmp : string }.

Definition SocketPath (env : SocketEnv) (configPath : string) : string :=
  let configPath := default configPath (sk_resolve env configPath) in
  let base := Base configPath in
  let name := TrimSuffix base (Ext base) +:+ ".sock" in
  if sk_run_dir env then JoinPath "/run/rcvd" name else
  let fallbackDir := JoinPath (sk_xdg env) "rcvd" in
  if nonempty (sk_xdg env) && sk_mkdir env fallbackDir then JoinPath fallbackDir name
  else JoinPath (sk_tmp env) ("rcvd-" +:+ name).

(** The verb of a request: the first line that arrived before the deadline (or all
    that arrived), without white space around it. *)
Definition request_verb (input : string) : string :=
  let input := take_bytes (2 ^ 20) input in
  TrimSpace (match Cut input "010" with Some (line, _) => line | None => input end).

(** What the daemon wires to the socket.  [cb_reload] is the number of files of the
    blocklist and the goroutine that the callback starts for them; [cb_allowlist]
    replaces the live allowlist in the state [S] and returns a reply or an error text;
    the reports are rendered on request. *)
Record Callbacks (S : Type) := mkCallbacks {
  cb_reload : option (Z * prog S ()); cb_allowlist : option (S → result string string * S); cb_audit : S → string; cb_stats : S → string }.
Arguments cb_reload {S} _.
Arguments cb_allowlist {S} _.
Arguments cb_audit {S} _.
Arguments cb_stats {S} _.

(** One connection: the reply, the goroutines it started, and the state. *)
Definition handle_connection {S : Type} (cb : Callbacks S) (input : string) (s : S) : string * list (prog S ()) * S :=
  let verb := request_verb input in
  if String.eqb verb "RELOAD-BLOCKLIST" then
    match cb_reload cb with
    | None => ("blocklist reload unavailable: no blocklist configured" +:+ nl, [], s)
    | Some (files, job) => ("blocklist reload started (" +:+ Itoa files +:+ " file(s), background)" +:+ nl, [job], s)
    end
  else if String.eqb verb "RELOAD-ALLOWLIST" then
    match cb_allowlist cb with
    | None => ("allowlist reload unavailable: allowlist not enabled" +:+ nl, [], s)
    | Some f => match f s with (Ok reply, s) => (reply +:+ nl, [], s) | (Err e, s) => (e +:+ nl, [], s) end
    end
  else if String.eqb verb "AUDIT" then (cb_audit cb s, [], s)
  else (cb_stats cb s, [], s).

(** A connection from the side of the client: how much of the request the daemon
    reads, whether the write succeeds, how much of the reply arrives, and whether the
    reading ends without an error. *)
Record Conn := mkConn { cn_arrives : Z; cn_write_ok : bool; cn_back : Z; cn_read_ok : bool }.

(** Nothing of the request or of the (at most 1 MiB of the) reply is lost. *)
Definition intact (c : Conn) (request : string) : Prop :=
  Z.of_nat (String.length request) ≤ cn_arrives c ∧ cn_write_ok c = true ∧ 2 ^ 20 ≤ cn_back c ∧ cn_read_ok c = true.

Inductive query_error := EConnect | EWriteRequest | EReadReply.

(** The clients: what each sends, and the reply or the error it returns.  There is no
    connection when the socket cannot be reached.  The client for the statistics
    writes nothing.  Once the connection is there, the daemon serves it whatever
    happens to the client. *)
Definition query {S : Type} (conn : option Conn) (cb : Callbacks S) (request : string) (s : S) : result string query_error * list (prog S ()) * S :=
  match conn with
  | None => (Err EConnect, [], s)
  | Some c =>
      let '(reply, started, s) := handle_connection cb (take_bytes (cn_arrives c) request) s in
      (if nonempty request && negb (cn_write_ok c) then Err EWriteRequest
       else if negb (cn_read_ok c) then Err EReadReply
       else Ok (take_bytes (2 ^ 20) (take_bytes (cn_back c) reply)), started, s)
  end.

Definition QueryStats {S : Type} (conn : option Conn) (cb : Callbacks S) (s : S) := query conn cb "" s.
Definition QueryAudit {S : Type} (conn : option Conn) (cb : Callbacks S) (s : S) := query conn cb ("AUDIT" +:+ nl) s.
Definition QueryReload {S : Type} (conn : option Conn) (cb : Callbacks S) (s : S) := query conn cb ("RELOAD-BLOCKLIST" +:+ nl) s.
Definition QueryAllowlistReload {S : Type} (conn : option Conn) (cb : Callbacks S) (s : S) :=
  query conn cb ("RELOAD-ALLOWLIST" +:+ nl) s.

(** ** Numbers can be read back *)

Definition not_comma (a : ascii) : bool := negb (Ascii.eqb a ",").

Lemma groups3_digits l : Forall (λ a, not_comma a = true) l → (List.length l mod 3 = 0)%nat →
  List.filter not_comma (groups3 l) = l.
Proof.
  assert (H : ∀ n l, (List.length l ≤ n)%nat → Forall (λ a, not_comma a = true) l → (List.length l mod 3 = 0)%nat →
    List.filter not_comma (groups3 l) = l); [|by apply (H (List.length l))].
  clear l. induction n as [|n IH]; intros [|a [|b [|c l]]] Hn Hf Hm; simpl in Hn; try done; try lia.
  inversion Hf as [|? ? Ha Hf1]; subst. inversion Hf1 as [|? ? Hb Hf2]; subst. inversion Hf2 as [|? ? Hc Hf3]; subst.
  cbn [groups3 List.filter]. change (not_comma ",") with false. cbv iota. rewrite Ha, Hb, Hc. rewrite IH; try done; [lia|].
  change (List.length (a :: b :: c :: l)) with (3 + List.length l)%nat in Hm.
  by rewrite <-(Nat.Div0.add_mod_idemp_l 3 _ 3) in Hm.
Qed.

Lemma filter_all {A} (p : A → bool) l : Forall (λ a, p a = true) l → List.filter p l = l.
Proof. induction 1 as [|a l Ha _ IH]; simpl; [done|]. by rewrite Ha, IH. Qed.

Lemma comma_digits_filter l : Forall (λ a, not_comma a = true) l → List.filter not_comma (comma_digits l) = l.
Proof.
  intros H. unfold comma_digits. destruct (_ <=? 3)%nat eqn:E3; [by apply filter_all|]. apply Nat.leb_gt in E3.
  assert (Hm : (List.length (drop (List.length l mod 3) l) mod 3 = 0)%nat).
  { rewrite length_drop. pose proof (Nat.div_mod_eq (List.length l) 3) as Hd.
    replace (List.length l - List.length l mod 3)%nat with (List.length l / 3 * 3)%nat by lia. apply Nat.Div0.mod_mul. }
  destruct (0 <? _)%nat eqn:E0.
  - rewrite List.filter_app, filter_all by by apply Forall_take. rewrite groups3_digits; [|by apply Forall_drop|done].
    apply take_drop.
  - apply Nat.ltb_ge in E0. replace (List.length l mod 3)%nat with 0%nat in * by lia. rewrite drop_0 in *.
    pose proof (groups3_digits l H Hm) as Hg. destruct (groups3 l) as [|x g] eqn:Eg; [done|].
    destruct l as [|a [|b [|c l]]]; simpl in E3; try lia. cbn [groups3] in Eg. injection Eg as <- <-. done.
Qed.

Lemma dec_digits_no_comma fuel n : 0 ≤ n → Forall (λ a, not_comma a = true) (dec_digits fuel n).
Proof.
  revert n. induction fuel as [|fuel IH]; intros n Hn; [constructor|]. cbn [dec_digits].
  assert (Hd : ∀ d, 0 ≤ d < 10 → not_comma (digit_char d) = true).
  { intros d Hd. destruct (digit_char_spec d Hd) as [H _]. unfold not_comma. destruct (Ascii.eqb_spec (digit_char d) ","); [|done].
    rewrite e in H. discriminate H. }
  destruct (n <? 10) eqn:E; bool_prop.
  - constructor; [apply Hd; lia|constructor].
  - apply Forall_app. split; [apply IH; Z.div_mod_to_equations; lia|].
    constructor; [apply Hd; Z.div_mod_to_equations; lia|constructor].
Qed.

Lemma fmtInt_nonneg n : 0 ≤ n → fmtInt n = of_chars (comma_digits (dec_digits 20 n)).
Proof.
  intros H. unfold fmtInt. cbn [fmtInt_fuel]. unfold Itoa. apply Z.ltb_ge in H as ->. cbn [from_option]. by rewrite schars_of_chars.
Qed.

Lemma fmtInt_neg n : in_int64 n → n ≠ min_int64 → n < 0 → fmtInt n = of_chars ("-"%char :: comma_digits (dec_digits 20 (- n))).
Proof.
  intros Hn Hmin H. unfold fmtInt. cbn [fmtInt_fuel]. apply Z.ltb_lt in H as E. rewrite E.
  rewrite wrap64_id by (unfold in_int64, min_int64, max_int64 in *; lia).
  assert (E2 : ((- n) <? 0) = false) by (apply Z.ltb_ge; lia). unfold Itoa. rewrite E2. cbn [from_option]. by rewrite schars_of_chars.
Qed.

(** The reports show a number in full: without its commas, what [fmtInt] prints
    for any 64-bit integer but the smallest parses back to that integer. *)
Theorem fmtInt_roundtrip n : in_int64 n → n ≠ min_int64 →
  Atoi (of_chars (List.filter not_comma (schars (fmtInt n)))) = Some n.
Proof.
  intros Hn Hmin. rewrite <-(Atoi_Itoa n Hn). f_equal. unfold Itoa. destruct (n <? 0) eqn:E; bool_prop.
  - rewrite fmtInt_neg, schars_of_chars by done. cbn [List.filter]. change (not_comma "-") with true. cbv iota.
    by rewrite comma_digits_filter by (apply dec_digits_no_comma; lia).
  - rewrite fmtInt_nonneg, schars_of_chars by done. by rewrite comma_digits_filter by (apply dec_digits_no_comma; lia).
Qed.

(** The negation of the smallest integer is itself, so that the recursion on it has no end. *)
Lemma fmtInt_diverges fuel : fmtInt_fuel fuel min_int64 = None.
Proof. induction fuel as [|fuel IH]; [done|]. cbn [fmtInt_fuel]. change (wrap64 (- min_int64)) with min_int64. by rewrite IH. Qed.

(** A duration is shown to the nearest second, in mixed radix. *)
Lemma formatDuration_parts d : 0 ≤ d ≤ max_int64 - second →
  let '(days, h, m, s) := duration_parts (round_second d) in
  0 ≤ days ∧ 0 ≤ h < 24 ∧ 0 ≤ m < 60 ∧ 0 ≤ s < 60 ∧
  - second ≤ 2 * ((((days * 24 + h) * 60 + m) * 60 + s) * second - d) ≤ second.
Proof.
  intros Hd. unfold round_second. cbv zeta. assert ((d <? 0) = false) as -> by (apply Z.ltb_ge; lia).
  rewrite Z.rem_mod_nonneg by (unfold second; lia).
  match goal with |- context [duration_parts ?x] => set (d' := x) end.
  assert (Hd' : d' mod second = 0 ∧ 0 ≤ d' ∧ - second ≤ 2 * (d' - d) ≤ second).
  { subst d'. unfold max_int64, second in *. destruct (_ <? _) eqn:E; bool_prop.
    - Z.div_mod_to_equations; lia.
    - rewrite wrap64_id by (unfold in_int64, min_int64, max_int64; Z.div_mod_to_equations; lia).
      destruct (d <? _) eqn:E2; bool_prop; Z.div_mod_to_equations; lia. }
  clearbody d'. clear Hd. destruct Hd' as (H1 & H2 & H3). unfold duration_parts.
  rewrite !Z.quot_div_nonneg by (unfold second; lia). rewrite !Z.rem_mod_nonneg by (first [apply Z.div_pos; unfold second; lia|lia]).
  unfold second in *. Z.div_mod_to_equations. lia.
Qed.

(** ** What the audit shows *)

(** The exposure of the plaintext listener is on two lines of the audit, and says
    loopback exactly when the listener is on a loopback address. *)
Lemma audit_shows_exposure a live version uptime : ai_Mode1Enabled a = true →
  afield "Inbound plaintext:" (inboundPlaintextVerdict (ai_Mode1Loopback a) +:+
    "            (Mode-1 plaintext listener on " +:+ ai_Mode1Listen a +:+ ")") ∈ audit_lines a live version uptime.
Proof.
  intros H. unfold audit_lines, audit_posture. rewrite H.
  do 2 (apply elem_of_app; right). apply elem_of_app. left. apply elem_of_app. right. apply elem_of_app. left. by left.
Qed.

(** With the cache turned off the audit stops before the health of the upstreams:
    it is the same report whatever their states are. *)
Lemma audit_without_cache_hides_upstreams a ll size maxSize conns version uptime :
  ai_CacheEnabled a = false →
  RenderAudit a (mkLiveAudit ll size maxSize conns) version uptime = RenderAudit a (mkLiveAudit ll size maxSize []) version uptime.
Proof. intros H. unfold RenderAudit, audit_lines, audit_cache. by rewrite H. Qed.

(** ** Examples *)

Example fmtInt_cases : fmtInt <$> [0; 999; 1000; 123456; 1234567; -1234; max_int64]
  = ["0"; "999"; "1,000"; "123,456"; "1,234,567"; "-1,234"; "9,223,372,036,854,775,807"].
Proof. vm_compute. done. Qed.

Example duration_cases :
  formatDuration <$> [0; 1499999999; 59500000000; 3600 * second; (86400 + 7384) * second]
  = ["0s"; "1s"; "1m 0s"; "1h 0m 0s"; "1d 2h 3m 4s"] ∧
  compactDuration <$> [3600; 90; 1800; 7200; 0] = ["1h"; "90s"; "30m"; "2h"; "0h"].
Proof. vm_compute. done. Qed.

Definition ex_info : InstanceInfo := mkInstanceInfo "/etc/rcvd.toml" "" true false true false "aggressive" true 3600.

Example cache_desc : cacheTypeDesc ex_info = "aggressive   neg-cache on, serve-stale ≤1h".
Proof. vm_compute. done. Qed.

Example socket_paths :
  let env run xdg := mkSocketEnv (λ _, None) run xdg (λ _, true) "/tmp" in
  (SocketPath (env true "") "/etc/rcvd/rcvd.toml", SocketPath (env false "/run/user/1") "x/test.conf.toml", SocketPath (env false "") "rcvd")
  = ("/run/rcvd/rcvd.sock", "/run/user/1/rcvd/test.conf.sock", "/tmp/rcvd-rcvd.sock").
Proof. vm_compute. done. Qed.

Definition ex_callbacks : Callbacks nat :=
  mkCallbacks nat (Some (2, writeP (λ n, n + 10)%nat)) (Some (λ n, (Ok "allowlist reloaded: 3 entries from 1 file(s)", S n))) (λ _, "audit") (λ _, "stats").

(** What is left in the state when the started goroutines have run. *)
Example requests :
  (λ i, let '(reply, started, n) := handle_connection ex_callbacks i 0%nat in (reply, n, fold_left (λ n p, snd (run p n)) started n))
    <$> [""; "STATS" +:+ nl; " AUDIT " +:+ nl; "RELOAD-BLOCKLIST"; "RELOAD-ALLOWLIST" +:+ nl; "garbage"]
  = [("stats", 0, 0); ("stats", 0, 0); ("audit", 0, 0);
     ("blocklist reload started (2 file(s), background)" +:+ nl, 0, 10);
     ("allowlist reloaded: 3 entries from 1 file(s)" +:+ nl, 1, 1); ("stats", 0, 0)]%nat.
Proof. vm_compute. done. Qed.

(** A client that fails after its request has arrived has still triggered the reload. *)
Example broken_connections :
  (λ c, let '(r, _, n) := QueryAllowlistReload c ex_callbacks 0%nat in (r, n))
    <$> [None; Some (mkConn 7 false 0 true); Some (mkConn 100 true 5 false); Some (mkConn 16 true 9 true); Some (mkConn 100 true (2 ^ 20) true)]
  = [(Err EConnect, 0); (Err EWriteRequest, 0); (Err EReadReply, 1); (Ok "allowlist", 1);
     (Ok ("allowlist reloaded: 3 entries from 1 file(s)" +:+ nl), 1)]%nat.
Proof. vm_compute. done. Qed.

Lemma fmtInt_roundtrip_witness : Atoi (of_chars (List.filter not_comma (schars (fmtInt (-1234567))))) = Some (-1234567).
Proof. apply (fmtInt_roundtrip (-1234567)); [split; vm_compute; discriminate|vm_compute; discriminate]. Defined.
