(* ===== verification/Policy.v ===== *)
(** * The query policy (internal/policy/policy.go)

    Whether a query is answered locally, and whether a reply may be sent: the
    composition of the allowlist, the query types and the blocklist.  The
    counters are shared with the listeners, so they are threaded as state;
    [hasStats] says whether the policy's pointer to them is set.  A nil
    [*Policy] is [None]. *)

From stdpp Require Import pretty.
From S2P Require Import Prelude GoStrings GoRegexp DnsMsg Blocklist Allowlist Statistics.
From Stdlib Require Import Ascii String.
Open Scope string_scope.
Open Scope list_scope.
Open Scope Z_scope.

Definition ednsUDPBufSize : Z := 1232.

Record Policy := mkPolicy {
  allow : option Allowlist.Allowlist;
  block : option Blocklist.Blocklist;
  hasStats : bool;
  qtypes : option (gset Z) }.

Definition New (a : option Allowlist.Allowlist) (b : option Blocklist.Blocklist) (s : bool) : Policy :=
  mkPolicy a b s None.

Definition SetQTypes (types : list Z) (p : Policy) : Policy :=
  mkPolicy (allow p) (block p) (hasStats p)
    (match types with [] => None | _ => Some (list_to_set types) end).

(** [if p.stats != nil { atomic.AddInt64(&p.stats.c, 1) }]. *)
Definition count (c : counter) (p : Policy) (st : Stats) : Stats :=
  if hasStats p then inc c st else st.

(** [p.qtypes != nil && !p.qtypes[t]]. *)
Definition qtype_refused (p : Policy) (t : Z) : bool :=
  match qtypes p with Some ts => negb (bool_decide (t ∈ ts)) | None => false end.

Section Ops.
Context {dl : DnsLib}.

Definition deny (p : Policy) (query : Msg) (reason : string) (st : Stats) : Stats * Msg :=
  let st := count DeniedQueries p st in
  let resp := mkMsg (mkMsgHdr (mId query) true 0 false false false true false false RcodeRefused)
                    (mQuestion query) [] [] [] in
  match IsEdns0 query with
  | None => (st, resp)
  | Some _ =>
      let resp := SetEdns0 ednsUDPBufSize false resp in
      match IsEdns0 resp with
      | None => (st, resp)
      | Some (i, _) =>
          (st, update_opt i (λ o, mkOPT (optUDPSize o) (optDo o)
                 (optOption o ++ [EDNS0_EDE ExtendedErrorCodeProhibited reason])) resp)
      end
  end.

(** The part of [Response] after the allowlist let the query pass. *)
Definition block_check (p : Policy) (query : Msg) (q : Question) (st : Stats) : Stats * option Msg :=
  match block p with
  | Some b =>
      if IsBlocked b (qName q)
      then (count BlockedQueries p st,
            Some (mkMsg (replyHdr (mId query) RcodeNameError) (mQuestion query) [] [] []))
      else (st, None)
  | None => (st, None)
  end.

Definition Response (op : option Policy) (query : Msg) (st : Stats) : Stats * option Msg :=
  match op with
  | None => (st, None)
  | Some p =>
      match mQuestion query with
      | [] => (st, None)
      | q :: _ =>
          let refuse reason := let '(st', m) := deny p query reason st in (st', Some m) in
          match allow p with
          | Some a =>
              if negb (Allowed a (qName q)) then refuse "default-deny allowlist"
              else if qtype_refused p (qType q) then refuse "qtype not allowed"
              else block_check p query q st
          | None => block_check p query q st
          end
      end
  end.

(** The body of the loop over [resp.Answer]: the reason to refuse, if any. *)
Definition answer_refused (p : Policy) (a : Allowlist.Allowlist) (rr : RR) : option string :=
  let h := rHdr rr in
  if hRrtype h =? TypeRRSIG then None else
  if qtype_refused p (hRrtype h) then Some "answer type not allowed" else
  if negb (Allowed a (hName h)) then Some "answer outside allowlist" else
  match rData rr with
  | D_CNAME t => if negb (Allowed a t) then Some "answer outside allowlist" else None
  | D_DNAME t => if negb (Allowed a t) then Some "answer outside allowlist" else None
  | _ => None
  end.

Fixpoint first_refused (p : Policy) (a : Allowlist.Allowlist) (l : list RR) : option string :=
  match l with
  | [] => None
  | rr :: l' => match answer_refused p a rr with Some r => Some r | None => first_refused p a l' end
  end.

Definition Answer (op : option Policy) (query : Msg) (resp : option Msg) (st : Stats)
    : Stats * option Msg :=
  match op, resp with
  | Some p, Some r =>
      match allow p with
      | None => (st, resp)
      | Some a =>
          match first_refused p a (mAnswer r) with
          | Some reason => let '(st', m) := deny p query reason st in (st', Some m)
          | None => (st, resp)
          end
      end
  | _, _ => (st, resp)
  end.

End Ops.

(** ** Shadowed entries *)

Definition shadowProbeLabel : string := "#".

(** The name whose blocking tells that the entry is covered. *)
Definition probe (e : string) : string :=
  if HasPrefix e "*." then shadowProbeLabel +:+ str_drop 1 e else TrimPrefix e "=".

Definition Shadowed (oa : option Allowlist.Allowlist) (ob : option Blocklist.Blocklist) : list string :=
  match oa, ob with
  | Some a, Some b => List.filter (λ e, IsBlocked b (probe e)) (Allowlist.Entries a)
  | _, _ => []
  end.

Definition ShadowSummary (shadowed : list string) : string :=
  let n := List.length shadowed in
  if (n =? 0)%nat then "" else
  let noun := if (n =? 1)%nat then "entry" else "entries" in
  let more := if (5 <? n)%nat then ", and " +:+ pretty (n - 5)%nat +:+ " more" else "" in
  let names := if (5 <? n)%nat then take 5 shadowed else shadowed in
  pretty n +:+ " allowlist " +:+ noun +:+ " fully shadowed by the blocklist (always NXDOMAIN): "
    +:+ Join names ", " +:+ more.

(** ** Refusals *)

Section Props.
Context {dl : DnsLib} {laws : DnsLaws dl}.

(** A message whose additional section is one OPT record shows that record. *)
Lemma IsEdns0_single m h o :
  mExtra m = [mkRR h (D_OPT o)] → hRrtype h = TypeOPT → IsEdns0 m = Some (0%nat, o).
Proof.
  intros Hm Hh. destruct (IsEdns0 m) as [[i o']|] eqn:E.
  - apply IsEdns0_Some in E as (h' & Hi & _). rewrite Hm in Hi.
    destruct i as [|i]; simpl in Hi; [congruence|]. by rewrite lookup_nil in Hi.
  - exfalso. assert (Hwf : opt_wf m).
    { intros rr. rewrite Hm. intros ->%list_elem_of_singleton. unfold rr_wf, rrtype; simpl. split; eauto. }
    apply (proj1 (IsEdns0_None m Hwf) E (mkRR h (D_OPT o))); [rewrite Hm; by left|done].
Qed.

(** What a refusal looks like. *)
Record refusal (query : Msg) (reason : string) (m : Msg) : Prop := {
  ref_id : mId m = mId query;
  ref_response : mResponse m = true;
  ref_rcode : mRcode m = RcodeRefused;
  ref_question : mQuestion m = mQuestion query;
  ref_empty : mAnswer m = [] ∧ mNs m = [];
  ref_ad : mAuthenticatedData m = false;
  ref_extra :
    match IsEdns0 query with
    | None => mExtra m = []
    | Some _ => ∃ h, hRrtype h = TypeOPT ∧ mExtra m =
        [mkRR h (D_OPT (mkOPT ednsUDPBufSize false [EDNS0_EDE ExtendedErrorCodeProhibited reason]))]
    end }.

Lemma deny_refusal p query reason st :
  fst (deny p query reason st) = count DeniedQueries p st ∧ refusal query reason (snd (deny p query reason st)).
Proof.
  unfold deny. destruct (IsEdns0 query) as [[j o]|] eqn:E.
  - destruct (newOPT_spec ednsUDPBufSize false) as (h & Hn & Hh).
    erewrite IsEdns0_single by (simpl; first [by rewrite Hn|done]).
    split; [done|]. split; simpl; try done. rewrite E, Hn. simpl. eauto.
  - split; [done|]. split; simpl; try done. by rewrite E.
Qed.

(** ** The decision *)

(** The query may leave the host as far as the allowlist is concerned. *)
Definition allow_passes (p : Policy) (q : Question) : bool :=
  match allow p with
  | Some a => Allowed a (qName q) && negb (qtype_refused p (qType q))
  | None => true
  end.

Definition blocked (p : Policy) (q : Question) : bool :=
  match block p with Some b => IsBlocked b (qName q) | None => false end.

Lemma Response_cases p query q qs st :
  mQuestion query = q :: qs →
  (allow_passes p q = false ∧ ∃ reason, refusal query reason (snd (deny p query reason st)) ∧
     Response (Some p) query st = (count DeniedQueries p st, Some (snd (deny p query reason st)))) ∨
  (allow_passes p q = true ∧ blocked p q = true ∧
     Response (Some p) query st =
       (count BlockedQueries p st, Some (mkMsg (replyHdr (mId query) RcodeNameError) (q :: qs) [] [] []))) ∨
  (allow_passes p q = true ∧ blocked p q = false ∧ Response (Some p) query st = (st, None)).
Proof.
  intros Hq. unfold Response, allow_passes, blocked, block_check. rewrite Hq.
  assert (Hd : ∀ reason, refusal query reason (snd (deny p query reason st)) ∧
    (let '(st', m) := deny p query reason st in (st', Some m)) =
      (count DeniedQueries p st, Some (snd (deny p query reason st)))).
  { intros reason. pose proof (deny_refusal p query reason st) as [E ?].
    destruct (deny p query reason st) as [st' m]; simpl in *. by subst. }
  destruct (allow p) as [a|]; [destruct (Allowed a (qName q)); simpl|]; [|left; eauto|];
    [destruct (qtype_refused p (qType q)); simpl; [left; eauto|]|];
    right; (destruct (block p) as [b|]; [|by right]; destruct (IsBlocked b (qName q)); [by left|by right]).
Qed.

(** C24: The decision on a query with a question: it is forwarded exactly when
    the allowlist (name and type) passes and the blocklist does not match; a
    query the allowlist refuses gets REFUSED with the denial explained, even
    if it is also blocked; a passing blocked one gets NXDOMAIN.  A forwarded
    query changes no counter, an answered one exactly the counter of its kind. *)
Theorem Response_decides p query q qs st :
  mQuestion query = q :: qs →
  match Response (Some p) query st with
  | (st', None) => st' = st ∧ allow_passes p q = true ∧ blocked p q = false
  | (st', Some m) =>
      mId m = mId query ∧ mResponse m = true ∧ mQuestion m = mQuestion query ∧
      mAnswer m = [] ∧ mNs m = [] ∧
      if allow_passes p q
      then blocked p q = true ∧ mRcode m = RcodeNameError ∧ mExtra m = [] ∧ st' = count BlockedQueries p st
      else (∃ reason, refusal query reason m) ∧ st' = count DeniedQueries p st
  end.
Proof.
  intros Hq. destruct (Response_cases p query q qs st Hq)
    as [(Ha & reason & Hr & ->)|[(Ha & Hb & ->)|(Ha & Hb & ->)]]; rewrite Ha; [|done|done].
  pose proof Hr as [? ? ? ? [? ?] ? ?]. split_and!; eauto.
Qed.

(** ** Replies *)

(** Everything the record names is inside the allowlist and of an allowed type. *)
Definition record_allowed (p : Policy) (a : Allowlist) (rr : RR) : Prop :=
  rrtype rr = TypeRRSIG ∨
  (qtype_refused p (rrtype rr) = false ∧ Allowed a (hName (rHdr rr)) = true ∧
   ∀ t, rData rr = D_CNAME t ∨ rData rr = D_DNAME t → Allowed a t = true).

Lemma answer_refused_None p a rr : answer_refused p a rr = None ↔ record_allowed p a rr.
Proof.
  unfold answer_refused, record_allowed, rrtype. cbn zeta.
  destruct (Z.eqb_spec (hRrtype (rHdr rr)) TypeRRSIG) as [E|E]; [split; [by left|done]|].
  destruct (qtype_refused p _); [split; [done|]; intros [?|[? _]]; done|].
  destruct (Allowed a (hName (rHdr rr))); simpl; [|split; [done|]; intros [?|(_ & ? & _)]; done].
  destruct (rData rr) as [| |t|t| | | | | | |];
    try (split; [intros _; right; split_and!; [done..|]; by intros ? [?|?]|done]);
    (destruct (Allowed a t) eqn:Et; simpl; split; try done;
     [intros _; right; split_and!; [done..|]; intros ? [[= <-]|[= <-]]; done
     |intros [?|(_ & _ & H)]; [done|]; rewrite (H t) in Et; eauto; done]).
Qed.

#[global] Instance record_allowed_dec p a rr : Decision (record_allowed p a rr).
Proof.
  destruct (answer_refused p a rr) eqn:E; [right|left]; rewrite <-answer_refused_None; congruence.
Defined.

Lemma first_refused_None p a l : first_refused p a l = None ↔ ∀ rr, rr ∈ l → record_allowed p a rr.
Proof.
  induction l as [|rr l IH]; simpl; [split; [|done]; intros _ rr Hr; by apply elem_of_nil in Hr|].
  setoid_rewrite elem_of_cons. destruct (answer_refused p a rr) eqn:E.
  - split; [done|]. intros H. assert (Hn := H rr (or_introl eq_refl)).
    apply answer_refused_None in Hn. congruence.
  - apply answer_refused_None in E. rewrite IH. naive_solver.
Qed.

(** C13: With an allowlist on, what leaves through [Answer] is either the reply
    itself, when every answer record (signatures aside) has an allowed type,
    an allowed owner and, for CNAME and DNAME, an allowed target, or a REFUSED
    reply without any record.  So no answer record outside the allowlist is
    ever handed to a client. *)
Theorem Answer_no_leak p a query resp st :
  allow p = Some a →
  let '(st', r) := Answer (Some p) query (Some resp) st in
  ((∀ rr, rr ∈ mAnswer resp → record_allowed p a rr) ∧ r = Some resp ∧ st' = st) ∨
  ((∃ rr, rr ∈ mAnswer resp ∧ ¬ record_allowed p a rr) ∧ st' = count DeniedQueries p st ∧
   ∃ m reason, r = Some m ∧ refusal query reason m).
Proof.
  intros Ha. unfold Answer. rewrite Ha. destruct (first_refused p a (mAnswer resp)) as [reason|] eqn:E.
  - pose proof (deny_refusal p query reason st) as [E' ?].
    destruct (deny p query reason st) as [st' m]; simpl in *. subst st'. right. split_and!; eauto 6.
    apply Exists_exists, (not_Forall_Exists _ (mAnswer resp)).
    rewrite Forall_forall. intros H'. apply first_refused_None in H'. congruence.
  - left. by rewrite <-first_refused_None.
Qed.

End Props.

(** ** Shadowed entries *)

(** The names an entry allows, in the notation of [Entries]. *)
Definition entry_allows (e n : string) : Prop :=
  if HasPrefix e "*." then below (normalize n) (str_drop 2 e)
  else if HasPrefix e "=" then normalize n = str_drop 1 e
  else at_or_below (normalize n) e.

Lemma at_or_below_trans d e f : at_or_below d e → at_or_below e f → at_or_below d f.
Proof.
  intros [->|[x ->]] [->|[y ->]]; [by left|by right; eexists|by right; eexists|].
  right. exists (x +:+ "." +:+ y). by rewrite !sapp_assoc.
Qed.

Lemma below_trans_l d e f : below d e → at_or_below e f → below d f.
Proof. intros [x ->] [->|[y ->]]; [by exists x|]. exists (x +:+ "." +:+ y). by rewrite !sapp_assoc. Qed.

Lemma below_trans_r d e f : at_or_below d e → below e f → below d f.
Proof. intros [->|[x ->]] [y ->]; [by exists y|]. exists (x +:+ "." +:+ y). by rewrite !sapp_assoc. Qed.

(** What blocks a name blocks everything below it. *)
Lemma IsBlocked_below b d d' :
  IsBlocked b d = true → at_or_below (normalize d') (normalize d) → IsBlocked b d' = true.
Proof.
  rewrite !blocked_iff. intros [He [(e & Hin & H)|(e & Hin & H)]] Hd; (split; [done|]).
  - left. exists e. eauto using at_or_below_trans.
  - right. exists e. eauto using below_trans_r.
Qed.

(** The texts after a dot in "#.s" are [s] and the texts after a dot in [s]. *)
Lemma below_probe s e : below ("#." +:+ s) e → at_or_below s e.
Proof.
  intros [x E]. destruct x as [|a x]; [done|]. injection E as <- E.
  destruct x as [|c x]; [injection E as ->; by left|]. injection E as <- ->. right. by exists x.
Qed.

(** A name of well-formed labels does not end in a dot, so normalising keeps it. *)
Lemma host_no_dot h : Allowlist.host_ok h → ∀ t, h ≠ t +:+ ".".
Proof.
  intros Hh t ->. change "." with (String "." "") in Hh. unfold Allowlist.host_ok in Hh.
  rewrite Split_app_sep in Hh. destruct (Hh "") as ([Hl _] & _); [|simpl in Hl; lia].
  apply elem_of_app. right. by left.
Qed.

Lemma normalize_host h : Allowlist.host_ok h → ToLower h = h → normalize h = h.
Proof. intros Hh Hl. rewrite normalize_nodot; [done|]. by apply host_no_dot. Qed.

Lemma host_first h a : Allowlist.host_ok h → label_inner a = false → HasPrefix h (String a "") = false.
Proof.
  intros Hh Ha. apply not_true_iff_false. intros [t ->]%HasPrefix_spec.
  unfold Allowlist.host_ok, Split in Hh. cbn [split_by] in Hh.
  assert (Hn : Ascii.eqb "." a = false ∨ a = "."%char) by (destruct (Ascii.eqb_spec "." a); auto).
  destruct (split_by_cons (Ascii.eqb ".") t) as (x & xs & E).
  change (String a "" +:+ t) with (String a t) in Hh. cbn [split_by] in Hh.
  destruct Hn as [Hn| ->].
  - rewrite Hn, E in Hh. destruct (Hh (String a x) (list_elem_of_here _ _)) as (_ & Hc & _).
    change (label_inner a && all_chars label_inner x = true) in Hc. by rewrite Ha in Hc.
  - destruct (Hh "" (list_elem_of_here _ _)) as ([Hl _] & _). simpl in Hl. lia.
Qed.

(** The probe of an entry the loader installed. *)
Lemma Entries_probe a e :
  al_ok a → e ∈ Allowlist.Entries a →
  (∃ s, e = "*." +:+ s ∧ normalize (probe e) = "#." +:+ s ∧ (∀ n, entry_allows e n ↔ below (normalize n) s)) ∨
  (∃ s, probe e = s ∧ normalize s = s ∧
     ((∀ n, entry_allows e n ↔ normalize n = s) ∨ (∀ n, entry_allows e n ↔ at_or_below (normalize n) s))).
Proof.
  intros (Hx & Hd & Hw) He. apply elem_of_Entries in He as [He|[He|(x & -> & He)]].
  - apply Hd in He as [[Hh Hl] Hlow]. right. exists e. unfold probe, entry_allows.
    assert (E1 : HasPrefix e "*." = false).
    { apply not_true_iff_false. intros [t ->]%HasPrefix_spec. pose proof (host_first _ "*" Hh eq_refl) as F.
      change ("*." +:+ t) with ("*" +:+ ("." +:+ t)) in F. by rewrite HasPrefix_app in F. }
    unfold TrimPrefix. rewrite E1, (host_first e "=") by done. split_and!; [done|by apply normalize_host|by right].
  - apply Hw in He as (s & -> & [Hh Hl] & Hlow). left. exists s. unfold probe, entry_allows.
    rewrite HasPrefix_app. split_and!; [done| |done].
    change (normalize ("#" +:+ "." +:+ s) = "#." +:+ s). rewrite normalize_sub.
    + by rewrite Hlow.
    + intros ->. simpl in Hl. lia.
    + by apply host_no_dot.
  - apply Hx in He as [[Hh Hl] Hlow]. right. exists x. unfold probe, entry_allows.
    replace (HasPrefix ("=" +:+ x) "*.") with false by (by destruct x).
    rewrite TrimPrefix_app, HasPrefix_app. split_and!; [done|by apply normalize_host|by left].
Qed.

(** [Shadowed] reports exactly the allowlist entries that can never
    resolve: those for which the blocklist blocks every name they allow. *)
Theorem Shadowed_spec a b e :
  al_ok a → bl_ok b →
  e ∈ Shadowed (Some a) (Some b) ↔
  e ∈ Allowlist.Entries a ∧ ∀ n, entry_allows e n → IsBlocked b n = true.
Proof.
  intros Ha Hb. simpl. rewrite list_elem_of_In, filter_In, <-list_elem_of_In.
  split; intros [He H]; (split; [done|]).
  - destruct (Entries_probe a e Ha He) as [(s & -> & Hp & Hal)|(s & Hp & Hn & Hal)].
    + intros n Hbelow%Hal. rewrite blocked_iff, Hp in H. rewrite blocked_iff.
      destruct H as [Hen [(d & Hin & [E|Hd])|(d & Hin & Hd)]]; (split; [done|]).
      * exfalso. subst d. apply Hb in Hin as [Hh _]. destruct (Hh "#") as (_ & Hc & _); [|done].
        apply list_elem_of_here.
      * left. exists d. split; [done|]. right. by eapply below_trans_l; [|apply below_probe].
      * right. exists d. split; [done|]. by eapply below_trans_l; [|apply below_probe].
    + rewrite Hp in H. intros n Hnn. apply (IsBlocked_below b s n H). rewrite Hn.
      destruct Hal as [Hal|Hal]; apply Hal in Hnn; [by left|done].
  - destruct (Entries_probe a e Ha He) as [(s & -> & Hp & Hal)|(s & Hp & Hn & Hal)]; apply H.
    + apply Hal. rewrite Hp. by exists "#".
    + rewrite Hp. destruct Hal as [Hal|Hal]; apply Hal; rewrite Hn; [done|by left].
Qed.

(** ** Witnesses *)

Definition ex_block_open (path : string) : option GoBufio.Reader :=
  Some (GoBufio.mkReader ("pypi.org" +:+ GoBufio.nl +:+ "ads.example.com" +:+ GoBufio.nl) false).
Definition ex_block : Blocklist := snd (Blocklist.LoadFiles ex_block_open (Blocklist.New true) ["block"]).
Definition ex_policy : Policy := SetQTypes [TypeA; TypeAAAA; TypeCNAME] (New (Some Allowlist.ex_allow) (Some ex_block) true).
Definition ex_query (name : string) (t : Z) : Msg :=
  mkMsg (mkMsgHdr 7 false 0 false false true false false false 0) [mkQuestion name t ClassINET] [] []
        [mkRR (mkHeader "." TypeOPT 4096 0) (D_OPT (mkOPT 4096 true []))].
Definition ex_chain (target : string) : Msg :=
  mkMsg (replyHdr 7 RcodeSuccess) [mkQuestion "example.com." TypeA ClassINET]
        [mkRR (mkHeader "example.com." TypeCNAME ClassINET 300) (D_CNAME target)] [] [].
Definition ex_stats : Stats := Statistics.New 0.

Example ex_decisions :
  (λ q, let '(st, r) := Response (dl := toyLib) (Some ex_policy) q ex_stats in
        (option_map (λ m : Msg, mRcode m) r, cnt st DeniedQueries, cnt st BlockedQueries)) <$>
  [ex_query "www.example.com." TypeA; ex_query "www.example.com." TypeNS; ex_query "evil.org." TypeA;
   ex_query "x.Ads.example.com." TypeA; ex_query "x.pypi.org." TypeA]
  = [(None, 0, 0); (Some 5, 1, 0); (Some 5, 1, 0); (Some 3, 0, 1); (Some 3, 0, 1)].
Proof. vm_compute. done. Qed.

Lemma Response_decides_witness :
  match Response (dl := toyLib) (Some ex_policy) (ex_query "x.ads.example.com." TypeA) ex_stats with
  | (st', None) => False
  | (st', Some m) => mRcode m = RcodeNameError ∧ st' = count BlockedQueries ex_policy ex_stats
  end.
Proof.
  pose proof (Response_decides (dl := toyLib) ex_policy (ex_query "x.ads.example.com." TypeA)
    (mkQuestion "x.ads.example.com." TypeA ClassINET) [] ex_stats eq_refl) as H.
  replace (allow_passes _ _) with true in H by (vm_compute; reflexivity).
  replace (blocked _ _) with true in H by (vm_compute; reflexivity).
  destruct (Response _ _ _) as [st' [m|]]; [|by destruct H as (_ & _ & ?)].
  destruct H as (_ & _ & _ & _ & _ & _ & H2 & _ & H3). by split.
Defined.

Lemma Answer_no_leak_witness :
  let '(st', r) := Answer (dl := toyLib) (Some ex_policy) (ex_query "example.com." TypeA)
                     (Some (ex_chain "evil.org.")) ex_stats in
  ∃ m reason, r = Some m ∧ refusal (dl := toyLib) (ex_query "example.com." TypeA) reason m.
Proof.
  pose proof (Answer_no_leak (dl := toyLib) ex_policy Allowlist.ex_allow (ex_query "example.com." TypeA)
    (ex_chain "evil.org.") ex_stats eq_refl) as H.
  destruct (Answer _ _ _ _) as [st' r]. destruct H as [(H & _)|(_ & _ & H)]; [|done].
  exfalso. specialize (H _ (list_elem_of_here _ _)) as [H|(_ & _ & H)]; [by vm_compute in H|].
  specialize (H "evil.org." (or_introl eq_refl)).
  replace (Allowed _ _) with false in H by (vm_compute; reflexivity). discriminate H.
Defined.

Lemma ex_block_ok : bl_ok ex_block.
Proof. apply (LoadFiles_inv ex_block_open bl_ok); [intros; by apply parseFile_ok|apply empty_ok]. Qed.

Lemma ex_allow_ok : al_ok Allowlist.ex_allow.
Proof. exact (LoadFiles_ok _ _ _ _ ex_load). Qed.

Lemma Shadowed_spec_witness :
  Shadowed (Some Allowlist.ex_allow) (Some ex_block) = ["*.pypi.org"] ∧
  ∀ n, entry_allows "*.pypi.org" n → IsBlocked ex_block n = true.
Proof.
  split; [vm_compute; reflexivity|].
  apply (Shadowed_spec Allowlist.ex_allow ex_block "*.pypi.org" ex_allow_ok ex_block_ok).
  replace (Shadowed _ _) with ["*.pypi.org"] by (vm_compute; reflexivity). by left.
Defined.

Example ex_summary :
  ShadowSummary ["*.pypi.org"] = "1 allowlist entry fully shadowed by the blocklist (always NXDOMAIN): *.pypi.org" ∧
  ShadowSummary ["a.b"; "b.b"; "c.b"; "d.b"; "e.b"; "f.b"; "g.b"] =
    "7 allowlist entries fully shadowed by the blocklist (always NXDOMAIN): a.b, b.b, c.b, d.b, e.b, and 2 more".
Proof. split; vm_compute; done. Qed.
