(* ===== verification/Fallback.v ===== *)
(** * The upstream chain (internal/resolver/fallback.go)

    Health tracking and failover over an ordered chain of upstreams.  What an
    upstream answers is an argument ([out]): a response or nil, and an error or
    nil.  Other goroutines may update the shared health states between the
    critical sections of a [Resolve]; what they do is the argument [env], so a
    theorem for every [env] holds for every interleaving.  [Resolve] also
    returns the trace of the upstreams it contacted. *)

From S2P Require Import Prelude GoStrings DnsMsg Statistics.
From Stdlib Require Import Ascii String.
Open Scope string_scope.
Open Scope list_scope.
Open Scope Z_scope.

(** ** Upstream states *)

Inductive State := StateUP | StateSLOW | StateDOWN.
#[global] Instance State_eq_dec : EqDecision State.
Proof. solve_decision. Defined.

Record UpstreamState := mkUpstream {
  uName : string; uState : State; LastError : string; ConsecutiveErrors : Z; LastHealthCheck : Z }.

Record FallbackResolver := mkFallback {
  upstreams : list UpstreamState;
  hasStats : bool;
  f_startTime : Z; phase1DurationS : Z;
  healthCheckIntervalS : Z; phase2FailureThreshold : Z;
  (** [closeOnce] has run; [stopChan] is closed; the ticker exists, is
      stopped; how many times each upstream's resolver was closed. *)
  closeDone : bool; stopClosed : bool; hasTicker : bool; tickerStopped : bool; resolverCloses : Z }.

Definition NewFallbackResolver (now : Z) (ups : list UpstreamState) (stats : bool)
    (phase1 threshold interval : Z) : FallbackResolver :=
  mkFallback ups stats now phase1 interval threshold false false false false 0.

Definition set_upstreams (ups : list UpstreamState) (f : FallbackResolver) : FallbackResolver :=
  mkFallback ups (hasStats f) (f_startTime f) (phase1DurationS f) (healthCheckIntervalS f)
    (phase2FailureThreshold f) (closeDone f) (stopClosed f) (hasTicker f) (tickerStopped f) (resolverCloses f).

(** [time.NewTicker] panics on a period that is not positive ([None]). *)
Definition Start (f : FallbackResolver) : option FallbackResolver :=
  if seconds (healthCheckIntervalS f) <=? 0 then None else
  Some (mkFallback (upstreams f) (hasStats f) (f_startTime f) (phase1DurationS f) (healthCheckIntervalS f)
    (phase2FailureThreshold f) (closeDone f) (stopClosed f) true (tickerStopped f) (resolverCloses f)).

Inductive resolve_error := ErrAllUpstreamsFailed | errResponseMismatch.
Definition mismatch_text : string := "upstream response question does not match query".

(** ** Health transitions *)

Definition getCurrentPhase (now : Z) (f : FallbackResolver) : Z :=
  let elapsed := time_sub now (f_startTime f) in
  let phase1Duration := seconds (phase1DurationS f) in
  if elapsed <? phase1Duration then 1 else 2.

Definition recordSuccess (u : UpstreamState) : UpstreamState :=
  mkUpstream (uName u) StateUP "" 0 (LastHealthCheck u).

Definition recordError (threshold : Z) (err : option string) (phase : Z) (u : UpstreamState) : UpstreamState :=
  let errors := wrap64 (ConsecutiveErrors u + 1) in
  let last := match err with Some e => e | None => LastError u end in
  let state :=
    if phase =? 1 then StateDOWN
    else if threshold <=? errors then StateDOWN
    else StateSLOW in
  mkUpstream (uName u) state last errors (LastHealthCheck u).

(** ** Resolve *)

(** What a call of an upstream's resolver returns. *)
Definition outcome : Type := option Msg * option string.

Section Ops.
Context {dl : DnsLib}.

Definition responseMatchesQuery (query resp : Msg) : bool :=
  match mQuestion query, mQuestion resp with
  | [q], [r] =>
      (qType q =? qType r) && (qClass q =? qClass r) &&
      String.eqb (CanonicalName (qName q)) (CanonicalName (qName r))
  | _, _ => false
  end.

Record resolved := mkResolved {
  r_result : result Msg resolve_error;
  r_upstreams : list UpstreamState;
  r_stats : Stats;
  r_calls : list nat }.

Section Loop.
Context (f : FallbackResolver) (out : nat → outcome).
(** What other goroutines do to the states before the loop's [k]-th critical section. *)
Context (env : nat → list UpstreamState → list UpstreamState).
Context (msg : Msg) (phase : Z) (n : nat).

(** The loop over the chain: [todo] upstreams are left, the next one is [i]. *)
Fixpoint resolve_loop (todo i : nat) (triedPrimary : bool) (ups : list UpstreamState) (st : Stats)
    (calls : list nat) : resolved :=
  match todo with
  | O => mkResolved (Err ErrAllUpstreamsFailed) ups st calls
  | S todo' =>
      let ups := env (2 * i)%nat ups in
      match ups !! i with
      | None => resolve_loop todo' (S i) triedPrimary ups st calls
      | Some u =>
          if bool_decide (uState u = StateDOWN) && (1 <? n)%nat
          then resolve_loop todo' (S i) triedPrimary ups st calls
          else
            let calls := calls ++ [i] in
            let '(resp, err) := out i in
            let ups := env (2 * i + 1)%nat ups in
            let failed e :=
              resolve_loop todo' (S i) true
                (alter (recordError (phase2FailureThreshold f) e phase) i ups) st calls in
            match err, resp with
            | None, Some r =>
                if negb (responseMatchesQuery msg r) then failed (Some mismatch_text)
                else mkResolved (Ok r) (alter recordSuccess i ups)
                       (if (triedPrimary || (0 <? i)%nat) && hasStats f then inc UpstreamFallbacks st else st)
                       calls
            | _, _ => failed err
            end
      end
  end.

End Loop.

Definition Resolve (now : Z) (f : FallbackResolver) (out : nat → outcome)
    (env : nat → list UpstreamState → list UpstreamState) (msg : Msg) (st : Stats) : resolved :=
  if negb (List.length (mQuestion msg) =? 1)%nat
  then mkResolved (Err errResponseMismatch) (upstreams f) st []
  else
    let n := List.length (upstreams f) in
    resolve_loop f out env msg (getCurrentPhase now f) n n 0 false (upstreams f) st [].

(** ** Health checks and reporting *)

Definition is_down (u : UpstreamState) : bool := bool_decide (uState u = StateDOWN).

(** The probe sent to a DOWN upstream. *)
Definition testMsg : Msg :=
  mkMsg (mkMsgHdr 0 false 0 false false true false false false 0)
        [mkQuestion "example.com." TypeA ClassINET] [] [] [].

(** The positions of the upstreams that are DOWN when the check starts. *)
Definition downUpstreams (ups : list UpstreamState) : list nat :=
  List.filter (λ i, match ups !! i with Some u => is_down u | None => false end) (seq 0 (List.length ups)).

(** Probe one of them; [now] is read after a failed probe. *)
Definition probe_upstream (f : FallbackResolver) (now : nat → Z) (out : nat → outcome)
    (ups : list UpstreamState) (i : nat) : list UpstreamState :=
  match out i with
  | (Some _, None) => alter recordSuccess i ups
  | (_, err) => alter (recordError (phase2FailureThreshold f) err (getCurrentPhase (now i) f)) i ups
  end.

Definition performHealthChecks (now : nat → Z) (out : nat → outcome) (f : FallbackResolver) : FallbackResolver :=
  set_upstreams (fold_left (probe_upstream f now out) (downUpstreams (upstreams f)) (upstreams f)) f.

End Ops.

Definition UpstreamNames (f : FallbackResolver) : list string := uName <$> upstreams f.

Definition state_string (s : State) : string :=
  match s with StateUP => "UP" | StateSLOW => "SLOW" | StateDOWN => "DOWN" end.

Record status := mkStatus { sState : string; sErrors : Z; sLastError : string; sLastHealthCheck : Z }.

(** A later upstream of the same name overwrites an earlier one. *)
Definition GetStatus (f : FallbackResolver) : gmap string status :=
  fold_left (λ m u, <[uName u := mkStatus (state_string (uState u)) (ConsecutiveErrors u) (LastError u)
                                   (LastHealthCheck u)]> m) (upstreams f) ∅.

(** [None] would be the panic of closing a closed channel. *)
Definition Close (f : FallbackResolver) : option FallbackResolver :=
  if closeDone f then Some f
  else if stopClosed f then None
  else Some (mkFallback (upstreams f) (hasStats f) (f_startTime f) (phase1DurationS f) (healthCheckIntervalS f)
    (phase2FailureThreshold f) true true (hasTicker f) (hasTicker f) (resolverCloses f + 1)).

(** ** Soundness under any interleaving *)

Section Props.
Context {dl : DnsLib}.

Lemma resolve_loop_sound f out env msg phase n todo i tried ups st calls r ups' st' calls' :
  resolve_loop f out env msg phase n todo i tried ups st calls = mkResolved (Ok r) ups' st' calls' →
  responseMatchesQuery msg r = true ∧ ∃ j, j ∈ calls' ∧ out j = (Some r, None).
Proof.
  revert i tried ups st calls. induction todo as [|todo IH]; intros i tried ups st calls; simpl; [done|].
  destruct (env _ ups !! i) as [u|]; [|apply IH]. destruct (_ && _)%bool; [apply IH|].
  destruct (out i) as [[m|] [e|]] eqn:Eo; try apply IH.
  destruct (responseMatchesQuery msg m) eqn:Em; simpl; [|apply IH].
  intros [= -> _ _ <-]. split; [done|]. exists i. split; [|done]. apply elem_of_app. right. by left.
Qed.

(** Whatever the other goroutines do meanwhile, an answer that [Resolve]
    accepts came without error from an upstream it contacted and answers
    exactly the question asked: both sides have one question, of equal type
    and class and of equal canonical name. *)
Theorem Resolve_sound now f out env msg st r ups' st' calls :
  Resolve now f out env msg st = mkResolved (Ok r) ups' st' calls →
  ∃ q q', mQuestion msg = [q] ∧ mQuestion r = [q'] ∧ qType q = qType q' ∧ qClass q = qClass q' ∧
    CanonicalName (qName q) = CanonicalName (qName q') ∧
    ∃ j, j ∈ calls ∧ out j = (Some r, None).
Proof.
  unfold Resolve. destruct (negb _); [done|]. intros [Hm Hj]%resolve_loop_sound.
  unfold responseMatchesQuery in Hm.
  destruct (mQuestion msg) as [|q []]; try done. destruct (mQuestion r) as [|q' []]; try done.
  bool_prop. exists q, q'. by split_and!.
Qed.

(** A message that does not carry exactly one question is refused before
    any upstream is contacted, and leaves every health state and counter as it
    was: a client cannot drive the chain DOWN with degenerate queries. *)
Theorem Resolve_malformed now f out env msg st :
  List.length (mQuestion msg) ≠ 1%nat →
  Resolve now f out env msg st = mkResolved (Err errResponseMismatch) (upstreams f) st [].
Proof. intros H. unfold Resolve. by rewrite (proj2 (Nat.eqb_neq _ _) H). Qed.

(** ** The failover order *)

Section Order.
Context (f : FallbackResolver) (out : nat → outcome) (msg : Msg) (phase : Z).
Let n := List.length (upstreams f).

(** No other goroutine interferes. *)
Definition quiet : nat → list UpstreamState → list UpstreamState := λ _ ups, ups.

(** Upstream [i] is contacted if it is reached. *)
Definition eligible (i : nat) : bool :=
  match upstreams f !! i with
  | Some u => negb (is_down u && (1 <? n)%nat)
  | None => false
  end.

Definition accepts (i : nat) : bool :=
  match out i with (Some r, None) => responseMatchesQuery msg r | _ => false end.

(** The error recorded when upstream [i] is contacted and not accepted. *)
Definition error_of (i : nat) : option string :=
  match out i with (Some _, None) => Some mismatch_text | (_, e) => e end.

(** The state of upstream [j] after the upstreams [failed] failed and [ok] answered. *)
Definition after (failed : list nat) (ok : option nat) (j : nat) (u : UpstreamState) : UpstreamState :=
  if bool_decide (j ∈ failed) then recordError (phase2FailureThreshold f) (error_of j) phase u
  else if bool_decide (ok = Some j) then recordSuccess u else u.

(** What the run from position [i] does, [el] being the eligible positions left. *)
Definition run_spec (el : list nat) (ups : list UpstreamState) (st : Stats) (calls : list nat) (res : resolved) : Prop :=
  ∃ failed, (∀ j, j ∈ failed → accepts j = false) ∧
  ((∃ k r rest, el = failed ++ k :: rest ∧ accepts k = true ∧ out k = (Some r, None) ∧
      r_result res = Ok r ∧ r_calls res = calls ++ failed ++ [k] ∧
      r_stats res = (if (0 <? k)%nat && hasStats f then inc UpstreamFallbacks st else st) ∧
      ∀ j, r_upstreams res !! j = after failed (Some k) j <$> ups !! j) ∨
   (el = failed ∧ r_result res = Err ErrAllUpstreamsFailed ∧ r_calls res = calls ++ failed ∧
      r_stats res = st ∧ ∀ j, r_upstreams res !! j = after failed None j <$> ups !! j)).

Lemma after_alter failed ok i (ups : list UpstreamState) j :
  i ∉ failed → ok ≠ Some i →
  after failed ok j <$> alter (recordError (phase2FailureThreshold f) (error_of i) phase) i ups !! j =
  after (i :: failed) ok j <$> ups !! j.
Proof.
  intros Hi Hok. destruct (decide (i = j)) as [<-|Hne].
  - rewrite list_lookup_alter_eq. destruct (ups !! i) as [u|]; simpl; [|done]. f_equal. unfold after.
    rewrite bool_decide_false by done. rewrite bool_decide_false by done.
    rewrite bool_decide_true by (by left). done.
  - rewrite list_lookup_alter_ne by done. destruct (ups !! j) as [u|]; simpl; [|done]. f_equal. unfold after.
    assert (E : bool_decide (j ∈ i :: failed) = bool_decide (j ∈ failed)).
    { apply bool_decide_ext. rewrite elem_of_cons. naive_solver. }
    by rewrite E.
Qed.

Lemma run_spec_fail i el ups st calls res :
  i ∉ el → accepts i = false →
  run_spec el (alter (recordError (phase2FailureThreshold f) (error_of i) phase) i ups) st (calls ++ [i]) res →
  run_spec (i :: el) ups st calls res.
Proof.
  intros Hi Ha (failed & Hf & [(k & r & rest & -> & Hk & Ho & Hr & Hc & Hs & Hu)|(-> & Hr & Hc & Hs & Hu)]);
    exists (i :: failed); (split; [intros j [->|?]%elem_of_cons; auto|]); [left|right].
  - exists k, r, rest. split_and!; try done; [by rewrite Hc, <-app_assoc|].
    intros j. rewrite Hu. apply after_alter; [set_solver|]. intros [= ->]. set_solver.
  - split_and!; try done; [by rewrite Hc, <-app_assoc|]. intros j. rewrite Hu. by apply after_alter.
Qed.

Lemma resolve_loop_spec todo i tried ups st calls :
  (i + todo = n)%nat → (tried = true → (0 < i)%nat) → (∀ j, (i ≤ j)%nat → ups !! j = upstreams f !! j) →
  run_spec (List.filter eligible (seq i todo)) ups st calls
    (resolve_loop f out quiet msg phase n todo i tried ups st calls).
Proof.
  revert i tried ups st calls. induction todo as [|todo IH]; intros i tried ups st calls Hn Ht Hu; simpl.
  { exists []. split; [intros j Hj; by apply elem_of_nil in Hj|]. right. split_and!; try done; simpl.
    - by rewrite app_nil_r.
    - intros j. by destruct (ups !! j). }
  unfold quiet at 1. rewrite Hu by lia. unfold eligible at 1.
  destruct (upstreams f !! i) as [u|] eqn:Eu; [|apply IH; [lia|intros Htr%Ht; lia|intros; apply Hu; lia]].
  fold (is_down u). destruct (is_down u && (1 <? n)%nat) eqn:Ed; simpl;
    [apply IH; [lia|intros Htr%Ht; lia|intros; apply Hu; lia]|].
  assert (Hne : i ∉ List.filter eligible (seq (S i) todo)).
  { rewrite list_elem_of_In, filter_In, <-list_elem_of_In, elem_of_seq. lia. }
  assert (Hfail : ∀ res, accepts i = false → res = resolve_loop f out quiet msg phase n todo (S i) true
      (alter (recordError (phase2FailureThreshold f) (error_of i) phase) i ups) st (calls ++ [i]) →
      run_spec (i :: List.filter eligible (seq (S i) todo)) ups st calls res).
  { intros res Ha ->. apply run_spec_fail; [done..|]. apply IH; [lia|lia|].
    intros j Hj. rewrite list_lookup_alter_ne by lia. apply Hu. lia. }
  unfold quiet at 1 2. unfold accepts, error_of in Hfail.
  destruct (out i) as [[r|] [e|]] eqn:Eo; try (by apply Hfail).
  destruct (responseMatchesQuery msg r) eqn:Em; simpl; [|by apply Hfail].
  exists []. split; [intros j Hj; by apply elem_of_nil in Hj|]. left. exists i, r, (List.filter eligible (seq (S i) todo)).
  split_and!; simpl; try done.
  - unfold accepts. by rewrite Eo.
  - destruct tried; [|done]. simpl. by rewrite (proj2 (Nat.ltb_lt 0 i) (Ht eq_refl)).
  - intros j. unfold after. simpl. destruct (decide (i = j)) as [<-|Hij].
    + rewrite list_lookup_alter_eq, (bool_decide_true (Some i = Some i)) by done. done.
    + rewrite list_lookup_alter_ne, (bool_decide_false (Some i = Some j)) by congruence.
      unfold quiet. by destruct (ups !! j).
Qed.

End Order.


(** With more than one upstream and all of them DOWN, [Resolve] contacts
    nobody and fails, whatever the upstreams would have answered: the last one
    left is not tried. *)
Theorem Resolve_all_down now f out msg st :
  List.length (mQuestion msg) = 1%nat → (1 < List.length (upstreams f))%nat →
  (∀ u, u ∈ upstreams f → uState u = StateDOWN) →
  Resolve now f out quiet msg st =
  mkResolved (Err ErrAllUpstreamsFailed) (upstreams f) st [].
Proof.
  intros Hq Hn Hd. unfold Resolve. rewrite Hq. simpl.
  assert (H : ∀ todo i, resolve_loop f out quiet msg (getCurrentPhase now f) (List.length (upstreams f))
    todo i false (upstreams f) st [] = mkResolved (Err ErrAllUpstreamsFailed) (upstreams f) st []); [|apply H].
  induction todo as [|todo IH]; intros i; simpl; [done|]. unfold quiet at 1.
  destruct (upstreams f !! i) as [u|] eqn:E; [|apply IH].
  rewrite bool_decide_true by (eapply Hd, list_elem_of_lookup_2; done).
  rewrite (proj2 (Nat.ltb_lt 1 _) Hn). apply IH.
Qed.

End Props.

(** ** The health state machine *)

(** The updates of one upstream: every write to its health state, from any
    goroutine, is one of these, under the lock. *)
Inductive health_step (threshold : Z) : UpstreamState → UpstreamState → Prop :=
| hs_success u : health_step threshold u (recordSuccess u)
| hs_error err phase u : phase = 1 ∨ phase = 2 → health_step threshold u (recordError threshold err phase u).

(** Consistency of the state with the error counter. *)
Definition health_ok (threshold : Z) (u : UpstreamState) : Prop :=
  0 ≤ ConsecutiveErrors u ∧
  (uState u = StateUP ↔ ConsecutiveErrors u = 0) ∧
  (uState u = StateSLOW → ConsecutiveErrors u < threshold).

Lemma health_step_ok threshold u v :
  health_step threshold u v → ConsecutiveErrors u < max_int64 → health_ok threshold u →
  health_ok threshold v ∧ ConsecutiveErrors v ≤ ConsecutiveErrors u + 1 ∧
  uName v = uName u ∧ LastHealthCheck v = LastHealthCheck u.
Proof.
  intros Hs Hb (H0 & Hup & Hslow). destruct Hs as [u|err phase u Hp]; unfold health_ok; simpl.
  - split_and!; try done; lia.
  - rewrite wrap64_id by (unfold in_int64, min_int64, max_int64 in *; lia). split_and!; try done; try lia.
    + split; [|lia]. destruct (phase =? 1); [done|]. by destruct (threshold <=? _).
    + destruct (phase =? 1); [done|]. destruct (threshold <=? _) eqn:E; [done|]. bool_prop. lia.
Qed.

(** Along any sequence of recorded successes and errors, from any
    goroutines and in either phase, an upstream is UP exactly when its error
    counter is zero, and a SLOW one has fewer consecutive errors than the
    threshold.  None of these updates ever writes [LastHealthCheck]. *)
Theorem health_invariant threshold k u u' :
  nsteps (health_step threshold) k u u' → ConsecutiveErrors u + Z.of_nat k ≤ max_int64 →
  health_ok threshold u →
  health_ok threshold u' ∧ ConsecutiveErrors u' ≤ ConsecutiveErrors u + Z.of_nat k ∧
  LastHealthCheck u' = LastHealthCheck u.
Proof.
  induction 1 as [u|k u v w Hs Hrest IH]; intros Hb Hok; [split_and!; done || lia|].
  destruct (health_step_ok threshold u v Hs) as (Hv1 & Hv2 & _ & Hv4); [lia|done|].
  destruct IH as (? & ? & ?); [lia|done|]. split_and!; [done|lia|congruence].
Qed.

(** [k] errors in a row in the runtime phase. *)
Fixpoint errors_in_row (threshold : Z) (errs : list (option string)) (u : UpstreamState) : UpstreamState :=
  match errs with
  | [] => u
  | e :: errs' => errors_in_row threshold errs' (recordError threshold e 2 u)
  end.

Lemma errors_in_row_spec threshold errs u :
  errs ≠ [] → 0 ≤ ConsecutiveErrors u → ConsecutiveErrors u + Z.of_nat (List.length errs) ≤ max_int64 →
  let u' := errors_in_row threshold errs u in
  let c := ConsecutiveErrors u + Z.of_nat (List.length errs) in
  ConsecutiveErrors u' = c ∧ uState u' = if threshold <=? c then StateDOWN else StateSLOW.
Proof.
  revert u. induction errs as [|e errs IH]; intros u Hne H0 Hb; [done|]. cbn [errors_in_row].
  assert (Hc : ConsecutiveErrors (recordError threshold e 2 u) = ConsecutiveErrors u + 1).
  { simpl. rewrite wrap64_id; [done|]. simpl in Hb. unfold in_int64, min_int64, max_int64 in *. lia. }
  destruct errs as [|e' errs].
  - cbn [errors_in_row]. cbn zeta. rewrite Hc. split; [simpl; lia|]. simpl uState. simpl in Hc. by rewrite Hc.
  - specialize (IH (recordError threshold e 2 u)). rewrite Hc in IH.
    replace (ConsecutiveErrors u + Z.of_nat (List.length (e :: e' :: errs))) with
      (ConsecutiveErrors u + 1 + Z.of_nat (List.length (e' :: errs))) in * by (simpl; lia).
    apply IH; [done|lia|lia].
Qed.

(** In the runtime phase an upstream that was UP is SLOW while it has
    failed fewer times in a row than the threshold, and DOWN from then on; a
    single success brings it back to UP with a clean record.  In the startup
    phase one error is enough to mark it DOWN. *)
Theorem health_phases threshold errs e u :
  ConsecutiveErrors u = 0 → errs ≠ [] → Z.of_nat (List.length errs) ≤ max_int64 →
  uState (errors_in_row threshold errs u) =
    (if threshold <=? Z.of_nat (List.length errs) then StateDOWN else StateSLOW) ∧
  uState (recordError threshold e 1 u) = StateDOWN ∧
  recordSuccess (errors_in_row threshold errs u) = mkUpstream (uName u) StateUP "" 0 (LastHealthCheck u).
Proof.
  intros H0 Hne Hb. split_and!; [|done|].
  - apply (errors_in_row_spec threshold errs u) in Hne as [_ ->]; [by rewrite H0|lia|lia].
  - unfold recordSuccess. clear. revert u. induction errs as [|x errs IH]; intros u; [done|].
    simpl. by rewrite IH.
Qed.

(** ** Health checks *)

(** The effect of one probe on the upstream it is sent to. *)
Definition probed (f : FallbackResolver) (now : nat → Z) (out : nat → outcome) (i : nat) (u : UpstreamState) : UpstreamState :=
  match out i with
  | (Some _, None) => recordSuccess u
  | (_, err) => recordError (phase2FailureThreshold f) err (getCurrentPhase (now i) f) u
  end.

Lemma probe_upstream_alter f now out ups i : probe_upstream f now out ups i = alter (probed f now out i) i ups.
Proof. unfold probe_upstream, probed. by destruct (out i) as [[?|] [?|]]. Qed.

Lemma probe_fold f now out l ups j :
  NoDup l →
  fold_left (probe_upstream f now out) l ups !! j =
  (if bool_decide (j ∈ l) then probed f now out j else id) <$> ups !! j.
Proof.
  intros Hnd. revert ups. induction Hnd as [|i l Hi Hnd IH]; intros ups; cbn [fold_left].
  - rewrite bool_decide_false by apply not_elem_of_nil. by destruct (ups !! j).
  - rewrite IH, probe_upstream_alter. destruct (decide (i = j)) as [<-|Hne].
    + rewrite list_lookup_alter_eq, bool_decide_false, bool_decide_true by (done || by left).
      by destruct (ups !! i).
    + rewrite list_lookup_alter_ne by done. f_equal.
      rewrite (bool_decide_ext (j ∈ i :: l) (j ∈ l)); [done|]. rewrite elem_of_cons. naive_solver.
Qed.

Lemma elem_of_downUpstreams ups j : j ∈ downUpstreams ups ↔ ∃ u, ups !! j = Some u ∧ uState u = StateDOWN.
Proof.
  unfold downUpstreams. rewrite list_elem_of_In, filter_In, <-list_elem_of_In, elem_of_seq. unfold is_down. split.
  - intros [_ H]. destruct (ups !! j) as [u|]; [|done]. bool_prop. eauto.
  - intros (u & Hj & Hd). apply lookup_lt_Some in Hj as Hl. rewrite Hj, bool_decide_true by done. split; [lia|done].
Qed.

Lemma health_check_lookup f now out j :
  upstreams (performHealthChecks now out f) !! j =
  (λ u, if is_down u then probed f now out j u else u) <$> upstreams f !! j.
Proof.
  unfold performHealthChecks, set_upstreams. cbn [upstreams]. rewrite probe_fold.
  - pose proof (elem_of_downUpstreams (upstreams f) j) as Hd.
    destruct (upstreams f !! j) as [u|] eqn:E; [|done]. unfold is_down.
    case_bool_decide as Hin; cbn [fmap option_fmap option_map]; case_bool_decide as Hst; naive_solver.
  - apply NoDup_ListNoDup, List.NoDup_filter, NoDup_ListNoDup, NoDup_seq.
Qed.

(** A health check leaves the upstreams that are not DOWN untouched, and
    sends each DOWN one exactly one probe: any reply without an error brings it
    back UP, anything else is charged as one more error. *)
Theorem performHealthChecks_spec f now out j u :
  upstreams f !! j = Some u →
  upstreams (performHealthChecks now out f) !! j = Some
    (if is_down u
     then match out j with
          | (Some _, None) => recordSuccess u
          | (_, err) => recordError (phase2FailureThreshold f) err (getCurrentPhase (now j) f) u
          end
     else u).
Proof. intros Hj. by rewrite health_check_lookup, Hj. Qed.

(** An upstream that went DOWN during startup, with fewer consecutive errors
    than the runtime threshold, is promoted to SLOW by a health check whose
    probe fails in the runtime phase: the failure makes it eligible again. *)
Theorem failed_probe_promotes f now out j u e :
  upstreams f !! j = Some u → uState u = StateDOWN → 0 ≤ ConsecutiveErrors u →
  ConsecutiveErrors u + 1 < phase2FailureThreshold f ≤ max_int64 →
  getCurrentPhase (now j) f = 2 → out j = (None, Some e) →
  ∃ u', upstreams (performHealthChecks now out f) !! j = Some u' ∧ uState u' = StateSLOW ∧
    eligible (performHealthChecks now out f) j = true.
Proof.
  intros Hj Hd H0 Ht Hp Ho. pose proof (health_check_lookup f now out j) as Hl. rewrite Hj in Hl. simpl in Hl.
  unfold is_down in Hl. rewrite bool_decide_true in Hl by done. unfold probed in Hl. rewrite Ho, Hp in Hl.
  eexists. split; [exact Hl|].
  assert (Hs : uState (recordError (phase2FailureThreshold f) (Some e) 2 u) = StateSLOW).
  { simpl. rewrite wrap64_id by (unfold in_int64, min_int64, max_int64 in *; lia). cases_lia. }
  split; [done|]. unfold eligible. simpl in Hl |- *. rewrite Hl. unfold is_down. rewrite Hs. done.
Qed.

(** [Close] never closes the stop channel twice, however often it is called,
    and closes each upstream's connections exactly once. *)
Theorem Close_once f k :
  closeDone f = false → stopClosed f = false → resolverCloses f = 0 → (0 < k)%nat →
  ∃ f', Nat.iter k (λ o, o ≫= Close) (Some f) = Some f' ∧ stopClosed f' = true ∧
    resolverCloses f' = 1 ∧ tickerStopped f' = hasTicker f.
Proof.
  intros Hc Hs Hr Hk. destruct k as [|k]; [lia|]. clear Hk.
  assert (H : ∃ f', Nat.iter (S k) (λ o, o ≫= Close) (Some f) = Some f' ∧ closeDone f' = true ∧
    stopClosed f' = true ∧ resolverCloses f' = 1 ∧ tickerStopped f' = hasTicker f); [|naive_solver].
  induction k as [|k (f' & IH & Hd & ?)].
  - simpl. unfold Close. rewrite Hc, Hs. eexists. split; [done|]. simpl. by rewrite Hr.
  - exists f'. split_and!; try naive_solver. rewrite Nat.iter_succ, IH. simpl. unfold Close. by rewrite Hd.
Qed.

(** ** Witnesses *)

Definition ex_up (name : string) (s : State) (errors : Z) : UpstreamState := mkUpstream name s "" errors 0.
Definition ex_chain3 : FallbackResolver :=
  NewFallbackResolver 0 [ex_up "doq" StateUP 0; ex_up "dot" StateDOWN 1; ex_up "doh" StateUP 0] true 300 3 30.
Definition ex_answer : Msg :=
  mkMsg (replyHdr 0 RcodeSuccess) [mkQuestion "Example.COM." TypeA ClassINET] [] [] [].
Definition ex_out (i : nat) : outcome :=
  match i with O => (None, Some "timeout") | 1%nat => (None, Some "refused") | _ => (Some ex_answer, None) end.
Definition ex_fstats : Stats := Statistics.New 0.

Example ex_resolve :
  let res := Resolve (dl := toyLib) 0 ex_chain3 ex_out quiet testMsg ex_fstats in
  (r_result res, r_calls res, cnt (r_stats res) UpstreamFallbacks, uState <$> r_upstreams res)
  = (Ok ex_answer, [0; 2]%nat, 1, [StateDOWN; StateDOWN; StateUP]).
Proof. vm_compute. done. Qed.

Lemma Resolve_sound_witness :
  ∃ q q', mQuestion testMsg = [q] ∧ mQuestion ex_answer = [q'] ∧ qType q = qType q' ∧ qClass q = qClass q' ∧
    CanonicalName (DnsLib := toyLib) (qName q) = CanonicalName (DnsLib := toyLib) (qName q') ∧
    ∃ j, j ∈ [0; 2]%nat ∧ ex_out j = (Some ex_answer, None).
Proof.
  refine (Resolve_sound (dl := toyLib) 0 ex_chain3 ex_out quiet testMsg ex_fstats ex_answer _ _ [0; 2]%nat _).
  vm_compute. reflexivity.
Defined.

Lemma Resolve_malformed_witness :
  Resolve (dl := toyLib) 0 ex_chain3 ex_out quiet (set_Extra [] (mkMsg testMsg [] [] [] [])) ex_fstats =
  mkResolved (Err errResponseMismatch) (upstreams ex_chain3) ex_fstats [].
Proof. apply (Resolve_malformed (dl := toyLib)). simpl. lia. Defined.


Definition ex_all_down : FallbackResolver :=
  NewFallbackResolver 0 [ex_up "doq" StateDOWN 1; ex_up "dot" StateDOWN 1] true 300 3 30.

Lemma Resolve_all_down_witness :
  Resolve (dl := toyLib) 0 ex_all_down (λ _, (Some ex_answer, None)) quiet testMsg ex_fstats =
  mkResolved (Err ErrAllUpstreamsFailed) (upstreams ex_all_down) ex_fstats [].
Proof.
  apply (Resolve_all_down (dl := toyLib)); [reflexivity|simpl; lia|].
  intros u Hu. simpl in Hu. repeat (apply elem_of_cons in Hu as [->|Hu]; [reflexivity|]).
  by apply elem_of_nil in Hu.
Defined.

Lemma health_invariant_witness :
  health_ok 3 (recordError 3 None 2 (recordError 3 (Some "timeout") 1 (ex_up "doq" StateUP 0))).
Proof.
  refine (proj1 (health_invariant 3 2 (ex_up "doq" StateUP 0) _ _ _ _)).
  - eapply nsteps_l; [apply (hs_error 3 (Some "timeout") 1); by left|].
    eapply nsteps_l; [apply (hs_error 3 None 2); by right|]. constructor.
  - vm_compute. discriminate.
  - unfold health_ok; simpl. split_and!; done || lia.
Defined.

Lemma health_phases_witness :
  uState (errors_in_row 3 [None; Some "timeout"] (ex_up "doq" StateUP 0)) = StateSLOW ∧
  uState (errors_in_row 3 [None; None; None] (ex_up "doq" StateUP 0)) = StateDOWN.
Proof.
  split; [apply (health_phases 3 [None; Some "timeout"] None (ex_up "doq" StateUP 0))|
          apply (health_phases 3 [None; None; None] None (ex_up "doq" StateUP 0))];
    (reflexivity || discriminate || (vm_compute; discriminate)).
Defined.

Lemma performHealthChecks_spec_witness :
  upstreams (performHealthChecks (λ _, 0) (λ _, (Some ex_answer, None)) ex_chain3) !! 1%nat =
  Some (ex_up "dot" StateUP 0).
Proof.
  rewrite (performHealthChecks_spec ex_chain3 (λ _, 0) (λ _, (Some ex_answer, None)) 1 (ex_up "dot" StateDOWN 1) eq_refl).
  reflexivity.
Defined.

Lemma failed_probe_promotes_witness :
  ∃ u', upstreams (performHealthChecks (λ _, seconds 301) ex_out ex_chain3) !! 1%nat = Some u' ∧
    uState u' = StateSLOW ∧ eligible (performHealthChecks (λ _, seconds 301) ex_out ex_chain3) 1 = true.
Proof.
  apply (failed_probe_promotes ex_chain3 (λ _, seconds 301) ex_out 1 (ex_up "dot" StateDOWN 1) "refused");
    try reflexivity; vm_compute; try split; try discriminate; reflexivity.
Defined.

Definition ex_started : FallbackResolver := default ex_chain3 (Start ex_chain3).

Lemma Close_once_witness :
  Start ex_chain3 = Some ex_started ∧
  ∃ f', Nat.iter 2 (λ o, o ≫= Close) (Some ex_started) = Some f' ∧ stopClosed f' = true ∧
    resolverCloses f' = 1 ∧ tickerStopped f' = hasTicker ex_started.
Proof. split; [reflexivity|]. apply (Close_once ex_started 2); (reflexivity || lia). Defined.

(** A period of zero or less, or one so long that it overflows, ends the process. *)
Example Start_panics :
  (λ i, bool_decide (is_Some (Start (NewFallbackResolver 0 [] true 300 3 i)))) <$> [30; 0; -1; 9223372037]
  = [true; false; false; false].
Proof. vm_compute. done. Qed.
