(* ===== verification/Edns.v ===== *)
(** * EDNS0 normalisation and framing (internal/server/server.go)

    The helpers of the Mode 1 listeners that shape a message: which OPT record
    and which DNSSEC records leave, the UDP size limit, and the length prefix of
    the stream transports.  The Go code edits a message in place; here each
    helper returns the edited message. *)

From S2P Require Import Prelude GoStrings DnsMsg.
From Stdlib Require Import Ascii String.
Open Scope string_scope.
Open Scope list_scope.
Open Scope Z_scope.

Definition dnsUDPBufSize : Z := 1232.

(** Types that [filterDNSSEC] drops. *)
Definition is_dnssec (rr : RR) : bool :=
  (rrtype rr =? TypeRRSIG) || (rrtype rr =? TypeNSEC) || (rrtype rr =? TypeNSEC3) ||
  (rrtype rr =? TypeDNSKEY) || (rrtype rr =? TypeDS).

Definition filterDNSSEC (rrs : list RR) : list RR := List.filter (λ rr, negb (is_dnssec rr)) rrs.

Definition stripDNSSECRecords (m : Msg) : Msg :=
  mkMsg (mHdr m) (mQuestion m) (filterDNSSEC (mAnswer m)) (filterDNSSEC (mNs m)) (filterDNSSEC (mExtra m)).

Definition stripOPT (m : Msg) : Msg := set_Extra (List.filter (λ rr, negb (is_opt rr)) (mExtra m)) m.

Section Ops.
Context {dl : DnsLib}.

Definition udpResponseLimit (query : Msg) : Z :=
  match IsEdns0 query with
  | None => MinMsgSize
  | Some (_, opt) =>
      let size := optUDPSize opt in
      let size := if size <? MinMsgSize then MinMsgSize else size in
      if size >? dnsUDPBufSize then dnsUDPBufSize else size
  end.

Definition packUDP (response query : Msg) : option string :=
  Pack (Truncate (udpResponseLimit query) response).

Definition clientDNSSECOK (query : Msg) : bool := edns_do query.

Definition queryWithDO (query : Msg) : Msg := SetEdns0 dnsUDPBufSize true (stripOPT query).

Definition ensureResponseEDNS (response query : Msg) : Msg :=
  let queryOPT := IsEdns0 query in
  let clientDO := match queryOPT with Some (_, o) => optDo o | None => false end in
  let response := if negb clientDO then stripDNSSECRecords response else response in
  match queryOPT with
  | None => stripOPT response
  | Some _ =>
      match IsEdns0 response with
      | None => SetEdns0 dnsUDPBufSize clientDO response
      | Some (i, _) => update_opt i (λ o, mkOPT dnsUDPBufSize clientDO (optOption o)) response
      end
  end.

Definition servfail (query : Msg) : Msg :=
  mkMsg (replyHdr (mId query) RcodeServerFailure) (mQuestion query) [] [] [].

Definition blen (s : string) : Z := Z.of_nat (String.length s).

(** The packed bytes ([None] when packing fails), and whether the reply was replaced. *)
Definition packStream (response query : Msg) : option string * bool :=
  match Pack response with
  | None => (None, false)
  | Some buf =>
      if blen buf <=? MaxMsgSize then (Some buf, false)
      else (Pack (ensureResponseEDNS (servfail query) query), true)
  end.

End Ops.

(** [[]byte{byte(len(buf) >> 8), byte(len(buf))}], and the length a reader
    decodes from two bytes. *)
Definition length_prefix (buf : string) : Z * Z :=
  (Z.land (Z.shiftr (blen buf) 8) 255, Z.land (blen buf) 255).
Definition read_length (p : Z * Z) : Z := Z.lor (Z.shiftl (fst p) 8) (snd p).

(** ** OPT records *)

Definition count_opts (m : Msg) : nat := List.length (List.filter is_opt (mExtra m)).

Lemma filter_dnssec_opt l : List.filter is_opt (filterDNSSEC l) = List.filter is_opt l.
Proof.
  unfold filterDNSSEC. induction l as [|rr l IH]; simpl; [done|].
  destruct (is_dnssec rr) eqn:E; simpl; [|by rewrite IH].
  assert (Hn : is_opt rr = false); [|by rewrite Hn].
  unfold is_opt. apply Z.eqb_neq. intros Ht. unfold is_dnssec in E. by rewrite Ht in E.
Qed.

Lemma filter_not_filter {A} (p : A → bool) l : List.filter p (List.filter (λ x, negb (p x)) l) = [].
Proof. induction l as [|x l IH]; simpl; [done|]. destruct (p x) eqn:E; simpl; [done|]. by rewrite E. Qed.

Lemma count_stripOPT m : count_opts (stripOPT m) = 0%nat.
Proof. unfold count_opts, stripOPT; simpl. by rewrite filter_not_filter. Qed.

Lemma count_stripDNSSEC m : count_opts (stripDNSSECRecords m) = count_opts m.
Proof. unfold count_opts; simpl. by rewrite filter_dnssec_opt. Qed.

Lemma count_zero m : count_opts m = 0%nat ↔ ∀ rr, rr ∈ mExtra m → rrtype rr ≠ TypeOPT.
Proof.
  unfold count_opts. split.
  - intros H rr Hin Ht. apply nil_length_inv in H.
    assert (Hf : rr ∈ List.filter is_opt (mExtra m)).
    { rewrite elem_of_List_filter. split; [done|]. unfold is_opt. by rewrite Ht. }
    rewrite H in Hf. by apply elem_of_nil in Hf.
  - intros H. destruct (List.filter is_opt (mExtra m)) as [|rr l] eqn:E; [done|]. exfalso.
    assert (Hf : rr ∈ List.filter is_opt (mExtra m)) by (rewrite E; by left).
    rewrite elem_of_List_filter in Hf. destruct Hf as [Hin Ht].
    apply (H rr Hin). by apply Z.eqb_eq.
Qed.

(** Two different positions of OPT records make at least two. *)
Lemma count_unique m i j r1 r2 :
  (count_opts m ≤ 1)%nat → mExtra m !! i = Some r1 → mExtra m !! j = Some r2 →
  is_opt r1 = true → is_opt r2 = true → i = j.
Proof.
  unfold count_opts. generalize (mExtra m). intros l. revert i j.
  induction l as [|rr l IH]; intros i j Hc Hi Hj H1 H2; [by rewrite lookup_nil in Hi|].
  assert (Hin : ∀ k r, l !! k = Some r → is_opt r = true → (1 ≤ List.length (List.filter is_opt l))%nat).
  { intros k r Hk Hr. destruct (List.filter is_opt l) eqn:E; simpl; [|lia]. exfalso.
    assert (Hf : r ∈ List.filter is_opt l).
    { rewrite elem_of_List_filter. split; [by eapply list_elem_of_lookup_2|done]. }
    rewrite E in Hf. by apply elem_of_nil in Hf. }
  simpl in Hc. destruct i as [|i], j as [|j]; simpl in *; simplify_eq; [done| | |].
  - rewrite H1 in Hc. simpl in Hc. pose proof (Hin j r2 Hj H2). lia.
  - rewrite H2 in Hc. simpl in Hc. pose proof (Hin i r1 Hi H1). lia.
  - f_equal. apply IH; try done. destruct (is_opt rr); simpl in Hc; lia.
Qed.

Lemma filter_length_alter {A} (p : A → bool) (f : A → A) i l :
  (∀ x, p (f x) = p x) → List.length (List.filter p (alter f i l)) = List.length (List.filter p l).
Proof.
  intros Hp. revert i; induction l as [|x l IH]; intros [|i]; simpl; [done|done| |].
  - rewrite Hp. by destruct (p x).
  - specialize (IH i). unfold alter in *. destruct (p x); simpl; by rewrite IH.
Qed.

Lemma count_update_opt i g m : count_opts (update_opt i g m) = count_opts m.
Proof.
  unfold count_opts, update_opt; simpl. apply filter_length_alter. intros rr.
  unfold is_opt, rrtype. by destruct (rData rr).
Qed.

Lemma update_opt_wf i g m : opt_wf m → opt_wf (update_opt i g m).
Proof.
  intros Hwf rr Hin. simpl in Hin. apply list_elem_of_lookup in Hin as [j Hj].
  rewrite list_lookup_alter in Hj. case_decide; [|by eapply Hwf, list_elem_of_lookup_2].
  apply fmap_Some in Hj as (r & Hr & ->).
  assert (Hw := Hwf r (list_elem_of_lookup_2 _ _ _ Hr)). unfold rr_wf, rrtype in *.
  destruct (rData r) eqn:E; simpl; try (by rewrite ?E). rewrite Hw. split; eauto.
Qed.

Lemma filter_filter_same {A} (p : A → bool) l : List.filter p (List.filter p l) = List.filter p l.
Proof. induction l as [|x l IH]; simpl; [done|]. destruct (p x) eqn:E; simpl; [by rewrite E, IH|done]. Qed.

(** Editing an OPT record leaves the other records alone. *)
Lemma filter_not_opt_alter i g l :
  (∀ rr, rr ∈ l → rr_wf rr) →
  List.filter (λ rr, negb (is_opt rr))
    (alter (λ rr, match rData rr with D_OPT o => mkRR (rHdr rr) (D_OPT (g o)) | _ => rr end) i l) =
  List.filter (λ rr, negb (is_opt rr)) l.
Proof.
  revert i; induction l as [|x l IH]; intros [|i] Hwf; [done|done| |].
  - simpl. destruct (rData x) as [o| | | | | | | | | |] eqn:E; try done.
    assert (Ht : rrtype x = TypeOPT) by (apply (Hwf x (list_elem_of_here _ _)); eauto).
    unfold is_opt, rrtype in *; simpl. by rewrite Ht.
  - specialize (IH i (λ rr H, Hwf rr (list_elem_of_further _ _ _ H))). unfold alter in *. simpl.
    destruct (is_opt x); simpl; by rewrite IH.
Qed.

Section Props.
Context {dl : DnsLib} {laws : DnsLaws dl}.

Lemma newOPT_opt size do : is_opt (newOPT size do) = true ∧ rr_wf (newOPT size do).
Proof.
  destruct (newOPT_spec size do) as (h & -> & Hh). unfold is_opt, rr_wf, rrtype; simpl. rewrite Hh.
  split; [done|]. split; eauto.
Qed.

Lemma count_SetEdns0 size do m : count_opts (SetEdns0 size do m) = S (count_opts m).
Proof.
  unfold count_opts, SetEdns0; simpl. rewrite List.filter_app, length_app. simpl.
  rewrite (proj1 (newOPT_opt size do)). simpl. lia.
Qed.

Lemma SetEdns0_wf size do m : opt_wf m → opt_wf (SetEdns0 size do m).
Proof.
  intros Hwf rr [Hin|Hin]%elem_of_app; [by apply Hwf|]. apply list_elem_of_singleton in Hin as ->.
  apply newOPT_opt.
Qed.

Lemma IsEdns0_count m : opt_wf m → IsEdns0 m = None ↔ count_opts m = 0%nat.
Proof. intros Hwf. by rewrite count_zero, IsEdns0_None. Qed.

(** The OPT record at a known position, when it is the only one. *)
Lemma IsEdns0_at m i h o :
  opt_wf m → (count_opts m ≤ 1)%nat → mExtra m !! i = Some (mkRR h (D_OPT o)) → hRrtype h = TypeOPT →
  IsEdns0 m = Some (i, o).
Proof.
  intros Hwf Hc Hi Hh. destruct (IsEdns0 m) as [[j o']|] eqn:E.
  - apply IsEdns0_Some in E as (h' & Hj & Hh').
    assert (i = j) as <-.
    { eapply count_unique; eauto; unfold is_opt, rrtype; simpl; by apply Z.eqb_eq. }
    congruence.
  - exfalso. apply (proj1 (IsEdns0_None m Hwf) E (mkRR h (D_OPT o))); [by eapply list_elem_of_lookup_2|done].
Qed.

Lemma IsEdns0_SetEdns0 size do m :
  opt_wf m → count_opts m = 0%nat →
  IsEdns0 (SetEdns0 size do m) = Some (List.length (mExtra m), mkOPT size do []).
Proof.
  intros Hwf Hc. destruct (newOPT_spec size do) as (h & Hn & Hh).
  apply (IsEdns0_at _ _ h); [by apply SetEdns0_wf|by rewrite count_SetEdns0, Hc| |done].
  simpl. rewrite Hn, lookup_app_r, Nat.sub_diag by lia. done.
Qed.

Lemma IsEdns0_update i o g m :
  opt_wf m → (count_opts m ≤ 1)%nat → IsEdns0 m = Some (i, o) → IsEdns0 (update_opt i g m) = Some (i, g o).
Proof.
  intros Hwf Hc E. apply IsEdns0_Some in E as (h & Hi & Hh).
  apply (IsEdns0_at _ _ h); [by apply update_opt_wf|by rewrite count_update_opt| |done].
  simpl. by rewrite list_lookup_alter_eq, Hi.
Qed.

Lemma stripOPT_wf m : opt_wf m → opt_wf (stripOPT m).
Proof. intros Hwf rr [Hin _]%elem_of_List_filter. by apply Hwf. Qed.

Lemma stripDNSSEC_wf m : opt_wf m → opt_wf (stripDNSSECRecords m).
Proof. intros Hwf rr [Hin _]%elem_of_List_filter. by apply Hwf. Qed.

(** ** The properties of a normalised reply *)

(** A reply leaves with EDNS0 exactly as the client's query had it: no OPT
    record for a query without one; otherwise one OPT (the reply's own, or a
    new one) with the standard payload size and the client's DO bit.  A client
    that did not set DO receives no DNSSEC record in any section.  Apart from
    that, every record, the header (so the AD bit) and the question are those
    of the reply. *)
Theorem ensureResponseEDNS_spec response query :
  opt_wf response → (count_opts response ≤ 1)%nat →
  let r := ensureResponseEDNS response query in
  let keep l := if edns_do query then l else filterDNSSEC l in
  mHdr r = mHdr response ∧ mQuestion r = mQuestion response ∧
  mAnswer r = keep (mAnswer response) ∧ mNs r = keep (mNs response) ∧
  List.filter (λ rr, negb (is_opt rr)) (mExtra r) =
    List.filter (λ rr, negb (is_opt rr)) (keep (mExtra response)) ∧
  match IsEdns0 query with
  | None => count_opts r = 0%nat
  | Some (_, qo) => count_opts r = 1%nat ∧
      ∃ i o, IsEdns0 r = Some (i, o) ∧ optUDPSize o = dnsUDPBufSize ∧ optDo o = optDo qo
  end.
Proof.
  intros Hwf Hc. cbn zeta. unfold ensureResponseEDNS, edns_do.
  set (do := match IsEdns0 query with Some (_, o) => optDo o | None => false end).
  set (resp := if negb do then stripDNSSECRecords response else response).
  assert (Hwf' : opt_wf resp) by (subst resp; destruct do; [done|by apply stripDNSSEC_wf]).
  assert (Hc' : count_opts resp = count_opts response) by (subst resp; destruct do; [done|apply count_stripDNSSEC]).
  assert (Hsec : mHdr resp = mHdr response ∧ mQuestion resp = mQuestion response ∧
    mAnswer resp = (if do then mAnswer response else filterDNSSEC (mAnswer response)) ∧
    mNs resp = (if do then mNs response else filterDNSSEC (mNs response)) ∧
    mExtra resp = (if do then mExtra response else filterDNSSEC (mExtra response)))
    by (subst resp; by destruct do).
  destruct Hsec as (H1 & H2 & H3 & H4 & H5). rewrite <-H5.
  destruct (IsEdns0 query) as [[j qo]|] eqn:Eq.
  - destruct (IsEdns0 resp) as [[i o]|] eqn:Er.
    + pose proof (IsEdns0_update i o (λ o, mkOPT dnsUDPBufSize do (optOption o)) resp Hwf' ltac:(lia) Er) as Hu.
      split_and!; try done.
      * unfold update_opt; simpl. by apply filter_not_opt_alter.
      * rewrite count_update_opt.
        assert (count_opts resp ≠ 0%nat) by (rewrite <-IsEdns0_count by done; congruence). lia.
      * eauto.
    + assert (H0 : count_opts resp = 0%nat) by (by apply IsEdns0_count).
      split_and!; try done.
      * simpl. rewrite List.filter_app. simpl. rewrite (proj1 (newOPT_opt _ _)). by rewrite app_nil_r.
      * by rewrite count_SetEdns0, H0.
      * rewrite IsEdns0_SetEdns0 by done. eauto.
  - split_and!; try done; [|apply count_stripOPT].
    simpl. rewrite filter_filter_same. done.
Qed.

(** What is sent upstream asks for DNSSEC records whatever the client asked:
    exactly one OPT record, with the DO bit and the standard payload size; the
    question and the other records are the client's. *)
Theorem queryWithDO_spec query :
  opt_wf query →
  let up := queryWithDO query in
  count_opts up = 1%nat ∧ edns_do up = true ∧ udpResponseLimit up = dnsUDPBufSize ∧
  mHdr up = mHdr query ∧ mQuestion up = mQuestion query ∧ mAnswer up = mAnswer query ∧ mNs up = mNs query ∧
  List.filter (λ rr, negb (is_opt rr)) (mExtra up) = List.filter (λ rr, negb (is_opt rr)) (mExtra query).
Proof.
  intros Hwf. cbn zeta. unfold queryWithDO.
  pose proof (IsEdns0_SetEdns0 dnsUDPBufSize true (stripOPT query) (stripOPT_wf _ Hwf) (count_stripOPT query)) as E.
  unfold edns_do, udpResponseLimit. rewrite E. split_and!; try done.
  - by rewrite count_SetEdns0, count_stripOPT.
  - simpl. rewrite List.filter_app. simpl. rewrite (proj1 (newOPT_opt _ _)). simpl.
    by rewrite app_nil_r, filter_filter_same.
Qed.

End Props.

(** ** Sizes *)

(** The UDP reply limit is always between 512 and 1232 bytes; it never
    exceeds what the client advertised (or 512 if it advertised less), and is
    512 for a client without EDNS. *)
Theorem udpResponseLimit_bounds `{dl : DnsLib} query :
  MinMsgSize ≤ udpResponseLimit query ≤ dnsUDPBufSize ∧
  match IsEdns0 query with
  | None => udpResponseLimit query = MinMsgSize
  | Some (_, o) => udpResponseLimit query = Z.min dnsUDPBufSize (Z.max MinMsgSize (optUDPSize o))
  end.
Proof.
  unfold udpResponseLimit, MinMsgSize, dnsUDPBufSize. destruct (IsEdns0 query) as [[i o]|]; [|lia].
  cbn zeta. split; cases_lia.
Qed.

Lemma land_disjoint a b k : 0 ≤ k → Z.land (Z.shiftl a k) (b mod 2 ^ k) = 0.
Proof.
  intros Hk. apply Z.bits_inj'. intros i Hi. rewrite Z.land_spec, Z.bits_0.
  destruct (Z.lt_ge_cases i k).
  - by rewrite Z.shiftl_spec_low.
  - rewrite (Z.mod_pow2_bits_high b k i) by lia. apply andb_false_r.
Qed.

(** The length prefix carries the length modulo 65536. *)
Lemma length_prefix_mod buf : read_length (length_prefix buf) = blen buf mod 65536.
Proof.
  unfold read_length, length_prefix, blen. set (n := Z.of_nat (String.length buf)). cbn [fst snd].
  change 255 with (Z.ones 8). rewrite !Z.land_ones by lia.
  pose proof (Z.add_lor_land (Z.shiftl (Z.shiftr n 8 mod 2 ^ 8) 8) (n mod 2 ^ 8)) as H.
  rewrite land_disjoint in H by lia. rewrite Z.add_0_r in H. rewrite H.
  rewrite Z.shiftr_div_pow2, Z.shiftl_mul_pow2 by lia.
  change 65536 with (2 ^ 8 * 2 ^ 8). rewrite (Z.rem_mul_r n) by lia. lia.
Qed.

(** A stream reply is framed correctly: when packing succeeds, the two-byte
    prefix decodes to exactly the number of bytes that follow, so no reply can
    desynchronise the connection.  A reply that fits is sent as it is; one
    that does not is replaced by SERVFAIL. *)
Theorem packStream_framed `{dl : DnsLib} response query buf replaced :
  (∀ b, Pack (ensureResponseEDNS (servfail query) query) = Some b → blen b ≤ MaxMsgSize) →
  packStream response query = (Some buf, replaced) →
  read_length (length_prefix buf) = blen buf ∧ blen buf ≤ MaxMsgSize ∧
  Pack (if replaced then ensureResponseEDNS (servfail query) query else response) = Some buf ∧
  (replaced = true ↔ ∃ b, Pack response = Some b ∧ MaxMsgSize < blen b).
Proof.
  intros Hs H. unfold packStream in H. rewrite length_prefix_mod.
  assert (Hn : 0 ≤ blen buf) by (unfold blen; lia).
  destruct (Pack response) as [b|] eqn:Ep; [|done].
  destruct (blen b <=? MaxMsgSize) eqn:El; bool_prop; injection H as H <-.
  - subst b. rewrite Z.mod_small by (unfold MaxMsgSize in *; lia). split_and!; try done.
    split; [done|]. intros (b & [= <-] & ?). lia.
  - specialize (Hs buf H). rewrite Z.mod_small by (unfold MaxMsgSize in *; lia). split_and!; try done.
    split; [|done]. intros _. exists b. split; [done|lia].
Qed.

(** The DNSSEC records are dropped for a client without DO even when they
    are what it asked for: a DNSKEY or DS answer to such a client leaves with
    an empty answer section and an unchanged rcode, that is as NODATA. *)
Theorem explicit_dnssec_query_emptied `{dl : DnsLib} response query :
  edns_do query = false →
  (∀ rr, rr ∈ mAnswer response → is_dnssec rr = true) →
  mAnswer (ensureResponseEDNS response query) = [] ∧
  mRcode (ensureResponseEDNS response query) = mRcode response.
Proof.
  intros Hdo Hall. unfold edns_do in Hdo. unfold ensureResponseEDNS.
  assert (Ha : filterDNSSEC (mAnswer response) = []).
  { destruct (filterDNSSEC (mAnswer response)) as [|rr l] eqn:E; [done|].
    assert (Hin : rr ∈ filterDNSSEC (mAnswer response)) by (rewrite E; by left).
    apply elem_of_List_filter in Hin as [Hin Hn]. by rewrite Hall in Hn. }
  destruct (IsEdns0 query) as [[i o]|]; [rewrite Hdo|]; simpl; [|done].
  destruct (IsEdns0 (stripDNSSECRecords response)) as [[j p]|]; done.
Qed.

(** ** Witnesses *)

Definition ex_opt (do : bool) : RR := mkRR (mkHeader "." TypeOPT 4096 0) (D_OPT (mkOPT 4096 do [])).
Definition ex_client (extra : list RR) : Msg :=
  mkMsg (mkMsgHdr 7 false 0 false false true false false false 0)
        [mkQuestion "example.com." TypeDNSKEY ClassINET] [] [] extra.
Definition ex_dnskey : RR :=
  mkRR (mkHeader "example.com." TypeDNSKEY ClassINET 300) (D_DNSKEY (mkDNSKEY 257 3 13 "key")).
Definition ex_reply : Msg :=
  mkMsg (replyHdr 7 RcodeSuccess) [mkQuestion "example.com." TypeDNSKEY ClassINET] [ex_dnskey] [] [ex_opt true].

Lemma ex_reply_wf : opt_wf ex_reply.
Proof.
  intros rr [->|[]%elem_of_nil]%elem_of_cons. unfold rr_wf; simpl. split; [by eexists|done].
Qed.

Lemma ensureResponseEDNS_spec_witness :
  count_opts (ensureResponseEDNS (dl := toyLib) ex_reply (ex_client [])) = 0%nat ∧
  count_opts (ensureResponseEDNS (dl := toyLib) ex_reply (ex_client [ex_opt true])) = 1%nat.
Proof.
  split.
  - apply (ensureResponseEDNS_spec (dl := toyLib) ex_reply (ex_client []) ex_reply_wf). by apply Nat.leb_le.
  - apply (ensureResponseEDNS_spec (dl := toyLib) ex_reply (ex_client [ex_opt true]) ex_reply_wf). by apply Nat.leb_le.
Defined.

Lemma queryWithDO_spec_witness : edns_do (dl := toyLib) (queryWithDO (dl := toyLib) (ex_client [ex_opt false])) = true.
Proof.
  apply (queryWithDO_spec (dl := toyLib) (ex_client [ex_opt false])).
  intros rr [->|[]%elem_of_nil]%elem_of_cons. unfold rr_wf; simpl. split; [by eexists|done].
Defined.

Lemma packStream_framed_witness :
  read_length (length_prefix "") = 0 ∧ packStream (dl := toyLib) ex_reply (ex_client []) = (Some "", false).
Proof.
  split; [|reflexivity].
  apply (packStream_framed (dl := toyLib) ex_reply (ex_client []) "" false); [|reflexivity].
  intros b [= <-]. vm_compute. discriminate.
Defined.

Lemma explicit_dnssec_query_emptied_witness :
  mAnswer (ensureResponseEDNS (dl := toyLib) ex_reply (ex_client [ex_opt false])) = [].
Proof.
  apply (explicit_dnssec_query_emptied (dl := toyLib) ex_reply (ex_client [ex_opt false])); [reflexivity|].
  intros rr [->|[]%elem_of_nil]%elem_of_cons. reflexivity.
Defined.
