(* ===== verification/Interfaces.v ===== *)
(** * Interfaces between the listeners and what they call

    What the two listeners rely on from the upstream chain and from the DNSSEC
    validator.  The listeners' theorems are proved against these classes; the
    chain of [Fallback] and the validator of [DnssecChain] are instances. *)

From S2P Require Import Prelude GoStrings DnsMsg Statistics Fallback.
From Stdlib Require Import Ascii String.
Open Scope string_scope.
Open Scope list_scope.
Open Scope Z_scope.

(** The three outcomes of [ValidateResponse]: nil, an error that
    [dnssec.IsInsecure] recognises, any other error. *)
Inductive validation := Secure | Insecure | Bogus.

#[global] Instance validation_eq_dec : EqDecision validation.
Proof. solve_decision. Defined.

Class Validator (V : Type) := validate : Msg → V → validation * V.

(** The counters the chain and the transports in it account to. *)
Definition chain_counters : list counter := [UpstreamFallbacks; DoQQueries; DoTQueries; DoHQueries; DoQIdleRetries].
Definition stats_agree (st st' : Stats) : Prop := ∀ c, c ∉ chain_counters → cnt st' c = cnt st c.

Class UpstreamResolver {dl : DnsLib} (W : Type) := {
  resolve : Msg → W → Stats → result Msg () * W * Stats;
  (** An answer is to the question asked. *)
  resolve_matches msg w st r w' st' :
    resolve msg w st = (Ok r, w', st') → responseMatchesQuery msg r = true;
  resolve_stats msg w st res w' st' : resolve msg w st = (res, w', st') → stats_agree st st'
}.

(** ** The fallback chain as a resolver

    Its state: the chain, the clock, and the answers the upstreams will give
    and the interference of other goroutines, call by call. *)

Record chain_state := mkChain {
  ch_chain : FallbackResolver;
  ch_now : Z;
  ch_calls : nat;
  ch_out : nat → nat → outcome;
  ch_env : nat → nat → list UpstreamState → list UpstreamState }.

Section Chain.
Context {dl : DnsLib}.

Definition chain_resolve (msg : Msg) (w : chain_state) (st : Stats) : result Msg () * chain_state * Stats :=
  let r := Resolve (ch_now w) (ch_chain w) (ch_out w (ch_calls w)) (ch_env w (ch_calls w)) msg st in
  let w' := mkChain (set_upstreams (r_upstreams r) (ch_chain w)) (ch_now w) (S (ch_calls w)) (ch_out w) (ch_env w) in
  (match r_result r with Ok m => Ok m | Err _ => Err () end, w', r_stats r).

Lemma resolve_loop_stats f out env msg phase n todo i tried ups st calls :
  stats_agree st (r_stats (resolve_loop f out env msg phase n todo i tried ups st calls)).
Proof.
  revert i tried ups st calls. induction todo as [|todo IH]; intros i tried ups st calls; simpl; [done|].
  destruct (env _ ups !! i) as [u|]; [|apply IH]. destruct (_ && _)%bool; [apply IH|].
  destruct (out i) as [[m|] [e|]]; try apply IH. destruct (responseMatchesQuery msg m); simpl; [|apply IH].
  destruct (_ && _)%bool; [|done]. intros c Hc. apply cnt_inc_ne. unfold chain_counters in Hc. set_solver.
Qed.

#[global] Program Instance chain_resolver : UpstreamResolver chain_state := {| resolve := chain_resolve |}.
Next Obligation.
  intros msg w st r w' st'. unfold chain_resolve.
  destruct (r_result (Resolve _ _ _ _ msg st)) as [m|] eqn:E; [|done]. intros [= <- _ _].
  unfold Resolve in E. destruct (negb _); [done|].
  destruct (resolve_loop _ _ _ _ _ _ _ _ _ _ _ _) as [res ups st1 calls] eqn:El. simpl in E. subst res.
  by apply resolve_loop_sound in El as [? _].
Qed.
Next Obligation.
  intros msg w st res w' st'. unfold chain_resolve. intros [= _ _ <-].
  unfold Resolve. destruct (negb _); [done|]. apply resolve_loop_stats.
Qed.

End Chain.
