(* ===== verification/Server.v ===== *)
(** * The Mode 1 listeners (internal/server/server.go)

    A query from the network to the reply that leaves, over UDP and over TCP.
    The shared objects a query goes through (cache, counters, upstream chain,
    validator) are the world that the handlers thread; [w_fwd] records the
    queries handed to the upstream chain.  The clock readings of a query are an
    argument, and so is whether a TCP write succeeds.  A handler returns the
    message it sends with its packed bytes. *)

From S2P Require Import Prelude GoStrings DnsMsg Cache Blocklist Allowlist Statistics Policy Fallback Interfaces Edns.
From Stdlib Require Import Ascii String.
Open Scope string_scope.
Open Scope list_scope.
Open Scope Z_scope.

(** ** State *)

Record Server := mkServer {
  s_blocklist : option Blocklist;
  s_policy : option Policy;
  s_validator : bool;       (* [s.validator != nil] *)
  s_stats : bool;           (* [s.stats != nil] *)
  s_order : gmap string CacheEntry → list (string * CacheEntry) }.

Definition NewServer (dnsBlocklist : option Blocklist) (validator stats : bool)
    (order : gmap string CacheEntry → list (string * CacheEntry)) : Server :=
  mkServer dnsBlocklist (Some (Policy.New None dnsBlocklist stats)) validator stats order.

Definition SetPolicy (p : option Policy) (s : Server) : Server :=
  mkServer (s_blocklist s) p (s_validator s) (s_stats s) (s_order s).

Definition SetAllowlist (a : option Allowlist) (s : Server) : Server :=
  match a with
  | None => SetPolicy None s
  | Some a => SetPolicy (Some (Policy.New (Some a) (s_blocklist s) (s_stats s))) s
  end.

Record World (W V : Type) := mkWorld {
  w_cache : option Cache; w_stats : Stats; w_up : W; w_val : V; w_fwd : list Msg }.
Arguments mkWorld {W V} _ _ _ _ _.
Arguments w_cache {W V} _.
Arguments w_stats {W V} _.
Arguments w_up {W V} _.
Arguments w_val {W V} _.
Arguments w_fwd {W V} _.

(** The clock readings of one query, and its measured latency. *)
Record Clock := mkClock { t_get : Z; t_stale : Z; t_put : Z; t_latency : Z }.

Section Setters.
Context {W V : Type}.
Implicit Type w : World W V.

Definition set_stats (st : Stats) w : World W V := mkWorld (w_cache w) st (w_up w) (w_val w) (w_fwd w).
Definition set_cache (c : option Cache) w : World W V := mkWorld c (w_stats w) (w_up w) (w_val w) (w_fwd w).
Definition set_val (v : V) w : World W V := mkWorld (w_cache w) (w_stats w) (w_up w) v (w_fwd w).

(** [if s.stats != nil { atomic.AddInt64(&s.stats.c, 1) }]. *)
Definition bump (s : Server) (c : counter) w : World W V :=
  if s_stats s then set_stats (inc c (w_stats w)) w else w.

Definition record_response (s : Server) (rcode : Z) w : World W V :=
  if s_stats s then set_stats (RecordResponse rcode (w_stats w)) w else w.

Definition record_latency (s : Server) (us : Z) w : World W V :=
  if s_stats s then set_stats (RecordLatency us (w_stats w)) w else w.

End Setters.

(** ** Replies *)

Definition formErrResponse (query : Msg) : Msg :=
  mkMsg (replyHdr (mId query) RcodeFormatError) (mQuestion query) [] [] [].

Definition cacheableResponse (c : option Cache) (resp : Msg) : bool :=
  if (mRcode resp =? RcodeSuccess) && (0 <? List.length (mAnswer resp))%nat then true else
  match c with
  | Some c =>
      NegativeCachingEnabled c &&
      ((mRcode resp =? RcodeNameError) ||
       ((mRcode resp =? RcodeSuccess) && (List.length (mAnswer resp) =? 0)%nat))
  | None => false
  end.

Section Ops.
Context {dl : DnsLib} {W V : Type} {UR : UpstreamResolver W} {VA : Validator V}.
Implicit Type w : World W V.

(** [s.policy.Response] and [s.policy.Answer] on the shared counters. *)
Definition policyResponse (s : Server) (query : Msg) w : option Msg * World W V :=
  let '(st, r) := Response (s_policy s) query (w_stats w) in (r, set_stats st w).

Definition policyAnswer (s : Server) (query resp : Msg) w : Msg * World W V :=
  let '(st, r) := Answer (s_policy s) query (Some resp) (w_stats w) in
  (default resp r, set_stats st w).

Definition upstreamFailureResponse (s : Server) (clk : Clock) (query : Msg) w : Msg * World W V :=
  match w_cache w ≫= (λ c, GetStale c (t_stale clk) (Some query)) with
  | Some stale => (set_Id (mId query) stale, bump s StaleServed w)
  | None => (servfail query, w)
  end.

Definition applyDNSSEC (s : Server) (clk : Clock) (response query : Msg) w : Msg * World W V :=
  let '(verdict, v) := validate response (w_val w) in
  let w := set_val v w in
  match verdict with
  | Secure => (set_AD true response, bump s DnssecValidated w)
  | Insecure => (set_AD false response, bump s DnssecUnsigned w)
  | Bogus => upstreamFailureResponse s clk query (bump s DnssecFailed w)
  end.

(** [s.resolver.Resolve(ctx, queryWithDO(query))]. *)
Definition call_resolver (query : Msg) w : result Msg () * World W V :=
  let up := queryWithDO query in
  let '(res, u, st) := resolve up (w_up w) (w_stats w) in
  (res, mkWorld (w_cache w) st u (w_val w) (w_fwd w ++ [up])).

(** A cache miss, from the counters to the answer check: the same code on the
    UDP and on the TCP path. *)
Definition forward (s : Server) (clk : Clock) (query : Msg) w : Msg * World W V :=
  let w := bump s UpstreamQueries (bump s CacheMisses w) in
  let '(res, w) := call_resolver query w in
  let '(response, w) :=
    match res with
    | Err _ => upstreamFailureResponse s clk query (bump s UpstreamErrors w)
    | Ok response =>
        let w := record_latency s (t_latency clk) w in
        let '(response, w) :=
          if s_validator s then applyDNSSEC s clk response query w else (response, w) in
        let w := match w_cache w with
                 | Some c =>
                     if (0 <? List.length (mQuestion query))%nat && cacheableResponse (Some c) response
                     then set_cache (Some (Put (s_order s) c (t_put clk) (Some query) (Some response))) w
                     else w
                 | None => w
                 end in
        (response, w)
    end in
  policyAnswer s query response w.

(** [s.cache.Get(query)] with the hit accounted for and re-keyed to the query. *)
Definition cache_get (s : Server) (clk : Clock) (query : Msg) w : option Msg * World W V :=
  match w_cache w with
  | None => (None, w)
  | Some c =>
      if negb (0 <? List.length (mQuestion query))%nat then (None, w) else
      let '(hit, c') := Get c (t_get clk) (Some query) in
      let w := set_cache (Some c') w in
      match hit with
      | Some cached => (Some (set_Id (mId query) cached), bump s CacheHits w)
      | None => (None, w)
      end
  end.

(** ** UDP *)

(** The common tail of the UDP paths: normalise, pack, write, account.  [None]
    when packing fails and nothing is sent. *)
Definition send_udp (s : Server) (response query : Msg) w : option (Msg * string) * World W V :=
  let response := ensureResponseEDNS response query in
  match packUDP response query with
  | None => (None, w)
  | Some buf =>
      let response := Truncate (udpResponseLimit query) response in
      (Some (response, buf), record_response s (mRcode response) w)
  end.

Definition handleDNSQuery (s : Server) (clk : Clock) (queryBuf : string) w : option (Msg * string) * World W V :=
  match Unpack queryBuf with
  | None => (None, w)
  | Some query =>
      let w := bump s TotalQueries w in
      if negb (List.length (mQuestion query) =? 1)%nat
      then send_udp s (formErrResponse query) query w
      else
        let '(denied, w) := policyResponse s query w in
        match denied with
        | Some response => send_udp s response query w
        | None =>
            let '(hit, w) := cache_get s clk query w in
            match hit with
            | Some cached =>
                let '(response, w) := policyAnswer s query cached w in
                send_udp s response query w
            | None =>
                let '(response, w) := forward s clk query w in
                send_udp s response query w
            end
        end
  end.

(** ** TCP *)

(** The reply to one query of a connection, before normalisation. *)
Definition tcp_response (s : Server) (clk : Clock) (query : Msg) w : Msg * World W V :=
  let w := bump s TotalQueries w in
  let '(denied, w) :=
    if negb (List.length (mQuestion query) =? 1)%nat then (Some (formErrResponse query), w)
    else policyResponse s query w in
  match denied with
  | Some response => (response, w)
  | None =>
      let '(hit, w) := cache_get s clk query w in
      match hit with
      | Some cached => policyAnswer s query cached w
      | None => forward s clk query w
      end
  end.

(** What one query of a connection does: the connection ends without a reply
    when packing or writing fails ([None]); [wr] says whether the writes succeed. *)
Definition tcp_query (s : Server) (clk : Clock) (wr : bool) (query : Msg) w
    : option (Msg * string * bool) * World W V :=
  let '(response, w) := tcp_response s clk query w in
  let response := ensureResponseEDNS response query in
  match packStream response query with
  | (None, _) => (None, w)
  | (Some buf, replaced) =>
      if negb wr then (None, w)
      else (Some (response, buf, replaced), record_response s (mRcode response) w)
  end.

Definition byte_of (z : Z) : ascii := ascii_of_nat (Z.to_nat z).
Definition frame (buf : string) : string :=
  let '(hi, lo) := length_prefix buf in String (byte_of hi) (String (byte_of lo) buf).

(** [io.ReadFull] of [n] bytes: the bytes and the rest, or failure. *)
Fixpoint read_full (n : nat) (input : string) : option (string * string) :=
  match n with
  | O => Some ("", input)
  | S n' =>
      match input with
      | "" => None
      | String a rest =>
          match read_full n' rest with
          | Some (x, rest') => Some (String a x, rest')
          | None => None
          end
      end
  end.

(** The two-byte prefix and the message after it. *)
Definition read_message (input : string) : option (string * string) :=
  match input with
  | String hi (String lo rest) =>
      let msgLen := read_length (Z.of_nat (nat_of_ascii hi), Z.of_nat (nat_of_ascii lo)) in
      if (msgLen =? 0) || (msgLen >? 65535) then None
      else read_full (Z.to_nat msgLen) rest
  | _ => None
  end.

(** The connection loop on the bytes the client sends; [k] counts the rounds, and
    [stop] says whether the context of the server is done at the top of each.
    Every round that goes on has consumed at least three bytes, so [fuel] of
    the length of the input is enough. *)
Fixpoint tcp_loop (fuel k : nat) (s : Server) (clk : nat → Clock) (wr stop : nat → bool) (input : string) w
    : list (Msg * string * bool) * World W V :=
  match fuel with
  | O => ([], w)
  | S fuel' =>
      if stop k then ([], w) else
      match read_message input with
      | None => ([], w)
      | Some (msgBuf, rest) =>
          match Unpack msgBuf with
          | None => tcp_loop fuel' (S k) s clk wr stop rest w
          | Some query =>
              let '(sent, w) := tcp_query s (clk k) (wr k) query w in
              match sent with
              | None => ([], w)
              | Some m => let '(out, w) := tcp_loop fuel' (S k) s clk wr stop rest w in (m :: out, w)
              end
          end
      end
  end.

Definition handleTCPConnection (s : Server) (clk : nat → Clock) (wr stop : nat → bool) (input : string) w :=
  tcp_loop (S (String.length input)) 0 s clk wr stop input w.

End Ops.

(** The bytes written on the connection. *)
Definition written (out : list (Msg * string * bool)) : string :=
  foldr (λ m acc, frame (snd (fst m)) +:+ acc) "" out.

(** ** Frame lemmas: what each helper leaves alone *)

Section Frames.
Context {W V : Type}.
Implicit Type w : World W V.

Lemma bump_cache s c w : w_cache (bump s c w) = w_cache w.
Proof. unfold bump. by destruct (s_stats s). Qed.
Lemma bump_up s c w : w_up (bump s c w) = w_up w.
Proof. unfold bump. by destruct (s_stats s). Qed.
Lemma bump_val s c w : w_val (bump s c w) = w_val w.
Proof. unfold bump. by destruct (s_stats s). Qed.
Lemma bump_fwd s c w : w_fwd (bump s c w) = w_fwd w.
Proof. unfold bump. by destruct (s_stats s). Qed.
Lemma latency_cache s us w : w_cache (record_latency s us w) = w_cache w.
Proof. unfold record_latency. by destruct (s_stats s). Qed.
Lemma latency_val s us w : w_val (record_latency s us w) = w_val w.
Proof. unfold record_latency. by destruct (s_stats s). Qed.
Lemma latency_fwd s us w : w_fwd (record_latency s us w) = w_fwd w.
Proof. unfold record_latency. by destruct (s_stats s). Qed.
Lemma response_fwd s rc w : w_fwd (record_response s rc w) = w_fwd w.
Proof. unfold record_response. by destruct (s_stats s). Qed.

End Frames.

Create Rewrite HintDb world.
#[global] Hint Rewrite @bump_cache @bump_up @bump_val @bump_fwd @latency_cache @latency_val @latency_fwd
  @response_fwd : world.

(** ** One decision for both transports *)

Section Props.
Context {dl : DnsLib} {W V : Type} {UR : UpstreamResolver W} {VA : Validator V}.
Implicit Type w : World W V.

Lemma udp_as_tcp s clk buf query w :
  Unpack buf = Some query →
  handleDNSQuery s clk buf w = let '(r, w') := tcp_response s clk query w in send_udp s r query w'.
Proof.
  intros Hu. unfold handleDNSQuery, tcp_response. rewrite Hu.
  destruct (negb _); [done|]. destruct (policyResponse s query _) as [[r|] w1]; [done|].
  destruct (cache_get s clk query w1) as [[c|] w2]; [|done]. done.
Qed.

(** Both transports make the same decision: on any query, from any state,
    the UDP handler sends exactly the (normalised, possibly truncated) message
    that the TCP path computes, and leaves the same world up to the accounting
    of the reply. *)
Theorem transports_agree s clk buf query w :
  Unpack buf = Some query →
  let '(r, w') := tcp_response s clk query w in
  let r' := ensureResponseEDNS r query in
  handleDNSQuery s clk buf w =
    (match packUDP r' query with
     | Some b => (Some (Truncate (udpResponseLimit query) r', b),
                  record_response s (mRcode (Truncate (udpResponseLimit query) r')) w')
     | None => (None, w')
     end) ∧
  tcp_query s clk true query w =
    (match packStream r' query with
     | (Some b, replaced) => (Some (r', b, replaced), record_response s (mRcode r') w')
     | (None, _) => (None, w')
     end).
Proof.
  intros Hu. rewrite (udp_as_tcp s clk buf query w Hu). unfold tcp_query.
  destruct (tcp_response s clk query w) as [r w']. unfold send_udp. split; [done|].
  by destruct (packStream _ query) as [[b|] rep].
Qed.

(** ** What is forwarded *)

(** The query may be forwarded under the server's policy. *)
Definition may_forward (s : Server) (query : Msg) : Prop :=
  ∃ q, mQuestion query = [q] ∧
    ∀ p, s_policy s = Some p → allow_passes p q = true ∧ blocked p q = false.

Lemma upstreamFailure_fwd s clk query w : w_fwd (snd (upstreamFailureResponse s clk query w)) = w_fwd w.
Proof. unfold upstreamFailureResponse. destruct (_ ≫= _); simpl; by autorewrite with world. Qed.

Lemma applyDNSSEC_fwd s clk r query w : w_fwd (snd (applyDNSSEC s clk r query w)) = w_fwd w.
Proof.
  unfold applyDNSSEC. destruct (validate r (w_val w)) as [[] v]; simpl; autorewrite with world; try done.
  rewrite upstreamFailure_fwd. by autorewrite with world.
Qed.

Lemma policyAnswer_fwd s query r w : w_fwd (snd (policyAnswer s query r w)) = w_fwd w.
Proof. unfold policyAnswer. by destruct (Answer _ _ _ _). Qed.

Lemma forward_fwd s clk query w : w_fwd (snd (forward s clk query w)) = w_fwd w ++ [queryWithDO query].
Proof.
  unfold forward, call_resolver. destruct (resolve _ _ _) as [[res u] st].
  destruct res as [r|[]].
  - destruct (s_validator s).
    + set (w1 := record_latency _ _ _). pose proof (applyDNSSEC_fwd s clk r query w1) as H.
      destruct (applyDNSSEC s clk r query w1) as [r' w2]. simpl in H. rewrite policyAnswer_fwd.
      subst w1. autorewrite with world in H. simpl in H. autorewrite with world in H.
      destruct (w_cache w2); [destruct (_ && _)%bool|]; simpl; done.
    + rewrite policyAnswer_fwd. autorewrite with world. simpl. autorewrite with world.
      destruct (w_cache w); [destruct (_ && _)%bool|]; simpl; autorewrite with world; simpl; by autorewrite with world.
  - set (w1 := bump s UpstreamErrors _). pose proof (upstreamFailure_fwd s clk query w1) as H.
    destruct (upstreamFailureResponse s clk query w1) as [r' w2]. simpl in H. rewrite policyAnswer_fwd.
    subst w1. autorewrite with world in H. simpl in H. by autorewrite with world in H.
Qed.

Lemma policyResponse_None s query w w' :
  policyResponse s query w = (None, w') → w' = w ∧
  ∀ q qs p, mQuestion query = q :: qs → s_policy s = Some p → allow_passes p q = true ∧ blocked p q = false.
Proof.
  unfold policyResponse, Response, block_check, allow_passes, blocked. intros H. destruct (s_policy s) as [p|].
  2: { injection H as <-. by destruct w. }
  destruct (mQuestion query) as [|q qs]; [injection H as <-; by destruct w|].
  destruct (allow p) as [a|] eqn:Ea, (block p) as [b|] eqn:Eb; simpl in H;
    repeat match type of H with
    | context [negb (Allowed a (qName q))] => destruct (Allowed a (qName q)) eqn:?; simpl in H
    | context [qtype_refused p (qType q)] => destruct (qtype_refused p (qType q)) eqn:?; simpl in H
    | context [IsBlocked b (qName q)] => destruct (IsBlocked b (qName q)) eqn:?; simpl in H
    | context [deny ?a ?b ?c ?d] => destruct (deny a b c d); simpl in H
    end; try discriminate H; injection H as <-; (split; [by destruct w|]);
    intros q' qs' p' [= <- <-] [= <-]; rewrite Ea, Eb;
    repeat match goal with E : _ = true |- _ => rewrite E | E : _ = false |- _ => rewrite E end; by split.
Qed.

Lemma cache_get_fwd s clk query w : w_fwd (snd (cache_get s clk query w)) = w_fwd w.
Proof.
  unfold cache_get. destruct (w_cache w) as [c|]; [|done]. destruct (negb _); [done|].
  destruct (Get c (t_get clk) (Some query)) as [[m|] c']; simpl; by autorewrite with world.
Qed.

(** The four ways a query is answered. *)
Lemma tcp_response_cases s clk query w :
  let w0 := bump s TotalQueries w in
  (List.length (mQuestion query) ≠ 1%nat ∧ tcp_response s clk query w = (formErrResponse query, w0)) ∨
  (∃ q, mQuestion query = [q] ∧
   ((∃ r w1, policyResponse s query w0 = (Some r, w1) ∧ tcp_response s clk query w = (r, w1)) ∨
    (policyResponse s query w0 = (None, w0) ∧
     ((∃ m w1, cache_get s clk query w0 = (Some m, w1) ∧
         tcp_response s clk query w = policyAnswer s query m w1) ∨
      (∃ w1, cache_get s clk query w0 = (None, w1) ∧ tcp_response s clk query w = forward s clk query w1))))).
Proof.
  cbn zeta. unfold tcp_response. destruct (Nat.eqb_spec (List.length (mQuestion query)) 1) as [E|E]; simpl.
  - right. destruct (mQuestion query) as [|q [|]] eqn:Eq; simpl in E; try lia. exists q. split; [done|].
    destruct (policyResponse s query _) as [[r|] w1] eqn:Ep; [left; eauto|right].
    apply policyResponse_None in Ep as [-> _]. split; [done|].
    destruct (cache_get s clk query _) as [[m|] w2] eqn:Ec; eauto.
  - by left.
Qed.

(** C7: A query is handed to the upstream chain at most once, with DO set, and
    only if it carries exactly one question that the allowlist passes and the
    blocklist does not match; every other query is answered locally. *)
Theorem forwarded_only_if_allowed s clk wr query w :
  w_fwd (snd (tcp_query s clk wr query w)) = w_fwd w ∨
  (w_fwd (snd (tcp_query s clk wr query w)) = w_fwd w ++ [queryWithDO query] ∧ may_forward s query).
Proof.
  assert (H : w_fwd (snd (tcp_response s clk query w)) = w_fwd w ∨
    (w_fwd (snd (tcp_response s clk query w)) = w_fwd w ++ [queryWithDO query] ∧ may_forward s query)).
  { destruct (tcp_response_cases s clk query w) as [[_ ->]|(q & Hq & [(r & w1 & Hp & ->)|[Hp [(m & w1 & Hc & ->)|(w1 & Hc & ->)]]])].
    - left. simpl. by autorewrite with world.
    - left. unfold policyResponse in Hp. destruct (Response _ _ _). injection Hp as _ <-. simpl. by autorewrite with world.
    - left. rewrite policyAnswer_fwd. pose proof (cache_get_fwd s clk query (bump s TotalQueries w)) as Hf.
      rewrite Hc in Hf. simpl in Hf. by autorewrite with world in Hf.
    - right. rewrite forward_fwd. pose proof (cache_get_fwd s clk query (bump s TotalQueries w)) as Hf.
      rewrite Hc in Hf. simpl in Hf. autorewrite with world in Hf. rewrite Hf. split; [done|].
      exists q. split; [done|]. intros p Hs. by eapply policyResponse_None. }
  unfold tcp_query. destruct (tcp_response s clk query w) as [r w']. simpl in H.
  destruct (packStream _ query) as [[b|] rep]; [|done]. destruct wr; simpl; autorewrite with world; done.
Qed.

(** ** What a reply may contain *)

(** The guarantees on a message about to be packed. *)
Record reply_safe (s : Server) (query r : Msg) : Prop := {
  safe_opt : IsEdns0 query = None → count_opts r = 0%nat;
  safe_dnssec : edns_do query = false → ∀ rr, rr ∈ mAnswer r ++ mNs r ++ mExtra r → is_dnssec rr = false;
  safe_allow : ∀ p a, s_policy s = Some p → allow p = Some a → ∀ rr, rr ∈ mAnswer r → record_allowed p a rr }.

Lemma Answer_allowed {laws : DnsLaws dl} s query r w p a :
  s_policy s = Some p → allow p = Some a →
  ∀ rr, rr ∈ mAnswer (fst (policyAnswer s query r w)) → record_allowed p a rr.
Proof.
  intros Hs Ha rr. unfold policyAnswer. rewrite Hs. unfold Answer. rewrite Ha.
  destruct (first_refused p a (mAnswer r)) as [reason|] eqn:E.
  - pose proof (deny_refusal p query reason (w_stats w)) as [_ Hr].
    destruct (deny p query reason (w_stats w)) as [st m]. simpl in *.
    destruct Hr as [_ _ _ _ [-> _] _ _].
    intros Hin. by apply elem_of_nil in Hin.
  - simpl. by apply first_refused_None.
Qed.

Lemma filterDNSSEC_none l rr : rr ∈ filterDNSSEC l → is_dnssec rr = false.
Proof. intros [_ H]%elem_of_List_filter. by apply negb_true_iff. Qed.

Lemma opt_not_dnssec rr : is_opt rr = true → is_dnssec rr = false.
Proof. unfold is_opt, is_dnssec. intros ->%Z.eqb_eq. done. Qed.

Lemma ensure_dnssec {laws : DnsLaws dl} r query :
  edns_do query = false →
  let r' := ensureResponseEDNS r query in ∀ rr, rr ∈ mAnswer r' ++ mNs r' ++ mExtra r' → is_dnssec rr = false.
Proof.
  intros Hdo. unfold edns_do in Hdo. unfold ensureResponseEDNS. cbn zeta.
  assert (Hstrip : ∀ rr, rr ∈ mExtra (stripDNSSECRecords r) → is_dnssec rr = false)
    by (intros rr; apply filterDNSSEC_none).
  destruct (IsEdns0 query) as [[i o]|]; [rewrite Hdo|]; simpl.
  - destruct (IsEdns0 (stripDNSSECRecords r)) as [[j p]|]; simpl; intros rr;
      rewrite !elem_of_app; intros [H|[H|H]]; try (by eapply filterDNSSEC_none).
    + apply list_elem_of_lookup in H as [k Hk]. rewrite list_lookup_alter in Hk. case_decide.
      * apply fmap_Some in Hk as (r0 & Hr0 & ->).
        assert (Hd := Hstrip r0 (list_elem_of_lookup_2 _ _ _ Hr0)). by destruct (rData r0).
      * by eapply Hstrip, list_elem_of_lookup_2.
    + destruct H as [H|H]; [by eapply filterDNSSEC_none|].
      apply list_elem_of_singleton in H as ->.
      apply opt_not_dnssec, newOPT_opt.
  - intros rr. rewrite !elem_of_app. intros [H|[H|H]]; try (by eapply filterDNSSEC_none).
    apply elem_of_List_filter in H as [H _]. by eapply filterDNSSEC_none.
Qed.

Lemma ensure_answer r query rr : rr ∈ mAnswer (ensureResponseEDNS r query) → rr ∈ mAnswer r.
Proof.
  assert (Hs : ∀ do : bool, rr ∈ mAnswer (if negb do then stripDNSSECRecords r else r) → rr ∈ mAnswer r).
  { intros []; simpl; [done|]. by intros [? _]%elem_of_List_filter. }
  unfold ensureResponseEDNS. destruct (IsEdns0 query) as [[k o]|]; [|exact (Hs false)].
  destruct (IsEdns0 (if negb (optDo o) then stripDNSSECRecords r else r)) as [[i p]|]; exact (Hs (optDo o)).
Qed.

Lemma tcp_response_allowed {laws : DnsLaws dl} s clk query w p a :
  s_policy s = Some p → allow p = Some a →
  ∀ rr, rr ∈ mAnswer (fst (tcp_response s clk query w)) → record_allowed p a rr.
Proof.
  intros Hs Ha rr.
  destruct (tcp_response_cases s clk query w) as [[_ ->]|(q & Hq & [(r & w1 & Hp & ->)|[_ [(m & w1 & _ & ->)|(w1 & _ & ->)]]])].
  - intros Hin. by apply elem_of_nil in Hin.
  - unfold policyResponse in Hp. rewrite Hs in Hp.
    pose proof (Response_cases p query q [] (w_stats (bump s TotalQueries w)) Hq) as Hc.
    destruct (Response (Some p) query _) as [st m]. injection Hp as -> <-. intros Hin. exfalso.
    destruct Hc as [(_ & reason & [_ _ _ _ [Hans _] _ _] & [= _ ->])|[(_ & _ & [= _ ->])|(_ & _ & [=])]];
      simpl in Hin; [rewrite Hans in Hin|]; by apply elem_of_nil in Hin.
  - by apply Answer_allowed.
  - unfold forward. destruct (call_resolver query _) as [res w2]. 
    match goal with |- context [let '(_, _) := ?x in policyAnswer _ _ _ _] => destruct x as [r w3] end.
    by apply Answer_allowed.
Qed.

(** A normalised reply is safe if its answer is; cutting it short keeps it safe. *)
Lemma ensure_safe {laws : DnsLaws dl} s query r :
  (∀ p a, s_policy s = Some p → allow p = Some a → ∀ rr, rr ∈ mAnswer r → record_allowed p a rr) →
  reply_safe s query (ensureResponseEDNS r query).
Proof.
  intros Hall. split.
  - intros Hq. unfold ensureResponseEDNS. rewrite Hq. apply count_stripOPT.
  - intros Hdo. by apply ensure_dnssec.
  - intros p a Hp Ha rr Hin%ensure_answer. eauto.
Qed.

Lemma truncate_safe {tr : TruncateLaws dl} s query size r : reply_safe s query r → reply_safe s query (Truncate size r).
Proof.
  intros [H1 H2 H3]. split.
  - intros Hq. specialize (H1 Hq). rewrite count_zero in H1 |- *. intros rr Hin%Truncate_extra. by apply H1.
  - intros Hdo rr. rewrite !elem_of_app. intros Hin. apply (H2 Hdo). rewrite !elem_of_app.
    destruct Hin as [Hin%Truncate_answer|[Hin%Truncate_ns|Hin%Truncate_extra]]; auto.
  - intros p a Hp Ha rr Hin%Truncate_answer. eauto.
Qed.

Lemma packStream_packed {laws : DnsLaws dl} s query r buf replaced :
  reply_safe s query r → packStream r query = (Some buf, replaced) →
  ∃ m, Pack m = Some buf ∧ reply_safe s query m ∧ (replaced = false → m = r).
Proof.
  intros Hr. unfold packStream. destruct (Pack r) as [b|] eqn:Ep; [|done]. destruct (blen b <=? MaxMsgSize); intros [= Hb <-].
  - subst b. by exists r.
  - exists (ensureResponseEDNS (servfail query) query). split_and!; [done| |done]. apply ensure_safe. intros p a _ _ rr Hin. by apply elem_of_nil in Hin.
Qed.

(** C14: Whatever the path (malformed, denied, cached, upstream, stale) and whichever
    transport of Mode 1, the bytes sent to the client are a packed message, after
    truncation (UDP) or replacement by SERVFAIL (TCP), that has no OPT record if its
    query had none, no DNSSEC record in any section if it did not set DO, and, with an
    allowlist on, no record in the answer section, signatures (RRSIG) apart, that is
    outside the allowlist or of a type that is not allowed. *)
Theorem replies_are_safe {laws : DnsLaws dl} {tr : TruncateLaws dl} s clk w :
  (∀ wr query r buf replaced w', tcp_query s clk wr query w = (Some (r, buf, replaced), w') →
     ∃ m, Pack m = Some buf ∧ reply_safe s query m ∧ (replaced = false → m = r)) ∧
  (∀ queryBuf r buf w', handleDNSQuery s clk queryBuf w = (Some (r, buf), w') →
     ∃ query, Unpack queryBuf = Some query ∧ Pack r = Some buf ∧ reply_safe s query r).
Proof.
  split.
  - intros wr query r buf replaced w'. unfold tcp_query. pose proof (tcp_response_allowed s clk query w) as Hall.
    destruct (tcp_response s clk query w) as [r0 w0]. simpl in Hall.
    destruct (packStream _ query) as [[b|] rep] eqn:Ep; [|done]. destruct wr; [|done]. simpl. intros [= <- <- <- _].
    eapply packStream_packed; [|exact Ep]. by apply ensure_safe.
  - intros queryBuf r buf w' H. destruct (Unpack queryBuf) as [query|] eqn:Hu; [|by unfold handleDNSQuery in H; rewrite Hu in H].
    exists query. split; [done|]. rewrite (udp_as_tcp s clk queryBuf query w Hu) in H. unfold send_udp, packUDP in H.
    pose proof (tcp_response_allowed s clk query w) as Hall. destruct (tcp_response s clk query w) as [r0 w0]. simpl in Hall.
    destruct (Pack _) as [b|] eqn:Ep; [|done]. injection H as <- <- _. split; [exact Ep|]. by apply truncate_safe, ensure_safe.
Qed.

(** ** Failing closed *)

(** Nothing stale is available for the query. *)
Definition no_stale (clk : Clock) (query : Msg) w : Prop :=
  w_cache w ≫= (λ c, GetStale c (t_stale clk) (Some query)) = None.

(** The world in which the resolver is called. *)
Definition missed (s : Server) w : World W V := bump s UpstreamQueries (bump s CacheMisses w).

Lemma call_resolver_frame query w :
  let w' := snd (call_resolver query w) in w_cache w' = w_cache w ∧ w_val w' = w_val w.
Proof. unfold call_resolver. by destruct (resolve _ _ _) as [[res u] st]. Qed.

Lemma upstreamFailure_closed s clk query w :
  no_stale clk query w → upstreamFailureResponse s clk query w = (servfail query, w).
Proof. unfold no_stale, upstreamFailureResponse. by intros ->. Qed.

Lemma policyAnswer_servfail s query q w : fst (policyAnswer s q (servfail query) w) = servfail query.
Proof. unfold policyAnswer, Answer. destruct (s_policy s) as [p|]; [|done]. by destruct (allow p). Qed.

Lemma policyAnswer_cache s query r w : w_cache (snd (policyAnswer s query r w)) = w_cache w.
Proof. unfold policyAnswer. by destruct (Answer _ _ _ _). Qed.

Lemma missed_frame s w : w_cache (missed s w) = w_cache w ∧ w_val (missed s w) = w_val w.
Proof. unfold missed. by autorewrite with world. Qed.

(** C30: Fail closed: when the upstream chain fails, or the validator finds the
    answer bogus, and no stale entry is available, the client gets SERVFAIL
    with no record at all, and nothing is stored in the cache. *)
Theorem forward_fail_closed s clk query w :
  no_stale clk query w →
  (fst (call_resolver query (missed s w)) = Err () ∨
   ∃ r, fst (call_resolver query (missed s w)) = Ok r ∧ s_validator s = true ∧ fst (validate r (w_val w)) = Bogus) →
  fst (forward s clk query w) = servfail query ∧ w_cache (snd (forward s clk query w)) = w_cache w.
Proof.
  intros Hst Hcase. unfold forward. fold (missed s w).
  pose proof (call_resolver_frame query (missed s w)) as [Hc Hv].
  destruct (missed_frame s w) as [Hmc Hmv]. rewrite Hmc in Hc. rewrite Hmv in Hv.
  destruct (call_resolver query (missed s w)) as [res w1]. simpl in *.
  destruct Hcase as [->|(r & -> & -> & Hb)].
  - rewrite upstreamFailure_closed by (unfold no_stale; autorewrite with world; by rewrite Hc).
    rewrite policyAnswer_servfail, policyAnswer_cache. autorewrite with world. done.
  - unfold applyDNSSEC. autorewrite with world. rewrite Hv.
    destruct (validate r (w_val w)) as [verdict v]. simpl in Hb. subst verdict.
    rewrite upstreamFailure_closed by (unfold no_stale; autorewrite with world; simpl; autorewrite with world; by rewrite Hc).
    rewrite policyAnswer_servfail, policyAnswer_cache. autorewrite with world. simpl. autorewrite with world.
    rewrite Hc. split; [done|]. destruct (w_cache w) as [c|] eqn:Ew.
    + assert (Hno : cacheableResponse (Some c) (servfail query) = false) by (simpl; apply andb_false_r).
      rewrite Hno, andb_false_r. autorewrite with world. simpl. autorewrite with world. done.
    + autorewrite with world. simpl. autorewrite with world. done.
Qed.

(** The answer check lets a reply pass as it is, or replaces it by one without AD. *)
Lemma policyAnswer_cases {laws : DnsLaws dl} s query r w :
  fst (policyAnswer s query r w) = r ∨ mAuthenticatedData (fst (policyAnswer s query r w)) = false.
Proof.
  unfold policyAnswer, Answer. destruct (s_policy s) as [p|]; [|by left]. destruct (allow p) as [a|]; [|by left].
  destruct (first_refused p a (mAnswer r)) as [reason|]; [|by left]. right.
  pose proof (deny_refusal p query reason (w_stats w)) as [_ Hr].
  destruct (deny p query reason (w_stats w)) as [st m]. simpl in *. by destruct Hr.
Qed.

Lemma ad_secure {laws : DnsLaws dl} s clk query w :
  s_validator s = true → no_stale clk query w →
  mAuthenticatedData (fst (forward s clk query w)) = true →
  ∃ r, fst (call_resolver query (missed s w)) = Ok r ∧ fst (validate r (w_val w)) = Secure ∧
       fst (forward s clk query w) = set_AD true r.
Proof.
  intros Hval Hst Had. revert Had. unfold forward. fold (missed s w). rewrite Hval.
  pose proof (call_resolver_frame query (missed s w)) as [Hc Hv].
  destruct (missed_frame s w) as [Hmc Hmv]. rewrite Hmc in Hc. rewrite Hmv in Hv.
  destruct (call_resolver query (missed s w)) as [[r|[]] w1]; simpl in *.
  - unfold applyDNSSEC. autorewrite with world. rewrite Hv. destruct (validate r (w_val w)) as [[] v] eqn:Ev.
    + match goal with |- context [policyAnswer _ _ _ ?x] => destruct (policyAnswer_cases s query (set_AD true r) x) as [E|E] end;
        intros Had; [exists r; by rewrite Ev|congruence].
    + match goal with |- context [policyAnswer _ _ _ ?x] => destruct (policyAnswer_cases s query (set_AD false r) x) as [E|E] end;
        rewrite E; done.
    + rewrite upstreamFailure_closed
        by (unfold no_stale; autorewrite with world; simpl; autorewrite with world; by rewrite Hc).
      by rewrite policyAnswer_servfail.
  - rewrite upstreamFailure_closed by (unfold no_stale; autorewrite with world; by rewrite Hc).
    by rewrite policyAnswer_servfail.
Qed.

(** The AD bit is earned: with the validator on and nothing stale to serve,
    a forwarded query is answered with the AD bit only if the upstream chain
    answered and the validator found that very answer secure; the bit an
    upstream sets by itself never reaches the client. *)
Theorem forward_ad_only_if_secure {laws : DnsLaws dl} s clk query w :
  s_validator s = true → no_stale clk query w →
  mAuthenticatedData (fst (forward s clk query w)) = true →
  ∃ r, fst (call_resolver query (missed s w)) = Ok r ∧ fst (validate r (w_val w)) = Secure ∧
       fst (forward s clk query w) = set_AD true r.
Proof. apply ad_secure. Qed.

(** ** Accounting *)

Definition buckets : list counter := [SuccessResponses; ServfailResponses; NxdomainResponses; OtherResponses].
Definition same_buckets (st st' : Stats) : Prop := ∀ c, c ∈ buckets → cnt st' c = cnt st c.

Lemma same_buckets_trans st1 st2 st3 : same_buckets st1 st2 → same_buckets st2 st3 → same_buckets st1 st3.
Proof. intros H1 H2 c Hc. by rewrite H2, H1. Qed.

Lemma bump_buckets s c w : c ∉ buckets → same_buckets (w_stats w) (w_stats (bump s c w)).
Proof.
  intros Hc c' Hc'. unfold bump. destruct (s_stats s); simpl; [|done]. rewrite decide_False; [done|congruence].
Qed.

Lemma inc_buckets c st : c ∉ buckets → same_buckets st (inc c st).
Proof. intros Hc c' Hc'. apply cnt_inc_ne. congruence. Qed.

Lemma latency_buckets s us w : same_buckets (w_stats w) (w_stats (record_latency s us w)).
Proof.
  intros c Hc. unfold record_latency. destruct (s_stats s); [|done].
  cbn [w_stats set_stats]. unfold RecordLatency, recordLatencyInto, mode1_latency, inc, add. cbn [lTotal lCount lMin lMax].
  assert (Hne : c ≠ LatencyTotalUs ∧ c ≠ LatencyCount ∧ c ≠ LatencyMinUs ∧ c ≠ LatencyMaxUs)
    by (unfold buckets in Hc; set_solver).
  destruct Hne as (? & ? & ? & ?). repeat case_match; rewrite ?cnt_store_ne by done; done.
Qed.

Lemma deny_buckets p query reason st : same_buckets st (fst (deny p query reason st)).
Proof.
  unfold deny, count. destruct (Policy.hasStats p), (IsEdns0 query) as [?|]; simpl; try done;
    repeat case_match; simpl; try done; apply inc_buckets; unfold buckets; set_solver.
Qed.

Lemma policyResponse_buckets s query w :
  same_buckets (w_stats w) (w_stats (snd (policyResponse s query w))).
Proof.
  unfold policyResponse. destruct (s_policy s) as [p|]; [|done]. unfold Response, block_check, Policy.count.
  destruct (mQuestion query) as [|q qs]; [done|].
  pose proof (λ reason, deny_buckets p query reason (w_stats w)) as Hd.
  assert (Hb : same_buckets (w_stats w) (inc BlockedQueries (w_stats w)))
    by (apply inc_buckets; unfold buckets; set_solver).
  repeat case_match; simplify_eq/=; try done;
    match goal with H : deny _ _ ?r _ = _ |- _ => specialize (Hd r); by rewrite H in Hd end.
Qed.

Lemma policyAnswer_buckets s query r w :
  same_buckets (w_stats w) (w_stats (snd (policyAnswer s query r w))).
Proof.
  unfold policyAnswer, Answer. destruct (s_policy s) as [p|]; [|done]. destruct (allow p) as [a|]; [|done].
  destruct (first_refused p a (mAnswer r)) as [reason|]; [|done].
  pose proof (deny_buckets p query reason (w_stats w)). by destruct (deny p query reason (w_stats w)).
Qed.

Lemma upstreamFailure_buckets s clk query w :
  same_buckets (w_stats w) (w_stats (snd (upstreamFailureResponse s clk query w))).
Proof.
  unfold upstreamFailureResponse. destruct (_ ≫= _); [|done]. apply bump_buckets. unfold buckets. set_solver.
Qed.

Lemma applyDNSSEC_buckets s clk r query w :
  same_buckets (w_stats w) (w_stats (snd (applyDNSSEC s clk r query w))).
Proof.
  unfold applyDNSSEC. destruct (validate r (w_val w)) as [[] v]; cbn [snd].
  - apply (bump_buckets s DnssecValidated (set_val v w)). unfold buckets. set_solver.
  - apply (bump_buckets s DnssecUnsigned (set_val v w)). unfold buckets. set_solver.
  - eapply same_buckets_trans; [|apply upstreamFailure_buckets].
    apply (bump_buckets s DnssecFailed (set_val v w)). unfold buckets. set_solver.
Qed.

Lemma call_resolver_buckets query w :
  same_buckets (w_stats w) (w_stats (snd (call_resolver query w))).
Proof.
  unfold call_resolver. destruct (resolve _ _ _) as [[res u] st] eqn:E. simpl.
  intros c Hc. apply (resolve_stats _ _ _ _ _ _ E). unfold buckets in Hc. set_solver.
Qed.

Lemma forward_buckets s clk query w :
  same_buckets (w_stats w) (w_stats (snd (forward s clk query w))).
Proof.
  unfold forward. fold (missed s w).
  assert (H1 : same_buckets (w_stats w) (w_stats (missed s w))).
  { eapply same_buckets_trans; apply bump_buckets; unfold buckets; set_solver. }
  pose proof (call_resolver_buckets query (missed s w)) as H2.
  destruct (call_resolver query (missed s w)) as [[r|[]] w2]; simpl in H2.
  - pose proof (latency_buckets s (t_latency clk) w2) as H3.
    set (w3 := record_latency s (t_latency clk) w2) in *.
    assert (H4 : ∀ r' w4, (if s_validator s then applyDNSSEC s clk r query w3 else (r, w3)) = (r', w4) →
      same_buckets (w_stats w3) (w_stats w4)).
    { intros r' w4 E. destruct (s_validator s); [|by injection E as _ <-].
      pose proof (applyDNSSEC_buckets s clk r query w3) as H. by rewrite E in H. }
    destruct (if s_validator s then _ else _) as [r' w4]. specialize (H4 r' w4 eq_refl).
    eapply same_buckets_trans; [|apply policyAnswer_buckets].
    do 2 (eapply same_buckets_trans; [eassumption|]). eapply same_buckets_trans; [eassumption|].
    by destruct (w_cache w4); [destruct (_ && _)%bool|].
  - pose proof (upstreamFailure_buckets s clk query (bump s UpstreamErrors w2)) as H3.
    destruct (upstreamFailureResponse s clk query _) as [r' w4]. simpl in H3.
    eapply same_buckets_trans; [|apply policyAnswer_buckets].
    do 2 (eapply same_buckets_trans; [eassumption|]). eapply same_buckets_trans; [|eassumption].
    apply bump_buckets. unfold buckets. set_solver.
Qed.

Lemma cache_get_buckets s clk query w :
  same_buckets (w_stats w) (w_stats (snd (cache_get s clk query w))).
Proof.
  unfold cache_get. destruct (w_cache w) as [c|]; [|done]. destruct (negb _); [done|].
  destruct (Get c (t_get clk) (Some query)) as [[m|] c']; cbn [snd]; [|done].
  apply (bump_buckets s CacheHits (set_cache (Some c') w)). unfold buckets. set_solver.
Qed.

Lemma tcp_response_buckets s clk query w :
  same_buckets (w_stats w) (w_stats (snd (tcp_response s clk query w))).
Proof.
  eapply same_buckets_trans; [apply (bump_buckets s TotalQueries); unfold buckets; set_solver|].
  pose proof (policyResponse_buckets s query (bump s TotalQueries w)) as Hp.
  pose proof (cache_get_buckets s clk query (bump s TotalQueries w)) as Hg.
  destruct (tcp_response_cases s clk query w) as [[_ ->]|(q & Hq & [(r & w1 & E & ->)|[E [(m & w1 & Hc & ->)|(w1 & Hc & ->)]]])].
  - done.
  - by rewrite E in Hp.
  - rewrite Hc in Hg. eapply same_buckets_trans; [exact Hg|apply policyAnswer_buckets].
  - rewrite Hc in Hg. eapply same_buckets_trans; [exact Hg|apply forward_buckets].
Qed.

(** The four response counters after a reply with this rcode, or after none. *)
Definition accounted (st st' : Stats) (rcode : option Z) : Prop :=
  let raised (b : Z → bool) : Z := match rcode with Some r => if b r then 1 else 0 | None => 0 end in
  cnt st' SuccessResponses = cnt st SuccessResponses + raised (λ r, r =? 0) ∧
  cnt st' ServfailResponses = cnt st ServfailResponses + raised (λ r, r =? 2) ∧
  cnt st' NxdomainResponses = cnt st NxdomainResponses + raised (λ r, r =? 3) ∧
  cnt st' OtherResponses = cnt st OtherResponses + raised (λ r, negb (existsb (Z.eqb r) [0; 2; 3])).

Lemma accounted_none st st' : same_buckets st st' → accounted st st' None.
Proof. intros H. unfold accounted. cbn. rewrite !H by (unfold buckets; set_solver). split_and!; lia. Qed.

Lemma record_response_accounted s rc st w :
  s_stats s = true → headroom 1 st → same_buckets st (w_stats w) → accounted st (w_stats (record_response s rc w)) (Some rc).
Proof.
  intros Hs Hh Hb. unfold record_response. rewrite Hs. cbn [w_stats set_stats]. unfold accounted, RecordResponse. cbv zeta.
  assert (Hc : ∀ c, c ∈ buckets → cnt (inc (response_bucket rc) (w_stats w)) c =
    cnt st c + if decide (c = response_bucket rc) then 1 else 0).
  { intros c Hin. case_decide as Hd; [|rewrite cnt_inc_ne by done; rewrite Hb by done; lia].
    rewrite <-Hd, cnt_inc_eq; rewrite (Hb c Hin); [done|]. specialize (Hh c).
    unfold in_int64, min_int64, max_int64 in *. lia. }
  rewrite !Hc by (unfold buckets; set_solver). clear Hc.
  unfold response_bucket, rcodeNOERROR, rcodeSERVFAIL, rcodeNXDOMAIN. cbn [existsb].
  destruct (rc =? 0) eqn:E0, (rc =? 2) eqn:E2, (rc =? 3) eqn:E3; bool_prop; try lia; by split_and!.
Qed.


(** A TCP reply that is too long for its length prefix goes out as SERVFAIL
    but is counted under the rcode of the reply it replaced: an oversized
    successful answer raises the success bucket, and the SERVFAIL that was
    really sent is not counted. *)
Theorem oversized_reply_miscounted s clk query w r buf w' :
  s_stats s = true → headroom 1 (w_stats w) →
  tcp_query s clk true query w = (Some (r, buf, true), w') → mRcode r = RcodeSuccess →
  Pack (ensureResponseEDNS (servfail query) query) = Some buf ∧
  cnt (w_stats w') ServfailResponses = cnt (w_stats w) ServfailResponses ∧
  cnt (w_stats w') SuccessResponses = cnt (w_stats w) SuccessResponses + 1.
Proof.
  intros Hs Hh H Hrc. unfold tcp_query in H. pose proof (tcp_response_buckets s clk query w) as Hb.
  destruct (tcp_response s clk query w) as [r0 w1]. simpl in Hb. unfold packStream in H.
  destruct (Pack (ensureResponseEDNS r0 query)) as [b|]; [|done].
  destruct (blen b <=? MaxMsgSize); [done|].
  destruct (Pack (ensureResponseEDNS (servfail query) query)) as [b'|]; [|done]. simpl in H.
  injection H as <- <- <-. split; [done|]. unfold record_response. rewrite Hs, Hrc. cbn [w_stats set_stats].
  unfold RecordResponse, response_bucket; simpl Z.eqb; cbv iota.
  rewrite cnt_inc_ne by done. rewrite cnt_inc_eq; rewrite !Hb by (unfold buckets; set_solver); [done|].
  specialize (Hh SuccessResponses). unfold in_int64, min_int64, max_int64 in *. lia.
Qed.

(** ** Serve-stale and bogus answers *)

(** When the validator finds an upstream answer bogus and a stale entry
    exists, the stale response is not only served but stored again with a
    fresh lifetime: from then on it is a plain cache hit, also past the
    serve-stale bound counted from its original expiry. *)
Theorem bogus_refreshes_stale s clk query w q c stale r ttl now :
  s_validator s = true → mQuestion query = [q] → w_cache w = Some c →
  GetStale c (t_stale clk) (Some query) = Some stale →
  fst (call_resolver query (missed s w)) = Ok r → fst (validate r (w_val w)) = Bogus →
  cacheableResponse (Some c) stale = true → admitted c q (set_Id (mId query) stale) ttl →
  let w' := snd (forward s clk query w) in
  ∃ c', w_cache w' = Some c' ∧
    (now ≤ t_put clk + seconds ttl →
       fst (Get c' now (Some query)) = Some (set_Id (mId query) stale)).
Proof.
  intros Hval Hq Hc Hst Hres Hb Hca Had. cbn zeta. unfold forward. fold (missed s w). rewrite Hval.
  pose proof (call_resolver_frame query (missed s w)) as [Hc1 Hv1].
  destruct (missed_frame s w) as [Hmc Hmv]. rewrite Hmc in Hc1. rewrite Hmv in Hv1.
  destruct (call_resolver query (missed s w)) as [res w1]. simpl in *. subst res.
  unfold applyDNSSEC. autorewrite with world. rewrite Hv1.
  destruct (validate r (w_val w)) as [verdict v]. simpl in Hb. subst verdict.
  unfold upstreamFailureResponse. autorewrite with world. simpl. autorewrite with world.
  rewrite Hc1, Hc. simpl. rewrite Hst. simpl. autorewrite with world. simpl. autorewrite with world.
  rewrite Hc1, Hc, Hq. simpl. change (cacheableResponse (Some c) (set_Id (mId query) stale)) with
    (cacheableResponse (Some c) stale). rewrite Hca. simpl.
  rewrite policyAnswer_cache. simpl. eexists. split; [reflexivity|].
  intros Hnow. unfold Get, Get_lookup. pose proof Had as (He & _).
  rewrite (Put_admitted (s_order s) c (t_put clk) query q [] _ ttl Hq Had). simpl. rewrite He, Hq. simpl.
  rewrite lookup_insert_eq. unfold IsExpired. simpl. by rewrite (proj2 (Z.ltb_ge _ _) Hnow).
Qed.

End Props.

(** ** The TCP byte stream *)

Lemma read_full_app buf rest : read_full (String.length buf) (buf +:+ rest) = Some (buf, rest).
Proof. induction buf as [|a buf IH]; simpl; [done|]. by rewrite IH. Qed.

Lemma read_full_length n input x rest :
  read_full n input = Some (x, rest) → (String.length rest + n = String.length input)%nat.
Proof.
  revert input x rest. induction n as [|n IH]; intros input x rest; simpl; [intros [= _ <-]; lia|].
  destruct input as [|a input]; [done|]. destruct (read_full n input) as [[y r]|] eqn:E; [|done].
  intros [= _ <-]. apply IH in E. simpl. lia.
Qed.

Lemma read_message_length input x rest :
  read_message input = Some (x, rest) → (String.length rest < String.length input)%nat.
Proof.
  unfold read_message. destruct input as [|hi [|lo input]]; try done. destruct (_ || _)%bool; [done|].
  intros H%read_full_length. simpl. lia.
Qed.

Lemma byte_of_value z : 0 ≤ z < 256 → Z.of_nat (nat_of_ascii (byte_of z)) = z.
Proof. intros Hz. unfold byte_of. rewrite nat_ascii_embedding by lia. lia. Qed.

(** Reading a framed message gives the message and the rest of the stream. *)
Lemma read_message_frame buf rest :
  0 < blen buf ≤ MaxMsgSize → read_message (frame buf +:+ rest) = Some (buf, rest).
Proof.
  intros Hb. pose proof (length_prefix_mod buf) as Hl. unfold frame.
  assert (Hr : 0 ≤ fst (length_prefix buf) < 256 ∧ 0 ≤ snd (length_prefix buf) < 256).
  { unfold length_prefix. cbn [fst snd]. change 255 with (Z.ones 8). rewrite !Z.land_ones by lia.
    split; apply Z.mod_pos_bound; lia. }
  destruct (length_prefix buf) as [hi lo]. cbn [fst snd] in Hr.
  change (read_message (String (byte_of hi) (String (byte_of lo) (buf +:+ rest))) = Some (buf, rest)).
  unfold read_message. rewrite !byte_of_value by lia. rewrite Hl.
  unfold MaxMsgSize in Hb. rewrite Z.mod_small by lia.
  destruct (_ || _)%bool eqn:E.
  { apply orb_true_iff in E as [E|E]; bool_prop; lia. }
  unfold blen. rewrite Nat2Z.id. apply read_full_app.
Qed.

(** What a client reads back from the bytes on the wire. *)
Fixpoint read_all (fuel : nat) (input : string) : list string :=
  match fuel with
  | O => []
  | S fuel' => match read_message input with Some (x, rest) => x :: read_all fuel' rest | None => [] end
  end.

Lemma read_all_written out fuel :
  (∀ m, m ∈ out → 0 < blen (snd (fst m)) ≤ MaxMsgSize) → (List.length out < fuel)%nat →
  read_all fuel (written out) = (λ m, snd (fst m)) <$> out.
Proof.
  revert fuel. induction out as [|m out IH]; intros fuel Hb Hf; destruct fuel as [|fuel]; simpl in Hf; try lia; [done|].
  cbn [written foldr read_all]. rewrite read_message_frame by (apply Hb; by left).
  cbn [fmap list_fmap]. f_equal. apply IH; [|lia]. intros m' Hm'. apply Hb. by right.
Qed.

Section Stream.
Context {dl : DnsLib} {W V : Type} {UR : UpstreamResolver W} {VA : Validator V}.
Implicit Type w : World W V.

(** The queries the connection carries. *)
Fixpoint queries_in (fuel : nat) (input : string) : list Msg :=
  match fuel with
  | O => []
  | S fuel' =>
      match read_message input with
      | None => []
      | Some (msgBuf, rest) => match Unpack msgBuf with Some query => [query] | None => [] end ++ queries_in fuel' rest
      end
  end.

Lemma tcp_loop_bounds fuel k s clk wr stop input w :
  (∀ m b, Pack m = Some b → b ≠ "") →
  (∀ query b, query ∈ queries_in fuel input → Pack (ensureResponseEDNS (servfail query) query) = Some b → blen b ≤ MaxMsgSize) →
  ∀ m, m ∈ fst (tcp_loop fuel k s clk wr stop input w) → 0 < blen (snd (fst m)) ≤ MaxMsgSize.
Proof.
  intros Hp. revert k input w. induction fuel as [|fuel IH]; intros k input w Hs m; simpl.
  { intros Hm. by apply elem_of_nil in Hm. }
  destruct (stop k); [intros Hm; by apply elem_of_nil in Hm|]. cbn [queries_in] in Hs.
  destruct (read_message input) as [[x rest]|]; [|intros Hm; by apply elem_of_nil in Hm].
  destruct (Unpack x) as [query|]; [|apply IH; intros q b Hq; apply Hs; set_solver].
  destruct (tcp_query s (clk k) (wr k) query w) as [[m0|] w1] eqn:E; [|intros Hm; by apply elem_of_nil in Hm].
  assert (Hs' : ∀ q b, q ∈ queries_in fuel rest → Pack (ensureResponseEDNS (servfail q) q) = Some b → blen b ≤ MaxMsgSize)
    by (intros q b Hq; apply Hs; set_solver).
  specialize (IH (S k) rest w1 Hs' m). destruct (tcp_loop fuel (S k) s clk wr stop rest w1) as [out w2]. simpl in *.
  intros [->|Hm]%elem_of_cons; [|auto]. clear IH. unfold tcp_query in E.
  destruct (tcp_response s (clk k) query w) as [r w3].
  destruct (packStream (ensureResponseEDNS r query) query) as [[b|] rep] eqn:Ep; [|done].
  destruct (wr k); simpl in E; [|done]. injection E as <- _. cbn [fst snd].
  assert (Hb : b ≠ "" ∧ blen b ≤ MaxMsgSize).
  { unfold packStream in Ep. destruct (Pack (ensureResponseEDNS r query)) as [b0|] eqn:E0; [|done].
    destruct (blen b0 <=? MaxMsgSize) eqn:E1; injection Ep as Ep _; [subst; bool_prop; eauto|]. split; [eauto|].
    apply (Hs query b); [by left|done]. }
  destruct Hb as [Hne Hle]. split; [|done]. unfold blen. destruct b; [done|]. simpl. lia.
Qed.

(** C39: The replies of a TCP connection survive the wire: a client that splits the written
    bytes at their length prefixes gets back exactly the packed replies, in order,
    whenever the connection ends.  This is for connections that carry no query whose
    bare SERVFAIL, the replacement for an oversized reply, would itself be longer than a
    message may be (the replacement echoes every question of the query uncompressed; see
    [oversized_question_desyncs] for one that is); a packed message is never empty, as it
    begins with its header. *)
Theorem tcp_stream_roundtrip s clk wr stop input w :
  (∀ m b, Pack m = Some b → b ≠ "") →
  (∀ query b, query ∈ queries_in (S (String.length input)) input →
     Pack (ensureResponseEDNS (servfail query) query) = Some b → blen b ≤ MaxMsgSize) →
  let out := fst (handleTCPConnection s clk wr stop input w) in
  read_all (S (List.length out)) (written out) = (λ m, snd (fst m)) <$> out.
Proof. intros Hp Hs. apply read_all_written; [|lia]. by apply tcp_loop_bounds. Qed.

(** A query with several questions whose SERVFAIL does not fit is still answered: the
    bytes go out with a length prefix that has wrapped around, and the client cannot read
    the reply back.  The check for the one question comes first, but its FORMERR echoes
    the questions too. *)
Theorem oversized_question_desyncs s clk query w b buf rest :
  List.length (mQuestion query) ≠ 1%nat →
  Pack (ensureResponseEDNS (formErrResponse query) query) = Some b → MaxMsgSize < blen b →
  Pack (ensureResponseEDNS (servfail query) query) = Some buf → MaxMsgSize < blen buf →
  option_map (λ m, snd (fst m)) (fst (tcp_query s clk true query w)) = Some buf ∧
  read_message (frame buf +:+ rest) ≠ Some (buf, rest).
Proof.
  intros Hq Hb Hbl Hp Hbuf. split.
  - unfold tcp_query, tcp_response. apply Nat.eqb_neq in Hq as ->. cbn [negb]. unfold packStream. rewrite Hb.
    apply Z.leb_gt in Hbl as ->. rewrite Hp. done.
  - intros H. assert (Hl : ∀ input x y, read_message input = Some (x, y) → blen x ≤ MaxMsgSize).
    { clear. intros input x y. unfold read_message. destruct input as [|hi [|lo input]]; try done.
      set (n := read_length _). destruct (_ || _)%bool eqn:E; [done|]. apply orb_false_iff in E as [_ E]. rewrite Z.gtb_ltb in E. apply Z.ltb_ge in E.
      intros H. assert (Hx : String.length x = Z.to_nat n); [|unfold blen, MaxMsgSize; lia]. revert H. generalize (Z.to_nat n). intros k.
      revert input x. induction k as [|k IH]; intros input x; simpl; [by intros [= <- _]|]. destruct input as [|a input]; [done|].
      destruct (read_full k input) as [[z r]|] eqn:Er; [|done]. intros [= <- <-]. simpl. f_equal. by eapply IH. }
    apply Hl in H. lia.
Qed.

(** The connection loop terminates: it never runs out of the fuel it is
    given, since more fuel than the length of the input changes nothing. *)
Theorem handleTCPConnection_terminates s clk wr stop input w fuel :
  (String.length input < fuel)%nat →
  tcp_loop fuel 0 s clk wr stop input w = handleTCPConnection s clk wr stop input w.
Proof.
  unfold handleTCPConnection.
  assert (H : ∀ n f1 f2 k input w, (String.length input < n)%nat → (n ≤ f1)%nat → (n ≤ f2)%nat →
    tcp_loop f1 k s clk wr stop input w = tcp_loop f2 k s clk wr stop input w).
  { clear. induction n as [|n IH]; intros f1 f2 k input w Hn H1 H2; [lia|].
    destruct f1 as [|f1], f2 as [|f2]; try lia. simpl. destruct (stop k); [done|].
    destruct (read_message input) as [[x rest]|] eqn:E; [|done]. apply read_message_length in E.
    destruct (Unpack x) as [query|]; [|apply IH; lia].
    destruct (tcp_query s (clk k) (wr k) query w) as [[m0|] w1]; [|done].
    rewrite (IH f1 f2 (S k) rest w1) by lia. done. }
  intros Hf. apply (H (S (String.length input))); lia.
Qed.

End Stream.

(** ** Witnesses

    The toy library with a given wire format; the chain of [Interfaces] as the
    resolver; a validator that always gives the verdict it holds. *)

Definition wireLib (pack : Msg → option string) (unpack : string → option Msg) : DnsLib := {|
  CanonicalName := @CanonicalName toyLib; Fqdn := @Fqdn toyLib; IsSubDomain := @IsSubDomain toyLib;
  SplitDomainName := @SplitDomainName toyLib; TypeToString := @TypeToString toyLib;
  ClassToString := @ClassToString toyLib; IsEdns0 := @IsEdns0 toyLib; newOPT := @newOPT toyLib;
  Truncate := @Truncate toyLib; Pack := pack; Unpack := unpack |}.

#[global] Instance wireLaws pack unpack : DnsLaws (wireLib pack unpack).
Proof.
  split; [exact (@IsEdns0_Some toyLib toyLaws)|exact (@IsEdns0_None toyLib toyLaws)|
    exact (@newOPT_spec toyLib toyLaws)|exact (@TypeToString_bar toyLib toyLaws)|exact (@ClassToString_bar toyLib toyLaws)].
Qed.

#[global] Instance wire_truncate pack unpack : TruncateLaws (wireLib pack unpack).
Proof. by split. Qed.

Definition ex_validator : Validator validation := λ _ v, (v, v).

Definition ex_squery : Msg := Policy.ex_query "www.example.com." TypeA.
Definition ex_up_answer : Msg :=
  mkMsg (replyHdr 7 RcodeSuccess) [mkQuestion "www.example.com." TypeA ClassINET]
        [mkRR (mkHeader "www.example.com." TypeA ClassINET 300) (D_Other "192.0.2.1")] [] [].
Definition exLib : DnsLib :=
  wireLib (λ m, Some (if mRcode m =? RcodeSuccess then "ok" else "no")) (λ _, Some ex_squery).

Definition ex_chain_state (out : outcome) : chain_state :=
  mkChain (NewFallbackResolver 0 [mkUpstream "dot" StateUP "" 0 0] true 300 3 30) 0 0 (λ _ _, out) (λ _, quiet).
Definition ex_world (c : option Cache) (out : outcome) (v : validation) : World chain_state validation :=
  mkWorld c (Statistics.New 0) (ex_chain_state out) v [].
Definition ex_server : Server := SetPolicy (Some ex_policy) (NewServer None true true ex_range).
Definition ex_clock : Clock := mkClock 0 0 0 1500.

Abbreviation exq := (tcp_query (dl := exLib) (UR := chain_resolver (dl := exLib)) (VA := ex_validator)).

Example ex_secure_reply :
  option_map (λ m : Msg * string * bool, (mRcode (fst (fst m)), mAuthenticatedData (fst (fst m)), snd (fst m)))
    (fst (exq ex_server ex_clock true ex_squery (ex_world None (Some ex_up_answer, None) Secure)))
  = Some (0, true, "ok").
Proof. vm_compute. done. Qed.

Lemma transports_agree_witness :
  fst (handleDNSQuery (dl := exLib) (UR := chain_resolver (dl := exLib)) (VA := ex_validator)
        ex_server ex_clock "query" (ex_world None (None, Some "timeout") Secure)) =
  Some (ensureResponseEDNS (dl := exLib) (servfail ex_squery) ex_squery, "no").
Proof.
  pose proof (transports_agree (dl := exLib) (UR := chain_resolver (dl := exLib)) (VA := ex_validator)
    ex_server ex_clock "query" ex_squery (ex_world None (None, Some "timeout") Secure) eq_refl) as H.
  destruct (tcp_response _ _ _ _) as [r w'] eqn:E. destruct H as [H _]. rewrite H. clear H.
  assert (Er : r = servfail ex_squery) by (change r with (fst (r, w')); rewrite <-E; vm_compute; reflexivity).
  rewrite Er. reflexivity.
Defined.

Lemma replies_are_safe_witness :
  ∃ m, Pack (DnsLib := exLib) m = Some "ok" ∧ reply_safe (dl := exLib) ex_server ex_squery m.
Proof.
  destruct (replies_are_safe (dl := exLib) (UR := chain_resolver (dl := exLib)) (VA := ex_validator) (laws := wireLaws _ _) (tr := wire_truncate _ _)
    ex_server ex_clock (ex_world None (Some ex_up_answer, None) Secure)) as [H _].
  destruct (exq ex_server ex_clock true ex_squery (ex_world None (Some ex_up_answer, None) Secure))
    as [[[[r buf] replaced]|] w'] eqn:E.
  - assert (Eb : buf = "ok") by (apply (f_equal (λ x, option_map (λ m, snd (fst m)) (fst x))) in E; vm_compute in E; injection E as <-; reflexivity).
    rewrite <-Eb. destruct (H _ _ _ _ _ _ E) as (m & H1 & H2 & _). exists m. split; [exact H1|exact H2].
  - exfalso. apply (f_equal fst) in E. vm_compute in E. discriminate E.
Defined.

Lemma forward_fail_closed_witness :
  fst (forward (dl := exLib) (UR := chain_resolver (dl := exLib)) (VA := ex_validator)
    ex_server ex_clock ex_squery (ex_world None (Some ex_up_answer, None) Bogus)) = servfail ex_squery.
Proof.
  apply (forward_fail_closed (dl := exLib) (UR := chain_resolver (dl := exLib)) (VA := ex_validator)
    ex_server ex_clock ex_squery (ex_world None (Some ex_up_answer, None) Bogus)); [reflexivity|].
  right. exists ex_up_answer. split; [vm_compute; reflexivity|]. split; reflexivity.
Defined.

Lemma forward_ad_only_if_secure_witness :
  ∃ r, fst (validate (Validator := ex_validator) r Secure) = Secure ∧
    fst (forward (dl := exLib) (UR := chain_resolver (dl := exLib)) (VA := ex_validator)
      ex_server ex_clock ex_squery (ex_world None (Some ex_up_answer, None) Secure)) = set_AD true r.
Proof.
  destruct (forward_ad_only_if_secure (dl := exLib) (UR := chain_resolver (dl := exLib)) (VA := ex_validator)
    (laws := wireLaws _ _) ex_server ex_clock ex_squery (ex_world None (Some ex_up_answer, None) Secure))
    as (r & _ & Hv & Hr); [reflexivity|reflexivity|vm_compute; reflexivity|].
  exists r. split; [exact Hv|exact Hr].
Defined.

Lemma ex_headroom n : 0 ≤ n ≤ max_int64 → headroom 1 (Statistics.New n).
Proof. intros _ c. simpl. unfold max_int64. lia. Qed.


(** A wire format in which successful answers are too long. *)
Fixpoint doubled (n : nat) (s : string) : string := match n with O => s | S n' => doubled n' (s +:+ s) end.
Definition bigLib : DnsLib :=
  wireLib (λ m, Some (if mRcode m =? RcodeSuccess then doubled 16 "x" else "no")) (λ _, Some ex_squery).

Lemma oversized_reply_miscounted_witness :
  ∃ w', cnt (w_stats w') ServfailResponses = 0 ∧ cnt (w_stats w') SuccessResponses = 1 ∧
    w' = snd (tcp_query (dl := bigLib) (UR := chain_resolver (dl := bigLib)) (VA := ex_validator)
           ex_server ex_clock true ex_squery (ex_world None (Some ex_up_answer, None) Secure)).
Proof.
  destruct (tcp_query (dl := bigLib) (UR := chain_resolver (dl := bigLib)) (VA := ex_validator)
    ex_server ex_clock true ex_squery (ex_world None (Some ex_up_answer, None) Secure))
    as [[[[r buf] replaced]|] w'] eqn:E.
  - assert (Er : mRcode r = RcodeSuccess ∧ replaced = true).
    { assert (Hf : option_map (λ m : Msg * string * bool, (mRcode (fst (fst m)), snd m)) (Some (r, buf, replaced))
        = Some (RcodeSuccess, true)) by (rewrite <-(f_equal fst E : _ = Some (r, buf, replaced)); vm_compute; reflexivity).
      clear E. injection Hf as Hf1 Hf2. split; assumption. }
    destruct Er as [Er ->]. exists w'.
    destruct (oversized_reply_miscounted (dl := bigLib) (UR := chain_resolver (dl := bigLib)) (VA := ex_validator)
      ex_server ex_clock ex_squery (ex_world None (Some ex_up_answer, None) Secure) r buf w') as (_ & H1 & H2);
      [reflexivity|apply ex_headroom; unfold max_int64; lia|exact E|exact Er|].
    split; [exact H1|]. split; [exact H2|reflexivity].
  - exfalso. apply (f_equal (λ x, match fst x with Some _ => true | None => false end)) in E.
    vm_compute in E. discriminate E.
Defined.

(** An entry that expired at 120 s and may be served stale for an hour. *)
Definition ex_stale_query : Msg := Cache.ex_req.
Definition ex_stale_clock : Clock := mkClock (seconds 200) (seconds 200) (seconds 200) 0.
Definition ex_stale_world : World chain_state validation :=
  ex_world (Some ex_cache) (Some (mkMsg (replyHdr 7 RcodeSuccess) [ex_q] [] [] []), None) Bogus.
Definition ex_stale_server : Server := NewServer None true true ex_range.

Lemma bogus_refreshes_stale_witness :
  ∃ c', w_cache (snd (forward (dl := toyLib) (UR := chain_resolver (dl := toyLib)) (VA := ex_validator)
           ex_stale_server ex_stale_clock ex_stale_query ex_stale_world)) = Some c' ∧
    (seconds 310 ≤ seconds 200 + seconds 120 →
       fst (Get (dl := toyLib) c' (seconds 310) (Some ex_stale_query)) = Some (set_Id 7 ex_resp)).
Proof.
  apply (bogus_refreshes_stale (dl := toyLib) (UR := chain_resolver (dl := toyLib)) (VA := ex_validator)
    ex_stale_server ex_stale_clock ex_stale_query ex_stale_world ex_q ex_cache ex_resp
    (mkMsg (replyHdr 7 RcodeSuccess) [ex_q] [] [] []) 120 (seconds 310)); vm_compute; try reflexivity.
  split; [reflexivity|]. split; reflexivity.
Defined.

Lemma tcp_stream_roundtrip_witness :
  read_all 2 (written (fst (handleTCPConnection (dl := exLib) (UR := chain_resolver (dl := exLib)) (VA := ex_validator)
    ex_server (λ _, ex_clock) (λ _, true) (λ _, false) (frame "query") (ex_world None (Some ex_up_answer, None) Secure)))) = ["ok"].
Proof.
  refine (tcp_stream_roundtrip (dl := exLib) (UR := chain_resolver (dl := exLib)) (VA := ex_validator)
    ex_server (λ _, ex_clock) (λ _, true) (λ _, false) (frame "query") (ex_world None (Some ex_up_answer, None) Secure) _ _).
  - intros m b [= <-]. by destruct (_ =? _).
  - intros query b _ [= <-]. destruct (_ =? _); vm_compute; discriminate.
Defined.

(** A query with two questions, and a wire format in which everything that echoes them
    is too long. *)
Definition ex_two : Msg := mkMsg (replyHdr 7 RcodeSuccess) [mkQuestion "a." TypeA ClassINET; mkQuestion "b." TypeA ClassINET] [] [] [].
Definition longLib : DnsLib := wireLib (λ m, Some (if (1 <? List.length (mQuestion m))%nat then doubled 16 "x" else "no")) (λ _, Some ex_two).

Lemma oversized_question_desyncs_witness :
  read_message (frame (doubled 16 "x") +:+ "") ≠ Some (doubled 16 "x", "").
Proof.
  apply (oversized_question_desyncs (dl := longLib) (UR := chain_resolver (dl := longLib)) (VA := ex_validator)
    ex_server ex_clock ex_two (ex_world None (Some ex_up_answer, None) Secure) (doubled 16 "x") (doubled 16 "x") "").
  - discriminate.
  - reflexivity.
  - vm_compute. reflexivity.
  - reflexivity.
  - vm_compute. reflexivity.
Defined.

Lemma handleTCPConnection_terminates_witness :
  tcp_loop (dl := exLib) (UR := chain_resolver (dl := exLib)) (VA := ex_validator) 100 0
    ex_server (λ _, ex_clock) (λ _, true) (λ _, false) (frame "query") (ex_world None (Some ex_up_answer, None) Secure) =
  handleTCPConnection (dl := exLib) (UR := chain_resolver (dl := exLib)) (VA := ex_validator)
    ex_server (λ _, ex_clock) (λ _, true) (λ _, false) (frame "query") (ex_world None (Some ex_up_answer, None) Secure).
Proof.
  apply (handleTCPConnection_terminates (dl := exLib) (UR := chain_resolver (dl := exLib)) (VA := ex_validator)).
  vm_compute. lia.
Defined.
