(* ===== verification/Dnssec.v ===== *)
(** * DNSSEC: anchors, signatures and denial proofs
      (internal/dnssec/anchors.go, nsec3.go and the helpers of chain.go)

    The cryptography is the DNS library's and is the class [DnssecLib].  A Go
    [*dns.DNSKEY], [*dns.RRSIG], [*dns.NSEC] or [*dns.NSEC3] is the pair of its
    header and its data.  All clock readings of one validation are one instant
    [now]. *)

From stdpp Require Import pretty.
From S2P Require Import Prelude GoStrings DnsMsg.
From Stdlib Require Import Ascii String.
Open Scope string_scope.
Open Scope list_scope.
Open Scope Z_scope.

Definition key : Type := RR_Header * DNSKEY.
Definition sig : Type := RR_Header * RRSIG.

(** The result of [RRSIG.Verify]: nil, an error for which [unprocessableKey]
    holds ([ErrKey], [ErrAlg], [ErrKeyAlg]), or another error ([ErrSig], ...). *)
Inductive vresult := VOk | VUnprocessable | VBad.

Class DnssecLib := {
  KeyTag : key → Z;
  (** [k.ToDS(digestType)]: the digest in hexadecimal, or nil. *)
  ToDS : key → Z → option string;
  Verify : sig → key → list RR → vresult;
  ValidityPeriod : sig → Z → bool;
  NSEC3_Match : RR_Header * NSEC3 → string → bool;
  NSEC3_Cover : RR_Header * NSEC3 → string → bool
}.

(** ** Trust anchors *)

Record TrustAnchor := mkAnchor {
  taKeyTag : Z; taAlgorithm : Z; taDigestType : Z; taDigest : string; taValidFrom : Z; taValidUntil : option Z }.

Definition hexdigit (n : nat) : ascii :=
  if (n <? 10)%nat then ascii_of_nat (48 + n) else ascii_of_nat (87 + n).

(** [hex.EncodeToString]. *)
Fixpoint hex_encode (s : string) : string :=
  match s with
  | "" => ""
  | String a s' =>
      let n := nat_of_ascii a in
      String (hexdigit (n / 16)) (String (hexdigit (n mod 16)) (hex_encode s'))
  end.

Definition hexval (a : ascii) : option nat :=
  if is_digit a then Some (nat_of_ascii a - 48)%nat
  else if in_range 97 102 a then Some (nat_of_ascii a - 87)%nat
  else if in_range 65 70 a then Some (nat_of_ascii a - 55)%nat
  else None.

(** [hex.DecodeString]: fails on an odd length or a character that is no digit. *)
Fixpoint hex_decode (s : string) : option string :=
  match s with
  | "" => Some ""
  | String a (String b s') =>
      match hexval a, hexval b, hex_decode s' with
      | Some x, Some y, Some t => Some (String (ascii_of_nat (16 * x + y)) t)
      | _, _, _ => None
      end
  | String _ "" => None
  end.

(** [strings.ReplaceAll(s, " ", "")]. *)
Fixpoint remove_spaces (s : string) : string :=
  match s with
  | "" => ""
  | String a s' => if Ascii.eqb a " " then remove_spaces s' else String a (remove_spaces s')
  end.

(** An element of the XML file, as [encoding/xml] delivers it. *)
Record keyDigestXML := mkKeyDigest {
  kdValidFrom : string; kdValidUntil : string; kdKeyTag : Z; kdAlgorithm : Z; kdDigestType : Z; kdDigest : string }.

Inductive anchor_error := ErrValidFrom (s : string) | ErrValidUntil (s : string) | ErrDigest (tag : Z) | ErrNoAnchors.

Section Anchors.
(** [time.Parse(time.RFC3339, s)]. *)
Context (parseTime : string → option Z).

Fixpoint anchors_loop (now : Z) (kds : list keyDigestXML) : result (list TrustAnchor) anchor_error :=
  match kds with
  | [] => Ok []
  | kd :: rest =>
      match parseTime (kdValidFrom kd) with
      | None => Err (ErrValidFrom (kdValidFrom kd))
      | Some validFrom =>
          try validUntil ←
            (if String.eqb (kdValidUntil kd) "" then Ok None
             else match parseTime (kdValidUntil kd) with
                  | None => Err (ErrValidUntil (kdValidUntil kd))
                  | Some t => Ok (Some t)
                  end);
          if now <? validFrom then anchors_loop now rest
          else if match validUntil with Some t => t <? now | None => false end then anchors_loop now rest
          else
            match hex_decode (remove_spaces (kdDigest kd)) with
            | None => Err (ErrDigest (kdKeyTag kd))
            | Some digest =>
                try anchors ← anchors_loop now rest;
                Ok (mkAnchor (kdKeyTag kd) (kdAlgorithm kd) (kdDigestType kd) digest validFrom validUntil :: anchors)
            end
      end
  end.

(** On the elements of a file that parsed as XML. *)
Definition ParseRootAnchors (now : Z) (kds : list keyDigestXML) : result (list TrustAnchor) anchor_error :=
  try anchors ← anchors_loop now kds;
  match anchors with [] => Err ErrNoAnchors | _ => Ok anchors end.

End Anchors.

(** ** Record sets *)

Definition as_sig (rr : RR) : option sig := match rData rr with D_RRSIG s => Some (rHdr rr, s) | _ => None end.
Definition as_key (rr : RR) : option key := match rData rr with D_DNSKEY k => Some (rHdr rr, k) | _ => None end.

Definition splitRRSIGs (rrs : list RR) (t : Z) : list RR * list sig :=
  (List.filter (λ rr, match as_sig rr with Some _ => false | None => rrtype rr =? t end) rrs,
   List.filter (λ s : sig, sigTypeCovered (snd s) =? t) (omap as_sig rrs)).

(** [var min uint32; for i, rr := range rrs { if i == 0 || t < min { min = t } }]. *)
Definition minRRsetTTL (rrs : list RR) : Z :=
  match rrs with
  | [] => 0
  | rr :: rest => fold_left (λ m rr, if hTtl (rHdr rr) <? m then hTtl (rHdr rr) else m) rest (hTtl (rHdr rr))
  end.

Fixpoint joinLabels_from (i : nat) (labels : list string) (out : string) : string :=
  match labels with
  | [] => out
  | l :: rest => joinLabels_from (S i) rest ((if (0 <? i)%nat then out +:+ "." else out) +:+ l)
  end.
Definition joinLabels (labels : list string) : string := joinLabels_from 0 labels "".

(** One byte of each digest, upper case mapped to lower case. *)
Fixpoint equalHexDigest (a b : string) : bool :=
  match a, b with
  | "", "" => true
  | String x a', String y b' => Ascii.eqb (lower_char x) (lower_char y) && equalHexDigest a' b'
  | _, _ => false
  end.

Definition bitmapHas (bitmap : list Z) (t : Z) : bool := existsb (Z.eqb t) bitmap.

Section Ops.
Context {dl : DnsLib} {cl : DnssecLib}.

Definition VerifyKeyAgainstAnchors (k : key) (anchors : list TrustAnchor) : bool :=
  existsb (λ a,
    (KeyTag k =? taKeyTag a) && (keyAlgorithm (snd k) =? taAlgorithm a) &&
    match ToDS k (taDigestType a) with
    | None => false
    | Some digest => String.eqb (ToUpper digest) (ToUpper (hex_encode (taDigest a)))
    end) anchors.

Definition rrsetKey (name : string) (t : Z) : string := CanonicalName name +:+ "/" +:+ pretty (Z.to_N t).

Definition parentZone (zone : string) : string :=
  let zone := CanonicalName zone in
  if String.eqb zone "." then "." else
  let labels := SplitDomainName zone in
  if (List.length labels <=? 1)%nat then "."
  else Fqdn (CanonicalName (joinLabels (drop 1 labels))).

(** ** Signatures *)

(** What the two nested loops over signatures and keys see in turn: the result
    of each [sig.Verify] that is reached. *)
Definition verify_attempts (now : Z) (rrset : list RR) (sigs : list sig) (keys : list key) : list vresult :=
  flat_map (λ s : sig,
    if negb (ValidityPeriod s now) then [] else
    flat_map (λ k : key,
      if (negb (KeyTag k =? sigKeyTag (snd s)) || negb (keyAlgorithm (snd k) =? sigAlgorithm (snd s)))%bool then []
      else [Verify s k rrset]) keys) sigs.

(** The first success ends the loops; else the last error decides. *)
Fixpoint first_ok (last : option vresult) (l : list vresult) : result () (option vresult) :=
  match l with
  | [] => Err last
  | VOk :: _ => Ok ()
  | e :: l' => first_ok (Some e) l'
  end.

(** [Err (Some e)] wraps the verification error [e]; [Err None] is an error of
    rcvd's own, when no signature was tried. *)
Definition verifyRRsetWithKeySet (now : Z) (rrset : list RR) (sigs : list sig) (keys : list key)
    : result () (option vresult) :=
  match sigs with
  | [] => Err None
  | _ => first_ok None (verify_attempts now rrset sigs keys)
  end.

(** [unprocessableKey] on an error of [verifyRRsetWithKeySet]. *)
Definition unprocessableKey (e : option vresult) : bool := match e with Some VUnprocessable => true | _ => false end.

(** ** Denial of a DS record *)

Definition verifyDenialRecord (now : Z) (rr : RR) (sigs : list sig) (keys : list key) : bool :=
  let covering := List.filter (λ s : sig, (sigTypeCovered (snd s) =? rrtype rr) &&
    String.eqb (CanonicalName (hName (fst s))) (CanonicalName (hName (rHdr rr)))) sigs in
  match covering with
  | [] => false
  | _ => is_ok (verifyRRsetWithKeySet now [rr] covering keys)
  end.

Definition nsec3_rr (n : RR_Header * NSEC3) : RR := mkRR (fst n) (D_NSEC3 (snd n)).
Definition nsec_rr (n : RR_Header * NSEC) : RR := mkRR (fst n) (D_NSEC (snd n)).

(** NS set, DS and SOA clear: a delegation without DS. *)
Definition insecure_bitmap (b : list Z) : bool :=
  bitmapHas b TypeNS && negb (bitmapHas b TypeDS) && negb (bitmapHas b TypeSOA).

(** The walk over the ancestors of [name]; [fuel] of one more than the number
    of its labels is enough (see [encloser_fuel]). *)
Fixpoint encloser_walk (fuel : nat) (name : string) (n3 : RR_Header * NSEC3) : bool :=
  match fuel with
  | O => false
  | S fuel' =>
      if String.eqb name "" then false else
      if NSEC3_Match n3 name then true else
      let next := parentZone name in
      if String.eqb next name then false else encloser_walk fuel' next n3
  end.
Definition closestEncloserMatch (child : string) (n3 : RR_Header * NSEC3) : bool :=
  let name := CanonicalName child in
  encloser_walk (List.length (SplitDomainName name) + 2) name n3.

Section Proofs.
Context (verified : RR → bool).

(** Shape (a): the first verified NSEC3 that matches the child decides. *)
Fixpoint nsec3_matching (child : string) (l : list (RR_Header * NSEC3)) : option bool :=
  match l with
  | [] => None
  | n3 :: l' =>
      if negb (verified (nsec3_rr n3)) then nsec3_matching child l' else
      if NSEC3_Match n3 child then Some (insecure_bitmap (nsec3TypeBitMap (snd n3)))
      else nsec3_matching child l'
  end.

Definition nsec3ProvesNoDS (child : string) (nsec3s : list (RR_Header * NSEC3)) : bool :=
  match nsec3_matching child nsec3s with
  | Some b => b
  | None =>
      existsb (λ n3, verified (nsec3_rr n3) && (Z.land (nsec3Flags (snd n3)) 1 =? 1) && NSEC3_Cover n3 child) nsec3s &&
      existsb (λ n3, verified (nsec3_rr n3) && closestEncloserMatch child n3) nsec3s
  end.

Fixpoint nsecProvesNoDS (child : string) (nsecs : list (RR_Header * NSEC)) : bool :=
  match nsecs with
  | [] => false
  | n :: l' =>
      if negb (verified (nsec_rr n)) then nsecProvesNoDS child l' else
      if String.eqb (CanonicalName (hName (fst n))) child then insecure_bitmap (nsecTypeBitMap (snd n))
      else nsecProvesNoDS child l'
  end.

End Proofs.

Definition as_nsec3 (rr : RR) : option (RR_Header * NSEC3) := match rData rr with D_NSEC3 n => Some (rHdr rr, n) | _ => None end.
Definition as_nsec (rr : RR) : option (RR_Header * NSEC) := match rData rr with D_NSEC n => Some (rHdr rr, n) | _ => None end.

Definition provesNoDS (now : Z) (child : string) (authority : list RR) (parentKeys : list key) : bool :=
  let child := CanonicalName child in
  let nsec3s := omap as_nsec3 authority in
  let nsecs := omap as_nsec authority in
  let sigs := omap as_sig authority in
  let verified rr := verifyDenialRecord now rr sigs parentKeys in
  match nsec3s, nsecs with
  | _ :: _, _ => nsec3ProvesNoDS verified child nsec3s
  | [], _ :: _ => nsecProvesNoDS verified child nsecs
  | [], [] => false
  end.

End Ops.

(** ** Digests *)

Lemma hexval_digit n : (n < 16)%nat → hexval (hexdigit n) = Some n.
Proof. intros H. do 16 (destruct n as [|n]; [reflexivity|]). lia. Qed.

Lemma hexval_upper a : hexval (upper_char a) = hexval a.
Proof. by destruct a as [[] [] [] [] [] [] [] []]. Qed.

Lemma hex_roundtrip s : hex_decode (hex_encode s) = Some s.
Proof.
  induction s as [|a s IH]; [done|]. cbn [hex_encode hex_decode].
  pose proof (nat_ascii_bounded a) as Hb.
  rewrite !hexval_digit, IH by (apply Nat.mod_upper_bound || apply Nat.Div0.div_lt_upper_bound; lia).
  by rewrite <-Nat.div_mod_eq, ascii_nat_embedding.
Qed.

Lemma hex_decode_upper_aux n s : (String.length s ≤ n)%nat → hex_decode (ToUpper s) = hex_decode s.
Proof.
  revert s; induction n as [|n IH]; intros s Hn.
  { destruct s; [done|]. simpl in Hn. lia. }
  destruct s as [|a [|b s]]; [done|done|].
  change (ToUpper (String a (String b s))) with (String (upper_char a) (String (upper_char b) (ToUpper s))).
  cbn [hex_decode]. simpl in Hn. rewrite !hexval_upper, IH by lia. done.
Qed.

Lemma hex_decode_upper s : hex_decode (ToUpper s) = hex_decode s.
Proof. by apply (hex_decode_upper_aux (String.length s)). Qed.

Lemma equalHexDigest_spec a b : equalHexDigest a b = true ↔ ToLower a = ToLower b.
Proof.
  revert b; induction a as [|x a IH]; intros [|y b]; simpl; try done.
  rewrite andb_true_iff, Ascii.eqb_eq, IH. unfold ToLower; simpl. split; [intros [-> ->]; done|intros [= -> ->]; done].
Qed.

Section Props.
Context {dl : DnsLib} {cl : DnssecLib}.

(** A key is accepted as a root of trust only if an anchor has its key tag
    and algorithm and the digest of the key, computed with the anchor's digest
    type, decodes to exactly the anchor's digest bytes. *)
Theorem VerifyKeyAgainstAnchors_sound k anchors :
  VerifyKeyAgainstAnchors k anchors = true →
  ∃ a digest, a ∈ anchors ∧ KeyTag k = taKeyTag a ∧ keyAlgorithm (snd k) = taAlgorithm a ∧
    ToDS k (taDigestType a) = Some digest ∧ hex_decode digest = Some (taDigest a).
Proof.
  unfold VerifyKeyAgainstAnchors. rewrite existsb_elem. intros (a & Ha & H). bool_prop.
  destruct (ToDS k (taDigestType a)) as [digest|] eqn:E; [|done]. bool_prop.
  exists a, digest. split_and!; try done.
  by rewrite <-(hex_roundtrip (taDigest a)), <-hex_decode_upper, <-(hex_decode_upper (hex_encode _)); f_equal.
Qed.

(** ** Keys of record sets *)

Lemma pretty_N_go_nobyte x s c :
  is_digit c = false → ContainsByte s c = false → ContainsByte (pretty_N_go x s) c = false.
Proof.
  intros Hc. revert s. induction (N.lt_wf_0 x) as [x _ IH]. intros s Hs.
  destruct (decide (0 < x)%N) as [Hx|Hx]; [|by replace x with 0%N by lia].
  rewrite pretty_N_go_step by done. apply IH; [by apply N.div_lt|].
  rewrite ContainsByte_cons, Hs, orb_false_r. apply Ascii.eqb_neq. intros ->.
  revert Hc. unfold pretty_N_char. repeat case_match; done.
Qed.

Lemma pretty_N_nobyte (n : N) c : is_digit c = false → ContainsByte (pretty n) c = false.
Proof.
  intros Hc. unfold pretty, pretty_N. case_decide; [|by apply pretty_N_go_nobyte].
  rewrite ContainsByte_cons. rewrite orb_false_r. apply Ascii.eqb_neq. by intros ->.
Qed.

(** The key of a record set determines its canonical owner and its type. *)
Lemma rrsetKey_inj n t n' t' :
  0 ≤ t → 0 ≤ t' → rrsetKey n t = rrsetKey n' t' → CanonicalName n = CanonicalName n' ∧ t = t'.
Proof.
  intros Ht Ht' H. unfold rrsetKey in H.
  apply (last_sep_inj _ _ _ _ "/") in H as [Hn Hp]; [|by apply pretty_N_nobyte|by apply pretty_N_nobyte].
  split; [done|]. apply (inj pretty) in Hp. lia.
Qed.

(** The anchors taken from the root anchor file are never empty, and each
    of them is in its validity window at the time it is loaded. *)
Theorem ParseRootAnchors_valid parseTime now kds anchors :
  ParseRootAnchors parseTime now kds = Ok anchors →
  anchors ≠ [] ∧ ∀ a, a ∈ anchors →
    taValidFrom a ≤ now ∧ (∀ t, taValidUntil a = Some t → now ≤ t) ∧
    ∃ kd, kd ∈ kds ∧ taKeyTag a = kdKeyTag kd ∧ hex_decode (remove_spaces (kdDigest kd)) = Some (taDigest a).
Proof.
  unfold ParseRootAnchors. intros H. destruct (anchors_loop parseTime now kds) as [l|] eqn:E; simpl in H; [|done].
  destruct l as [|a0 l]; [done|]. injection H as <-. split; [done|]. revert E. generalize (a0 :: l). clear a0 l.
  induction kds as [|kd kds IH]; intros l; simpl.
  { intros [= <-] a Ha. by apply elem_of_nil in Ha. }
  destruct (parseTime (kdValidFrom kd)) as [from|]; [|done].
  set (u := if String.eqb (kdValidUntil kd) "" then _ else _). destruct u as [until|]; simpl; [|done].
  assert (Hrest : anchors_loop parseTime now kds = Ok l → ∀ a, a ∈ l →
    taValidFrom a ≤ now ∧ (∀ t, taValidUntil a = Some t → now ≤ t) ∧ ∃ kd', kd' ∈ kd :: kds ∧
      taKeyTag a = kdKeyTag kd' ∧ hex_decode (remove_spaces (kdDigest kd')) = Some (taDigest a)).
  { intros E a Ha. destruct (IH l E a Ha) as (? & ? & kd' & ? & ?). split_and!; try done.
    exists kd'. split; [by right|done]. }
  destruct (now <? from) eqn:Ef; [done|]. destruct (match until with Some t => t <? now | None => false end) eqn:Eu; [done|].
  clear Hrest. destruct (hex_decode _) as [digest|] eqn:Ed; [|done].
  destruct (anchors_loop parseTime now kds) as [l'|] eqn:El; simpl; [|done]. intros [= <-] a [->|Ha]%elem_of_cons.
  - simpl. bool_prop. split_and!; [lia| |].
    + intros t ->. bool_prop. lia.
    + exists kd. split; [by left|done].
  - destruct (IH l' eq_refl a Ha) as (? & ? & kd' & ? & ?). split_and!; try done.
    exists kd'. split; [by right|done].
Qed.

(** ** Signatures *)

(** Some signature, in its validity period, made by one of the keys, verifies. *)
Definition signed_by (now : Z) (rrset : list RR) (sigs : list sig) (keys : list key) : Prop :=
  ∃ s k, s ∈ sigs ∧ k ∈ keys ∧ ValidityPeriod s now = true ∧ KeyTag k = sigKeyTag (snd s) ∧
    keyAlgorithm (snd k) = sigAlgorithm (snd s) ∧ Verify s k rrset = VOk.

Lemma first_ok_iff last l : first_ok last l = Ok () ↔ VOk ∈ l.
Proof.
  revert last; induction l as [|v l IH]; intros last; simpl.
  - split; [done|]. intros H. by apply elem_of_nil in H.
  - rewrite elem_of_cons. destruct v; [naive_solver| |]; rewrite IH; naive_solver.
Qed.

Lemma elem_of_flat_map {A B} (f : A → list B) l y : y ∈ flat_map f l ↔ ∃ x, x ∈ l ∧ y ∈ f x.
Proof. rewrite list_elem_of_In, in_flat_map. by setoid_rewrite list_elem_of_In. Qed.

(** A signature in its validity period by one of the keys cannot be processed (its
    algorithm or key is not supported), and no signature is valid. *)
Definition unprocessable (now : Z) (rrset : list RR) (sigs : list sig) (keys : list key) : Prop :=
  (∃ s k, s ∈ sigs ∧ k ∈ keys ∧ ValidityPeriod s now = true ∧ KeyTag k = sigKeyTag (snd s) ∧
     keyAlgorithm (snd k) = sigAlgorithm (snd s) ∧ Verify s k rrset = VUnprocessable) ∧
  ¬ signed_by now rrset sigs keys.

Lemma first_ok_last last l e : first_ok last l = Err (Some e) → e ∈ l ∨ last = Some e.
Proof.
  revert last. induction l as [|v l IH]; intros last; simpl; [intros [= ->]; by right|].
  destruct v; [done| |]; intros [H|[= <-]]%IH; left; by constructor.
Qed.

Lemma verify_attempts_elem now rrset sigs keys v : v ∈ verify_attempts now rrset sigs keys →
  ∃ s k, s ∈ sigs ∧ k ∈ keys ∧ ValidityPeriod s now = true ∧ KeyTag k = sigKeyTag (snd s) ∧
    keyAlgorithm (snd k) = sigAlgorithm (snd s) ∧ Verify s k rrset = v.
Proof.
  unfold verify_attempts. rewrite elem_of_flat_map. intros (s & Hs & Hin).
  destruct (ValidityPeriod s now) eqn:Ev; [|by apply elem_of_nil in Hin]. simpl in Hin.
  apply elem_of_flat_map in Hin as (k & Hk & Hin). destruct (_ || _)%bool eqn:Eo; [by apply elem_of_nil in Hin|].
  apply list_elem_of_singleton in Hin as ->. apply orb_false_iff in Eo as [E1%negb_false_iff%Z.eqb_eq E2%negb_false_iff%Z.eqb_eq].
  by exists s, k.
Qed.

Lemma verify_iff now rrset sigs keys :
  verifyRRsetWithKeySet now rrset sigs keys = Ok () ↔ signed_by now rrset sigs keys.
Proof.
  assert (H : verifyRRsetWithKeySet now rrset sigs keys = Ok () ↔ VOk ∈ verify_attempts now rrset sigs keys).
  { unfold verifyRRsetWithKeySet. destruct sigs as [|s sigs]; [|apply first_ok_iff].
    split; [done|]. intros H. by apply elem_of_nil in H. }
  rewrite H. unfold verify_attempts, signed_by. rewrite elem_of_flat_map. split.
  - intros (s & Hs & Hin). destruct (ValidityPeriod s now) eqn:Ev; [|by apply elem_of_nil in Hin]. simpl in Hin.
    apply elem_of_flat_map in Hin as (k & Hk & Hin). destruct (_ || _)%bool eqn:Eo; [by apply elem_of_nil in Hin|].
    apply list_elem_of_singleton in Hin. bool_prop. exists s, k. by split_and!.
  - intros (s & k & Hs & Hk & Hv & Ht & Ha & Hok). exists s. split; [done|]. rewrite Hv. simpl.
    apply elem_of_flat_map. exists k. split; [done|]. rewrite Ht, Ha, !Z.eqb_refl. simpl. rewrite Hok. by left.
Qed.

Lemma verify_unprocessable now rrset sigs keys e :
  verifyRRsetWithKeySet now rrset sigs keys = Err e → unprocessableKey e = true → unprocessable now rrset sigs keys.
Proof.
  intros H He. split; [|intros Hs%verify_iff; congruence]. unfold verifyRRsetWithKeySet in H.
  destruct sigs as [|s0 sigs]; [injection H as <-; done|]. destruct e as [[]|]; try done.
  apply first_ok_last in H as [H|?]; [|done]. by apply verify_attempts_elem.
Qed.

(** ** Denial proofs *)

(** The record is signed, under its own name and type, by one of the keys. *)
Definition denial_signed (now : Z) (authority : list RR) (keys : list key) (rr : RR) : Prop :=
  ∃ sigs, signed_by now [rr] sigs keys ∧
    ∀ s, s ∈ sigs → s ∈ omap as_sig authority ∧ sigTypeCovered (snd s) = rrtype rr ∧
      CanonicalName (hName (fst s)) = CanonicalName (hName (rHdr rr)).

Lemma verifyDenialRecord_sound now authority keys rr :
  verifyDenialRecord now rr (omap as_sig authority) keys = true → denial_signed now authority keys rr.
Proof.
  unfold verifyDenialRecord. set (cov := List.filter _ _). intros H.
  exists cov. split.
  - apply verify_iff. destruct cov; [done|]. by destruct (verifyRRsetWithKeySet _ _ _ _) as [[]|].
  - intros s [Hs Hc]%elem_of_List_filter. bool_prop. by split_and!.
Qed.

Lemma nsec3_matching_sound verified child l b :
  nsec3_matching verified child l = Some b →
  ∃ n3, n3 ∈ l ∧ verified (nsec3_rr n3) = true ∧ NSEC3_Match n3 child = true ∧
        b = insecure_bitmap (nsec3TypeBitMap (snd n3)).
Proof.
  induction l as [|n3 l IH]; simpl; [done|]. intros H.
  destruct (verified (nsec3_rr n3)) eqn:Ev; simpl in H; [destruct (NSEC3_Match n3 child) eqn:Em|].
  - injection H as <-. exists n3. split_and!; try done. by left.
  - destruct (IH H) as (n & ? & ?). exists n. split; [by right|done].
  - destruct (IH H) as (n & ? & ?). exists n. split; [by right|done].
Qed.

Lemma nsec_sound verified child l :
  nsecProvesNoDS verified child l = true →
  ∃ n, n ∈ l ∧ verified (nsec_rr n) = true ∧ CanonicalName (hName (fst n)) = child ∧
       insecure_bitmap (nsecTypeBitMap (snd n)) = true.
Proof.
  induction l as [|n l IH]; simpl; [done|]. intros H.
  destruct (verified (nsec_rr n)) eqn:Ev; simpl in H; [destruct (String.eqb_spec (CanonicalName (hName (fst n))) child)|].
  - exists n. split_and!; try done. by left.
  - destruct (IH H) as (n' & ? & ?). exists n'. split; [by right|done].
  - destruct (IH H) as (n' & ? & ?). exists n'. split; [by right|done].
Qed.

(** The three accepted shapes of a proof that [child] is a delegation without DS. *)
Inductive no_ds_proof (now : Z) (authority : list RR) (keys : list key) (child : string) : Prop :=
| nods_nsec3_match h n :
    mkRR h (D_NSEC3 n) ∈ authority → denial_signed now authority keys (mkRR h (D_NSEC3 n)) →
    NSEC3_Match (h, n) child = true → insecure_bitmap (nsec3TypeBitMap n) = true →
    no_ds_proof now authority keys child
| nods_optout h n h' n' :
    mkRR h (D_NSEC3 n) ∈ authority → denial_signed now authority keys (mkRR h (D_NSEC3 n)) →
    Z.land (nsec3Flags n) 1 = 1 → NSEC3_Cover (h, n) child = true →
    mkRR h' (D_NSEC3 n') ∈ authority → denial_signed now authority keys (mkRR h' (D_NSEC3 n')) →
    closestEncloserMatch child (h', n') = true →
    no_ds_proof now authority keys child
| nods_nsec h n :
    mkRR h (D_NSEC n) ∈ authority → denial_signed now authority keys (mkRR h (D_NSEC n)) →
    CanonicalName (hName h) = child → insecure_bitmap (nsecTypeBitMap n) = true →
    no_ds_proof now authority keys child.

Lemma as_nsec3_in (authority : list RR) n : n ∈ omap as_nsec3 authority → mkRR (fst n) (D_NSEC3 (snd n)) ∈ authority.
Proof.
  intros ([h d] & Hin & H)%list_elem_of_omap. unfold as_nsec3 in H; simpl in H. by destruct d; simplify_eq.
Qed.
Lemma as_nsec_in (authority : list RR) n : n ∈ omap as_nsec authority → mkRR (fst n) (D_NSEC (snd n)) ∈ authority.
Proof.
  intros ([h d] & Hin & H)%list_elem_of_omap. unfold as_nsec in H; simpl in H. by destruct d; simplify_eq.
Qed.

Lemma nsec3_proof now authority keys child l :
  l = omap as_nsec3 authority →
  nsec3ProvesNoDS (λ rr, verifyDenialRecord now rr (omap as_sig authority) keys) child l = true →
  no_ds_proof now authority keys child.
Proof.
  intros ->. unfold nsec3ProvesNoDS. destruct (nsec3_matching _ _ _) as [b|] eqn:E.
  - intros ->. apply nsec3_matching_sound in E as ([h n] & Hin & Hv & Hm & Hb).
    eapply (nods_nsec3_match _ _ _ _ h n); try done; [by apply as_nsec3_in in Hin|by apply verifyDenialRecord_sound].
  - intros [H1 H2]%andb_true_iff. rewrite existsb_elem in H1. rewrite existsb_elem in H2.
    destruct H1 as ([h n] & Hin & H1), H2 as ([h' n'] & Hin' & H2). bool_prop.
    apply as_nsec3_in in Hin, Hin'.
    by eapply (nods_optout _ _ _ _ h n h' n'); try done; apply verifyDenialRecord_sound.
Qed.

(** A denial of the DS records of a delegation is accepted only on an authenticated
    proof: a record of the authority section, signed under its own name by a
    key of the parent, that matches the child with NS set and DS and SOA
    clear, or an opt-out NSEC3 covering the child together with a signed NSEC3
    for one of its ancestors.  Unsigned or forged denials prove nothing. *)
Theorem provesNoDS_sound now child authority parentKeys :
  provesNoDS now child authority parentKeys = true →
  no_ds_proof now authority parentKeys (CanonicalName child).
Proof.
  unfold provesNoDS. destruct (omap as_nsec3 authority) as [|n3 l] eqn:E3; [|by apply nsec3_proof].
  destruct (omap as_nsec authority) as [|n l] eqn:E; [done|].
  intros ([h m] & Hin & Hv & Hc & Hb)%nsec_sound. rewrite <-E in Hin. apply as_nsec_in in Hin.
  eapply (nods_nsec _ _ _ _ h m); try done. by apply verifyDenialRecord_sound.
Qed.

(** Enough fuel for the walk to the closest encloser, as long as the DNS library
    splits a name and its parent so that the parent has fewer labels. *)
Lemma encloser_fuel f1 f2 name n3 :
  (∀ n, parentZone n ≠ n → (List.length (SplitDomainName (parentZone n)) < List.length (SplitDomainName n))%nat) →
  (List.length (SplitDomainName name) < f1)%nat → (List.length (SplitDomainName name) < f2)%nat →
  encloser_walk f1 name n3 = encloser_walk f2 name n3.
Proof.
  intros Hp. revert f2 name. induction f1 as [|f1 IH]; intros [|f2] name H1 H2; try lia. simpl.
  destruct (String.eqb name ""); [done|]. destruct (NSEC3_Match n3 name); [done|].
  destruct (String.eqb_spec (parentZone name) name) as [_|Hne]; [done|].
  specialize (Hp name Hne). apply IH; lia.
Qed.

End Props.

(** ** Witnesses

    A toy signature scheme: a signature is the public key of its signer, a
    digest is the key in hexadecimal. *)

Definition toyCrypto : DnssecLib := {|
  KeyTag k := Z.of_nat (String.length (keyPublicKey (snd k)));
  ToDS k _ := Some (hex_encode (keyPublicKey (snd k)));
  Verify s k _ := if String.eqb (sigSignature (snd s)) (keyPublicKey (snd k)) then VOk else VBad;
  ValidityPeriod s now := (sigInception (snd s) <=? now) && (now <=? sigExpiration (snd s));
  NSEC3_Match n name := String.eqb (hName (fst n)) name;
  NSEC3_Cover n name := String.eqb (nsec3NextDomain (snd n)) name |}.

Definition ex_key (zone pub : string) : RR :=
  mkRR (mkHeader zone TypeDNSKEY ClassINET 3600) (D_DNSKEY (mkDNSKEY 257 3 13 pub)).
Definition ex_sig (name : string) (t : Z) (signer pub : string) : RR :=
  mkRR (mkHeader name TypeRRSIG ClassINET 3600)
       (D_RRSIG (mkRRSIG t 13 0 1000 (Z.of_nat (String.length pub)) signer pub)).
Definition ex_ds (zone pub : string) : RR :=
  mkRR (mkHeader zone TypeDS ClassINET 3600)
       (D_DS (mkDS (Z.of_nat (String.length pub)) 13 2 (hex_encode pub))).
Definition ex_a (name : string) : RR := mkRR (mkHeader name TypeA ClassINET 300) (D_Other "192.0.2.1").


Definition ex_root_key : key := (mkHeader "." TypeDNSKEY ClassINET 3600, mkDNSKEY 257 3 13 "root").
Definition ex_anchors : list TrustAnchor := [mkAnchor 4 13 2 "root" 0 None].

Lemma VerifyKeyAgainstAnchors_sound_witness :
  ∃ a digest, a ∈ ex_anchors ∧ 4 = taKeyTag a ∧ 13 = taAlgorithm a ∧
    ToDS (DnssecLib := toyCrypto) ex_root_key (taDigestType a) = Some digest ∧ hex_decode digest = Some (taDigest a).
Proof. apply (VerifyKeyAgainstAnchors_sound (cl := toyCrypto) ex_root_key ex_anchors). vm_compute. reflexivity. Defined.

Definition ex_parse_time (s : string) : option Z := if String.eqb s "2017" then Some 10 else if String.eqb s "2030" then Some 900 else None.
Definition ex_kds : list keyDigestXML :=
  [mkKeyDigest "2017" "" 20326 8 2 "E0 6D"; mkKeyDigest "2030" "" 1 8 2 "00"; mkKeyDigest "2017" "2017" 2 8 2 "11"].

Lemma ParseRootAnchors_valid_witness :
  ∀ a, a ∈ [mkAnchor 20326 8 2 (String "224" (String "109" "")) 10 None] → taValidFrom a ≤ 500.
Proof.
  intros a Ha. eapply (ParseRootAnchors_valid ex_parse_time 500 ex_kds); [vm_compute; reflexivity|exact Ha].
Defined.

(** A signed NSEC record that proves the absence of a DS record. *)
Definition ex_nsec : RR := mkRR (mkHeader "io." TypeNSEC ClassINET 300) (D_NSEC (mkNSEC "ip." [TypeNS; TypeRRSIG; TypeNSEC])).
Definition ex_authority : list RR := [ex_nsec; ex_sig "io." TypeNSEC "." "root"].

Lemma provesNoDS_sound_witness :
  no_ds_proof (dl := toyLib) (cl := toyCrypto) 500 ex_authority [ex_root_key] "io.".
Proof. apply (provesNoDS_sound (dl := toyLib) (cl := toyCrypto) 500 "io." ex_authority [ex_root_key]). vm_compute. reflexivity. Defined.

(** The same record unsigned, or signed by another key, proves nothing. *)
Example ex_forged_denial :
  provesNoDS (dl := toyLib) (cl := toyCrypto) 500 "io." [ex_nsec] [ex_root_key] = false ∧
  provesNoDS (dl := toyLib) (cl := toyCrypto) 500 "io." [ex_nsec; ex_sig "io." TypeNSEC "." "evil"] [ex_root_key] = false.
Proof. by vm_compute. Qed.
