(* ===== verification/Anchors.v ===== *)
(** * Loading the root trust anchors (internal/dnssec/anchors.go)

    The embedded file and the operator's file, which may be the XML of IANA or a
    zone file with DNSKEY records.  The XML decoder, the RFC 3339 parser and the
    zone parser of the DNS library are arguments; [ParseRootAnchors] is in [Dnssec]. *)

From S2P Require Import Prelude GoStrings DnsMsg Dnssec.
From Stdlib Require Import Ascii String.
Open Scope string_scope.
Open Scope list_scope.
Open Scope Z_scope.

Inductive load_anchor_error :=
| ErrReadAnchors | ErrXML | ErrAnchor (e : anchor_error) | ErrDSDigest (tag : Z) | ErrZone | ErrNoDNSKEY.

Definition SHA256 : Z := 2.

Section Load.
Context {cl : DnssecLib}.
Context (parseTime : string → option Z) (xml_decode : string → option (list keyDigestXML)).
(** The records the zone parser yields, and whether it ended without an error. *)
Context (zone_parse : string → list RR * bool).

(** The loop over the records of a zone file. *)
Fixpoint root_keys (rrs : list RR) : result (list TrustAnchor) load_anchor_error :=
  match rrs with
  | [] => Ok []
  | rr :: rest =>
      match as_key rr with
      | None => root_keys rest
      | Some k =>
          match ToDS k SHA256 with
          | None => root_keys rest
          | Some digest =>
              match hex_decode (ToLower digest) with
              | None => Err (ErrDSDigest (KeyTag k))
              | Some bytes =>
                  try anchors ← root_keys rest;
                  Ok (mkAnchor (KeyTag k) (keyAlgorithm (snd k)) SHA256 bytes 0 None :: anchors)
              end
          end
      end
  end.

Definition parseRootKey (data : string) : result (list TrustAnchor) load_anchor_error :=
  let '(rrs, ok) := zone_parse data in
  try anchors ← root_keys rrs;
  if negb ok then Err ErrZone else
  match anchors with [] => Err ErrNoDNSKEY | _ => Ok anchors end.

Definition parse_xml (now : Z) (data : string) : result (list TrustAnchor) load_anchor_error :=
  match xml_decode data with
  | None => Err ErrXML
  | Some kds => match ParseRootAnchors parseTime now kds with Ok a => Ok a | Err e => Err (ErrAnchor e) end
  end.

Definition DefaultTrustAnchors (rootAnchorsXML : string) (now : Z) : result (list TrustAnchor) load_anchor_error :=
  parse_xml now rootAnchorsXML.

Definition LoadTrustAnchorsFromFile (readFile : string → option string) (now : Z) (path : string)
    : result (list TrustAnchor) load_anchor_error :=
  match readFile path with
  | None => Err ErrReadAnchors
  | Some data =>
      if Contains data "<TrustAnchor" || Contains data "<KeyDigest" then parse_xml now data else parseRootKey data
  end.

(** ** The keys of the file are the roots of trust *)

Lemma hexval_lower a : hexval (lower_char a) = hexval a.
Proof. destruct a as [[] [] [] [] [] [] [] []]; vm_compute; reflexivity. Qed.

Lemma hex_decode_lower s : hex_decode (ToLower s) = hex_decode s.
Proof.
  assert (H : ∀ n s, (String.length s ≤ n)%nat → hex_decode (ToLower s) = hex_decode s); [|by apply (H (String.length s))].
  clear s. induction n as [|n IH]; intros [|a [|b s]] Hl; simpl in Hl; try done; try lia.
  cbn [ToLower smap hex_decode]. rewrite !hexval_lower, <-(IH s) by lia. done.
Qed.

Lemma hexval_digit_upper a x : hexval a = Some x → (x < 16)%nat ∧ upper_char a = upper_char (hexdigit x).
Proof.
  intros H. destruct a as [[] [] [] [] [] [] [] []]; vm_compute in H; try discriminate H; injection H as <-;
    (split; [lia|vm_compute; reflexivity]).
Qed.

(** Hexadecimal digits are determined up to case by the bytes they decode to. *)
Lemma hex_encode_upper s bytes : hex_decode s = Some bytes → ToUpper s = ToUpper (hex_encode bytes).
Proof.
  assert (H : ∀ n s bytes, (String.length s ≤ n)%nat → hex_decode s = Some bytes → ToUpper s = ToUpper (hex_encode bytes));
    [|by apply (H (String.length s))].
  clear s bytes. induction n as [|n IH]; intros [|a [|b s]] bytes Hl; simpl in Hl; try lia; try (by intros [= <-]); try done.
  cbn [hex_decode]. destruct (hexval a) as [x|] eqn:Ea; [|done]. destruct (hexval b) as [y|] eqn:Eb; [|done].
  destruct (hex_decode s) as [t|] eqn:Es; [|done]. intros Eq.
  assert (bytes = String (ascii_of_nat (16 * x + y)) t) as -> by congruence. clear Eq.
  apply hexval_digit_upper in Ea as [Hx Ea]. apply hexval_digit_upper in Eb as [Hy Eb].
  cbn [hex_encode]. cbv zeta. rewrite nat_ascii_embedding by lia.
  replace ((16 * x + y) / 16)%nat with x by (apply Nat.div_unique with y; lia).
  replace ((16 * x + y) mod 16)%nat with y by (apply Nat.mod_unique with x; lia).
  change (String (upper_char a) (String (upper_char b) (ToUpper s)) =
    String (upper_char (hexdigit x)) (String (upper_char (hexdigit y)) (ToUpper (hex_encode t)))).
  rewrite Ea, Eb, (IH s t); [done|lia|done].
Qed.

Lemma root_keys_spec rrs anchors : root_keys rrs = Ok anchors →
  ∀ a, a ∈ anchors ↔ ∃ rr k digest, rr ∈ rrs ∧ as_key rr = Some k ∧ ToDS k SHA256 = Some digest ∧
    hex_decode digest = Some (taDigest a) ∧ a = mkAnchor (KeyTag k) (keyAlgorithm (snd k)) SHA256 (taDigest a) 0 None.
Proof.
  revert anchors. induction rrs as [|rr rrs IH]; intros anchors; simpl.
  { intros [= <-] a. split; [by intros ?%elem_of_nil|]. by intros (? & ? & ? & ?%elem_of_nil & _). }
  assert (Hskip : (∀ a k digest, as_key rr = Some k → ToDS k SHA256 = Some digest → hex_decode digest = Some (taDigest a) → False) →
    root_keys rrs = Ok anchors → ∀ a, a ∈ anchors ↔ ∃ rr0 k digest, rr0 ∈ rr :: rrs ∧ as_key rr0 = Some k ∧ ToDS k SHA256 = Some digest ∧
    hex_decode digest = Some (taDigest a) ∧ a = mkAnchor (KeyTag k) (keyAlgorithm (snd k)) SHA256 (taDigest a) 0 None).
  { intros Hno H a. rewrite (IH _ H a). setoid_rewrite elem_of_cons. split.
    - intros (r & k & d & ? & H'). exists r, k, d. split; [by right|done].
    - intros (r & k & d & [->|?] & Hk & Hd & Hx & ?); [by destruct (Hno a k d)|]. exists r, k, d. done. }
  destruct (as_key rr) as [k|] eqn:Ek; [|by apply Hskip].
  destruct (ToDS k SHA256) as [digest|] eqn:Ed; [|apply Hskip; intros a k' d [= <-]; congruence].
  rewrite hex_decode_lower. destruct (hex_decode digest) as [bytes|] eqn:Eh; [|done].
  intros (rest & Hr & [= <-])%bind_ok a. rewrite elem_of_cons, (IH _ Hr a). setoid_rewrite elem_of_cons. split.
  - intros [->|(r & k' & d & ? & H')]; [exists rr, k, digest|exists r, k', d]; cbn; auto.
  - intros (r & k' & d & [->|?] & Hk & Hd & Hx & ->); cbn in *.
    + left. rewrite Ek in Hk. injection Hk as <-. rewrite Ed in Hd. injection Hd as <-. congruence.
    + right. exists r, k', d. done.
Qed.

(** An operator's key file makes its keys, and keys with the same digest, the
    roots of trust: a key of the file whose digest the library computes is accepted
    as an anchor, and every accepted key has the tag, the algorithm and the SHA-256
    digest of a key in the file. *)
Theorem root_key_file_trusted readFile now path data anchors :
  readFile path = Some data → Contains data "<TrustAnchor" || Contains data "<KeyDigest" = false →
  LoadTrustAnchorsFromFile readFile now path = Ok anchors →
  (∀ rr k digest, rr ∈ fst (zone_parse data) → as_key rr = Some k → ToDS k SHA256 = Some digest →
     VerifyKeyAgainstAnchors k anchors = true) ∧
  (∀ k, VerifyKeyAgainstAnchors k anchors = true →
     ∃ rr k' digest digest', rr ∈ fst (zone_parse data) ∧ as_key rr = Some k' ∧ KeyTag k = KeyTag k' ∧
       keyAlgorithm (snd k) = keyAlgorithm (snd k') ∧ ToDS k SHA256 = Some digest ∧ ToDS k' SHA256 = Some digest' ∧
       hex_decode digest = hex_decode digest').
Proof.
  intros Hr Hx. unfold LoadTrustAnchorsFromFile, parseRootKey. rewrite Hr, Hx. destruct (zone_parse data) as [rrs ok].
  cbn [fst]. intros (l & Hl & H)%bind_ok. destruct ok; cbn [negb] in H; [|done].
  assert (l = anchors) as -> by (destruct l; congruence). clear H. split.
  - intros rr k digest Hin Hk Hd. unfold VerifyKeyAgainstAnchors. apply existsb_elem.
    assert (Hb : ∃ bytes, hex_decode digest = Some bytes).
    { clear -Hl Hin Hk Hd. revert anchors Hl. induction rrs as [|r rrs IH]; intros anchors Hl; [by apply elem_of_nil in Hin|].
      simpl in Hl. apply elem_of_cons in Hin as [<-|Hin].
      - rewrite Hk, Hd, hex_decode_lower in Hl. destruct (hex_decode digest); [eauto|done].
      - destruct (as_key r) as [k'|]; [|eauto]. destruct (ToDS k' SHA256) as [d'|]; [|eauto].
        destruct (hex_decode (ToLower d')); [|done]. apply bind_ok in Hl as (l & ? & _). eauto. }
    destruct Hb as [bytes Hb]. exists (mkAnchor (KeyTag k) (keyAlgorithm (snd k)) SHA256 bytes 0 None).
    split; [apply (root_keys_spec _ _ Hl); exists rr, k, digest; done|]. cbn. rewrite !Z.eqb_refl, Hd. cbn.
    apply String.eqb_eq. by apply hex_encode_upper.
  - intros k (a & digest & Ha & Ht & Halg & Hd & Hh)%Dnssec.VerifyKeyAgainstAnchors_sound.
    apply (root_keys_spec _ _ Hl) in Ha as (rr & k' & d' & Hin & Hk' & Hd' & Hh' & Ea).
    exists rr, k', digest, d'. rewrite Ea in Ht, Halg, Hd. cbn in *. split_and!; try done. congruence.
Qed.

End Load.

(** ** Example *)

Definition ex_rootkey_zone (s : string) : list RR * bool :=
  ([ex_key "." "root"; mkRR (mkHeader "." TypeNS ClassINET 60) (D_Other "a.")], true).

Lemma root_key_file_trusted_witness :
  LoadTrustAnchorsFromFile (cl := toyCrypto) (λ _, None) (λ _, None) ex_rootkey_zone (λ _, Some ". IN DNSKEY 257 3 13 root") 0 "/root.key"
    = Ok [mkAnchor 4 13 2 "root" 0 None] ∧
  VerifyKeyAgainstAnchors (cl := toyCrypto) ex_root_key [mkAnchor 4 13 2 "root" 0 None] = true.
Proof.
  assert (E : LoadTrustAnchorsFromFile (cl := toyCrypto) (λ _, None) (λ _, None) ex_rootkey_zone (λ _, Some ". IN DNSKEY 257 3 13 root") 0 "/root.key"
    = Ok [mkAnchor 4 13 2 "root" 0 None]) by (vm_compute; reflexivity).
  split; [exact E|].
  destruct (root_key_file_trusted (cl := toyCrypto) (λ _, None) (λ _, None) ex_rootkey_zone (λ _, Some ". IN DNSKEY 257 3 13 root") 0 "/root.key"
    ". IN DNSKEY 257 3 13 root" [mkAnchor 4 13 2 "root" 0 None]) as [H _]; [reflexivity|vm_compute; reflexivity|exact E|].
  apply (H (ex_key "." "root") ex_root_key (hex_encode "root")); [left|reflexivity|reflexivity].
Defined.
