(* ===== verification/DnssecChain.v ===== *)
(** * DNSSEC: the chain of trust and the validation of a response
      (internal/dnssec/chain.go and validator.go)

    The validator keeps a cache of fetched key material and fetches what it
    does not have through the encrypted upstream.  Its computations run in a
    small state-and-error monad: the state is the cache and the queries sent.
    [authenticated] walks from a zone to the root and is proved to return only
    keys with a chain of trust ([trusted]) to a configured anchor. *)

From stdpp Require Import pretty.
From S2P Require Import Prelude GoStrings DnsMsg Statistics Fallback Interfaces Dnssec.
From Stdlib Require Import Ascii String.
Open Scope string_scope.
Open Scope list_scope.
Open Scope Z_scope.

(** ** State *)

Record VConfig := mkVConfig {
  v_enabled : bool; v_validateAll : bool; v_anchors : list TrustAnchor;
  (** [None]: no resolver wired.  The [n]-th query is answered by a message, or
      not (an error or a nil response). *)
  v_fetcher : option (nat → Msg → option Msg);
  v_now : Z;
  (** The random identifiers of the queries. *)
  v_id : nat → Z }.

(** Record sets with the end of their lifetime. *)
Abbreviation rrsetCache := (gmap string (list RR * Z)).
Record VState := mkVState { keyCache : rrsetCache; fetched : list Msg }.

(** [New] has neither anchors nor a resolver yet; the clock and the source of
    identifiers are the environment's. *)
Definition New (now : Z) (ids : nat → Z) (enabled validateAll : bool) : VConfig * VState :=
  (mkVConfig enabled validateAll [] None now ids, mkVState ∅ []).

Definition SetResolver (r : option (nat → Msg → option Msg)) (v : VConfig) : VConfig :=
  mkVConfig (v_enabled v) (v_validateAll v) (v_anchors v) r (v_now v) (v_id v).

Definition SetTrustAnchors (anchors : list TrustAnchor) (v : VConfig) : VConfig :=
  mkVConfig (v_enabled v) (v_validateAll v) anchors (v_fetcher v) (v_now v) (v_id v).

(** What a Go error is: one of the two insecure sentinels, or anything else. *)
Inductive verr := EInsecureDelegation | EInsecureAnswer | EBogus.

Definition IsInsecure (e : verr) : bool :=
  match e with EInsecureAnswer => true | EInsecureDelegation => true | EBogus => false end.

(** ** State and errors

    A computation of the validator: the sections under the mutex of the key cache,
    the queries it sends to the upstream, and what it makes of their results.  How the
    queries are answered and what other goroutines do to the cache in between is left
    to its interpretation: [runM] is the validator alone, [returns] says that some
    course of events leads to the result. *)

Inductive M (A : Type) : Type :=
| DoneM (r : result A verr)
| CacheM (X : Type) (f : rrsetCache → X * rrsetCache) (k : X → M A)
| AskM (cfg : VConfig) (zone : string) (t : Z) (k : option Msg → M A).
Arguments DoneM {A} r.
Arguments CacheM {A X} f k.
Arguments AskM {A} cfg zone t k.

Definition retM {A} (a : A) : M A := DoneM (Ok a).
Definition failM {A} (e : verr) : M A := DoneM (Err e).

(** Go on with the result, an error included. *)
Fixpoint thenM {A B} (c : M A) (f : result A verr → M B) : M B :=
  match c with
  | DoneM r => f r
  | CacheM g k => CacheM g (λ x, thenM (k x) f)
  | AskM cfg zone t k => AskM cfg zone t (λ x, thenM (k x) f)
  end.
Definition bindM {A B} (c : M A) (f : A → M B) : M B :=
  thenM c (λ r, match r with Ok a => f a | Err e => failM e end).
Notation "'doM' x ← c ; k" := (bindM c (λ x, k))
  (at level 100, x binder, c at next level, k at level 200, right associativity) : rcvd_scope.

(** [q.SetQuestion(dns.Fqdn(zone), t); q.SetEdns0(4096, true)]. *)
Definition key_query {dl : DnsLib} (cfg : VConfig) (n : nat) (zone : string) (t : Z) : Msg :=
  SetEdns0 4096 true
    (mkMsg (mkMsgHdr (v_id cfg n) false 0 false false true false false false 0)
           [mkQuestion (Fqdn zone) t ClassINET] [] [] []).

(** The validator alone: the [n]-th query is answered by the fetcher. *)
Fixpoint runM {dl : DnsLib} {A} (c : M A) (st : VState) : result A verr * VState :=
  match c with
  | DoneM r => (r, st)
  | CacheM f k => let '(x, c) := f (keyCache st) in runM (k x) (mkVState c (fetched st))
  | AskM cfg zone t k =>
      let n := List.length (fetched st) in
      let q := key_query cfg n zone t in
      runM (k (match v_fetcher cfg with Some fetch => fetch n q | None => None end)) (mkVState (keyCache st) (fetched st ++ [q]))
  end.
#[warning="-uniform-inheritance"] Coercion runM : M >-> Funclass.

Section Ops.
Context {dl : DnsLib} {cl : DnssecLib}.

(** ** The key cache *)

Definition cache_get (now : Z) (zone : string) (t : Z) (c : rrsetCache) : option (list RR) * rrsetCache :=
  match c !! rrsetKey zone t with
  | None => (None, c)
  | Some (rrs, expiresAt) =>
      if expiresAt <? now then (None, delete (rrsetKey zone t) c) else (Some rrs, c)
  end.

Definition clamp_ttl (ttl : Z) : Z := if ttl <? 60 then 60 else if ttl >? 86400 then 86400 else ttl.

Definition cache_put (now : Z) (zone : string) (t : Z) (rrs : list RR) (ttl : Z) (c : rrsetCache) : rrsetCache :=
  match rrs with
  | [] => c
  | _ => <[rrsetKey zone t := (rrs, now + seconds (clamp_ttl ttl))]> c
  end.

Definition getM (cfg : VConfig) (zone : string) (t : Z) : M (option (list RR)) := CacheM (cache_get (v_now cfg) zone t) retM.
Definition putM (cfg : VConfig) (zone : string) (t : Z) (rrs : list RR) (ttl : Z) : M () :=
  CacheM (λ c, ((), cache_put (v_now cfg) zone t rrs ttl c)) retM.

(** [v.fetcher.Resolve]: an error when there is no answer. *)
Definition askM (cfg : VConfig) (zone : string) (t : Z) : M Msg :=
  match v_fetcher cfg with
  | None => failM EBogus
  | Some _ => AskM cfg zone t (λ r, match r with Some m => retM m | None => failM EBogus end)
  end.

(** The records of a type, and the signatures, of an answer. *)
Definition keep_type (t : Z) (rrs : list RR) : list RR :=
  List.filter (λ rr, (rrtype rr =? t) || (rrtype rr =? TypeRRSIG)) rrs.

Definition fetchRRset (cfg : VConfig) (zone : string) (t : Z) : M (list RR * list sig) :=
  match v_fetcher cfg with
  | None => failM EBogus
  | Some _ =>
      doM cached ← getM cfg zone t;
      match cached with
      | Some rrs => retM (splitRRSIGs rrs t)
      | None =>
          doM resp ← askM cfg zone t;
          if negb (mRcode resp =? RcodeSuccess) then failM EBogus else
          let keep := keep_type t (mAnswer resp) in
          let '(rrset, sigs) := splitRRSIGs keep t in
          match rrset with
          | [] => failM EBogus
          | _ => doM _ ← putM cfg zone t keep (minRRsetTTL rrset); retM (rrset, sigs)
          end
      end
  end.

(** The response about the DS records of [zone], as its rcode, answer and authority. *)
Definition fetchDSResponse (cfg : VConfig) (zone : string) : M (Z * list RR * list RR) :=
  match v_fetcher cfg with
  | None => failM EBogus
  | Some _ =>
      doM cached ← getM cfg zone TypeDS;
      match cached with
      | Some rrs => retM (RcodeSuccess, rrs, [])
      | None =>
          doM resp ← askM cfg zone TypeDS;
          let dsRRs := fst (splitRRSIGs (mAnswer resp) TypeDS) in
          match dsRRs with
          | [] => retM (mRcode resp, mAnswer resp, mNs resp)
          | _ =>
              doM _ ← putM cfg zone TypeDS (keep_type TypeDS (mAnswer resp)) (minRRsetTTL dsRRs);
              retM (mRcode resp, mAnswer resp, mNs resp)
          end
      end
  end.

(** ** The walk to the root *)

Definition maxChainDepth : nat := 24.

(** The keys that a DS record of the set vouches for. *)
Definition ds_matches (k : key) (rr : RR) : bool :=
  match rData rr with
  | D_DS ds =>
      (KeyTag k =? dsKeyTag ds) && (keyAlgorithm (snd k) =? dsAlgorithm ds) &&
      match ToDS k (dsDigestType ds) with Some digest => equalHexDigest digest (dsDigest ds) | None => false end
  | _ => false
  end.
Definition ds_trusted (dsRRs : list RR) (keys : list key) : list key :=
  flat_map (λ rr, List.filter (λ k, ds_matches k rr) keys) dsRRs.

(** The end of the walk for one zone: the key set must be signed by a trusted key. *)
Definition self_signed (cfg : VConfig) (dnskeyRRs : list RR) (sigs : list sig) (keys trustedSEPs : list key) : M (list key) :=
  match verifyRRsetWithKeySet (v_now cfg) dnskeyRRs sigs trustedSEPs with
  | Ok _ => retM keys
  | Err e => failM (if unprocessableKey e then EInsecureDelegation else EBogus)
  end.

(** The body of [authenticatedDNSKEYs] for a zone in canonical form; [parent]
    is the recursive call for the parent zone. *)
Definition auth_zone (cfg : VConfig) (zone : string) (parent : M (list key)) : M (list key) :=
  doM fetched ← fetchRRset cfg zone TypeDNSKEY;
  let '(dnskeyRRs, dnskeySigs) := fetched in
  match omap as_key dnskeyRRs with
  | [] => failM EBogus
  | keys =>
      if String.eqb zone "." then
        match v_anchors cfg with
        | [] => failM EBogus
        | anchors =>
            match List.filter (λ k, VerifyKeyAgainstAnchors k anchors) keys with
            | [] => failM EBogus
            | trustedSEPs => self_signed cfg dnskeyRRs dnskeySigs keys trustedSEPs
            end
        end
      else
        doM dsResp ← fetchDSResponse cfg zone;
        let '(rcode, answer, authority) := dsResp in
        doM parentKeys ← parent;
        let '(dsRRs, dsSigs) := splitRRSIGs answer TypeDS in
        match dsRRs with
        | [] =>
            if (rcode =? RcodeSuccess) && provesNoDS (v_now cfg) zone authority parentKeys
            then failM EInsecureDelegation else failM EBogus
        | _ =>
            match verifyRRsetWithKeySet (v_now cfg) dsRRs dsSigs parentKeys with
            | Err e => failM (if unprocessableKey e then EInsecureDelegation else EBogus)
            | Ok _ =>
                match ds_trusted dsRRs keys with
                | [] => failM EBogus
                | trustedSEPs => self_signed cfg dnskeyRRs dnskeySigs keys trustedSEPs
                end
            end
        end
  end.

(** [authenticatedDNSKEYs(ctx, zone, depth)] with [budget = maxChainDepth - depth]:
    the call at depth [maxChainDepth + 1] fails. *)
Fixpoint authenticated (budget : nat) (cfg : VConfig) (zone0 : string) : M (list key) :=
  let zone := CanonicalName zone0 in
  auth_zone cfg zone
    (match budget with
     | O => failM EBogus
     | S budget' => authenticated budget' cfg (parentZone zone)
     end).

Definition authenticatedDNSKEYs (cfg : VConfig) (zone : string) : M (list key) :=
  authenticated maxChainDepth cfg zone.

(** ** Validation of a response *)

Definition add_rrset (m : gmap string (list RR)) (rr : RR) : gmap string (list RR) :=
  if rrtype rr =? TypeRRSIG then m else
  let k := rrsetKey (hName (rHdr rr)) (rrtype rr) in
  <[k := default [] (m !! k) ++ [rr]]> m.
Definition buildRRsets (rrs : list RR) : gmap string (list RR) := fold_left add_rrset rrs ∅.

Definition findDNSKEY (rrs : list RR) (tag alg : Z) (signer : string) : option key :=
  head (List.filter (λ k : key, (KeyTag k =? tag) && (keyAlgorithm (snd k) =? alg) &&
    String.eqb (Fqdn (CanonicalName (hName (fst k)))) (Fqdn (CanonicalName signer))) (omap as_key rrs)).

Definition isRootKSK (k : key) : bool :=
  String.eqb (hName (fst k)) "." && negb (Z.land (keyFlags (snd k)) 1 =? 0) && negb (Z.land (keyFlags (snd k)) 256 =? 0).

(** The signing key of [s]: in the message, or else in the authenticated key
    set of the signer. *)
Definition signing_key (cfg : VConfig) (allRRs : list RR) (s : sig) : M key :=
  let tag := sigKeyTag (snd s) in
  let alg := sigAlgorithm (snd s) in
  match findDNSKEY allRRs tag alg (sigSignerName (snd s)) with
  | Some k => retM k
  | None =>
      match v_fetcher cfg with
      | None => failM EBogus
      | Some _ =>
          thenM (authenticatedDNSKEYs cfg (sigSignerName (snd s))) (λ r,
          match r with
          | Err EInsecureDelegation => failM EInsecureAnswer
          | Err e => failM e
          | Ok keys =>
              match head (List.filter (λ k : key, (KeyTag k =? tag) && (keyAlgorithm (snd k) =? alg)) keys) with
              | Some k => retM k
              | None => failM EBogus
              end
          end)
      end
  end.

(** The loop over the signatures of the answer; [validated] collects the keys
    of the record sets that a signature covers. *)
Fixpoint validate_sigs (cfg : VConfig) (allRRs : list RR) (rrsets : gmap string (list RR)) (sigs : list sig)
    (validated : gset string) : M (gset string) :=
  match sigs with
  | [] => retM validated
  | s :: rest =>
      if negb (ValidityPeriod s (v_now cfg)) then failM EBogus else
      let k := rrsetKey (hName (fst s)) (sigTypeCovered (snd s)) in
      match rrsets !! k with
      | None => validate_sigs cfg allRRs rrsets rest validated
      | Some [] => validate_sigs cfg allRRs rrsets rest validated
      | Some rrset =>
          doM signingKey ← signing_key cfg allRRs s;
          match Verify s signingKey rrset with
          | VUnprocessable => failM EInsecureAnswer
          | VBad => failM EBogus
          | VOk =>
              if (0 <? List.length (v_anchors cfg))%nat && isRootKSK signingKey &&
                 negb (VerifyKeyAgainstAnchors signingKey (v_anchors cfg))
              then failM EBogus
              else validate_sigs cfg allRRs rrsets rest ({[k]} ∪ validated)
          end
      end
  end.

(** [rrset[0].Header().Rrtype] is not gated. *)
Definition ungated (rrset : list RR) : bool :=
  match rrset with
  | [] => true
  | rr :: _ => (rrtype rr =? TypeDNSKEY) || (rrtype rr =? TypeDS)
  end.

Definition all_covered (rrsets : gmap string (list RR)) (validated : gset string) : bool :=
  forallb (λ kv, ungated (snd kv) || bool_decide (fst kv ∈ validated)) (map_to_list rrsets).

Definition ValidateResponse (cfg : VConfig) (msg : Msg) : M () :=
  if negb (v_enabled cfg) then retM () else
  match mAnswer msg with
  | [] => retM ()
  | _ =>
      let allRRs := mAnswer msg ++ mNs msg in
      let rrsigs := omap as_sig (mAnswer msg) in
      match rrsigs with
      | [] => failM (if v_validateAll cfg then EBogus else EInsecureAnswer)
      | _ =>
          let rrsets := buildRRsets (mAnswer msg) in
          doM validated ← validate_sigs cfg allRRs rrsets rrsigs ∅;
          if all_covered rrsets validated then retM () else failM EInsecureAnswer
      end
  end.

End Ops.

(** SEP is bit 0 and ZONE is bit 8 of the flags of a key. *)
Definition SupportedAlgorithms : list Z := [1; 5; 8; 10; 13; 14; 15].
Definition IsSupported (algorithm : Z) : bool := existsb (Z.eqb algorithm) SupportedAlgorithms.

(** ** The validator as the listeners see it *)

#[global] Instance chain_validator {dl : DnsLib} {cl : DnssecLib} : Validator (VConfig * VState) :=
  λ msg v,
    let '(res, st) := ValidateResponse (fst v) msg (snd v) in
    (match res with Ok _ => Secure | Err e => if IsInsecure e then Insecure else Bogus end, (fst v, st)).

(** ** Reasoning about the monad *)

(** Some answers to its queries, and some states of the key cache at its sections,
    make the computation return [a]. *)
Fixpoint returns {A} (c : M A) (a : A) : Prop :=
  match c with
  | DoneM r => r = Ok a
  | CacheM _ k => ∃ x, returns (k x) a
  | AskM _ _ _ k => ∃ x, returns (k x) a
  end.

Lemma returns_then {A B} (c : M A) (f : result A verr → M B) b : returns (thenM c f) b → ∃ r, (∀ a, r = Ok a → returns c a) ∧ returns (f r) b.
Proof.
  induction c as [r|X g k IH|cfg zone t k IH]; cbn; [by exists r; split; [congruence|]|..].
  all: intros [x [r [H1 H2]]%IH]; exists r; eauto.
Qed.

Lemma returns_bind {A B} (c : M A) (f : A → M B) b : returns (bindM c f) b → ∃ a, returns c a ∧ returns (f a) b.
Proof. intros [[a|e] [H1 H2]]%returns_then; [|done]. exists a. auto. Qed.

Lemma runM_returns {dl : DnsLib} {A} (c : M A) st a st' : c st = (Ok a, st') → returns c a.
Proof.
  revert st. induction c as [r|X g k IH|cfg zone t k IH]; intros st; cbn; [by intros [= -> _]| |].
  - destruct (g (keyCache st)) as [x c]. intros H%IH. eauto.
  - intros H%IH. eauto.
Qed.

(** Some course of events makes the computation fail with [e]. *)
Fixpoint fails {A} (c : M A) (e : verr) : Prop :=
  match c with
  | DoneM r => r = Err e
  | CacheM _ k => ∃ x, fails (k x) e
  | AskM _ _ _ k => ∃ x, fails (k x) e
  end.

Lemma fails_bind {A B} (c : M A) (f : A → M B) e : fails (bindM c f) e → fails c e ∨ ∃ a, returns c a ∧ fails (f a) e.
Proof.
  unfold bindM. induction c as [[a|e']|X g k IH|cfg zone t k IH]; cbn; [intros H; right; by exists a|intros [= ->]; by left|..].
  all: intros [x [H|(a & H1 & H2)]%IH]; [left|right; exists a]; eauto.
Qed.

Lemma runM_fails {dl : DnsLib} {A} (c : M A) st e st' : c st = (Err e, st') → fails c e.
Proof.
  revert st. induction c as [r|X g k IH|cfg zone t k IH]; intros st; cbn; [by intros [= -> _]| |].
  - destruct (g (keyCache st)) as [x c]. intros H%IH. eauto.
  - intros H%IH. eauto.
Qed.

Lemma runM_then {dl : DnsLib} {A B} (c : M A) (f : result A verr → M B) st : thenM c f st = let '(r, st') := c st in f r st'.
Proof.
  revert st. induction c as [r|X g k IH|cfg zone t k IH]; intros st; cbn; [done| |apply IH].
  destruct (g (keyCache st)) as [x c]. apply IH.
Qed.

(** A bound on the queries a computation sends, whatever its outcome. *)
Definition asks {dl : DnsLib} {A} (n : nat) (c : M A) : Prop :=
  ∀ st, (List.length (fetched (snd (c st))) ≤ List.length (fetched st) + n)%nat.

Lemma asks_ret {dl : DnsLib} {A} (a : A) n : asks n (retM a).
Proof. intros st. simpl. lia. Qed.
Lemma asks_fail {dl : DnsLib} {A} e n : asks n (failM (A := A) e).
Proof. intros st. simpl. lia. Qed.
Lemma asks_bind {dl : DnsLib} {A B} n m (c : M A) (f : A → M B) : asks n c → (∀ a, asks m (f a)) → asks (n + m) (bindM c f).
Proof.
  intros Hc Hf st. unfold bindM. rewrite runM_then. specialize (Hc st). destruct (c st) as [[a|e] st1]; simpl in *; [|lia].
  specialize (Hf a st1). lia.
Qed.
Lemma asks_le {dl : DnsLib} {A} n m (c : M A) : (n ≤ m)%nat → asks n c → asks m c.
Proof. intros Hle Hc st. specialize (Hc st). lia. Qed.

Create HintDb asks discriminated.
#[local] Hint Resolve asks_ret asks_fail : asks.

Section Props.
Context {dl : DnsLib} {cl : DnssecLib}.

(** ** The key cache *)

Lemma clamp_ttl_bounds ttl : 60 ≤ clamp_ttl ttl ≤ 86400.
Proof. unfold clamp_ttl. cases_lia. Qed.

(** Fetched key material is reused unchanged until its lifetime ends and
    never after; the lifetime is the TTL kept between one minute and one day,
    whatever the records claim, and other record sets are not affected. *)
Theorem key_cache_roundtrip now now' zone t rrs ttl c :
  rrs ≠ [] →
  let c' := cache_put now zone t rrs ttl c in
  ∃ life, 60 * second ≤ life ≤ 86400 * second ∧ (60 ≤ ttl ≤ 86400 → life = ttl * second) ∧
    (now' ≤ now + life → cache_get now' zone t c' = (Some rrs, c')) ∧
    (now + life < now' → fst (cache_get now' zone t c') = None) ∧
    (∀ zone' t', rrsetKey zone' t' ≠ rrsetKey zone t →
       fst (cache_get now' zone' t' c') = fst (cache_get now' zone' t' c)).
Proof.
  intros Hne. cbn zeta. exists (clamp_ttl ttl * second). pose proof (clamp_ttl_bounds ttl) as Hb.
  assert (Hp : cache_put now zone t rrs ttl c = <[rrsetKey zone t := (rrs, now + clamp_ttl ttl * second)]> c).
  { unfold cache_put. destruct rrs; [done|]. by rewrite seconds_exact by lia. }
  rewrite Hp. unfold cache_get. rewrite lookup_insert_eq. split_and!; [unfold second; lia|unfold second; lia| | | |].
  - intros ?. unfold clamp_ttl. cases_lia.
  - intros ?. by rewrite (proj2 (Z.ltb_ge _ _)) by lia.
  - intros ?. by rewrite (proj2 (Z.ltb_lt _ _)) by lia.
  - intros zone' t' Hk. rewrite lookup_insert_ne by done.
    destruct (c !! rrsetKey zone' t') as [[r e]|]; [|done]. by destruct (e <? now').
Qed.

(** ** Bounded work *)

Lemma asks_getM cfg zone t : asks 0 (getM cfg zone t).
Proof. intros st. cbn. destruct (cache_get _ _ _ _). cbn. lia. Qed.
Lemma asks_putM cfg zone t rrs ttl : asks 0 (putM cfg zone t rrs ttl).
Proof. intros st. simpl. lia. Qed.
Lemma asks_askM cfg zone t : asks 1 (askM cfg zone t).
Proof.
  intros st. unfold askM. destruct (v_fetcher cfg) as [f|] eqn:E; cbn; [|lia]. rewrite E.
  destruct (f _ _); cbn; rewrite length_app; cbn; lia.
Qed.

Lemma asks_fetchRRset cfg zone t : asks 1 (fetchRRset cfg zone t).
Proof.
  unfold fetchRRset. destruct (v_fetcher cfg); [|apply asks_fail].
  apply (asks_bind 0 1); [apply asks_getM|]. intros [rrs|]; [apply asks_ret|].
  apply (asks_bind 1 0); [apply asks_askM|]. intros resp. destruct (negb _); [apply asks_fail|].
  destruct (splitRRSIGs _ _) as [[|rr rrset] sigs]; [apply asks_fail|].
  apply (asks_bind 0 0); [apply asks_putM|]. intros. apply asks_ret.
Qed.

Lemma asks_fetchDS cfg zone : asks 1 (fetchDSResponse cfg zone).
Proof.
  unfold fetchDSResponse. destruct (v_fetcher cfg); [|apply asks_fail].
  apply (asks_bind 0 1); [apply asks_getM|]. intros [rrs|]; [apply asks_ret|].
  apply (asks_bind 1 0); [apply asks_askM|]. intros resp. cbn zeta.
  destruct (fst (splitRRSIGs (mAnswer resp) TypeDS)); [apply asks_ret|].
  apply (asks_bind 0 0); [apply asks_putM|]. intros. apply asks_ret.
Qed.

Lemma asks_self_signed cfg rrs sigs keys seps n : asks n (self_signed cfg rrs sigs keys seps).
Proof. unfold self_signed. destruct (verifyRRsetWithKeySet _ _ _ _); [apply asks_ret|apply asks_fail]. Qed.

(** The work of one zone, given the work of its parent. *)
Lemma asks_zone n cfg zone parent : asks n parent → asks (2 + n) (auth_zone cfg zone parent).
Proof.
  intros Hp. unfold auth_zone. apply (asks_bind 1 (1 + n)); [apply asks_fetchRRset|]. intros [rrs sigs].
  destruct (omap as_key rrs) as [|k ks]; [apply asks_fail|]. destruct (String.eqb zone ".").
  { destruct (v_anchors cfg); [apply asks_fail|].
    destruct (List.filter _ (k :: ks)); [apply asks_fail|apply asks_self_signed]. }
  apply asks_bind; [apply asks_fetchDS|]. intros [[rcode answer] authority].
  apply (asks_le (n + 0)); [lia|]. apply asks_bind; [done|]. intros parentKeys.
  destruct (splitRRSIGs answer TypeDS) as [[|d ds] dsSigs]; [destruct (_ && _)%bool; apply asks_fail|].
  destruct (verifyRRsetWithKeySet _ _ _ _); [|apply asks_fail].
  destruct (ds_trusted _ _); [apply asks_fail|apply asks_self_signed].
Qed.

Lemma asks_authenticated budget cfg zone : asks (2 * (budget + 1)) (authenticated budget cfg zone).
Proof.
  revert zone. induction budget as [|budget IH]; intros zone.
  - apply (asks_zone 0). apply asks_fail.
  - eapply asks_le; [|apply (asks_zone (2 * (budget + 1))), IH]. lia.
Qed.

(** ** The chain of trust *)

(** [keys] are the keys of a record set whose self-signature is by one of the
    keys [seps] of the set. *)
Definition signs_itself (now : Z) (keys seps : list key) : Prop :=
  seps ⊆ keys ∧ ∃ rrs sigs, keys = omap as_key rrs ∧ signed_by now rrs sigs seps.

(** The keys of a zone, proven up to a configured root anchor. *)
Inductive trusted (cfg : VConfig) : string → list key → Prop :=
| trusted_root keys seps :
    signs_itself (v_now cfg) keys seps →
    (∀ k, k ∈ seps → VerifyKeyAgainstAnchors k (v_anchors cfg) = true) →
    trusted cfg "." keys
| trusted_child zone keys seps dsRRs dsSigs parentKeys :
    zone ≠ "." →
    trusted cfg (CanonicalName (parentZone zone)) parentKeys →
    signed_by (v_now cfg) dsRRs dsSigs parentKeys →
    signs_itself (v_now cfg) keys seps →
    (∀ k, k ∈ seps → ∃ ds, ds ∈ dsRRs ∧ ds_matches k ds = true) →
    trusted cfg zone keys.

Lemma self_signed_sound cfg rrs sigs seps ks :
  seps ⊆ omap as_key rrs →
  returns (self_signed cfg rrs sigs (omap as_key rrs) seps) ks →
  ks = omap as_key rrs ∧ signs_itself (v_now cfg) ks seps.
Proof.
  unfold self_signed. intros Hsub H. destruct (verifyRRsetWithKeySet _ _ _ _) as [[]|] eqn:E; [|done].
  injection H as <-. apply verify_iff in E. split; [done|]. split; [done|]. eauto.
Qed.

Lemma auth_zone_sound cfg zone parent ks :
  (∀ pk, returns parent pk → zone ≠ "." → trusted cfg (CanonicalName (parentZone zone)) pk) →
  returns (auth_zone cfg zone parent) ks → trusted cfg zone ks.
Proof.
  intros Hp H. unfold auth_zone in H. apply returns_bind in H as ([rrs sigs] & _ & H).
  destruct (omap as_key rrs) as [|k0 ks0] eqn:Ek; [done|]. rewrite <-Ek in H. clear k0 ks0 Ek.
  destruct (String.eqb_spec zone ".") as [->|Hz].
  - destruct (v_anchors cfg) as [|a al] eqn:Ea; [done|]. rewrite <-Ea in H. clear a al Ea.
    destruct (List.filter _ _) as [|s0 ss] eqn:Es; [done|]. rewrite <-Es in H. clear s0 ss Es.
    apply self_signed_sound in H as [-> Hs]; [|by intros k [? _]%elem_of_List_filter].
    eapply trusted_root; [exact Hs|]. by intros k [_ ?]%elem_of_List_filter.
  - apply returns_bind in H as ([[rcode answer] authority] & _ & H).
    apply returns_bind in H as (pk & Hpk & H). apply Hp in Hpk; [|done].
    destruct (splitRRSIGs answer TypeDS) as [[|d ds] dsSigs]; [by destruct (_ && _)%bool|].
    destruct (verifyRRsetWithKeySet _ _ _ _) as [[]|] eqn:Ev; [|done]. apply verify_iff in Ev.
    destruct (ds_trusted (d :: ds) _) as [|s0 ss] eqn:Es; [done|]. rewrite <-Es in H. clear s0 ss Es.
    assert (Hin : ∀ k, k ∈ ds_trusted (d :: ds) (omap as_key rrs) →
      k ∈ omap as_key rrs ∧ ∃ x, x ∈ d :: ds ∧ ds_matches k x = true).
    { intros k. unfold ds_trusted. rewrite elem_of_flat_map.
      intros (x & Hx & [? ?]%elem_of_List_filter). eauto. }
    apply self_signed_sound in H as [-> Hs]; [|by intros k [? _]%Hin].
    eapply trusted_child; eauto. by intros k [_ ?]%Hin.
Qed.

Lemma authenticated_trusted budget cfg zone ks :
  returns (authenticated budget cfg zone) ks → trusted cfg (CanonicalName zone) ks.
Proof.
  revert zone ks. induction budget as [|budget IH]; intros zone ks H;
    eapply auth_zone_sound, H; [done|]. intros pk Hpk _. by eapply IH.
Qed.

(** C10: The keys the validator calls authentic for a zone really have a chain of
    trust: the key set is signed by one of its own keys that matches a DS
    record signed by the authentic keys of the parent zone, and so on up to a
    root key that matches a configured anchor. *)
Theorem authenticatedDNSKEYs_sound cfg zone st keys st' :
  authenticatedDNSKEYs cfg zone st = (Ok keys, st') → trusted cfg (CanonicalName zone) keys.
Proof. intros H%runM_returns. by eapply authenticated_trusted. Qed.

(** *** Insecure delegations *)

(** The keys [seps] of a zone are vouched for by the root anchors, or by the DS records
    that the authentic keys of the parent signed. *)
Definition vouched_seps (cfg : VConfig) (zone : string) (seps : list key) : Prop :=
  (zone = "." ∧ ∀ k, k ∈ seps → VerifyKeyAgainstAnchors k (v_anchors cfg) = true) ∨
  (zone ≠ "." ∧ ∃ dsRRs dsSigs pk, trusted cfg (CanonicalName (parentZone zone)) pk ∧ signed_by (v_now cfg) dsRRs dsSigs pk ∧
     ∀ k, k ∈ seps → ∃ ds, ds ∈ dsRRs ∧ ds_matches k ds = true).

(** The reasons for which a zone counts as insecure. *)
Inductive insecure (cfg : VConfig) : string → Prop :=
| insecure_no_ds zone pk authority :       (* the parent proves that there is no DS record *)
    zone ≠ "." → trusted cfg (CanonicalName (parentZone zone)) pk →
    no_ds_proof (v_now cfg) authority pk (CanonicalName zone) → insecure cfg zone
| insecure_ds zone pk dsRRs dsSigs :       (* a key of the parent that signed the DS records cannot be processed *)
    zone ≠ "." → trusted cfg (CanonicalName (parentZone zone)) pk → dsRRs ≠ [] →
    unprocessable (v_now cfg) dsRRs dsSigs pk → insecure cfg zone
| insecure_keys zone seps rrs sigs :       (* a vouched key that signed the keys of the zone cannot be processed *)
    seps ≠ [] → seps ⊆ omap as_key rrs → vouched_seps cfg zone seps →
    unprocessable (v_now cfg) rrs sigs seps → insecure cfg zone
| insecure_above zone :                    (* the parent is insecure *)
    zone ≠ "." → insecure cfg (CanonicalName (parentZone zone)) → insecure cfg zone.

Lemma askM_fails cfg zone t e : fails (askM cfg zone t) e → e = EBogus.
Proof. unfold askM. destruct (v_fetcher cfg); [|by intros [= <-]]. by intros [[m|] [=]]. Qed.

Lemma fetchRRset_fails cfg zone t e : fails (fetchRRset cfg zone t) e → e = EBogus.
Proof.
  unfold fetchRRset. destruct (v_fetcher cfg); [|by intros [= <-]]. intros [[x [=]]|([rrs|] & _ & H)]%fails_bind; [done|].
  apply fails_bind in H as [H%askM_fails|(resp & _ & H)]; [done|]. destruct (negb _); [by injection H as <-|].
  destruct (splitRRSIGs _ _) as [[|rr rrset] sigs]; [by injection H as <-|]. apply fails_bind in H as [[x [=]]|(? & _ & [=])].
Qed.

Lemma fetchDSResponse_fails cfg zone e : fails (fetchDSResponse cfg zone) e → e = EBogus.
Proof.
  unfold fetchDSResponse. destruct (v_fetcher cfg); [|by intros [= <-]]. intros [[x [=]]|([rrs|] & _ & H)]%fails_bind; [done|].
  apply fails_bind in H as [H%askM_fails|(resp & _ & H)]; [done|].
  destruct (fst _) as [|rr rrset]; [done|]. apply fails_bind in H as [[x [=]]|(? & _ & [=])].
Qed.

Lemma self_signed_insecure cfg zone rrs sigs seps : seps ≠ [] → seps ⊆ omap as_key rrs → vouched_seps cfg zone seps →
  fails (self_signed cfg rrs sigs (omap as_key rrs) seps) EInsecureDelegation → insecure cfg zone.
Proof.
  intros Hne Hsub Hv. unfold self_signed. destruct (verifyRRsetWithKeySet _ _ _ _) as [|e] eqn:E; [done|]. cbn.
  destruct (unprocessableKey e) eqn:Eu; [|done]. intros _. eapply insecure_keys; eauto. by eapply verify_unprocessable.
Qed.

Lemma ds_trusted_elem dsRRs keys k : k ∈ ds_trusted dsRRs keys → k ∈ keys ∧ ∃ ds, ds ∈ dsRRs ∧ ds_matches k ds = true.
Proof. unfold ds_trusted. rewrite elem_of_flat_map. intros (x & Hx & [? ?]%elem_of_List_filter). eauto. Qed.

Lemma auth_zone_insecure cfg zone parent :
  (∀ pk, returns parent pk → zone ≠ "." → trusted cfg (CanonicalName (parentZone zone)) pk) →
  (fails parent EInsecureDelegation → zone ≠ "." → insecure cfg (CanonicalName (parentZone zone))) →
  fails (auth_zone cfg zone parent) EInsecureDelegation → insecure cfg zone.
Proof.
  intros Hp Hf H. unfold auth_zone in H. apply fails_bind in H as [H%fetchRRset_fails|([rrs sigs] & _ & H)]; [done|].
  destruct (omap as_key rrs) as [|k0 ks0] eqn:Ek; [done|]. rewrite <-Ek in H. clear k0 ks0 Ek.
  destruct (String.eqb_spec zone ".") as [->|Hz].
  - destruct (v_anchors cfg) as [|a al] eqn:Ea; [done|]. rewrite <-Ea in H. clear a al Ea.
    destruct (List.filter _ _) as [|s0 ss] eqn:Es; [done|]. rewrite <-Es in H.
    eapply self_signed_insecure; [| | |exact H]; [by rewrite Es|by intros k [? _]%elem_of_List_filter|].
    left. split; [done|]. by intros k [_ ?]%elem_of_List_filter.
  - apply fails_bind in H as [H%fetchDSResponse_fails|([[rcode answer] authority] & _ & H)]; [done|].
    apply fails_bind in H as [H|(pk & Hpk & H)]; [by apply insecure_above; auto|]. apply Hp in Hpk; [|done].
    destruct (splitRRSIGs answer TypeDS) as [[|d ds] dsSigs].
    + destruct (_ && provesNoDS _ _ _ _)%bool eqn:E; [|done]. apply andb_true_iff in E as [_ E%provesNoDS_sound].
      by eapply insecure_no_ds.
    + destruct (verifyRRsetWithKeySet _ _ _ _) as [[]|e] eqn:Ev.
      * apply verify_iff in Ev. destruct (ds_trusted (d :: ds) _) as [|s0 ss] eqn:Es; [done|]. rewrite <-Es in H.
        eapply self_signed_insecure; [| | |exact H]; [by rewrite Es|by intros k [? _]%ds_trusted_elem|].
        right. split; [done|]. exists (d :: ds), dsSigs, pk. split_and!; [done..|]. by intros k [_ ?]%ds_trusted_elem.
      * destruct (unprocessableKey e) eqn:Eu; [|done]. eapply (insecure_ds cfg zone pk (d :: ds) dsSigs); [done..|]. by eapply verify_unprocessable.
Qed.

Lemma authenticated_insecure budget cfg zone :
  fails (authenticated budget cfg zone) EInsecureDelegation → insecure cfg (CanonicalName zone).
Proof.
  revert zone. induction budget as [|budget IH]; intros zone H; (eapply auth_zone_insecure; [| |exact H]); try done.
  - intros pk Hpk _. by eapply authenticated_trusted.
  - intros Hf _. by apply IH.
Qed.

(** C38: When the walk to the root gives a zone up as insecure, so that its answers are served
    without AD instead of refused, there is one of these reasons at the zone or at a zone
    above it, each resting on keys authenticated up to a root anchor: the authentic keys
    of the parent signed a proof that the delegation has no DS record; or the DS records
    carry a signature of an authentic key of the parent that cannot be processed; or the
    keys of the zone carry a signature, that cannot be processed, of a key which the
    anchors or signed DS records vouch for; and in the last two cases no signature is
    valid.  A forged or unsigned denial, a wrong signature, or a key that no DS record
    matches is not enough by itself. *)
Theorem insecure_delegation_justified cfg zone st st' :
  authenticatedDNSKEYs cfg zone st = (Err EInsecureDelegation, st') → insecure cfg (CanonicalName zone).
Proof. intros H%runM_fails. by eapply authenticated_insecure. Qed.

(** The walk is bounded: whatever the upstream answers, authenticating the
    keys of a zone sends at most 50 queries (two for each of the 25 levels). *)
Theorem authenticatedDNSKEYs_bounded cfg zone st :
  (List.length (fetched (snd (authenticatedDNSKEYs cfg zone st))) ≤ List.length (fetched st) + 50)%nat.
Proof. apply (asks_authenticated maxChainDepth). Qed.

(** ** Record sets of an answer *)

Lemma add_rrset_lookup m rr k :
  default [] (add_rrset m rr !! k) =
  default [] (m !! k) ++ (if negb (rrtype rr =? TypeRRSIG) && String.eqb k (rrsetKey (hName (rHdr rr)) (rrtype rr))
                          then [rr] else []).
Proof.
  unfold add_rrset. destruct (rrtype rr =? TypeRRSIG); simpl; [by rewrite app_nil_r|].
  destruct (String.eqb_spec k (rrsetKey (hName (rHdr rr)) (rrtype rr))) as [->|Hne].
  - by rewrite lookup_insert_eq.
  - rewrite lookup_insert_ne by done. by rewrite app_nil_r.
Qed.

Lemma buildRRsets_lookup rrs k :
  default [] (buildRRsets rrs !! k) =
  List.filter (λ rr, negb (rrtype rr =? TypeRRSIG) && String.eqb k (rrsetKey (hName (rHdr rr)) (rrtype rr))) rrs.
Proof.
  unfold buildRRsets. change (List.filter ?p rrs) with ([] ++ List.filter p rrs).
  replace [] with (default [] ((∅ : gmap string (list RR)) !! k)) at 2 by (by rewrite lookup_empty).
  generalize (∅ : gmap string (list RR)). induction rrs as [|rr rrs IH]; intros m; simpl; [by rewrite app_nil_r|].
  rewrite IH, add_rrset_lookup, <-app_assoc. f_equal. by destruct (_ && _)%bool.
Qed.

(** ** What a secure verdict means *)

(** Where the key that checked a signature came from: the message itself, or
    the trusted keys of the signer. *)
Definition vouched (cfg : VConfig) (allRRs : list RR) (s : sig) (k : key) : Prop :=
  findDNSKEY allRRs (sigKeyTag (snd s)) (sigAlgorithm (snd s)) (sigSignerName (snd s)) = Some k ∨
  ∃ keys, trusted cfg (CanonicalName (sigSignerName (snd s))) keys ∧ k ∈ keys.

(** A signature of the message covers the record set under this key. *)
Definition covered (cfg : VConfig) (allRRs : list RR) (sigs : list sig) (rrset : list RR) (k : string) : Prop :=
  ∃ s sk, s ∈ sigs ∧ rrsetKey (hName (fst s)) (sigTypeCovered (snd s)) = k ∧
    ValidityPeriod s (v_now cfg) = true ∧ Verify s sk rrset = VOk ∧ vouched cfg allRRs s sk.

Lemma signing_key_vouched cfg allRRs s k : returns (signing_key cfg allRRs s) k → vouched cfg allRRs s k.
Proof.
  unfold signing_key, vouched. destruct (findDNSKEY _ _ _ _) as [k0|]; [intros [= ->]; by left|].
  destruct (v_fetcher cfg); [|done]. intros ([keys|[]] & E & H)%returns_then; try done. specialize (E keys eq_refl). right.
  destruct (List.filter _ keys) as [|k1 ks] eqn:Ef; [done|]. injection H as ->.
  exists keys. split; [by eapply authenticated_trusted|].
  assert (Hin : k ∈ k :: ks) by (by left). rewrite <-Ef in Hin. by apply elem_of_List_filter in Hin as [? _].
Qed.

Lemma validate_sigs_covered cfg allRRs rrsets sigs v v' k :
  returns (validate_sigs cfg allRRs rrsets sigs v) v' → k ∈ v' →
  k ∈ v ∨ ∃ rrset, rrsets !! k = Some rrset ∧ covered cfg allRRs sigs rrset k.
Proof.
  revert v. induction sigs as [|s sigs IH]; intros v; simpl; [intros [= ->]; by left|].
  destruct (ValidityPeriod s (v_now cfg)) eqn:Ev; simpl; [|done].
  assert (Hrest : ∀ v0, returns (validate_sigs cfg allRRs rrsets sigs v0) v' → k ∈ v' →
    k ∈ v0 ∨ ∃ rrset, rrsets !! k = Some rrset ∧ covered cfg allRRs (s :: sigs) rrset k).
  { intros v0 H Hk. destruct (IH v0 H Hk) as [?|(rrset & ? & s' & sk & Hs' & ?)]; [by left|].
    right. exists rrset. split; [done|]. exists s', sk. split; [by right|done]. }
  set (key := rrsetKey (hName (fst s)) (sigTypeCovered (snd s))).
  destruct (rrsets !! key) as [[|rr rrset]|] eqn:El; [apply Hrest| |apply Hrest].
  intros (sk & Hsk & H)%returns_bind Hk. apply signing_key_vouched in Hsk.
  destruct (Verify s sk (rr :: rrset)) eqn:Ever; [|done|done].
  destruct (_ && _ && _)%bool; [done|].
  destruct (Hrest _ H Hk) as [[->%elem_of_singleton|?]%elem_of_union|?]; [|by left|by right].
  right. exists (rr :: rrset). split; [done|]. exists s, sk. split_and!; try done. by left.
Qed.

(** Types of records are 16-bit numbers. *)
Definition types_wf (rrs : list RR) : Prop := ∀ rr, rr ∈ rrs → 0 ≤ rrtype rr < 2 ^ 16.

(** The data of an answer: not signatures, not key material. *)
Definition is_data (rr : RR) : Prop :=
  rrtype rr ≠ TypeRRSIG ∧ rrtype rr ≠ TypeDNSKEY ∧ rrtype rr ≠ TypeDS.

Lemma secure_covered cfg msg rr :
  returns (ValidateResponse cfg msg) () → v_enabled cfg = true → types_wf (mAnswer msg) →
  rr ∈ mAnswer msg → is_data rr →
  ∃ rrset, rr ∈ rrset ∧ (∀ r, r ∈ rrset → r ∈ mAnswer msg) ∧
    covered cfg (mAnswer msg ++ mNs msg) (omap as_sig (mAnswer msg)) rrset
      (rrsetKey (hName (rHdr rr)) (rrtype rr)).
Proof.
  intros H He Hwf Hin (Hsig & Hkey & Hds). unfold ValidateResponse in H. rewrite He in H. simpl in H.
  destruct (mAnswer msg) as [|r0 ans] eqn:Ea; [by apply elem_of_nil in Hin|]. rewrite <-Ea in *. clear r0 ans Ea.
  destruct (omap as_sig (mAnswer msg)) as [|s0 ss] eqn:Es; [done|]. rewrite <-Es in *. clear s0 ss Es.
  apply returns_bind in H as (v & Hv & H).
  destruct (all_covered (buildRRsets (mAnswer msg)) v) eqn:Ec; [|done]. clear H.
  set (k := rrsetKey (hName (rHdr rr)) (rrtype rr)).
  pose proof (buildRRsets_lookup (mAnswer msg) k) as Hl.
  destruct (buildRRsets (mAnswer msg) !! k) as [rrset|] eqn:El.
  2: { exfalso. simpl in Hl. assert (Hf : rr ∈ ([] : list RR)); [|by apply elem_of_nil in Hf].
       rewrite Hl. apply elem_of_List_filter. split; [done|].
       rewrite (proj2 (Z.eqb_neq _ _) Hsig). simpl. apply String.eqb_refl. }
  simpl in Hl. assert (Hrr : rr ∈ rrset).
  { rewrite Hl. apply elem_of_List_filter. split; [done|]. rewrite (proj2 (Z.eqb_neq _ _) Hsig). apply String.eqb_refl. }
  assert (Hall : ∀ r, r ∈ rrset → r ∈ mAnswer msg ∧ rrtype r = rrtype rr).
  { intros r. rewrite Hl. intros [Hr Hp]%elem_of_List_filter. bool_prop. split; [done|].
    pose proof (Hwf r Hr). pose proof (Hwf rr Hin). subst k. apply rrsetKey_inj in H0 as [_ ?]; [congruence|lia|lia]. }
  exists rrset. split; [done|]. split; [naive_solver|].
  unfold all_covered in Ec. rewrite forallb_elem in Ec. specialize (Ec (k, rrset)).
  rewrite elem_of_map_to_list in Ec. specialize (Ec El). simpl in Ec.
  destruct rrset as [|r1 rrset]; [by apply elem_of_nil in Hrr|].
  destruct (Hall r1 (list_elem_of_here _ _)) as [_ Ht]. simpl in Ec. rewrite Ht in Ec.
  rewrite (proj2 (Z.eqb_neq _ _) Hkey), (proj2 (Z.eqb_neq _ _) Hds) in Ec. simpl in Ec. bool_prop.
  destruct (validate_sigs_covered _ _ _ _ _ _ k Hv Ec) as [Hk|(rrset' & Hr' & Hc)]; [by apply elem_of_empty in Hk|].
  rewrite El in Hr'. by injection Hr' as <-.
Qed.

(** C19: With DNSSEC enabled, and record types that are 16-bit numbers, a secure
    verdict on an answer with records means that every record of data (anything but
    signatures and key material) belongs to a record set of the answer that is covered
    by a signature of the answer for that name and type, in its validity period,
    verified under a key that is either carried by the message or among the keys of the
    signer's zone that the chain of trust authenticates.  (With DNSSEC disabled the
    verdict is secure without any check.) *)
Theorem ValidateResponse_secure cfg msg st st' rr :
  ValidateResponse cfg msg st = (Ok (), st') → v_enabled cfg = true → types_wf (mAnswer msg) →
  rr ∈ mAnswer msg → is_data rr →
  ∃ rrset s k, rr ∈ rrset ∧ (∀ r, r ∈ rrset → r ∈ mAnswer msg) ∧ s ∈ omap as_sig (mAnswer msg) ∧
    rrsetKey (hName (fst s)) (sigTypeCovered (snd s)) = rrsetKey (hName (rHdr rr)) (rrtype rr) ∧
    ValidityPeriod s (v_now cfg) = true ∧ Verify s k rrset = VOk ∧
    (k ∈ omap as_key (mAnswer msg ++ mNs msg) ∨
     ∃ keys, trusted cfg (CanonicalName (sigSignerName (snd s))) keys ∧ k ∈ keys).
Proof.
  intros H He Hwf Hin Hd. apply runM_returns in H. destruct (secure_covered cfg msg rr H He Hwf Hin Hd)
    as (rrset & Hrr & Hall & s & k & Hs & Hk & Hp & Hv & Hvo).
  exists rrset, s, k. split_and!; try done. destruct Hvo as [Hf|?]; [left|by right].
  unfold findDNSKEY in Hf. set (fl := List.filter _ _) in Hf. destruct fl as [|k0 l] eqn:Ef; [done|].
  injection Hf as ->. assert (Hin' : k ∈ fl) by (rewrite Ef; by left). by apply elem_of_List_filter in Hin' as [? _].
Qed.

(** ** Key material that nobody verified *)

#[local] Arguments splitRRSIGs : simpl never.
#[local] Arguments cache_get : simpl never.
#[local] Arguments cache_put : simpl never.
#[local] Arguments minRRsetTTL : simpl never.

(** What is fetched is cached before anything about it is verified: for at least a
    minute the same records are used again, whatever the upstream would answer now, so
    that one bad answer for the keys of a zone makes all its names bogus for as long as
    the records claim to live (up to a day). *)
Theorem unverified_keys_cached cfg cfg' f zone t st resp rrset sigs :
  v_fetcher cfg = Some f → v_fetcher cfg' ≠ None → fst (cache_get (v_now cfg) zone t (keyCache st)) = None →
  f (List.length (fetched st)) (key_query cfg (List.length (fetched st)) zone t) = Some resp → mRcode resp = RcodeSuccess →
  splitRRSIGs (keep_type t (mAnswer resp)) t = (rrset, sigs) → rrset ≠ [] →
  v_now cfg' ≤ v_now cfg + 60 * second →
  fst (fetchRRset cfg' zone t (snd (fetchRRset cfg zone t st))) = Ok (rrset, sigs).
Proof.
  intros Hf Hf' Hc Ha Hr Hs Hne Hnow. unfold fetchRRset at 2. rewrite Hf. unfold bindM. rewrite runM_then. cbn.
  destruct (cache_get _ zone t (keyCache st)) as [r c]. cbn in Hc. subst r. cbn. rewrite runM_then.
  unfold askM. rewrite Hf. cbn. rewrite Hf, Ha. cbn. rewrite Hr. cbn. rewrite Hs.
  destruct rrset as [|rr rrset]; [done|]. cbn. unfold fetchRRset. destruct (v_fetcher cfg') as [f'|]; [|done].
  destruct (key_cache_roundtrip (v_now cfg) (v_now cfg') zone t (keep_type t (mAnswer resp)) (minRRsetTTL (rr :: rrset)) c)
    as (life & Hlife & _ & Hget & _).
  { intros E. by rewrite E in Hs. }
  unfold bindM. rewrite runM_then. cbn. rewrite Hget by lia. cbn. by rewrite Hs.
Qed.

(** ** Answers that nobody authenticated *)

(** An answer is judged secure although its key is trusted by nobody: a
    message that carries one data record, a signature over it and the signing
    key itself (in its authority section) is secure as soon as the signature
    verifies under that key, for any key that is not a root key-signing key;
    no query is sent and no anchor or DS record is consulted. *)
Theorem co_resident_key_is_trusted cfg msg rr hs s hk k st :
  v_enabled cfg = true →
  mAnswer msg = [rr; mkRR hs (D_RRSIG s)] → mNs msg = [mkRR hk (D_DNSKEY k)] →
  as_sig rr = None → as_key rr = None → rrtype rr ≠ TypeRRSIG → hRrtype hs = TypeRRSIG →
  rrsetKey (hName hs) (sigTypeCovered s) = rrsetKey (hName (rHdr rr)) (rrtype rr) →
  ValidityPeriod (hs, s) (v_now cfg) = true →
  KeyTag (hk, k) = sigKeyTag s → keyAlgorithm k = sigAlgorithm s →
  Fqdn (CanonicalName (hName hk)) = Fqdn (CanonicalName (sigSignerName s)) →
  isRootKSK (hk, k) = false →
  Verify (hs, s) (hk, k) [rr] = VOk →
  ValidateResponse cfg msg st = (Ok (), st).
Proof.
  intros He Ha Hn Hs1 Hk1 Ht Hhs Hkey Hp Htag Halg Hname Hroot Hv.
  unfold ValidateResponse. rewrite He, Ha, Hn. cbn [negb].
  assert (Hsigs : omap as_sig [rr; mkRR hs (D_RRSIG s)] = [(hs, s)]) by (cbn; by rewrite Hs1).
  rewrite Hsigs. cbn zeta.
  assert (Hsets : buildRRsets [rr; mkRR hs (D_RRSIG s)] = {[rrsetKey (hName (rHdr rr)) (rrtype rr) := [rr]]}).
  { unfold buildRRsets. cbn [fold_left]. unfold add_rrset at 1. unfold rrtype at 1. cbn [rHdr]. rewrite Hhs. cbn.
    unfold add_rrset. rewrite (proj2 (Z.eqb_neq _ _) Ht), lookup_empty. done. }
  rewrite Hsets. unfold bindM. cbn [validate_sigs]. rewrite Hp. cbn [negb fst snd].
  rewrite Hkey, lookup_singleton_eq. unfold bindM, signing_key. cbn [fst snd].
  assert (Hf : findDNSKEY ([rr; mkRR hs (D_RRSIG s)] ++ [mkRR hk (D_DNSKEY k)]) (sigKeyTag s) (sigAlgorithm s)
    (sigSignerName s) = Some (hk, k)).
  { unfold findDNSKEY. cbn. rewrite Hk1. cbn. rewrite Htag, Halg, Hname, !Z.eqb_refl, String.eqb_refl. done. }
  rewrite Hf. cbn [thenM retM]. rewrite Hv, Hroot, andb_false_r. cbn [andb thenM retM].
  unfold all_covered. rewrite map_to_list_singleton. cbn [forallb fst snd].
  rewrite bool_decide_true by set_solver. by rewrite orb_true_r.
Qed.

(** A response without answer records is judged secure without looking at
    anything: no signature, no denial proof, no key; NXDOMAIN and NODATA
    replies, and any error reply, are accepted as authentic as they are. *)
Theorem empty_answer_is_secure cfg msg st :
  mAnswer msg = [] → ValidateResponse cfg msg st = (Ok (), st).
Proof. intros Ha. unfold ValidateResponse. rewrite Ha. by destruct (negb _). Qed.

(** Removing every signature of an answer from a signed zone turns it into
    an insecure one that is served; nothing asks the parent zone whether the
    zone is signed.  Only the validateAll setting makes it bogus. *)
Theorem stripped_answer_is_insecure cfg msg st :
  v_enabled cfg = true → mAnswer msg ≠ [] → omap as_sig (mAnswer msg) = [] →
  ValidateResponse cfg msg st = (Err (if v_validateAll cfg then EBogus else EInsecureAnswer), st).
Proof.
  intros He Ha Hs. unfold ValidateResponse. rewrite He, Hs. simpl. by destruct (mAnswer msg).
Qed.

End Props.

(** ** Witnesses *)

#[local] Existing Instance toyLib.

Definition ex_reply_to (q : Msg) (answer : list RR) : Msg := mkMsg (replyHdr 0 RcodeSuccess) (mQuestion q) answer [] [].

(** The root with key "root" and a child zone "test." with key "tk". *)
Definition ex_fetch (n : nat) (q : Msg) : option Msg :=
  match mQuestion q with
  | [mkQuestion name t _] =>
      if (String.eqb name "." && (t =? TypeDNSKEY))%bool
      then Some (ex_reply_to q [ex_key "." "root"; ex_sig "." TypeDNSKEY "." "root"])
      else if (String.eqb name "test." && (t =? TypeDNSKEY))%bool
      then Some (ex_reply_to q [ex_key "test." "tk"; ex_sig "test." TypeDNSKEY "test." "tk"])
      else if (String.eqb name "test." && (t =? TypeDS))%bool
      then Some (ex_reply_to q [ex_ds "test." "tk"; ex_sig "test." TypeDS "." "root"])
      else None
  | _ => None
  end.

Definition ex_cfg : VConfig :=
  SetResolver (Some ex_fetch) (SetTrustAnchors ex_anchors (fst (New 500 (λ _, 0) true false))).
Definition ex_st : VState := snd (New 500 (λ _, 0) true false).
Definition ex_signed : Msg :=
  mkMsg (replyHdr 7 RcodeSuccess) [mkQuestion "www.test." TypeA ClassINET]
        [ex_a "www.test."; ex_sig "www.test." TypeA "test." "tk"] [] [].

Example ex_validates :
  let '(res, st) := ValidateResponse (dl := toyLib) (cl := toyCrypto) ex_cfg ex_signed ex_st in
  res = Ok () ∧ (λ m : Msg, (λ q, (qName q, qType q)) <$> mQuestion m) <$> fetched st =
    [[("test.", TypeDNSKEY)]; [("test.", TypeDS)]; [(".", TypeDNSKEY)]].
Proof. vm_compute. done. Qed.

Lemma key_cache_roundtrip_witness :
  ∃ life, 60 * second ≤ life ≤ 86400 * second ∧
    (5 ≤ 0 + life → cache_get (dl := toyLib) 5 "test." TypeDS
       (cache_put (dl := toyLib) 0 "test." TypeDS [ex_ds "test." "tk"] 3600 ∅) =
       (Some [ex_ds "test." "tk"], cache_put (dl := toyLib) 0 "test." TypeDS [ex_ds "test." "tk"] 3600 ∅)).
Proof.
  destruct (key_cache_roundtrip (dl := toyLib) 0 5 "test." TypeDS [ex_ds "test." "tk"] 3600 ∅) as (life & H1 & _ & H2 & _);
    [discriminate|]. exists life. split; assumption.
Defined.

Lemma ex_chain_keys :
  fst (authenticatedDNSKEYs (dl := toyLib) (cl := toyCrypto) ex_cfg "test." ex_st) =
  Ok [(mkHeader "test." TypeDNSKEY ClassINET 3600, mkDNSKEY 257 3 13 "tk")].
Proof. vm_compute. reflexivity. Qed.

Lemma authenticatedDNSKEYs_sound_witness :
  trusted (dl := toyLib) (cl := toyCrypto) ex_cfg "test." [(mkHeader "test." TypeDNSKEY ClassINET 3600, mkDNSKEY 257 3 13 "tk")].
Proof.
  pose proof (surjective_pairing (authenticatedDNSKEYs (dl := toyLib) (cl := toyCrypto) ex_cfg "test." ex_st)) as E.
  rewrite ex_chain_keys in E.
  exact (authenticatedDNSKEYs_sound (dl := toyLib) (cl := toyCrypto) ex_cfg "test." ex_st _ _ E).
Defined.

(** The root proves with a signed NSEC record that "io." has no DS record. *)
Definition ex_insecure_fetch (n : nat) (q : Msg) : option Msg :=
  match mQuestion q with
  | [mkQuestion name t _] =>
      if (String.eqb name "io." && (t =? TypeDNSKEY))%bool then Some (ex_reply_to q [ex_key "io." "ik"])
      else if (String.eqb name "io." && (t =? TypeDS))%bool then Some (mkMsg (replyHdr 0 RcodeSuccess) (mQuestion q) [] ex_authority [])
      else ex_fetch n q
  | _ => None
  end.
Definition ex_insecure_cfg : VConfig := SetResolver (Some ex_insecure_fetch) ex_cfg.

Lemma ex_insecure_walk : fst (authenticatedDNSKEYs (dl := toyLib) (cl := toyCrypto) ex_insecure_cfg "io." ex_st) = Err EInsecureDelegation.
Proof. vm_compute. reflexivity. Qed.

Lemma insecure_delegation_justified_witness : insecure (dl := toyLib) (cl := toyCrypto) ex_insecure_cfg "io.".
Proof.
  pose proof (surjective_pairing (authenticatedDNSKEYs (dl := toyLib) (cl := toyCrypto) ex_insecure_cfg "io." ex_st)) as E.
  rewrite ex_insecure_walk in E.
  exact (insecure_delegation_justified (dl := toyLib) (cl := toyCrypto) ex_insecure_cfg "io." ex_st _ E).
Defined.

Lemma ex_signed_wf : types_wf (mAnswer ex_signed).
Proof.
  intros rr Hin. simpl in Hin. repeat (apply elem_of_cons in Hin as [->|Hin]; [by vm_compute|]).
  by apply elem_of_nil in Hin.
Qed.

Lemma ValidateResponse_secure_witness :
  ∃ rrset s k, ex_a "www.test." ∈ rrset ∧ s ∈ omap as_sig (mAnswer ex_signed) ∧
    Verify (DnssecLib := toyCrypto) s k rrset = VOk ∧
    (k ∈ omap as_key (mAnswer ex_signed ++ mNs ex_signed) ∨
     ∃ keys, trusted (dl := toyLib) (cl := toyCrypto) ex_cfg
       (CanonicalName (DnsLib := toyLib) (sigSignerName (snd s))) keys ∧ k ∈ keys).
Proof.
  destruct (ValidateResponse_secure (dl := toyLib) (cl := toyCrypto) ex_cfg ex_signed ex_st
    (snd (ValidateResponse (dl := toyLib) (cl := toyCrypto) ex_cfg ex_signed ex_st)) (ex_a "www.test."))
    as (rrset & s & k & H1 & _ & H2 & _ & _ & H3 & H4).
  - rewrite (surjective_pairing (ValidateResponse (dl := toyLib) (cl := toyCrypto) ex_cfg ex_signed ex_st)) at 1.
    f_equal.
  - reflexivity.
  - exact ex_signed_wf.
  - by left.
  - split_and!; discriminate.
  - exists rrset, s, k. by split_and!.
Defined.

(** A forged answer for a name of the signed zone, with a key of its own. *)
Definition ex_forged : Msg :=
  mkMsg (replyHdr 7 RcodeSuccess) [mkQuestion "www.test." TypeA ClassINET]
        [ex_a "www.test."; ex_sig "www.test." TypeA "test." "evil"] [ex_key "test." "evil"] [].

Lemma co_resident_key_is_trusted_witness :
  ValidateResponse (dl := toyLib) (cl := toyCrypto) ex_cfg ex_forged ex_st = (Ok (), ex_st).
Proof.
  eapply (co_resident_key_is_trusted (dl := toyLib) (cl := toyCrypto) ex_cfg ex_forged); try reflexivity. discriminate.
Defined.

Lemma empty_answer_is_secure_witness :
  ValidateResponse (dl := toyLib) (cl := toyCrypto) ex_cfg (mkMsg (replyHdr 7 RcodeNameError) [] [] [] []) ex_st = (Ok (), ex_st).
Proof. apply (empty_answer_is_secure (dl := toyLib) (cl := toyCrypto)). reflexivity. Defined.

Lemma stripped_answer_is_insecure_witness :
  ValidateResponse (dl := toyLib) (cl := toyCrypto) ex_cfg
    (mkMsg (replyHdr 7 RcodeSuccess) [] [ex_a "www.test."] [] []) ex_st = (Err EInsecureAnswer, ex_st).
Proof. apply (stripped_answer_is_insecure (dl := toyLib) (cl := toyCrypto) ex_cfg); (reflexivity || discriminate). Defined.

(** An upstream that answers once with a key of its own for "test." *)
Definition ex_poisoned (n : nat) (q : Msg) : option Msg :=
  if (n =? 0)%nat then Some (ex_reply_to q [ex_key "test." "evil"; ex_sig "test." TypeDNSKEY "test." "evil"]) else ex_fetch n q.
Definition ex_poisoned_cfg : VConfig := SetResolver (Some ex_poisoned) ex_cfg.

Lemma unverified_keys_cached_witness :
  fst (fetchRRset ex_cfg "test." TypeDNSKEY (snd (fetchRRset ex_poisoned_cfg "test." TypeDNSKEY ex_st))) =
  Ok ([ex_key "test." "evil"], omap as_sig [ex_sig "test." TypeDNSKEY "test." "evil"]).
Proof.
  eapply (unverified_keys_cached ex_poisoned_cfg ex_cfg ex_poisoned); try reflexivity; discriminate.
Defined.

(** The signed answer that was secure before is now bogus. *)
Example ex_poisoned_bogus :
  let st := snd (ValidateResponse (cl := toyCrypto) ex_poisoned_cfg ex_signed ex_st) in
  fst (ValidateResponse (cl := toyCrypto) ex_cfg ex_signed st) = Err EBogus.
Proof. vm_compute. reflexivity. Qed.
