(* ===== verification/EndToEnd.v ===== *)
(** * The Mode 1 server with its DNSSEC validator

    The listeners of [Server] run against an abstract validator; here it is the
    chain validator of [DnssecChain], and the two developments meet: what the
    AD bit of a reply means to a client. *)

From S2P Require Import Prelude GoStrings DnsMsg Cache Blocklist Allowlist Statistics.
From S2P Require Import Policy Fallback Interfaces Edns Server Dnssec DnssecChain.
From Stdlib Require Import Ascii String.
Open Scope string_scope.
Open Scope list_scope.
Open Scope Z_scope.

Section AD.
Context {dl : DnsLib} {laws : DnsLaws dl} {cl : DnssecLib} {W : Type} {UR : UpstreamResolver W}.
Implicit Type w : World W (VConfig * VState).

(** A record of an answer is anchored: a signature of the answer for its name and
    type verifies over a record set it is in, under a key of the signer's zone
    with a chain of trust to a configured anchor. *)
Definition anchored (cfg : VConfig) (an : list RR) (rr : RR) : Prop :=
  ∃ rrset sg k keys, rr ∈ rrset ∧ sg ∈ omap as_sig an ∧
    rrsetKey (hName (fst sg)) (sigTypeCovered (snd sg)) = rrsetKey (hName (rHdr rr)) (rrtype rr) ∧
    Verify sg k rrset = VOk ∧
    trusted cfg (CanonicalName (sigSignerName (snd sg))) keys ∧ k ∈ keys.

Lemma validate_secure msg (v : VConfig * VState) :
  fst (validate msg v) = Secure → ∃ st, ValidateResponse (fst v) msg (snd v) = (Ok (), st).
Proof.
  unfold validate, chain_validator. destruct (ValidateResponse (fst v) msg (snd v)) as [[[]|e] st]; [eauto|].
  simpl. by destruct (IsInsecure e).
Qed.

(** What a validated message without keys of its own is worth. *)
Lemma secure_anchored cfg r rr : returns (ValidateResponse cfg r) () → v_enabled cfg = true → types_wf (mAnswer r) →
  omap as_key (mAnswer r ++ mNs r) = [] → rr ∈ mAnswer r → is_data rr → anchored cfg (mAnswer r) rr.
Proof.
  intros Hval He Hwf Hnk Hin Hd.
  destruct (secure_covered _ _ rr Hval He Hwf Hin Hd) as (rrset & Hrr & _ & sg & k & Hs & Hk & _ & Hver & Hvo).
  exists rrset, sg, k. destruct Hvo as [Hf|(keys & Ht & Hkk)]; [|exists keys; by split_and!].
  exfalso. unfold findDNSKEY in Hf. by rewrite Hnk in Hf.
Qed.

(** End to end: when a forwarded query is answered with the AD bit, nothing
    stale was available and the upstream message carries no DNSKEY record of
    its own, every data record of the answer is covered by a signature of the
    answer verified under a key with a chain of trust to a root anchor. *)
Theorem ad_means_chain_of_trust s clk query w rr :
  s_validator s = true → v_enabled (fst (w_val w)) = true → no_stale clk query w →
  mAuthenticatedData (fst (forward s clk query w)) = true →
  types_wf (mAnswer (fst (forward s clk query w))) →
  omap as_key (mAnswer (fst (forward s clk query w)) ++ mNs (fst (forward s clk query w))) = [] →
  rr ∈ mAnswer (fst (forward s clk query w)) → is_data rr →
  anchored (fst (w_val w)) (mAnswer (fst (forward s clk query w))) rr.
Proof.
  intros Hv He Hst Had Hwf Hnk Hin Hd.
  assert (H := Had). apply (ad_secure s clk query w) in H as (r & _ & Hsec & Hr); [|done|done].
  rewrite Hr in *. apply validate_secure in Hsec as [st Hval]. apply runM_returns in Hval. by apply (secure_anchored _ r).
Qed.

(** A negative or empty answer of the upstream is handed to the client with
    the AD bit set and counted as validated, although nothing about it was
    authenticated. *)
Theorem negative_answer_gets_ad s clk query w r :
  s_validator s = true → fst (call_resolver query (missed s w)) = Ok r → mAnswer r = [] →
  fst (forward s clk query w) = set_AD true r.
Proof.
  intros Hv Hr Ha. unfold forward. fold (missed s w).
  pose proof (call_resolver_frame query (missed s w)) as [_ Hval].
  destruct (call_resolver query (missed s w)) as [res w1]. simpl in *. subst res. rewrite Hv.
  unfold applyDNSSEC, validate, chain_validator, ValidateResponse. rewrite Ha.
  replace (if negb _ then retM () else retM ()) with (retM ()) by (by destruct (negb _)). simpl.
  unfold policyAnswer, Answer. destruct (s_policy s) as [p|]; [|done]. destruct (allow p) as [a|]; [|done].
  simpl. by rewrite Ha.
Qed.

End AD.

(** ** Witnesses *)

Definition e2e_query : Msg := Policy.ex_query "www.test." TypeA.
Definition e2e_world (answer : Msg) : World chain_state (VConfig * VState) :=
  mkWorld None (Statistics.New 0) (ex_chain_state (Some answer, None)) (ex_cfg, ex_st) [].
Definition e2e_server : Server := NewServer None true true ex_range.
Abbreviation e2e_forward w :=
  (forward (dl := toyLib) (UR := chain_resolver (dl := toyLib)) (VA := chain_validator (dl := toyLib) (cl := toyCrypto))
     e2e_server ex_clock e2e_query w).

Lemma e2e_reply : fst (e2e_forward (e2e_world ex_signed)) = set_AD true ex_signed.
Proof. vm_compute. reflexivity. Qed.

Lemma ad_means_chain_of_trust_witness :
  ∃ k keys, trusted (dl := toyLib) (cl := toyCrypto) ex_cfg "test." keys ∧ k ∈ keys.
Proof.
  destruct (ad_means_chain_of_trust (dl := toyLib) (cl := toyCrypto) (UR := chain_resolver (dl := toyLib))
    e2e_server ex_clock e2e_query (e2e_world ex_signed) (ex_a "www.test."))
    as (rrset & sg & k & keys & _ & Hs & _ & _ & Ht & Hk);
    try reflexivity; try (rewrite e2e_reply; reflexivity).
  - rewrite e2e_reply. exact ex_signed_wf.
  - rewrite e2e_reply. by left.
  - split_and!; discriminate.
  - rewrite e2e_reply in Hs. apply list_elem_of_singleton in Hs as ->. exists k, keys. split; assumption.
Defined.

Lemma negative_answer_gets_ad_witness :
  fst (e2e_forward (e2e_world (mkMsg (replyHdr 7 RcodeNameError) (mQuestion e2e_query) [] [] []))) =
  set_AD true (mkMsg (replyHdr 7 RcodeNameError) (mQuestion e2e_query) [] [] []).
Proof.
  apply (negative_answer_gets_ad (dl := toyLib) (cl := toyCrypto) (UR := chain_resolver (dl := toyLib)));
    [reflexivity|vm_compute; reflexivity|reflexivity].
Defined.
