(* ===== verification/UpstreamEdns.v ===== *)
(** * The message helpers of Mode 2 (internal/upstream/upstream.go)

    Mode 2 has its own copies of the EDNS0 helpers.  They are translated on
    their own here and proved equal to those of Mode 1 ([Edns]), so every
    theorem about the latter holds for the encrypted listeners. *)

From S2P Require Import Prelude GoStrings GoNet DnsMsg Edns.
From Stdlib Require Import Ascii String.
Open Scope string_scope.
Open Scope list_scope.
Open Scope Z_scope.

Module Up.

Definition ednsUDPBufSize : Z := 1232.

Definition kept_type (t : Z) : bool :=
  negb (existsb (Z.eqb t) [TypeRRSIG; TypeNSEC; TypeNSEC3; TypeDNSKEY; TypeDS]).

(** [kept := rrs[:0]; for _, rr := range rrs { ... kept = append(kept, rr) }]. *)
Definition filterDNSSEC (rrs : list RR) : list RR :=
  fold_left (λ kept rr, if kept_type (rrtype rr) then kept ++ [rr] else kept) rrs [].

Definition stripDNSSECRecords (m : Msg) : Msg :=
  mkMsg (mHdr m) (mQuestion m) (filterDNSSEC (mAnswer m)) (filterDNSSEC (mNs m)) (filterDNSSEC (mExtra m)).

Definition stripOPT (m : Msg) : Msg :=
  if (List.length (mExtra m) =? 0)%nat then m else
  set_Extra (fold_left (λ kept rr, if negb (rrtype rr =? TypeOPT) then kept ++ [rr] else kept) (mExtra m) []) m.

Section Ops.
Context {dl : DnsLib}.

Definition clientDNSSECOK (query : Msg) : bool :=
  match IsEdns0 query with Some (_, o) => optDo o | None => false end.

Definition queryWithDO (query : Msg) : Msg := SetEdns0 ednsUDPBufSize true (stripOPT query).

Definition ensureResponseEDNS (response query : Msg) : Msg :=
  let queryOPT := IsEdns0 query in
  let clientDO := match queryOPT with Some (_, o) => optDo o | None => false end in
  let response := if clientDO then response else stripDNSSECRecords response in
  match queryOPT with
  | None => stripOPT response
  | Some _ =>
      match IsEdns0 response with
      | Some (i, _) => update_opt i (λ o, mkOPT ednsUDPBufSize clientDO (optOption o)) response
      | None => SetEdns0 ednsUDPBufSize clientDO response
      end
  end.

Definition packStream (response query : Msg) : option string * bool :=
  match Pack response with
  | None => (None, false)
  | Some buf =>
      if blen buf <=? MaxMsgSize then (Some buf, false)
      else (Pack (ensureResponseEDNS (servfail query) query), true)
  end.

End Ops.

(** ** Certificate names *)

(** The [add] closure of [autogenSANHosts] on the hosts collected so far. *)
Definition add_host (hosts : list string) (h : string) : list string :=
  if String.eqb h "" || bool_decide (h ∈ hosts) then hosts else
  if match ParseIP h with Some ip => IsUnspecified ip | None => false end then hosts
  else hosts ++ [h].

(** From the three listen addresses and the configured extra names. *)
Definition autogenSANHosts (listenDoH listenDoT listenDoQ : string) (certHosts : list string) : list string :=
  let from_addr hosts addr :=
    if String.eqb addr "" then hosts else
    match SplitHostPort addr with Some (h, _) => add_host hosts h | None => hosts end in
  let hosts := fold_left from_addr [listenDoH; listenDoT; listenDoQ] [] in
  let hosts := fold_left add_host certHosts hosts in
  add_host (add_host hosts "127.0.0.1") "localhost".

End Up.

(** ** Mode 2 normalises messages exactly as Mode 1 *)

Lemma fold_append_filter {A} (p : A → bool) l acc :
  fold_left (λ kept x, if p x then kept ++ [x] else kept) l acc = acc ++ List.filter p l.
Proof.
  revert acc; induction l as [|x l IH]; intros acc; simpl; [by rewrite app_nil_r|].
  rewrite IH. destruct (p x); [by rewrite <-app_assoc|done].
Qed.

Lemma kept_type_spec rr : Up.kept_type (rrtype rr) = negb (is_dnssec rr).
Proof. unfold Up.kept_type, is_dnssec. simpl. by rewrite !orb_assoc, orb_false_r. Qed.

Lemma up_filterDNSSEC l : Up.filterDNSSEC l = filterDNSSEC l.
Proof.
  unfold Up.filterDNSSEC, filterDNSSEC. rewrite (fold_append_filter (λ rr, Up.kept_type (rrtype rr))). simpl.
  apply filter_ext. apply kept_type_spec.
Qed.

Lemma up_stripDNSSEC m : Up.stripDNSSECRecords m = stripDNSSECRecords m.
Proof. unfold Up.stripDNSSECRecords, stripDNSSECRecords. by rewrite !up_filterDNSSEC. Qed.

Lemma up_stripOPT m : Up.stripOPT m = stripOPT m.
Proof.
  unfold Up.stripOPT, stripOPT. destruct m as [h q a n ex]; simpl. destruct ex as [|rr ex]; [done|].
  cbn [List.length Nat.eqb]. by rewrite (fold_append_filter (λ rr, negb (rrtype rr =? TypeOPT))).
Qed.

Lemma up_queryWithDO {dl : DnsLib} q : Up.queryWithDO q = queryWithDO q.
Proof. unfold Up.queryWithDO. by rewrite up_stripOPT. Qed.

Lemma up_ensure {dl : DnsLib} r q : Up.ensureResponseEDNS r q = ensureResponseEDNS r q.
Proof.
  unfold Up.ensureResponseEDNS, ensureResponseEDNS. rewrite up_stripDNSSEC.
  destruct (IsEdns0 q) as [[i o]|]; [|apply up_stripOPT]. by destruct (optDo o).
Qed.

Lemma up_packStream {dl : DnsLib} r q : Up.packStream r q = packStream r q.
Proof. unfold Up.packStream, packStream. by rewrite up_ensure. Qed.

(** The two modes shape messages identically: the copies of the helpers in
    Mode 2 compute the same query to the upstream, the same normalised reply
    and the same packed stream message as those of Mode 1. *)
Theorem modes_normalise_alike {dl : DnsLib} response query :
  Up.queryWithDO query = queryWithDO query ∧
  Up.ensureResponseEDNS response query = ensureResponseEDNS response query ∧
  Up.packStream response query = packStream response query ∧
  Up.clientDNSSECOK query = clientDNSSECOK query.
Proof. split_and!; [apply up_queryWithDO|apply up_ensure|apply up_packStream|done]. Qed.

(** ** Certificate names *)

Lemma add_host_spec hosts h x :
  x ∈ Up.add_host hosts h ↔
  x ∈ hosts ∨ (x = h ∧ h ≠ "" ∧ ∀ ip, ParseIP h = Some ip → IsUnspecified ip = false).
Proof.
  unfold Up.add_host. destruct (String.eqb_spec h "") as [->|Hne]; simpl; [naive_solver|].
  case_bool_decide as Hin; simpl; [naive_solver|].
  destruct (ParseIP h) as [ip|] eqn:E; [destruct (IsUnspecified ip) eqn:Eu|];
    rewrite ?elem_of_app, ?list_elem_of_singleton; naive_solver congruence.
Qed.

Lemma add_host_NoDup hosts h : NoDup hosts → NoDup (Up.add_host hosts h).
Proof.
  intros Hn. unfold Up.add_host. destruct (String.eqb_spec h ""); simpl; [done|].
  case_bool_decide as Hin; simpl; [done|]. destruct (ParseIP h) as [ip|]; [destruct (IsUnspecified ip); [done|]|];
    (apply NoDup_app; split_and!; [done|set_solver|apply NoDup_singleton]).
Qed.

(** The self-signed certificate names each host once, never the empty name
    or an unspecified address, and always covers loopback, the host of every
    concrete listen address and every configured extra name. *)
Theorem autogenSANHosts_spec doh dot doq extra :
  let hosts := Up.autogenSANHosts doh dot doq extra in
  NoDup hosts ∧ "127.0.0.1" ∈ hosts ∧ "localhost" ∈ hosts ∧
  (∀ h, h ∈ hosts → h ≠ "" ∧ ∀ ip, ParseIP h = Some ip → IsUnspecified ip = false) ∧
  (∀ h, h ≠ "" → (∀ ip, ParseIP h = Some ip → IsUnspecified ip = false) →
     h ∈ extra ∨ (∃ addr port, addr ∈ [doh; dot; doq] ∧ SplitHostPort addr = Some (h, port)) → h ∈ hosts).
Proof.
  cbn zeta. unfold Up.autogenSANHosts.
  set (from := λ hosts addr, if String.eqb addr "" then hosts else
    match SplitHostPort addr with Some (h, _) => Up.add_host hosts h | None => hosts end).
  set (good := λ h, h ≠ "" ∧ ∀ ip, ParseIP h = Some ip → IsUnspecified ip = false).
  set (P := λ hosts : list string, NoDup hosts ∧ ∀ h, h ∈ hosts → good h).
  assert (Padd : ∀ hosts h, P hosts → P (Up.add_host hosts h)).
  { intros hosts h [Hn Hg]. split; [by apply add_host_NoDup|]. intros x [?|(-> & ?)]%add_host_spec; [by apply Hg|done]. }
  assert (Pfrom : ∀ hosts addr, P hosts → P (from hosts addr)).
  { intros hosts addr HP. unfold from. destruct (String.eqb addr ""); [done|].
    destruct (SplitHostPort addr) as [[h p]|]; [by apply Padd|done]. }
  set (h1 := fold_left from _ _). set (h2 := fold_left Up.add_host extra h1).
  assert (P1 : P h1) by (apply fold_left_inv; [done|]; split; [constructor|intros h Hh; by apply elem_of_nil in Hh]).
  assert (P2 : P h2) by (by apply fold_left_inv).
  assert (P3 := Padd _ "localhost" (Padd _ "127.0.0.1" P2)). destruct P3 as [Hn Hg].
  assert (Hmono : ∀ hosts h x, x ∈ hosts → x ∈ Up.add_host hosts h) by (intros; apply add_host_spec; by left).
  assert (Hmonof : ∀ hosts addr x, x ∈ hosts → x ∈ from hosts addr).
  { intros hosts addr x Hx. unfold from. destruct (String.eqb addr ""); [done|].
    destruct (SplitHostPort addr) as [[h p]|]; [by apply Hmono|done]. }
  split_and!; try done.
  - apply Hmono, add_host_spec. right. split_and!; [done|done|]. intros ip. vm_compute. by intros [= <-].
  - apply add_host_spec. right. split_and!; [done|done|]. intros ip. vm_compute. discriminate.
  - intros h Hne Hu Hin. apply Hmono, Hmono. destruct Hin as [Hin|(addr & port & Ha & Hs)].
    + subst h2. clearbody h1. clear -Hin Hne Hu Hmono. revert h1. induction extra as [|e extra IH]; intros h1; [by apply elem_of_nil in Hin|].
      simpl. apply elem_of_cons in Hin as [->|Hin]; [|by apply IH].
      apply (fold_left_inv (λ l, e ∈ l)); [intros; by apply Hmono|]. apply add_host_spec. by right.
    + apply (fold_left_inv (λ l, h ∈ l)); [intros; by apply Hmono|].
      assert (Hadd : ∀ hosts, h ∈ from hosts addr).
      { intros hosts. unfold from. destruct (String.eqb_spec addr "") as [->|]; [by vm_compute in Hs|].
        rewrite Hs. apply add_host_spec. by right. }
      subst h1. simpl. repeat (apply elem_of_cons in Ha as [->|Ha]; [auto|]). by apply elem_of_nil in Ha.
Qed.
