(* ===== verification/Ddr.v ===== *)
(** * Discovery of designated resolvers (internal/upstream/ddr.go)

    The locally served zone resolver.arpa: which queries belong to it, the SVCB
    records that advertise the encrypted listeners, and the NODATA answer for
    everything else in the zone. *)

From S2P Require Import Prelude GoStrings GoNet DnsMsg Edns UpstreamEdns.
From Stdlib Require Import Ascii String.
Open Scope string_scope.
Open Scope list_scope.
Open Scope Z_scope.

Definition ddrQueryName : string := "_dns.resolver.arpa.".
Definition ddrZoneName : string := "resolver.arpa.".
Definition ddrTTL : Z := 300.
Definition ddrDoHPath : string := "/dns-query{?dns}".
Definition alpnDoT : string := "dot".
Definition alpnDoQ : string := "doq".
Definition alpnHTTP2 : string := "h2".
Definition alpnHTTP3 : string := "h3".
Definition ddrPriorityDoH : Z := 1.
Definition ddrPriorityDoT : Z := 2.
Definition ddrPriorityDoQ : Z := 3.

Record designation := mkDesignation {
  d_priority : Z; d_alpn : list string; d_port : Z; d_defaultPort : Z; d_dohPath : bool }.

Record ddrZone := mkZone {
  z_host : string; z_designations : list designation; z_v4 : list (list Z); z_v6 : list IP }.

(** ** Building the zone *)

Definition advertPort (listenAddr : string) (def : Z) : Z :=
  match SplitHostPort listenAddr with
  | Some (_, port) =>
      match Atoi port with
      | Some p => if (p >? 0) && (p <=? 65535) then p else def
      | None => def
      end
  | None => def
  end.

(** One address of [advertiseIPs], appended to the family it belongs to. *)
Definition add_hint (h : list (list Z) * list IP) (addr : string) : list (list Z) * list IP :=
  match ParseIP addr with
  | None => h
  | Some ip =>
      if IsUnspecified ip then h else
      match To4 ip with
      | Some ip4 => (fst h ++ [ip4], snd h)
      | None => (fst h, snd h ++ [ip])
      end
  end.

Definition ddrHints (listenAddr : string) (advertiseIPs : list string) : list (list Z) * list IP :=
  if (0 <? List.length advertiseIPs)%nat then fold_left add_hint advertiseIPs ([], []) else
  match SplitHostPort listenAddr with
  | None => ([], [])
  | Some (host, _) =>
      match ParseIP host with
      | None => ([], [])
      | Some ip =>
          if IsUnspecified ip then ([], []) else
          match To4 ip with
          | Some ip4 => ([ip4], [])
          | None => ([], [ip])
          end
      end
  end.

Definition newDDRZone (host listenDoH listenDoT listenDoQ : string) (doh3 : bool) (advertiseIPs : list string) : ddrZone :=
  if String.eqb host "" then mkZone host [] [] [] else
  let ds := [] in
  let ds := if negb (String.eqb listenDoH "")
            then ds ++ [mkDesignation ddrPriorityDoH
                          (if doh3 then [alpnHTTP3; alpnHTTP2] else [alpnHTTP2])
                          (advertPort listenDoH 443) 443 true] else ds in
  let ds := if negb (String.eqb listenDoT "")
            then ds ++ [mkDesignation ddrPriorityDoT [alpnDoT] (advertPort listenDoT 853) 853 false] else ds in
  let ds := if negb (String.eqb listenDoQ "")
            then ds ++ [mkDesignation ddrPriorityDoQ [alpnDoQ] (advertPort listenDoQ 853) 853 false] else ds in
  let bind := listenDoH in
  let bind := if String.eqb bind "" then listenDoT else bind in
  let bind := if String.eqb bind "" then listenDoQ else bind in
  let '(v4, v6) := ddrHints bind advertiseIPs in
  mkZone host ds v4 v6.

(** ** Answering *)

Definition advertises (z : ddrZone) : bool := (0 <? List.length (z_designations z))%nat.

Definition ddrSOA : RR :=
  mkRR (mkHeader ddrZoneName TypeSOA ClassINET ddrTTL)
       (D_SOA (mkSOA ddrZoneName ddrZoneName 1 3600 900 604800 ddrTTL)).

(** The header of both replies. *)
Definition ddrHdr (query : Msg) : MsgHdr :=
  mkMsgHdr (mId query) true 0 true false false false false false RcodeSuccess.

Section Ops.
Context {dl : DnsLib}.

Definition ddrOwnsName (name : string) : bool := IsSubDomain ddrZoneName (Fqdn name).

(** [uint16(d.port)]. *)
Definition svcb_params (z : ddrZone) (d : designation) : list SVCBKeyValue :=
  let params := [SVCBAlpn (d_alpn d)] in
  let params := if negb (d_port d =? d_defaultPort d) then params ++ [SVCBPort (d_port d mod 2 ^ 16)] else params in
  let params := if d_dohPath d then params ++ [SVCBDoHPath ddrDoHPath] else params in
  let params := if (0 <? List.length (z_v4 z))%nat then params ++ [SVCBIPv4Hint (z_v4 z)] else params in
  if (0 <? List.length (z_v6 z))%nat then params ++ [SVCBIPv6Hint (z_v6 z)] else params.

Definition svcb_record (z : ddrZone) (d : designation) : RR :=
  mkRR (mkHeader ddrQueryName TypeSVCB ClassINET ddrTTL)
       (D_SVCB (d_priority d) (Fqdn (z_host z)) (svcb_params z d)).

Definition svcbResponse (z : ddrZone) (query : Msg) : Msg :=
  let answer := fold_left (λ answer d, answer ++ [svcb_record z d]) (z_designations z) [] in
  Up.ensureResponseEDNS (mkMsg (ddrHdr query) (mQuestion query) answer [] []) query.

Definition nodataResponse (query : Msg) : Msg :=
  Up.ensureResponseEDNS (mkMsg (ddrHdr query) (mQuestion query) [] [ddrSOA] []) query.

Definition answer (z : ddrZone) (query : Msg) : option Msg :=
  match mQuestion query with
  | [q] =>
      if negb (ddrOwnsName (qName q)) then None else
      if (qType q =? TypeSVCB) && String.eqb (CanonicalName (qName q)) ddrQueryName && advertises z
      then Some (svcbResponse z query)
      else Some (nodataResponse query)
  | _ => None
  end.

End Ops.

(** ** What normalisation does to a locally built reply *)

Section Props.
Context {dl : DnsLib}.

Lemma fold_append_map {A B} (f : A → B) l acc :
  fold_left (λ out x, out ++ [f x]) l acc = acc ++ (f <$> l).
Proof.
  revert acc; induction l as [|x l IH]; intros acc; simpl; [by rewrite app_nil_r|]. by rewrite IH, <-app_assoc.
Qed.

Lemma filterDNSSEC_id l : (∀ rr, rr ∈ l → is_dnssec rr = false) → filterDNSSEC l = l.
Proof.
  unfold filterDNSSEC. induction l as [|x l IH]; intros H; simpl; [done|].
  rewrite (H x) by set_solver. simpl. f_equal. apply IH. set_solver.
Qed.

(** A reply without DNSSEC records keeps header, question, answer and authority. *)
Lemma ensure_plain h q an ns query :
  (∀ rr, rr ∈ an ++ ns → is_dnssec rr = false) →
  let r := Up.ensureResponseEDNS (mkMsg h q an ns []) query in
  mHdr r = h ∧ mQuestion r = q ∧ mAnswer r = an ∧ mNs r = ns.
Proof.
  intros Hp. cbn zeta. rewrite up_ensure. unfold ensureResponseEDNS.
  assert (Han : filterDNSSEC an = an) by (apply filterDNSSEC_id; set_solver).
  assert (Hns : filterDNSSEC ns = ns) by (apply filterDNSSEC_id; set_solver).
  set (m := mkMsg h q an ns []).
  assert (Hm : stripDNSSECRecords m = m) by (unfold stripDNSSECRecords, m; simpl; by rewrite Han, Hns).
  rewrite Hm. replace (if negb _ then m else m) with m by (by destruct (negb _)).
  destruct (IsEdns0 query) as [[i o]|]; [|done]. by destruct (IsEdns0 m) as [[j p]|].
Qed.

Lemma svcb_answer z : fold_left (λ an d, an ++ [svcb_record z d]) (z_designations z) [] = svcb_record z <$> z_designations z.
Proof. by rewrite fold_append_map. Qed.

Lemma svcb_plain z rr : rr ∈ svcb_record z <$> z_designations z → is_dnssec rr = false.
Proof. by intros (d & -> & _)%list_elem_of_fmap. Qed.

Lemma svcbResponse_shape z query :
  let r := svcbResponse z query in
  mHdr r = ddrHdr query ∧ mQuestion r = mQuestion query ∧ mAnswer r = svcb_record z <$> z_designations z ∧ mNs r = [].
Proof.
  cbn zeta. unfold svcbResponse. rewrite svcb_answer. apply ensure_plain.
  intros rr. rewrite app_nil_r. apply svcb_plain.
Qed.

Lemma nodataResponse_shape query :
  let r := nodataResponse query in
  mHdr r = ddrHdr query ∧ mQuestion r = mQuestion query ∧ mAnswer r = [] ∧ mNs r = [ddrSOA].
Proof. apply ensure_plain. by intros rr ->%list_elem_of_singleton. Qed.

Lemma answer_None z query :
  answer z query = None ↔ ∀ q, mQuestion query = [q] → ddrOwnsName (qName q) = false.
Proof.
  unfold answer. destruct (mQuestion query) as [|q [|q2 qs]]; [by split|..|by split].
  destruct (ddrOwnsName (qName q)) eqn:E; simpl.
  - split; [by destruct (_ && _)%bool|]. intros H. specialize (H q eq_refl). congruence.
  - split; [|done]. by intros _ q' [= <-].
Qed.

(** resolver.arpa is a locally served zone: a query is left to normal
    resolution exactly when it does not ask one question in the zone; every
    other query gets an authoritative NOERROR reply to its own question, which
    carries the advertisement only for an SVCB query of _dns.resolver.arpa
    from an instance with listeners to advertise, and otherwise no answer and
    the zone's SOA. *)
Theorem resolver_arpa_contained z query :
  match answer z query with
  | None => ∀ q, mQuestion query = [q] → ddrOwnsName (qName q) = false
  | Some r =>
      ∃ q, mQuestion query = [q] ∧ ddrOwnsName (qName q) = true ∧
        mHdr r = ddrHdr query ∧ mQuestion r = [q] ∧
        ((qType q = TypeSVCB ∧ CanonicalName (qName q) = ddrQueryName ∧ z_designations z ≠ [] ∧
          mAnswer r = svcb_record z <$> z_designations z ∧ mNs r = []) ∨
         (¬ (qType q = TypeSVCB ∧ CanonicalName (qName q) = ddrQueryName ∧ z_designations z ≠ []) ∧
          mAnswer r = [] ∧ mNs r = [ddrSOA]))
  end.
Proof.
  destruct (answer z query) as [r|] eqn:E; [|by apply (answer_None z)]. revert E. unfold answer.
  destruct (mQuestion query) as [|q [|]] eqn:Eq; try done.
  destruct (ddrOwnsName (qName q)) eqn:Eo; [|done]. simpl. intros E. exists q. split; [done|]. split; [done|].
  assert (Hadv : advertises z = true ↔ z_designations z ≠ []).
  { unfold advertises. rewrite Nat.ltb_lt. destruct (z_designations z); simpl; [split; [lia|done]|split; [done|lia]]. }
  destruct ((qType q =? TypeSVCB) && String.eqb (CanonicalName (qName q)) ddrQueryName && advertises z) eqn:Ec;
    injection E as <-.
  - destruct (svcbResponse_shape z query) as (-> & -> & -> & ->). rewrite Eq.
    apply andb_prop in Ec as [[Et%Z.eqb_eq En%String.eqb_eq]%andb_prop Ea]. split_and!; [done|done|left].
    rewrite <-Hadv. by split_and!.
  - destruct (nodataResponse_shape query) as (-> & -> & -> & ->). rewrite Eq. split_and!; [done|done|right].
    split; [|done]. rewrite <-Hadv. intros (Ht & Hn & Ha). rewrite Ht, Hn, Ha, Z.eqb_refl, String.eqb_refl in Ec. done.
Qed.

(** ** What a client reads off the advertisement *)

(** The port of an SVCB record: its port parameter, or the default of the
    transport, which is 443 when a DoH path is given and 853 otherwise. *)
Definition client_port (value : list SVCBKeyValue) : Z :=
  match omap (λ p, match p with SVCBPort n => Some n | _ => None end) value with
  | n :: _ => n
  | [] => if existsb (λ p, match p with SVCBDoHPath _ => true | _ => false end) value then 443 else 853
  end.

Definition client_alpn (value : list SVCBKeyValue) : list string :=
  match omap (λ p, match p with SVCBAlpn a => Some a | _ => None end) value with a :: _ => a | [] => [] end.

Definition client_view (rr : RR) : option (Z * list string * Z) :=
  match rData rr with D_SVCB prio _ v => Some (prio, client_alpn v, client_port v) | _ => None end.

(** The listeners of a configuration, in order of preference. *)
Definition listeners (doh dot doq : string) (doh3 : bool) : list (Z * list string * Z) :=
  (if String.eqb doh "" then [] else [(1, if doh3 then ["h3"; "h2"] else ["h2"], advertPort doh 443)]) ++
  (if String.eqb dot "" then [] else [(2, ["dot"], advertPort dot 853)]) ++
  (if String.eqb doq "" then [] else [(3, ["doq"], advertPort doq 853)]).

Lemma advertPort_range addr def : 0 < def ≤ 65535 → 0 < advertPort addr def ≤ 65535.
Proof.
  intros Hd. unfold advertPort. destruct (SplitHostPort addr) as [[h p]|]; [|done].
  destruct (Atoi p) as [n|]; [|done]. destruct ((n >? 0) && (n <=? 65535)) eqn:E; [|done]. lia.
Qed.

Lemma designation_view z prio alpn port def path :
  0 < port ≤ 65535 → def = (if path : bool then 443 else 853) →
  client_view (svcb_record z (mkDesignation prio alpn port def path)) = Some (prio, alpn, port).
Proof.
  intros Hp ->. unfold client_view, svcb_record, svcb_params; simpl. rewrite (Z.mod_small port) by lia.
  destruct path; simpl; [destruct (Z.eqb_spec port 443) as [->|]|destruct (Z.eqb_spec port 853) as [->|]]; simpl;
    destruct (0 <? List.length (z_v4 z))%nat, (0 <? List.length (z_v6 z))%nat; simpl; done.
Qed.

Lemma newDDRZone_views host doh dot doq doh3 ips :
  host ≠ "" → let z := newDDRZone host doh dot doq doh3 ips in
  client_view <$> (svcb_record z <$> z_designations z) = Some <$> listeners doh dot doq doh3.
Proof.
  intros Hh. cbn zeta. set (z := newDDRZone _ _ _ _ _ _).
  pose proof (λ prio alpn addr def path, designation_view z prio alpn (advertPort addr def) def path) as Hv.
  assert (Hds : z_designations z =
    (if String.eqb doh "" then [] else [mkDesignation 1 (if doh3 then ["h3"; "h2"] else ["h2"]) (advertPort doh 443) 443 true]) ++
    (if String.eqb dot "" then [] else [mkDesignation 2 ["dot"] (advertPort dot 853) 853 false]) ++
    (if String.eqb doq "" then [] else [mkDesignation 3 ["doq"] (advertPort doq 853) 853 false])).
  { subst z. unfold newDDRZone. destruct (String.eqb_spec host ""); [done|].
    destruct (ddrHints _ ips) as [v4 v6].
    by destruct (String.eqb doh ""), (String.eqb dot ""), (String.eqb doq ""). }
  rewrite Hds. unfold listeners. rewrite !fmap_app.
  destruct (String.eqb doh ""), (String.eqb dot ""), (String.eqb doq ""); simpl;
    rewrite ?Hv by (done || by apply advertPort_range); done.
Qed.

(** Discovery tells the truth: when the instance can name itself, a client
    that decodes the reply to its SVCB query of _dns.resolver.arpa learns
    exactly the encrypted listeners that are configured, each with its
    protocols and the port it is bound to (the wire record's 16-bit port or
    the default of the transport), in order of preference. *)
Theorem ddr_advertises_listeners host doh dot doq doh3 ips query q r :
  host ≠ "" → listeners doh dot doq doh3 ≠ [] →
  mQuestion query = [q] → ddrOwnsName (qName q) = true →
  qType q = TypeSVCB → CanonicalName (qName q) = ddrQueryName →
  answer (newDDRZone host doh dot doq doh3 ips) query = Some r →
  client_view <$> mAnswer r = Some <$> listeners doh dot doq doh3.
Proof.
  intros Hh Hne Hq Ho Ht Hn. unfold answer. rewrite Hq, Ho, Ht, Hn. cbn [negb].
  pose proof (newDDRZone_views host doh dot doq doh3 ips Hh) as Hv. cbn zeta in Hv.
  set (z := newDDRZone _ _ _ _ _ _) in *. rewrite Z.eqb_refl, String.eqb_refl. cbn [andb].
  destruct (advertises z) eqn:Ea; intros [= <-].
  - destruct (svcbResponse_shape z query) as (_ & _ & -> & _). done.
  - exfalso. unfold advertises in Ea. apply Nat.ltb_ge in Ea.
    destruct (z_designations z); simpl in Ea; [|lia]. simpl in Hv.
    destruct (listeners doh dot doq doh3); [done|discriminate Hv].
Qed.

End Props.

Lemma ddr_advertises_listeners_witness :
  let q := mkQuestion "_dns.Resolver.ARPA." TypeSVCB ClassINET in
  let query := mkMsg (replyHdr 7 0) [q] [] [] [] in
  let z := newDDRZone "dns.example" "0.0.0.0:443" "" "[::]:8853" true ["192.0.2.1"] in
  ∃ r, answer (dl := toyLib) z query = Some r ∧
    client_view <$> mAnswer r = [Some (1, ["h3"; "h2"], 443); Some (3, ["doq"], 8853)].
Proof.
  intros q query z. destruct (answer (dl := toyLib) z query) as [r|] eqn:E; [|vm_compute in E; discriminate].
  exists r. split; [done|].
  apply (ddr_advertises_listeners (dl := toyLib) "dns.example" "0.0.0.0:443" "" "[::]:8853" true ["192.0.2.1"] query q r);
    [done|by vm_compute|done|by vm_compute|done|by vm_compute|exact E].
Defined.

(** ** Address hints *)

Lemma add_hint_fold ips h x :
  (x ∈ fst (fold_left add_hint ips h) ↔ x ∈ fst h ∨
     ∃ addr ip, addr ∈ ips ∧ ParseIP addr = Some ip ∧ IsUnspecified ip = false ∧ To4 ip = Some x) ∧
  (x ∈ snd (fold_left add_hint ips h) ↔ x ∈ snd h ∨
     ∃ addr, addr ∈ ips ∧ ParseIP addr = Some x ∧ IsUnspecified x = false ∧ To4 x = None).
Proof.
  revert h. induction ips as [|a ips IH]; intros h; simpl; [set_solver|].
  destruct (IH (add_hint h a)) as [-> ->]. setoid_rewrite elem_of_cons. unfold add_hint.
  destruct (ParseIP a) as [ip|] eqn:Ep; [|naive_solver].
  destruct (IsUnspecified ip) eqn:Eu; [naive_solver congruence|].
  destruct (To4 ip) as [ip4|] eqn:E4; simpl; rewrite elem_of_app, list_elem_of_singleton; naive_solver congruence.
Qed.

(** The address hints are dialable: with configured addresses, each valid
    specified address is published under its own family and nothing else is;
    without them, only the address of a concrete bind is, so a wildcard bind
    publishes none. *)
Theorem ddrHints_spec listenAddr ips x :
  (ips ≠ [] →
   (x ∈ fst (ddrHints listenAddr ips) ↔
      ∃ addr ip, addr ∈ ips ∧ ParseIP addr = Some ip ∧ IsUnspecified ip = false ∧ To4 ip = Some x) ∧
   (x ∈ snd (ddrHints listenAddr ips) ↔
      ∃ addr, addr ∈ ips ∧ ParseIP addr = Some x ∧ IsUnspecified x = false ∧ To4 x = None)) ∧
  (ips = [] →
   ((x ∈ fst (ddrHints listenAddr ips) ↔
      ∃ host port ip, SplitHostPort listenAddr = Some (host, port) ∧ ParseIP host = Some ip ∧
        IsUnspecified ip = false ∧ To4 ip = Some x) ∧
   (x ∈ snd (ddrHints listenAddr ips) ↔
      ∃ host port, SplitHostPort listenAddr = Some (host, port) ∧ ParseIP host = Some x ∧
        IsUnspecified x = false ∧ To4 x = None))).
Proof.
  split.
  - intros Hne. unfold ddrHints. destruct ips as [|a ips]; [done|].
    destruct (add_hint_fold (a :: ips) ([], []) x) as [H1 H2]. simpl in H1, H2.
    set_solver.
  - intros ->. unfold ddrHints. cbn [List.length Nat.ltb Nat.leb].
    destruct (SplitHostPort listenAddr) as [[host port]|]; [|set_solver].
    destruct (ParseIP host) as [ip|] eqn:Ep; [|set_solver].
    destruct (IsUnspecified ip) eqn:Eu; [|destruct (To4 ip) eqn:E4]; simpl;
      rewrite ?list_elem_of_singleton, ?elem_of_nil; naive_solver congruence.
Qed.
