(* ===== verification/Mode2.v ===== *)
(** * The Mode 2 listeners (internal/upstream: upstream.go, dot.go, doq.go, doh.go)

    A query from an encrypted transport to the reply that leaves.  Each of the
    three listeners has its own copy of the query path in the source and is
    translated on its own: [Dot], [Doq] and [Doh].  They run on the world of
    [Server], whose cache and counters are the very objects Mode 1 uses; of a
    [Clock], [t_latency] is the service time recorded for the query. *)

From S2P Require Import Prelude GoStrings GoBase64 DnsMsg Cache Blocklist Allowlist.
From S2P Require Import Statistics Policy Fallback Interfaces Edns Server UpstreamEdns Ddr.
From Stdlib Require Import Ascii String.
Open Scope string_scope.
Open Scope list_scope.
Open Scope Z_scope.

(** ** Listeners *)

(** What [Start] wires into every listener. *)
Record Listener := mkListener {
  l_policy : option Policy;
  l_validate : bool;         (* [d.validateFunc != nil] *)
  l_stats : bool;            (* [d.stats != nil] *)
  l_order : gmap string CacheEntry → list (string * CacheEntry);
  l_ddr : ddrZone }.

(** The objects a listener shares with the Mode 1 server, on which the helpers
    for counters and policy of [Server] work. *)
Definition shared (l : Listener) : Server :=
  mkServer None (l_policy l) (l_validate l) (l_stats l) (l_order l).
Coercion shared : Listener >-> Server.

(** ** The validation callback *)

Section Callback.
Context {W V : Type} {VA : Validator V}.
Implicit Type w : World W V.

(** The adjusted message, or [None] for the error of a bogus one. *)
Definition validateFunc (l : Listener) (msg : Msg) w : option Msg * World W V :=
  let '(verdict, v) := validate msg (w_val w) in
  let w := set_val v w in
  match verdict with
  | Secure => (Some (set_AD true msg), bump l DnssecValidated w)
  | Insecure => (Some (set_AD false msg), bump l DnssecUnsigned w)
  | Bogus => (None, w)
  end.

Definition record_served (l : Listener) (rcode us : Z) w : World W V :=
  if l_stats l then set_stats (RecordMode2Latency us (RecordResponse rcode (w_stats w))) w else w.

End Callback.

(** ** DNS over TLS *)

Module Dot.
Section Dot.
Context {dl : DnsLib} {W V : Type} {UR : UpstreamResolver W} {VA : Validator V}.
Implicit Type w : World W V.

(** What is answered without going upstream: a malformed query, the DDR zone, a
    refusal, a cache hit. *)
Definition local (l : Listener) (clk : Clock) (query : Msg) w : option Msg * World W V :=
  let '(response, w) :=
    if negb (List.length (mQuestion query) =? 1)%nat then (Some (formErrResponse query), w) else
    match answer (l_ddr l) query with
    | Some resp => (Some resp, w)
    | None => policyResponse l query w
    end in
  match response, w_cache w with
  | None, Some c =>
      let '(hit, c') := Get c (t_get clk) (Some query) in
      let w := set_cache (Some c') w in
      match hit with
      | Some cached =>
          let '(r, w) := policyAnswer l query (set_Id (mId query) cached) w in
          (Some r, bump l CacheHits w)
      | None => (None, bump l CacheMisses w)
      end
  | _, _ => (response, w)
  end.

Definition upstream (l : Listener) (clk : Clock) (query : Msg) w : Msg * World W V :=
  let w := bump l UpstreamQueries w in
  let up := Up.queryWithDO query in
  let '(res, u, st) := resolve up (w_up w) (w_stats w) in
  let w := mkWorld (w_cache w) st u (w_val w) (w_fwd w ++ [up]) in
  let '(response, w) :=
    match res with
    | Err _ => (servfail query, bump l UpstreamErrors w)
    | Ok resp =>
        if l_validate l then
          match validateFunc l resp w with
          | (Some r, w) => (r, w)
          | (None, w) => (servfail query, bump l DnssecFailed w)
          end
        else (resp, w)
    end in
  let w := match w_cache w with
           | Some c =>
               if (0 <? List.length (mQuestion query))%nat && (mRcode response =? RcodeSuccess)
               then set_cache (Some (Put (l_order l) c (t_put clk) (Some query) (Some response))) w
               else w
           | None => w
           end in
  policyAnswer l query response w.

Definition reply (l : Listener) (clk : Clock) (query : Msg) w : Msg * World W V :=
  match local l clk query w with
  | (Some r, w) => (r, w)
  | (None, w) => upstream l clk query w
  end.

(** One query of a connection, from the counters to the accounting; [None] when
    packing or writing fails and the connection ends. *)
Definition handle_query (l : Listener) (clk : Clock) (wr : bool) (query : Msg) w
    : option (Msg * string * bool) * World W V :=
  let w := bump l TotalQueries (bump l DoTServed w) in
  let '(response, w) := reply l clk query w in
  let response := Up.ensureResponseEDNS response query in
  match Up.packStream response query with
  | (None, _) => (None, w)
  | (Some buf, replaced) =>
      if negb wr then (None, w)
      else (Some (response, buf, replaced), record_served l (mRcode response) (t_latency clk) w)
  end.

(** The connection loop on the bytes the client sends; [live k] says whether
    the service is still running at round [k]. *)
Fixpoint conn_loop (fuel k : nat) (l : Listener) (live : nat → bool) (clk : nat → Clock) (wr : nat → bool)
    (input : string) w : list (Msg * string * bool) * World W V :=
  match fuel with
  | O => ([], w)
  | S fuel' =>
      if negb (live k) then ([], w) else
      match read_message input with
      | None => ([], w)
      | Some (msgBuf, rest) =>
          match Unpack msgBuf with
          | None => conn_loop fuel' (S k) l live clk wr rest w
          | Some query =>
              let '(sent, w) := handle_query l (clk k) (wr k) query w in
              match sent with
              | None => ([], w)
              | Some m => let '(out, w) := conn_loop fuel' (S k) l live clk wr rest w in (m :: out, w)
              end
          end
      end
  end.

Definition handleConnection (l : Listener) (live : nat → bool) (clk : nat → Clock) (wr : nat → bool)
    (input : string) w :=
  conn_loop (S (String.length input)) 0 l live clk wr input w.

End Dot.
End Dot.

(** ** DNS over QUIC *)

Module Doq.
Section Doq.
Context {dl : DnsLib} {W V : Type} {UR : UpstreamResolver W} {VA : Validator V}.
Implicit Type w : World W V.

(** The query path of [handleStream]: first what denies or answers locally,
    then the cache, then the upstream chain. *)
Definition reply (l : Listener) (clk : Clock) (query : Msg) w : Msg * World W V :=
  let '(response, w) :=
    if negb (List.length (mQuestion query) =? 1)%nat then (Some (formErrResponse query), w) else
    match answer (l_ddr l) query with
    | Some resp => (Some resp, w)
    | None => policyResponse l query w
    end in
  let '(response, w) :=
    match response, w_cache w with
    | None, Some c =>
        let '(hit, c') := Get c (t_get clk) (Some query) in
        let w := set_cache (Some c') w in
        match hit with
        | Some cached =>
            let '(r, w) := policyAnswer l query (set_Id (mId query) cached) w in
            (Some r, bump l CacheHits w)
        | None => (None, bump l CacheMisses w)
        end
    | _, _ => (response, w)
    end in
  match response with
  | Some r => (r, w)
  | None =>
      let w := bump l UpstreamQueries w in
      let up := Up.queryWithDO query in
      let '(res, u, st) := resolve up (w_up w) (w_stats w) in
      let w := mkWorld (w_cache w) st u (w_val w) (w_fwd w ++ [up]) in
      let '(response, w) :=
        match res with
        | Err _ => (servfail query, bump l UpstreamErrors w)
        | Ok resp =>
            if l_validate l then
              match validateFunc l resp w with
              | (Some r, w) => (r, w)
              | (None, w) => (servfail query, bump l DnssecFailed w)
              end
            else (resp, w)
        end in
      let w := match w_cache w with
               | Some c =>
                   if (0 <? List.length (mQuestion query))%nat && (mRcode response =? RcodeSuccess)
                   then set_cache (Some (Put (l_order l) c (t_put clk) (Some query) (Some response))) w
                   else w
               | None => w
               end in
      policyAnswer l query response w
  end.

(** One stream: one framed query and at most one reply. *)
Definition handleStream (l : Listener) (clk : Clock) (wr : bool) (input : string) w
    : option (Msg * string * bool) * World W V :=
  match read_message input with
  | None => (None, w)
  | Some (msgBuf, _) =>
      match Unpack msgBuf with
      | None => (None, w)
      | Some query =>
          let w := bump l TotalQueries (bump l DoQServed w) in
          let '(response, w) := reply l clk query w in
          let response := Up.ensureResponseEDNS response query in
          match Up.packStream response query with
          | (None, _) => (None, w)
          | (Some buf, replaced) =>
              if negb wr then (None, w)
              else (Some (response, buf, replaced), record_served l (mRcode response) (t_latency clk) w)
          end
      end
  end.

End Doq.
End Doq.

(** ** DNS over HTTPS *)

Module Doh.

(** A request to /dns-query: the body of a POST ([None] when reading it fails),
    the value of the dns parameter of a GET, or another method. *)
Inductive Request := PostBody (body : option string) | GetParam (dns : string) | OtherMethod.

(** An HTTP error status, or 200 with the message and its bytes. *)
Inductive HttpReply := HttpError (status : Z) | HttpOK (msg : Msg) (body : string).

Definition StatusBadRequest : Z := 400.
Definition StatusMethodNotAllowed : Z := 405.
Definition StatusInternalServerError : Z := 500.

(** The DNS message of a request, or the status of the refusal. *)
Definition request_body (r : Request) : result string Z :=
  try body ←
    match r with
    | PostBody None => Err StatusBadRequest
    | PostBody (Some b) => Ok (substring 0 (Z.to_nat (MaxMsgSize + 1)) b)
    | GetParam dnsParam =>
        if String.eqb dnsParam "" then Err StatusBadRequest else
        match DecodeString dnsParam with
        | Some b => Ok b
        | None => Err StatusBadRequest
        end
    | OtherMethod => Err StatusMethodNotAllowed
    end;
  if (blen body =? 0) || (blen body >? MaxMsgSize) then Err StatusBadRequest else Ok body.

Section Doh.
Context {dl : DnsLib} {W V : Type} {UR : UpstreamResolver W} {VA : Validator V}.
Implicit Type w : World W V.

(** [d.resolv.Resolve], the callback and the cache write. *)
Definition upstream (l : Listener) (clk : Clock) (query : Msg) w : Msg * World W V :=
  let w := bump l UpstreamQueries w in
  let up := Up.queryWithDO query in
  let '(res, u, st) := resolve up (w_up w) (w_stats w) in
  let w := mkWorld (w_cache w) st u (w_val w) (w_fwd w ++ [up]) in
  let '(response, w) :=
    match res with
    | Err _ => (servfail query, bump l UpstreamErrors w)
    | Ok resp =>
        if l_validate l then
          match validateFunc l resp w with
          | (Some r, w) => (r, w)
          | (None, w) => (servfail query, bump l DnssecFailed w)
          end
        else (resp, w)
    end in
  let w := match w_cache w with
           | Some c =>
               if (0 <? List.length (mQuestion query))%nat && (mRcode response =? RcodeSuccess)
               then set_cache (Some (Put (l_order l) c (t_put clk) (Some query) (Some response))) w
               else w
           | None => w
           end in
  policyAnswer l query response w.

(** The message handed to [writeResponse].  A DDR reply is not normalised again. *)
Definition respond (l : Listener) (clk : Clock) (query : Msg) w : Msg * World W V :=
  if negb (List.length (mQuestion query) =? 1)%nat
  then (Up.ensureResponseEDNS (formErrResponse query) query, w) else
  match answer (l_ddr l) query with
  | Some resp => (resp, w)
  | None =>
      let '(denied, w) := policyResponse l query w in
      match denied with
      | Some resp => (Up.ensureResponseEDNS resp query, w)
      | None =>
          let '(hit, w) :=
            match w_cache w with
            | Some c =>
                if (0 <? List.length (mQuestion query))%nat then
                  let '(hit, c') := Get c (t_get clk) (Some query) in
                  let w := set_cache (Some c') w in
                  match hit with
                  | Some cached =>
                      let '(r, w) := policyAnswer l query (set_Id (mId query) cached) (bump l CacheHits w) in
                      (Some r, w)
                  | None => (None, bump l CacheMisses w)
                  end
                else (None, w)
            | None => (None, w)
            end in
          match hit with
          | Some cached => (Up.ensureResponseEDNS cached query, w)
          | None =>
              let '(response, w) := upstream l clk query w in
              (Up.ensureResponseEDNS response query, w)
          end
      end
  end.

Definition writeResponse (l : Listener) (clk : Clock) (msg : Msg) w : HttpReply * World W V :=
  match Pack msg with
  | None => (HttpError StatusInternalServerError, w)
  | Some respBuf => (HttpOK msg respBuf, record_served l (mRcode msg) (t_latency clk) w)
  end.

Definition handleDNSQuery (l : Listener) (clk : Clock) (r : Request) w : HttpReply * World W V :=
  match request_body r with
  | Err status => (HttpError status, w)
  | Ok body =>
      match Unpack body with
      | None => (HttpError StatusBadRequest, w)
      | Some query =>
          let w := bump l TotalQueries (bump l DoHServed w) in
          let '(response, w) := respond l clk query w in
          writeResponse l clk response w
      end
  end.

End Doh.
End Doh.

(** ** One decision for the three listeners *)

(** Worlds that differ at most in the order in which counters were raised. *)
Record same_world {W V : Type} (w1 w2 : World W V) : Prop := {
  sw_cache : w_cache w1 = w_cache w2;
  sw_up : w_up w1 = w_up w2;
  sw_val : w_val w1 = w_val w2;
  sw_fwd : w_fwd w1 = w_fwd w2;
  sw_start : startTime (w_stats w1) = startTime (w_stats w2);
  sw_stats c : cnt (w_stats w1) c = cnt (w_stats w2) c }.

#[global] Instance same_world_equiv {W V : Type} : Equivalence (@same_world W V).
Proof.
  split.
  - by intros w.
  - intros w1 w2 [? ? ? ? ? Hs]. by split.
  - intros w1 w2 w3 [? ? ? ? ? H1] [? ? ? ? ? H2]. split; congruence.
Qed.

Lemma inc_comm c1 c2 st c : cnt (inc c1 (inc c2 st)) c = cnt (inc c2 (inc c1 st)) c.
Proof.
  unfold inc, add, store; simpl. repeat case_decide; subst; try done; try congruence.
Qed.

Section Agree.
Context {dl : DnsLib} {W V : Type} {UR : UpstreamResolver W} {VA : Validator V}.
Implicit Type w : World W V.

(** The answer check decides on the message alone and counts at most once. *)
Lemma policyAnswer_effect s query r :
  ∃ m, (∀ w, policyAnswer s query r w = (m, w)) ∨
       (∀ w, policyAnswer s query r w = (m, set_stats (inc DeniedQueries (w_stats w)) w)).
Proof.
  assert (Hid : ∀ w, set_stats (w_stats w) w = w) by (by intros []).
  unfold policyAnswer, Answer. destruct (s_policy s) as [p|]; [|exists r; left; intros w; by rewrite Hid].
  destruct (allow p) as [a|]; [|exists r; left; intros w; by rewrite Hid].
  destruct (first_refused p a (mAnswer r)) as [reason|]; [|exists r; left; intros w; by rewrite Hid].
  unfold deny, Policy.count.
  destruct (Policy.hasStats p), (IsEdns0 query) as [?|]; simpl; try destruct (IsEdns0 _) as [[i o]|];
    eexists; first [by left; intros w; simpl; rewrite Hid | by right].
Qed.

Lemma policyAnswer_stats s query r w w' : fst (policyAnswer s query r w) = fst (policyAnswer s query r w').
Proof. destruct (policyAnswer_effect s query r) as (m & [H|H]); by rewrite !H. Qed.

Lemma policyAnswer_bump s c query r w :
  let x := policyAnswer s query r w in let y := policyAnswer s query r (bump s c w) in
  fst x = fst y ∧ same_world (bump s c (snd x)) (snd y).
Proof.
  cbn zeta. destruct (policyAnswer_effect s query r) as (m & [H|H]); rewrite !H; simpl; [done|]. split; [done|].
  unfold bump. destruct (s_stats s); [|done]. split; try done. intros c'. apply inc_comm.
Qed.

Lemma doq_reply_eq l clk query w : Doq.reply l clk query w = Dot.reply l clk query w.
Proof.
  unfold Doq.reply, Dot.reply, Dot.local.
  destruct (if negb (List.length (mQuestion query) =? 1)%nat then _ else _) as [[r|] w1]; [done|].
  destruct (w_cache w1) as [c|]; [|done].
  destruct (Get c (t_get clk) (Some query)) as [[m|] c']; [|done].
  by destruct (policyAnswer l query (set_Id (mId query) m) (set_cache (Some c') w1)).
Qed.

(** Normalising a reply of the DDR zone a second time changes nothing. *)
Lemma ensure_idem_local {laws : DnsLaws dl} h q an ns query :
  (∀ rr, rr ∈ an ++ ns → is_dnssec rr = false) →
  let r := ensureResponseEDNS (mkMsg h q an ns []) query in ensureResponseEDNS r query = r.
Proof.
  intros Hp. cbn zeta.
  assert (Hstrip : ∀ ex, (∀ rr, rr ∈ ex → is_dnssec rr = false) → stripDNSSECRecords (mkMsg h q an ns ex) = mkMsg h q an ns ex).
  { intros ex Hex. unfold stripDNSSECRecords; simpl. rewrite !filterDNSSEC_id; set_solver. }
  assert (H0 : stripDNSSECRecords (mkMsg h q an ns []) = mkMsg h q an ns [])
    by (apply Hstrip; intros rr Hrr; by apply elem_of_nil in Hrr).
  assert (H1 : stripOPT (mkMsg h q an ns []) = mkMsg h q an ns []) by done.
  unfold ensureResponseEDNS. destruct (IsEdns0 query) as [[i o]|] eqn:Eq; cbn [negb]; [|by rewrite H0, H1, H0].
  rewrite H0.
  replace (if negb (optDo o) then mkMsg h q an ns [] else mkMsg h q an ns []) with (mkMsg h q an ns [])
    by (by destruct (optDo o)).
  assert (Hn : IsEdns0 (mkMsg h q an ns []) = None).
  { apply IsEdns0_None; intros rr Hrr; by apply elem_of_nil in Hrr. }
  rewrite Hn. unfold SetEdns0. cbn [mExtra app]. destruct (newOPT_spec dnsUDPBufSize (optDo o)) as (ho & Ho & Ht).
  rewrite Ho. set (m := set_Extra _ _).
  assert (Hm : stripDNSSECRecords m = m).
  { apply Hstrip. intros rr ->%list_elem_of_singleton. unfold is_dnssec, rrtype; simpl. by rewrite Ht. }
  rewrite Hm. replace (if negb (optDo o) then m else m) with m by (by destruct (optDo o)).
  destruct (IsEdns0 m) as [[j p]|] eqn:Em.
  - apply IsEdns0_Some in Em as (h' & Hj & _). destruct j as [|j]; [|by rewrite lookup_nil in Hj || done].
    simpl in Hj. injection Hj as <- <-. done.
  - exfalso. assert (Hwf : opt_wf m).
    { intros rr ->%list_elem_of_singleton. unfold rr_wf, rrtype; simpl. split; eauto. }
    apply (proj1 (IsEdns0_None m Hwf)) with (rr := mkRR ho (D_OPT (mkOPT dnsUDPBufSize (optDo o) []))) in Em;
      [done|by apply list_elem_of_singleton].
Qed.

Lemma ddr_normalised {laws : DnsLaws dl} z query r :
  answer z query = Some r → Up.ensureResponseEDNS r query = r.
Proof.
  unfold answer. destruct (mQuestion query) as [|q [|]]; try done. destruct (negb _); [done|].
  destruct (_ && _)%bool; intros [= <-].
  - unfold svcbResponse. rewrite svcb_answer, !up_ensure. apply ensure_idem_local.
    intros rr. rewrite app_nil_r. apply svcb_plain.
  - unfold nodataResponse. rewrite !up_ensure. apply ensure_idem_local. by intros rr ->%list_elem_of_singleton.
Qed.

Lemma doh_respond_eq {laws : DnsLaws dl} l clk query w :
  let x := Dot.reply l clk query w in let y := Doh.respond l clk query w in
  Up.ensureResponseEDNS (fst x) query = fst y ∧ same_world (snd x) (snd y).
Proof.
  cbn zeta. unfold Dot.reply, Dot.local, Doh.respond.
  destruct (Nat.eqb_spec (List.length (mQuestion query)) 1) as [El|El]; [|done]. cbn [negb].
  destruct (answer (l_ddr l) query) as [r|] eqn:Ea; [cbn; by rewrite (ddr_normalised _ _ _ Ea)|].
  destruct (policyResponse l query w) as [[r|] w1]; [done|]. rewrite El. cbn [Nat.ltb Nat.leb].
  destruct (w_cache w1) as [c|].
  2: { change (Doh.upstream l clk query w1) with (Dot.upstream l clk query w1).
       by destruct (Dot.upstream l clk query w1). }
  destruct (Get c (t_get clk) (Some query)) as [[m|] c'].
  - pose proof (policyAnswer_bump l CacheHits query (set_Id (mId query) m) (set_cache (Some c') w1)) as [H1 H2].
    destruct (policyAnswer l query (set_Id (mId query) m) (set_cache (Some c') w1)) as [r2 w2].
    destruct (policyAnswer l query (set_Id (mId query) m) (bump l CacheHits (set_cache (Some c') w1))) as [r3 w3].
    simpl in *. by subst.
  - change (Doh.upstream l clk query) with (Dot.upstream l clk query).
    by destruct (Dot.upstream l clk query _).
Qed.

(** The normalised reply of each listener. *)
Inductive transport := DoT | DoQ | DoH.

Definition served (t : transport) (l : Listener) (clk : Clock) (query : Msg) w : Msg * World W V :=
  match t with
  | DoT => let '(r, w) := Dot.reply l clk query w in (Up.ensureResponseEDNS r query, w)
  | DoQ => let '(r, w) := Doq.reply l clk query w in (Up.ensureResponseEDNS r query, w)
  | DoH => Doh.respond l clk query w
  end.

Lemma served_eq {laws : DnsLaws dl} t l clk query w :
  fst (served t l clk query w) = Up.ensureResponseEDNS (fst (Dot.reply l clk query w)) query ∧
  same_world (snd (Dot.reply l clk query w)) (snd (served t l clk query w)).
Proof.
  destruct t; simpl.
  - by destruct (Dot.reply l clk query w).
  - rewrite doq_reply_eq. by destruct (Dot.reply l clk query w).
  - pose proof (doh_respond_eq l clk query w) as [<- H]. done.
Qed.

(** The encrypted listeners act in lockstep: from the same state, on the same
    query, DoT, DoQ and DoH compute the same reply and leave the same cache,
    upstream chain, validator and counters. *)
Theorem mode2_listeners_agree {laws : DnsLaws dl} t1 t2 l clk query w :
  fst (served t1 l clk query w) = fst (served t2 l clk query w) ∧
  same_world (snd (served t1 l clk query w)) (snd (served t2 l clk query w)).
Proof.
  destruct (served_eq t1 l clk query w) as [-> H1]. destruct (served_eq t2 l clk query w) as [-> H2].
  split; [done|]. by rewrite <-H1, <-H2.
Qed.

End Agree.

(** ** Prefixes of strings *)

Lemma substring_all n s : (String.length s ≤ n)%nat → substring 0 n s = s.
Proof.
  revert n. induction s as [|a s IH]; intros [|n] Hn; simpl in *; try done; [lia|]. by rewrite IH by lia.
Qed.

Lemma substring_length n s : (n ≤ String.length s)%nat → String.length (substring 0 n s) = n.
Proof.
  revert n. induction s as [|a s IH]; intros [|n] Hn; simpl in *; try done; [lia|]. by rewrite IH by lia.
Qed.

(** ** What the listeners forward and serve *)

Section Props.
Context {dl : DnsLib} {laws : DnsLaws dl} {W V : Type} {UR : UpstreamResolver W} {VA : Validator V}.
Implicit Type w : World W V.

(** A query the local stage leaves open: it may be forwarded, is outside the DDR
    zone, and nothing but the cache and its counter moved. *)
Lemma local_None l clk query w w1 :
  Dot.local l clk query w = (None, w1) →
  may_forward l query ∧ answer (l_ddr l) query = None ∧
  w_fwd w1 = w_fwd w ∧ w_val w1 = w_val w ∧ w_up w1 = w_up w.
Proof.
  unfold Dot.local. destruct (Nat.eqb_spec (List.length (mQuestion query)) 1) as [El|El]; [|done]. cbn [negb].
  destruct (answer (l_ddr l) query) as [r|]; [done|].
  destruct (policyResponse l query w) as [[r|] w0] eqn:Ep; [done|].
  apply policyResponse_None in Ep as [-> Hp]. intros H. split.
  { destruct (mQuestion query) as [|q [|]] eqn:Eq; simpl in El; try lia. exists q. split; [done|]. eauto. }
  split; [done|]. destruct (w_cache w) as [c|]; [|by injection H as <-].
  destruct (Get c (t_get clk) (Some query)) as [[m|] c'].
  - destruct (policyAnswer l query _ _). discriminate H.
  - injection H as <-. autorewrite with world. done.
Qed.

Lemma local_fwd l clk query w : w_fwd (snd (Dot.local l clk query w)) = w_fwd w.
Proof.
  unfold Dot.local. destruct (negb _); [done|]. destruct (answer (l_ddr l) query) as [r|]; [done|].
  assert (Hp : w_fwd (snd (policyResponse l query w)) = w_fwd w)
    by (unfold policyResponse; by destruct (Response _ _ _)).
  destruct (policyResponse l query w) as [[r|] w1]; [done|]. simpl in Hp.
  destruct (w_cache w1) as [c|]; [|done]. destruct (Get c (t_get clk) (Some query)) as [[m|] c'].
  - pose proof (policyAnswer_fwd l query (set_Id (mId query) m) (set_cache (Some c') w1)) as Hf.
    destruct (policyAnswer l query _ _). simpl in *. autorewrite with world. by rewrite Hf.
  - simpl. autorewrite with world. done.
Qed.

(** The upstream stage after the resolver answered. *)
Definition asked (l : Listener) (query : Msg) w : result Msg () :=
  fst (fst (resolve (Up.queryWithDO query) (w_up w) (w_stats (bump l UpstreamQueries w)))).

(** What the upstream stage serves before the answer check: the verdict on the
    resolver's answer. *)
Definition verdict_reply (l : Listener) (query : Msg) (v : V) (res : result Msg ()) : Msg :=
  match res with
  | Err _ => servfail query
  | Ok r =>
      if l_validate l then
        match fst (validate r v) with Secure => set_AD true r | Insecure => set_AD false r | Bogus => servfail query end
      else r
  end.

Lemma upstream_shape l clk query w :
  ∃ w2, Dot.upstream l clk query w = policyAnswer l query (verdict_reply l query (w_val w) (asked l query w)) w2 ∧
    w_fwd w2 = w_fwd w ++ [Up.queryWithDO query] ∧
    w_cache w2 = match w_cache w with
                 | Some c =>
                     let r := verdict_reply l query (w_val w) (asked l query w) in
                     Some (if (0 <? List.length (mQuestion query))%nat && (mRcode r =? RcodeSuccess)
                           then Put (l_order l) c (t_put clk) (Some query) (Some r) else c)
                 | None => None
                 end.
Proof.
  unfold Dot.upstream, asked. autorewrite with world.
  destruct (resolve _ (w_up w) _) as [[res u] st]; cbn [fst].
  set (w1 := mkWorld (w_cache w) st u (w_val w) (w_fwd w ++ [Up.queryWithDO query])).
  assert (H : ∃ w2, match res with
    | Err _ => (servfail query, bump l UpstreamErrors w1)
    | Ok resp => if l_validate l then match validateFunc l resp w1 with
        | (Some r, w) => (r, w) | (None, w) => (servfail query, bump l DnssecFailed w) end else (resp, w1)
    end = (verdict_reply l query (w_val w) res, w2) ∧ w_fwd w2 = w_fwd w1 ∧ w_cache w2 = w_cache w1).
  { unfold verdict_reply. destruct res as [r|[]].
    - destruct (l_validate l); [|by eexists]. unfold validateFunc. change (w_val w1) with (w_val w).
      destruct (validate r (w_val w)) as [[] v]; cbn [fst]; eexists; (split; [reflexivity|]); by autorewrite with world.
    - eexists. split; [reflexivity|]. by autorewrite with world. }
  destruct H as (w2 & -> & Hf & Hc). rewrite Hc. unfold w1; cbn [w_cache].
  destruct (w_cache w) as [c|] eqn:Ec; [|by eexists].
  destruct (_ && _)%bool; eexists; (split; [reflexivity|]); simpl; [done|]. split; [done|]. by rewrite Hc.
Qed.

(** C5: On every encrypted listener a query is handed to the upstream chain at
    most once, with DO set, and only if it carries exactly one question that
    the allowlist passes, the blocklist does not match and that lies outside
    resolver.arpa. *)
Theorem mode2_forwarded_only_if_allowed t l clk query w :
  w_fwd (snd (served t l clk query w)) = w_fwd w ∨
  (w_fwd (snd (served t l clk query w)) = w_fwd w ++ [Up.queryWithDO query] ∧
   ∃ q, mQuestion query = [q] ∧ ddrOwnsName (qName q) = false ∧
     ∀ p, l_policy l = Some p → allow_passes p q = true ∧ blocked p q = false).
Proof.
  destruct (served_eq t l clk query w) as [_ [_ _ _ <- _ _]]. unfold Dot.reply.
  pose proof (local_fwd l clk query w) as Hl.
  destruct (Dot.local l clk query w) as [[r|] w1] eqn:El; [by left|]. right.
  apply local_None in El as (Hm & Ha & Hf & _ & _).
  destruct (upstream_shape l clk query w1) as (w2 & -> & Hf2 & _). rewrite policyAnswer_fwd, Hf2, Hf. split; [done|].
  destruct Hm as (q & Hq & Hp). exists q. split_and!; [done|exact (proj1 (answer_None _ _) Ha q Hq)|exact Hp].
Qed.

(** Fail closed: when a query goes upstream on an encrypted listener and the
    chain fails or the answer is bogus, the client gets SERVFAIL without
    records, and nothing enters the shared cache. *)
Theorem mode2_fail_closed t l clk query w w1 :
  Dot.local l clk query w = (None, w1) →
  (asked l query w1 = Err () ∨
   ∃ r, asked l query w1 = Ok r ∧ l_validate l = true ∧ fst (validate r (w_val w1)) = Bogus) →
  fst (served t l clk query w) = Up.ensureResponseEDNS (servfail query) query ∧
  w_cache (snd (served t l clk query w)) = w_cache w1.
Proof.
  intros El Hcase. destruct (served_eq t l clk query w) as [-> [<- _ _ _ _ _]]. unfold Dot.reply. rewrite El.
  assert (Hr : verdict_reply l query (w_val w1) (asked l query w1) = servfail query).
  { unfold verdict_reply. destruct Hcase as [->|(r & -> & -> & Hb)]; [done|]. by rewrite Hb. }
  destruct (upstream_shape l clk query w1) as (w2 & -> & _ & Hc). rewrite Hr in *.
  rewrite policyAnswer_servfail, policyAnswer_cache, Hc. split; [done|].
  destruct (w_cache w1) as [c|]; [|done]. cbn zeta. by rewrite andb_false_r.
Qed.

Lemma ensure_hdr r query : mHdr (Up.ensureResponseEDNS r query) = mHdr r.
Proof.
  rewrite up_ensure. unfold ensureResponseEDNS. destruct (IsEdns0 query) as [[i o]|]; [|done].
  destruct (optDo o); simpl; by destruct (IsEdns0 _) as [[j p]|].
Qed.

(** With validation on, a query an encrypted listener takes upstream is
    answered with the AD bit only if the validator found the resolver's answer
    secure, and the reply is then that answer. *)
Theorem mode2_ad_only_if_secure t l clk query w w1 :
  Dot.local l clk query w = (None, w1) → l_validate l = true →
  mAuthenticatedData (fst (served t l clk query w)) = true →
  ∃ r, asked l query w1 = Ok r ∧ fst (validate r (w_val w1)) = Secure ∧
       fst (served t l clk query w) = Up.ensureResponseEDNS (set_AD true r) query.
Proof.
  intros El Hv. destruct (served_eq t l clk query w) as [-> _]. unfold Dot.reply. rewrite El, ensure_hdr.
  destruct (upstream_shape l clk query w1) as (w2 & -> & _ & _). unfold verdict_reply. rewrite Hv.
  destruct (asked l query w1) as [r|[]]; [|by rewrite policyAnswer_servfail].
  destruct (validate r (w_val w1)) as [[] v] eqn:Ev; cbn [fst]; [| |by rewrite policyAnswer_servfail].
  - destruct (policyAnswer_cases l query (set_AD true r) w2) as [E|E]; rewrite E; [|done]. intros _. exists r. by rewrite Ev.
  - destruct (policyAnswer_cases l query (set_AD false r) w2) as [E|E]; rewrite E; done.
Qed.

Lemma reply_allowed l clk query w p a :
  l_policy l = Some p → allow p = Some a → answer (l_ddr l) query = None →
  ∀ rr, rr ∈ mAnswer (fst (Dot.reply l clk query w)) → record_allowed p a rr.
Proof.
  intros Hp Ha Hd rr. unfold Dot.reply. destruct (Dot.local l clk query w) as [[r|] w1] eqn:El.
  2: { destruct (upstream_shape l clk query w1) as (w2 & -> & _ & _). by apply Answer_allowed. }
  revert El. unfold Dot.local. rewrite Hd.
  destruct (Nat.eqb_spec (List.length (mQuestion query)) 1) as [E1|E1]; simpl.
  2: { intros [= <- _] Hin. by apply elem_of_nil in Hin. }
  destruct (mQuestion query) as [|q [|]] eqn:Eq; simpl in E1; try lia.
  unfold policyResponse. change (s_policy l) with (l_policy l). rewrite Hp.
  pose proof (Response_cases p query q [] (w_stats w) Eq) as Hc.
  destruct (Response (Some p) query (w_stats w)) as [st [m|]].
  - intros [= <- _] Hin. exfalso.
    destruct Hc as [(_ & reason & [_ _ _ _ [Hans _] _ _] & [= _ ->])|[(_ & _ & [= _ ->])|(_ & _ & [=])]];
      simpl in Hin; [rewrite Hans in Hin|]; by apply elem_of_nil in Hin.
  - destruct (w_cache _) as [c|]; [|done]. destruct (Get c (t_get clk) (Some query)) as [[m|] c']; [|done].
    match goal with |- context [policyAnswer ?s ?x ?y ?z] =>
      pose proof (λ rr, Answer_allowed s x y z p a Hp Ha rr) as H; destruct (policyAnswer s x y z) as [r2 w2] end.
    intros [= <- _]. apply H.
Qed.

(** What leaves an encrypted listener: no OPT record if the query had none,
    no DNSSEC record unless the client set DO, and, with an allowlist on and
    the query outside resolver.arpa, only answer records the allowlist
    permits. *)
Theorem mode2_replies_safe t l clk query w :
  let r := fst (served t l clk query w) in
  (IsEdns0 query = None → count_opts r = 0%nat) ∧
  (edns_do query = false → ∀ rr, rr ∈ mAnswer r ++ mNs r ++ mExtra r → is_dnssec rr = false) ∧
  (∀ p a rr, l_policy l = Some p → allow p = Some a → answer (l_ddr l) query = None →
     rr ∈ mAnswer r → record_allowed p a rr).
Proof.
  cbn zeta. destruct (served_eq t l clk query w) as [-> _]. rewrite up_ensure. split_and!.
  - intros Hq. unfold ensureResponseEDNS. rewrite Hq. apply count_stripOPT.
  - by apply ensure_dnssec.
  - intros p a rr Hp Ha Hd Hin%ensure_answer. by eapply reply_allowed.
Qed.

(** ** The two modes *)

Lemma upstreamFailure_nostale s clk query w c :
  w_cache w = Some c → ServeStaleEnabled c = false →
  upstreamFailureResponse s clk query w = (servfail query, w).
Proof.
  intros Hc Hs. apply upstreamFailure_closed. unfold no_stale. rewrite Hc. simpl. unfold GetStale.
  unfold ServeStaleEnabled in Hs. apply Z.ltb_ge in Hs.
  rewrite (proj2 (Z.leb_le _ _) Hs), orb_true_r. done.
Qed.

Lemma Get_config c now req hit c' : Get c now req = (hit, c') → ServeStaleEnabled c' = ServeStaleEnabled c.
Proof. unfold Get. by destruct (Get_lookup c now req); intros [= _ <-]. Qed.

(** The miss path of Mode 1 without serve-stale, in the terms of Mode 2. *)
Lemma forward_verdict (l : Listener) clk query w c :
  w_cache w = Some c → ServeStaleEnabled c = false →
  ∃ w2, fst (forward l clk query w) =
    fst (policyAnswer l query (verdict_reply l query (w_val w) (asked l query (bump l CacheMisses w))) w2).
Proof.
  intros Hc Hs. unfold forward. fold (missed l w).
  assert (Ha : fst (call_resolver query (missed l w)) = asked l query (bump l CacheMisses w)).
  { unfold call_resolver, asked, missed. rewrite <-up_queryWithDO. autorewrite with world.
    by destruct (resolve _ _ _) as [[res u] st]. }
  pose proof (call_resolver_frame query (missed l w)) as [Hc1 Hv1].
  destruct (missed_frame l w) as [Hmc Hmv]. rewrite Hmc, Hc in Hc1. rewrite Hmv in Hv1.
  destruct (call_resolver query (missed l w)) as [res w1]. simpl in Ha, Hc1, Hv1. rewrite <-Ha. unfold verdict_reply.
  destruct res as [r|[]].
  - change (s_validator l) with (l_validate l). destruct (l_validate l); [|by eexists]. unfold applyDNSSEC.
    autorewrite with world. rewrite Hv1. destruct (validate r (w_val w)) as [[] v]; cbn [fst]; [by eexists|by eexists|].
    rewrite (upstreamFailure_nostale l clk query _ c); [by eexists|by autorewrite with world; simpl; autorewrite with world|done].
  - rewrite (upstreamFailure_nostale l clk query _ c); [by eexists|by autorewrite with world|done].
Qed.

(** C16: The two modes give the same answers: for a query outside resolver.arpa
    and with serve-stale off, every encrypted listener replies exactly what
    the plain listener would reply from the same shared state. *)
Theorem modes_agree t (l : Listener) clk query w c :
  w_cache w = Some c → ServeStaleEnabled c = false → answer (l_ddr l) query = None →
  fst (served t l clk query (bump l TotalQueries w)) =
  ensureResponseEDNS (fst (tcp_response l clk query w)) query.
Proof.
  intros Hc Hs Hd. destruct (served_eq t l clk query (bump l TotalQueries w)) as [-> _]. rewrite up_ensure. f_equal.
  pose proof (tcp_response_cases l clk query w) as H. cbn zeta in H. remember (bump l TotalQueries w) as w0 eqn:E0.
  assert (Hc0 : w_cache w0 = Some c) by (subst w0; by autorewrite with world).
  unfold Dot.reply, Dot.local. rewrite Hd. destruct H as [[El ->]|(q & Eq & H)].
  { apply Nat.eqb_neq in El. by rewrite El. }
  rewrite Eq. cbn [List.length Nat.eqb negb].
  destruct H as [(r & w1 & Hp & ->)|[Hp [(m & w1 & Hg & ->)|(w1 & Hg & ->)]]]; rewrite Hp; [done|..]; rewrite Hc0;
    unfold cache_get in Hg; rewrite Hc0, Eq in Hg; cbn [List.length Nat.ltb Nat.leb negb] in Hg;
    destruct (Get c (t_get clk) (Some query)) as [[m'|] c'] eqn:Eg; try discriminate Hg.
  - injection Hg as <- <-.
    match goal with |- context [let '(_, _) := policyAnswer ?s ?x ?y ?z in _] =>
      pose proof (policyAnswer_stats s x y z (bump l CacheHits z)) as H; destruct (policyAnswer s x y z) end.
    exact H.
  - injection Hg as <-.
    destruct (forward_verdict l clk query (set_cache (Some c') w0) c') as (w2 & ->);
      [done|by rewrite (Get_config _ _ _ _ _ Eg)|].
    destruct (upstream_shape l clk query (bump l CacheMisses (set_cache (Some c') w0))) as (w3 & -> & _ & _).
    autorewrite with world. apply policyAnswer_stats.
Qed.

(** ** HTTP requests *)

(** GET and POST are one service: a query of legal size sent base64url-encoded
    in a GET gets, from any state, exactly what the same bytes get in a POST. *)
Theorem doh_get_is_post l clk body w :
  0 < blen body ≤ MaxMsgSize →
  Doh.handleDNSQuery l clk (Doh.GetParam (EncodeToString body)) w =
  Doh.handleDNSQuery l clk (Doh.PostBody (Some body)) w.
Proof.
  intros Hb. unfold Doh.handleDNSQuery.
  assert (H : Doh.request_body (Doh.GetParam (EncodeToString body)) = Doh.request_body (Doh.PostBody (Some body)));
    [|by rewrite H].
  unfold Doh.request_body. rewrite DecodeString_Encode.
  destruct (String.eqb_spec (EncodeToString body) "") as [E|_].
  - assert (Hd : DecodeString (EncodeToString body) = Some body) by apply DecodeString_Encode.
    rewrite E in Hd. injection Hd as <-. unfold blen in Hb. simpl in Hb. lia.
  - assert (Hsub : substring 0 (Z.to_nat (MaxMsgSize + 1)) body = body); [|by rewrite Hsub].
    apply substring_all. unfold blen, MaxMsgSize in *. lia.
Qed.

(** Requests that do not carry a DNS message of legal size are refused with
    an HTTP error before anything else happens: no counter, cache entry or
    upstream query results, whatever the method. *)
Theorem doh_bad_requests_inert l clk r w :
  (r = Doh.OtherMethod ∨ r = Doh.PostBody None ∨ r = Doh.GetParam "" ∨
   (∃ p, r = Doh.GetParam p ∧ DecodeString p = None) ∨
   (∃ b, r = Doh.PostBody (Some b) ∧ (b = "" ∨ blen b > MaxMsgSize ∨ Unpack b = None))) →
  ∃ status, Doh.handleDNSQuery l clk r w = (Doh.HttpError status, w) ∧
    (status = Doh.StatusMethodNotAllowed ↔ r = Doh.OtherMethod).
Proof.
  unfold Doh.handleDNSQuery, Doh.request_body.
  intros [->|[->|[->|[(p & -> & Hp)|(b & -> & Hb)]]]].
  1-3: by eexists.
  - rewrite Hp. by destruct (String.eqb p ""); eexists.
  - exists Doh.StatusBadRequest. split; [|by split]. simpl.
    destruct (Z.leb_spec (blen b) MaxMsgSize) as [Hle|Hgt].
    + rewrite substring_all by (unfold blen, MaxMsgSize in *; lia).
      destruct (_ || _)%bool eqn:E; [done|]. destruct Hb as [->|[?|Hb]]; [done|lia|]. by rewrite Hb.
    + assert (Hl : blen (substring 0 (Z.to_nat (MaxMsgSize + 1)) b) = MaxMsgSize + 1).
      { unfold blen in *. rewrite substring_length; unfold MaxMsgSize in *; lia. }
      rewrite Hl. done.
Qed.

End Props.

(** ** Witnesses *)

Definition ex_listener : Listener := mkListener (Some ex_policy) true true ex_range (mkZone "" [] [] []).
Definition ex_ddr_query : Msg := Policy.ex_query "_dns.resolver.arpa." TypeSVCB.
Definition ex_plain_query : Msg := mkMsg (replyHdr 7 0) [mkQuestion "www.example.com." TypeA ClassINET] [] [] [].
Definition ex_m2_cache : Cache := Cache.New (mkOptions true 16 60 86400 0 0).

Abbreviation exServed t := (served (dl := exLib) (UR := chain_resolver (dl := exLib)) (VA := ex_validator) t).

Example ex_three_listeners :
  (λ t, mRcode (fst (exServed t ex_listener ex_clock ex_squery (ex_world (Some ex_m2_cache) (Some ex_up_answer, None) Secure))))
    <$> [DoT; DoQ; DoH] = [0; 0; 0].
Proof. vm_compute. done. Qed.

(** A DDR query is answered locally on every listener. *)
Lemma mode2_forwarded_only_if_allowed_witness :
  w_fwd (snd (exServed DoH ex_listener ex_clock ex_ddr_query (ex_world None (Some ex_up_answer, None) Secure))) = [].
Proof.
  destruct (mode2_forwarded_only_if_allowed (dl := exLib) (laws := wireLaws _ _) (UR := chain_resolver (dl := exLib))
    (VA := ex_validator) DoH ex_listener ex_clock ex_ddr_query (ex_world None (Some ex_up_answer, None) Secure))
    as [H|(_ & q & [= <-] & H & _)]; [exact H|vm_compute in H; discriminate H].
Defined.

Lemma mode2_listeners_agree_witness :
  fst (exServed DoT ex_listener ex_clock ex_ddr_query (ex_world None (None, Some "down") Secure)) =
  fst (exServed DoH ex_listener ex_clock ex_ddr_query (ex_world None (None, Some "down") Secure)).
Proof.
  apply (mode2_listeners_agree (dl := exLib) (laws := wireLaws _ _) (UR := chain_resolver (dl := exLib))
    (VA := ex_validator) DoT DoH ex_listener ex_clock ex_ddr_query (ex_world None (None, Some "down") Secure)).
Defined.

Lemma mode2_fail_closed_witness :
  fst (exServed DoQ ex_listener ex_clock ex_squery (ex_world None (Some ex_up_answer, None) Bogus)) =
  Up.ensureResponseEDNS (dl := exLib) (servfail ex_squery) ex_squery.
Proof.
  apply (mode2_fail_closed (dl := exLib) (laws := wireLaws _ _) (UR := chain_resolver (dl := exLib)) (VA := ex_validator)
    DoQ ex_listener ex_clock ex_squery (ex_world None (Some ex_up_answer, None) Bogus)
    (ex_world None (Some ex_up_answer, None) Bogus)); [reflexivity|].
  right. exists ex_up_answer. split; [vm_compute; reflexivity|]. split; reflexivity.
Defined.

Lemma mode2_ad_only_if_secure_witness :
  ∃ r, fst (exServed DoT ex_listener ex_clock ex_squery (ex_world None (Some ex_up_answer, None) Secure)) =
    Up.ensureResponseEDNS (dl := exLib) (set_AD true r) ex_squery.
Proof.
  destruct (mode2_ad_only_if_secure (dl := exLib) (laws := wireLaws _ _) (UR := chain_resolver (dl := exLib))
    (VA := ex_validator) DoT ex_listener ex_clock ex_squery (ex_world None (Some ex_up_answer, None) Secure)
    (ex_world None (Some ex_up_answer, None) Secure)) as (r & _ & _ & Hr);
    [reflexivity|reflexivity|vm_compute; reflexivity|]. exists r. exact Hr.
Defined.

Lemma mode2_replies_safe_witness :
  count_opts (fst (exServed DoH ex_listener ex_clock ex_plain_query (ex_world None (Some ex_up_answer, None) Secure))) = 0%nat.
Proof.
  destruct (mode2_replies_safe (dl := exLib) (laws := wireLaws _ _) (UR := chain_resolver (dl := exLib))
    (VA := ex_validator) DoH ex_listener ex_clock ex_plain_query (ex_world None (Some ex_up_answer, None) Secure)) as [H _].
  apply H. vm_compute. reflexivity.
Defined.

Lemma modes_agree_witness :
  let w := ex_world (Some ex_m2_cache) (Some ex_up_answer, None) Secure in
  fst (exServed DoH ex_listener ex_clock ex_squery (bump ex_listener TotalQueries w)) =
  ensureResponseEDNS (dl := exLib) (fst (tcp_response (dl := exLib) (UR := chain_resolver (dl := exLib))
    (VA := ex_validator) ex_listener ex_clock ex_squery w)) ex_squery.
Proof.
  intros w. apply (modes_agree (dl := exLib) (laws := wireLaws _ _) (UR := chain_resolver (dl := exLib))
    (VA := ex_validator) DoH ex_listener ex_clock ex_squery w ex_m2_cache); reflexivity.
Defined.

Lemma doh_get_is_post_witness :
  Doh.handleDNSQuery (dl := exLib) (UR := chain_resolver (dl := exLib)) (VA := ex_validator) ex_listener ex_clock
    (Doh.GetParam "cXVlcnk") (ex_world None (Some ex_up_answer, None) Secure) =
  Doh.handleDNSQuery (dl := exLib) (UR := chain_resolver (dl := exLib)) (VA := ex_validator) ex_listener ex_clock
    (Doh.PostBody (Some "query")) (ex_world None (Some ex_up_answer, None) Secure).
Proof.
  apply (doh_get_is_post (dl := exLib) (UR := chain_resolver (dl := exLib)) (VA := ex_validator)
    ex_listener ex_clock "query" (ex_world None (Some ex_up_answer, None) Secure)).
  vm_compute. split; [reflexivity|discriminate].
Defined.

Lemma doh_bad_requests_inert_witness :
  ∃ status, Doh.handleDNSQuery (dl := exLib) (UR := chain_resolver (dl := exLib)) (VA := ex_validator) ex_listener ex_clock
    (Doh.GetParam "cXVlcnk=") (ex_world None (Some ex_up_answer, None) Secure) =
    (Doh.HttpError status, ex_world None (Some ex_up_answer, None) Secure) ∧
    (status = Doh.StatusMethodNotAllowed ↔ Doh.GetParam "cXVlcnk=" = Doh.OtherMethod).
Proof.
  apply (doh_bad_requests_inert (dl := exLib) (UR := chain_resolver (dl := exLib)) (VA := ex_validator)).
  right. right. right. left. eexists. split; [reflexivity|vm_compute; reflexivity].
Defined.
