(* ===== verification/Service.v ===== *)
(** * The Mode 2 service (internal/upstream: upstream.go, doh.go, doq.go)

    Assembly of the encrypted listeners from the configuration: where the
    certificate comes from, which listeners [Start] brings up and what it hands
    to them, which TLS clients a DoH listener admits, and the accept loop of a
    DoQ connection with its classification of errors.  Whether a socket can be
    bound, a certificate loaded or a stream accepted is an input. *)

From S2P Require Import Prelude GoStrings GoNet GoTime Config Automation DnsMsg Cache Statistics Policy Interfaces Server UpstreamEdns Ddr Mode2.
From Stdlib Require Import Ascii String.
Open Scope string_scope.
Open Scope list_scope.
Open Scope Z_scope.

(** ** Configuration and state *)

Inductive svc_error :=
| ErrNotEnabled | ErrTLSManager (e : auto_error) | ErrSelfSigned | ErrNoCertificate | ErrLoadCertificate
| ErrManageDomains (e : manage_error) | ErrStartDoH | ErrStartDoT | ErrStartDoQ.

(** The certificate [generateSelfSignedCert] signs: validity and names. *)
Record CertTemplate := mkTemplate {
  ct_CommonName : string; ct_NotBefore : Z; ct_NotAfter : Z; ct_DNSNames : list string; ct_IPAddresses : list IP }.

Inductive TLSSource := Automated (m : Manager) | SelfSigned (cert : CertTemplate) | FromFiles (cert key : string).

Record Service := mkService {
  sv_cfg : UpstreamConfig; sv_advertiseHost : string; sv_policy : option Policy;
  sv_validator : bool; sv_stats : bool; sv_order : gmap string CacheEntry → list (string * CacheEntry);
  sv_tls : TLSSource;
  sv_doh : option Listener; sv_dot : option Listener; sv_doq : option Listener }.

(** What the environment lets happen. *)
Record Env := mkEnv {
  env_auto : AutoEnv;      (* the home directory, the storage and the certificate library *)
  env_now : Z;
  env_selfsigned : bool;   (* generating and loading the key pair succeeds *)
  env_loadpair : bool;     (* [tls.LoadX509KeyPair] succeeds *)
  env_bind : transport → string → bool (* the listener of a transport on an address can be created *) }.

(** ** Operations *)

(** The host list split into addresses, as 16 bytes, and names. *)
Definition generateSelfSignedCert (hosts : list string) (now : Z) : CertTemplate :=
  let hosts := match hosts with [] => ["127.0.0.1"; "localhost"] | _ => hosts end in
  mkTemplate (List.hd "" hosts) now (add_year now)
    (List.filter (λ h, match ParseIP h with Some _ => false | None => true end) hosts)
    (omap ParseIP hosts).

Definition setupTLS (env : Env) (cfg : UpstreamConfig) (ta : TLSAutomationConfig) (timestamp : string) : result TLSSource svc_error :=
  if u_TLSAutomation cfg then
    match NewManager (env_auto env) (Some (automation_of ta timestamp)) with
    | Ok m => Ok (Automated m)
    | Err e => Err (ErrTLSManager e)
    end
  else if u_TLSCertAutoGen cfg then
    let hosts := Up.autogenSANHosts (u_ListenDoH cfg) (u_ListenDoT cfg) (u_ListenDoQ cfg) (u_TLSCertHosts cfg) in
    if env_selfsigned env then Ok (SelfSigned (generateSelfSignedCert hosts (env_now env))) else Err ErrSelfSigned
  else if String.eqb (u_TLSCert cfg) "" || String.eqb (u_TLSKey cfg) "" then Err ErrNoCertificate
  else if env_loadpair env then Ok (FromFiles (u_TLSCert cfg) (u_TLSKey cfg)) else Err ErrLoadCertificate.

Definition New (env : Env) (cfg : UpstreamConfig) (ta : TLSAutomationConfig) (timestamp : string) (validator stats : bool)
    (order : gmap string CacheEntry → list (string * CacheEntry)) : result Service svc_error :=
  if negb (u_Enabled cfg) then Err ErrNotEnabled else
  let advertiseHost := match ta_AllowedDomains ta with d :: _ => d | [] => "" end in
  try tls ← setupTLS env cfg ta timestamp;
  Ok (mkService cfg advertiseHost None validator stats order tls None None None).

Definition SetPolicy (p : option Policy) (s : Service) : Service :=
  mkService (sv_cfg s) (sv_advertiseHost s) p (sv_validator s) (sv_stats s) (sv_order s) (sv_tls s)
            (sv_doh s) (sv_dot s) (sv_doq s).

Definition set_doh (l : Listener) (s : Service) : Service :=
  mkService (sv_cfg s) (sv_advertiseHost s) (sv_policy s) (sv_validator s) (sv_stats s) (sv_order s) (sv_tls s)
            (Some l) (sv_dot s) (sv_doq s).
Definition set_dot (l : Listener) (s : Service) : Service :=
  mkService (sv_cfg s) (sv_advertiseHost s) (sv_policy s) (sv_validator s) (sv_stats s) (sv_order s) (sv_tls s)
            (sv_doh s) (Some l) (sv_doq s).
Definition set_doq (l : Listener) (s : Service) : Service :=
  mkService (sv_cfg s) (sv_advertiseHost s) (sv_policy s) (sv_validator s) (sv_stats s) (sv_order s) (sv_tls s)
            (sv_doh s) (sv_dot s) (Some l).

(** One of the three blocks of [Start]: nothing for a transport that is not
    configured, an error when its listener cannot be created. *)
Definition start_one (env : Env) (t : transport) (addr : string) (e : svc_error) (l : Listener)
    (set : Listener → Service → Service) (s : Service) : option svc_error * Service :=
  if String.eqb addr "" then (None, s) else
  if env_bind env t addr then (None, set l s) else (Some e, s).

(** [Start] returns at the first error; listeners already started keep running. *)
Definition Start (env : Env) (s : Service) : option svc_error * Service :=
  match (match sv_tls s with Automated m => ManageDomains (env_auto env) m | _ => None end) with
  | Some e => (Some (ErrManageDomains e), s)
  | None =>
  let cfg := sv_cfg s in
  let ddr := newDDRZone (sv_advertiseHost s) (u_ListenDoH cfg) (u_ListenDoT cfg) (u_ListenDoQ cfg)
                        (u_DoH3 cfg) (u_AdvertiseIPs cfg) in
  let l := mkListener (sv_policy s) (sv_validator s) (sv_stats s) (sv_order s) ddr in
  match start_one env DoH (u_ListenDoH cfg) ErrStartDoH l set_doh s with
  | (Some e, s) => (Some e, s)
  | (None, s) =>
      match start_one env DoT (u_ListenDoT cfg) ErrStartDoT l set_dot s with
      | (Some e, s) => (Some e, s)
      | (None, s) => start_one env DoQ (u_ListenDoQ cfg) ErrStartDoQ l set_doq s
      end
  end
  end.

Definition BoundAddrs (s : Service) : string * string * string :=
  (match sv_doh s with Some _ => u_ListenDoH (sv_cfg s) | None => "" end,
   match sv_dot s with Some _ => u_ListenDoT (sv_cfg s) | None => "" end,
   match sv_doq s with Some _ => u_ListenDoQ (sv_cfg s) | None => "" end).

(** ** TLS admission of the DoH listener *)

(** [GetConfigForClient]: the handshake goes on only if the client offers h2. *)
Definition doh_admits (supportedProtos : list string) : bool :=
  existsb (String.eqb "h2") supportedProtos.

Definition portOf (addr : string) : string :=
  match SplitHostPort addr with Some (_, port) => port | None => addr end.

(** The value of the Alt-Svc header. *)
Definition altSvc (addr : string) : string :=
  "h3=" +:+ String "034" (":" +:+ portOf addr +:+ String "034" "; ma=86400").

(** ** The accept loop of a DoQ connection *)

(** What [errors.As], [errors.Is] and the net.Error interface tell about an error. *)
Record accept_err := mkAcceptErr {
  e_app : option Z;      (* a *quic.ApplicationError, with its code *)
  e_idle : bool;         (* a *quic.IdleTimeoutError *)
  e_closed : bool;       (* is net.ErrClosed *)
  e_deadline : bool;     (* is context.DeadlineExceeded *)
  e_timeout : bool       (* a net.Error whose Timeout() holds *) }.

Definition isBenignIdleConnErr (err : option accept_err) : bool :=
  match err with
  | None => false
  | Some e =>
      match e_app e with
      | Some code => code =? 0
      | None => if e_idle e || e_closed e then true else false
      end
  end.

Definition isNonCriticalNetErr (e : accept_err) : bool :=
  if e_idle e || e_closed e then false else
  if e_deadline e then true else e_timeout e.

(** Why the loop ended: the service stops, the connection is dead, or an accept
    error, logged at debug level when it is benign. *)
Inductive loop_end := EndCtx | EndDead | EndErr (benign : bool).

(** Round [k] of the loop: [acc k] is what [acceptStream] gives, [ctx k] and
    [dead k] whether the service context and the connection are over when it
    returns an error. The streams handled, in order, and the end, if any. *)
Fixpoint accept_loop {S : Type} (fuel k : nat) (acc : nat → result S accept_err) (ctx dead : nat → bool)
    : list S * option (nat * loop_end) :=
  match fuel with
  | O => ([], None)
  | Datatypes.S fuel' =>
      match acc k with
      | Ok stream => let '(ss, e) := accept_loop fuel' (Datatypes.S k) acc ctx dead in (stream :: ss, e)
      | Err err =>
          if ctx k then ([], Some (k, EndCtx)) else
          if dead k then ([], Some (k, EndDead)) else
          if isNonCriticalNetErr err then accept_loop fuel' (Datatypes.S k) acc ctx dead else
          ([], Some (k, EndErr (isBenignIdleConnErr (Some err))))
      end
  end.

(** ** What [Start] brings up *)

Definition shared_listener (s : Service) : Listener :=
  let cfg := sv_cfg s in
  mkListener (sv_policy s) (sv_validator s) (sv_stats s) (sv_order s)
    (newDDRZone (sv_advertiseHost s) (u_ListenDoH cfg) (u_ListenDoT cfg) (u_ListenDoQ cfg)
                (u_DoH3 cfg) (u_AdvertiseIPs cfg)).

Definition running (s : Service) (l : Listener) : Prop :=
  sv_doh s = Some l ∨ sv_dot s = Some l ∨ sv_doq s = Some l.

Definition fresh (s : Service) : Prop := sv_doh s = None ∧ sv_dot s = None ∧ sv_doq s = None.

(** A transport is not configured or its listener can be created. *)
Definition servable (env : Env) (ta : transport * string) : Prop := snd ta ≠ "" → env_bind env (fst ta) (snd ta) = true.

Lemma start_one_cases env t addr e l set s :
  (servable env (t, addr) ∧ start_one env t addr e l set s = (None, if String.eqb addr "" then s else set l s)) ∨
  (¬ servable env (t, addr) ∧ start_one env t addr e l set s = (Some e, s)).
Proof.
  unfold start_one, servable. cbn [fst snd]. destruct (String.eqb_spec addr "") as [->|Hne]; [by left|].
  destruct (env_bind env t addr) eqn:E; [by left|right]. split; [|done]. intros H. by specialize (H Hne).
Qed.

Lemma Forall3 {A} (P : A → Prop) x y z : Forall P [x; y; z] ↔ P x ∧ P y ∧ P z.
Proof. rewrite !Forall_cons_iff. intuition. Qed.

(** Starting the service: it succeeds exactly when the domains (if
    automated) and every configured address can be served; then exactly the
    configured transports run, and BoundAddrs reports their addresses.  Whether
    or not it succeeds, every running listener is given the same policy,
    validator and DDR zone of the whole service. *)
Theorem Start_spec env s :
  fresh s →
  let cfg := sv_cfg s in
  let '(err, s') := Start env s in
  (∀ l, running s' l → l = shared_listener s) ∧
  (err = None ↔ (∀ m, sv_tls s = Automated m → ManageDomains (env_auto env) m = None) ∧
     Forall (servable env) [(DoH, u_ListenDoH cfg); (DoT, u_ListenDoT cfg); (DoQ, u_ListenDoQ cfg)]) ∧
  (err = None → BoundAddrs s' = (u_ListenDoH cfg, u_ListenDoT cfg, u_ListenDoQ cfg)).
Proof.
  intros (H1 & H2 & H3). cbn zeta. unfold Start. fold (shared_listener s). generalize (shared_listener s). intros L.
  assert (Hrun : ∀ l, ¬ running s l) by (unfold running; intros l; rewrite H1, H2, H3; naive_solver).
  destruct (match sv_tls s with Automated m => _ | _ => _ end) as [e|] eqn:Em.
  { split_and!; [intros l Hl; by destruct (Hrun l)| |done]. split; [done|]. intros [Hd _].
    destruct (sv_tls s) as [m| |]; try discriminate Em. by rewrite (Hd m eq_refl) in Em. }
  assert (Hd : ∀ m, sv_tls s = Automated m → ManageDomains (env_auto env) m = None) by (intros m Hm; by rewrite Hm in Em). clear Em.
  destruct (start_one_cases env DoH (u_ListenDoH (sv_cfg s)) ErrStartDoH L set_doh s) as [[U1 ->]|[U1 ->]];
    [|split_and!; [intros l Hl; by destruct (Hrun l)|rewrite Forall3; naive_solver|done]].
  match goal with |- context [start_one env _ _ ErrStartDoT _ _ ?s1] =>
    destruct (start_one_cases env DoT (u_ListenDoT (sv_cfg s)) ErrStartDoT L set_dot s1) as [[U2 ->]|[U2 ->]] end;
  [match goal with |- context [start_one env _ _ ErrStartDoQ _ _ ?s2] =>
    destruct (start_one_cases env DoQ (u_ListenDoQ (sv_cfg s)) ErrStartDoQ L set_doq s2) as [[U3 ->]|[U3 ->]] end|];
    (split_and!; [|rewrite Forall3; first [split; [intros _; tauto|done] | split; [discriminate|tauto]]|]); unfold running, BoundAddrs;
    destruct (String.eqb_spec (u_ListenDoH (sv_cfg s)) "") as [E1|E1], (String.eqb_spec (u_ListenDoT (sv_cfg s)) "") as [E2|E2],
      (String.eqb_spec (u_ListenDoQ (sv_cfg s)) "") as [E3|E3]; simpl; rewrite ?H1, ?H2, ?H3;
    first [discriminate | intros _; congruence | intros l [Hl|[Hl|Hl]]; first [discriminate Hl|by injection Hl as <-]].
Qed.

(** ** The accept loop *)

Lemma accept_loop_end {S : Type} fuel k (acc : nat → result S accept_err) ctx dead ss j e :
  accept_loop fuel k acc ctx dead = (ss, Some (j, e)) → (k ≤ j < k + fuel)%nat.
Proof.
  revert k ss. induction fuel as [|fuel IH]; intros k ss; simpl; [done|]. destruct (acc k) as [stream|err].
  - destruct (accept_loop fuel (Datatypes.S k) acc ctx dead) as [ss' e'] eqn:E. intros [= _ ->]. apply IH in E. lia.
  - destruct (ctx k); [intros [= _ <- _]; lia|]. destruct (dead k); [intros [= _ <- _]; lia|].
    destruct (isNonCriticalNetErr err); [|intros [= _ <- _]; lia]. intros E%IH. lia.
Qed.

Lemma accept_loop_stops {S : Type} fuel k n (acc : nat → result S accept_err) ctx dead :
  (k ≤ n)%nat → (n - k < fuel)%nat →
  (∃ err, acc n = Err err ∧ (ctx n = true ∨ dead n = true ∨ e_idle err = true ∨ e_closed err = true)) →
  ∃ ss j e, accept_loop fuel k acc ctx dead = (ss, Some (j, e)) ∧ (j ≤ n)%nat ∧ (List.length ss ≤ n - k)%nat.
Proof.
  revert k. induction fuel as [|fuel IH]; intros k Hk Hf Hn; [lia|]. simpl.
  destruct (decide (k = n)) as [->|Hne].
  - destruct Hn as (err & -> & Hn). destruct (ctx n); [eexists _, _, _; split; [done|simpl; lia]|].
    destruct (dead n); [eexists _, _, _; split; [done|simpl; lia]|].
    unfold isNonCriticalNetErr. destruct Hn as [?|[?|[-> | ->]]]; try done; rewrite ?orb_true_r; simpl;
      (eexists _, _, _; split; [done|simpl; lia]).
  - destruct (IH (Datatypes.S k)) as (ss & j & e & E & Hj & Hl); [lia|lia|done|]. destruct (acc k) as [stream|err].
    + rewrite E. eexists _, _, _. split; [done|]. simpl. lia.
    + destruct (ctx k); [eexists _, _, _; split; [done|simpl; lia]|].
      destruct (dead k); [eexists _, _, _; split; [done|simpl; lia]|].
      destruct (isNonCriticalNetErr err); [|eexists _, _, _; split; [done|simpl; lia]].
      eexists _, _, _. split; [exact E|]. lia.
Qed.

(** The accept loop of a DoQ connection does not spin on a dead connection:
    it returns no later than the first round in which accepting a stream fails
    while the service or the connection is over, or with an error that says the
    connection is closed or timed out, and until then it handles at most one
    stream per round. *)
Theorem doq_accept_loop_stops {S : Type} n (acc : nat → result S accept_err) ctx dead err fuel :
  acc n = Err err → (ctx n = true ∨ dead n = true ∨ e_idle err = true ∨ e_closed err = true) →
  (n < fuel)%nat →
  ∃ ss j e, accept_loop fuel 0 acc ctx dead = (ss, Some (j, e)) ∧ (j ≤ n)%nat ∧ (List.length ss ≤ n)%nat.
Proof.
  intros Ha Hc Hf. destruct (accept_loop_stops fuel 0 n acc ctx dead) as (ss & j & e & E & Hj & Hl); [lia|lia|eauto|].
  exists ss, j, e. split_and!; [done|done|lia].
Qed.

(** Only a clean application close is benign, whatever else the error is. *)
Lemma benign_app_close e code :
  e_app e = Some code → isBenignIdleConnErr (Some e) = true ↔ code = 0.
Proof. intros H. unfold isBenignIdleConnErr. rewrite H. apply Z.eqb_eq. Qed.

(** ** The self-signed certificate *)

(** A client that dials [h] finds it in the certificate. *)
Definition cert_covers (c : CertTemplate) (h : string) : Prop :=
  match ParseIP h with Some ip => ip ∈ ct_IPAddresses c | None => h ∈ ct_DNSNames c end.

Lemma generate_covers hosts now h : h ∈ hosts → cert_covers (generateSelfSignedCert hosts now) h.
Proof.
  intros Hh. unfold cert_covers, generateSelfSignedCert. destruct hosts as [|h0 hosts]; [by apply elem_of_nil in Hh|]. cbn [ct_IPAddresses ct_DNSNames].
  destruct (ParseIP h) as [ip|] eqn:E; [apply list_elem_of_omap; eauto|]. apply elem_of_List_filter. by rewrite E.
Qed.

(** The self-signed certificate of a service is valid for the name that the
    self-test uses and for the host of every listen address that names one. *)
Theorem selfsigned_covers env cfg ta ts v st o s cert :
  New env cfg ta ts v st o = Ok s → sv_tls s = SelfSigned cert →
  cert_covers cert "localhost" ∧
  (∀ addr h port, addr ∈ [u_ListenDoH cfg; u_ListenDoT cfg; u_ListenDoQ cfg] → SplitHostPort addr = Some (h, port) →
     h ≠ "" → (∀ ip, ParseIP h = Some ip → IsUnspecified ip = false) → cert_covers cert h).
Proof.
  unfold New. destruct (negb (u_Enabled cfg)); [done|]. rewrite bind_ok. intros (tls & Ht & [= <-]) [= ->]. unfold setupTLS in Ht.
  destruct (u_TLSAutomation cfg); [by destruct (NewManager _ _)|].
  destruct (u_TLSCertAutoGen cfg); [|by destruct (_ || _), (env_loadpair env)].
  destruct (env_selfsigned env); [|done]. injection Ht as <-.
  destruct (autogenSANHosts_spec (u_ListenDoH cfg) (u_ListenDoT cfg) (u_ListenDoQ cfg) (u_TLSCertHosts cfg)) as (_ & _ & Hl & _ & Hc).
  split; [by apply generate_covers|]. intros addr h port Ha Hs Hne Hu. apply generate_covers, Hc; eauto.
Qed.

(** ** Witnesses *)

Definition ex_ucfg : UpstreamConfig :=
  mkUpstreamConfig true "0.0.0.0:443" "" "[::]:853" true [] [] false true "" "".
Definition ex_env : Env := mkEnv ex_auto_env 0 true true (λ _ _, true).
Definition ex_ta : TLSAutomationConfig := mkTLSAutomationConfig false ["dns.example"] "" "" false "" "" "" "" "" "".
Definition ex_service : Service :=
  mkService ex_ucfg "dns.example" (Some ex_policy) true true ex_range (Automated ex_manager) None None None.

Example ex_service_new :
  match New ex_env ex_ucfg ex_ta "second" true true ex_range with
  | Ok s => (sv_tls s, BoundAddrs s)
  | Err _ => (FromFiles "" "", ("", "", ""))
  end = (SelfSigned (mkTemplate "127.0.0.1" 0 (365 * day) ["localhost"] (omap ParseIP ["127.0.0.1"])), ("", "", "")).
Proof. vm_compute. done. Qed.

Lemma Start_spec_witness :
  let '(err, s') := Start ex_env ex_service in
  err = None → BoundAddrs s' = ("0.0.0.0:443", "", "[::]:853").
Proof.
  assert (H : fresh ex_service) by (split; [reflexivity|split; reflexivity]).
  pose proof (Start_spec ex_env ex_service H) as Hs. destruct (Start ex_env ex_service) as [err s'].
  destruct Hs as (_ & _ & Hs). exact Hs.
Defined.

Lemma doq_accept_loop_stops_witness :
  ∃ ss j e, accept_loop 1000 0
    (λ k, if (k =? 0)%nat then Ok "query" else Err (mkAcceptErr None true true false true))
    (λ _, false) (λ _, false) = (ss, Some (j, e)) ∧ (j ≤ 1)%nat ∧ (List.length ss ≤ 1)%nat.
Proof.
  apply (doq_accept_loop_stops 1 (λ k, if (k =? 0)%nat then Ok "query" else Err (mkAcceptErr None true true false true))
    (λ _, false) (λ _, false) (mkAcceptErr None true true false true) 1000); [reflexivity|right; right; left; reflexivity|lia].
Defined.

Lemma selfsigned_covers_witness :
  cert_covers (generateSelfSignedCert ["10.0.0.1"; "127.0.0.1"; "localhost"] 0) "10.0.0.1".
Proof.
  pose (cfg := mkUpstreamConfig true "10.0.0.1:443" "" "" true [] [] false true "" "").
  refine (proj2 (selfsigned_covers ex_env cfg ex_ta "second" true true ex_range
    (mkService cfg "dns.example" None true true ex_range (SelfSigned (generateSelfSignedCert ["10.0.0.1"; "127.0.0.1"; "localhost"] 0)) None None None)
    _ _ _) "10.0.0.1:443" "10.0.0.1" "443" _ _ _ _); try (vm_compute; reflexivity).
  - left.
  - discriminate.
  - intros ip. vm_compute. intros [= <-]. reflexivity.
Defined.
