(* ===== verification/Lifecycle.v ===== *)
(** * Sockets, accept loops and shutdown (server.go, dot.go, doq.go, doh.go, upstream.go)

    Binding and closing of the listeners, the loops that read datagrams and accept
    connections, and the TLS configurations of the encrypted listeners with the
    negotiation of the application protocol.  What a socket returns is an input, one
    element per call; memory that Go shares (the read buffer, the base TLS
    configuration) is an explicit store. *)

From S2P Require Import Prelude GoStrings GoNet Config DnsMsg Cache Statistics Policy Fallback Interfaces Server Ddr Mode2 Service.
From Stdlib Require Import Ascii String.
Open Scope string_scope.
Open Scope list_scope.
Open Scope Z_scope.

(** ** Mode 1 *)

Module Mode1.

(** A socket is nil, open or closed. *)
Inductive sock := Nil | Open | Closed.

Definition close_sock (s : sock) : sock := match s with Open => Closed | _ => s end.

Record Run := mkRun { r_cancelled : bool; r_udp : sock; r_tcp : sock }.

Definition idle : Run := mkRun false Nil Nil.

Inductive start_err := ENotEnabled | EResolveUDP | EListenUDP | EListenTCP.

Record BindEnv := mkBindEnv { be_resolve : string → bool; be_udp : string → bool; be_tcp : string → bool }.

Definition Start (env : BindEnv) (enabled : bool) (addr : string) (r : Run) : option start_err * Run :=
  let r := mkRun false (r_udp r) (r_tcp r) in
  if negb enabled then (Some ENotEnabled, r) else
  if negb (be_resolve env addr) then (Some EResolveUDP, r) else
  if negb (be_udp env addr) then (Some EListenUDP, r) else
  let r := mkRun (r_cancelled r) Open (r_tcp r) in
  if negb (be_tcp env addr) then (Some EListenTCP, mkRun (r_cancelled r) (close_sock (r_udp r)) (r_tcp r)) else
  (None, mkRun (r_cancelled r) (r_udp r) Open).

(** [Stop] cancels, then closes the sockets, then waits (for at most the timeout)
    and closes the chain. *)
Definition Stop (r : Run) (chain : FallbackResolver) : Run * option FallbackResolver :=
  (mkRun true (close_sock (r_udp r)) (close_sock (r_tcp r)), Close chain).

(** *** The UDP loop *)

(** The outcome of [ReadFromUDP], with the state of the context at the top of the
    round and when an error is looked at. *)
Inductive read := ReadTimeout | ReadErr | ReadPacket (data from : string).
Record uround := mkRound { ur_done : bool; ur_read : read; ur_err : bool }.

(** The memory: the read buffer at [buf], and one slice per packet.  A handler that
    was started holds the address of its slice. *)
Definition buf : nat := 0.
Definition udpBuf : Z := 65535.

Record UState := mkUS { us_heap : gmap nat string; us_next : nat; us_spawned : list (nat * string) }.

(** [ReadFromUDP] overwrites the front of the buffer; the packet is then copied. *)
Definition udp_packet (data from : string) (st : UState) : UState :=
  let d := take_bytes udpBuf data in
  let n := Z.of_nat (String.length d) in
  let old := default "" (us_heap st !! buf) in
  let heap := <[buf := d +:+ str_drop (String.length d) old]> (us_heap st) in
  let pkt := us_next st in
  let heap := <[pkt := take_bytes n (default "" (heap !! buf))]> heap in
  mkUS heap (S pkt) (us_spawned st ++ [(pkt, from)]).

(** The loop over the rounds observed; [true] when it returned. *)
Fixpoint serveUDP (rs : list uround) (st : UState) : UState * bool :=
  match rs with
  | [] => (st, false)
  | r :: rs' =>
      if ur_done r then (st, true) else
      match ur_read r with
      | ReadTimeout => serveUDP rs' st
      | ReadErr => if ur_err r then (st, true) else serveUDP rs' st
      | ReadPacket data from => serveUDP rs' (udp_packet data from st)
      end
  end.

Definition udp_start (zeros : string) : UState := mkUS {[buf := zeros]} 1 [].

(** What the started handlers see when they read their slices. *)
Definition seen (st : UState) : list (string * string) :=
  (λ p, (default "" (us_heap st !! fst p), snd p)) <$> us_spawned st.

(** *** The TCP loop *)

Inductive accept (C : Type) := AcceptErr | AcceptConn (c : C).
Arguments AcceptErr {C}.
Arguments AcceptConn {C} c.
Record tround (C : Type) := mkTRound { tr_done : bool; tr_accept : accept C; tr_err : bool }.
Arguments mkTRound {C}.
Arguments tr_done {C}.
Arguments tr_accept {C}.
Arguments tr_err {C}.

(** The connections handed to handlers, and whether the loop returned. *)
Fixpoint serveTCP {C} (rs : list (tround C)) : list C * bool :=
  match rs with
  | [] => ([], false)
  | r :: rs' =>
      if tr_done r then ([], true) else
      match tr_accept r with
      | AcceptErr => if tr_err r then ([], true) else serveTCP rs'
      | AcceptConn c => let '(cs, e) := serveTCP rs' in (c :: cs, e)
      end
  end.

(** *** Properties *)

(** The datagrams read before the loop returns. *)
Fixpoint received (rs : list uround) : list (string * string) :=
  match rs with
  | [] => []
  | r :: rs' =>
      if ur_done r then [] else
      match ur_read r with
      | ReadTimeout => received rs'
      | ReadErr => if ur_err r then [] else received rs'
      | ReadPacket data from => (take_bytes udpBuf data, from) :: received rs'
      end
  end.

(** Slices are fresh: above the buffer and below the next address. *)
Definition heap_ok (st : UState) : Prop :=
  (buf < us_next st)%nat ∧ Forall (λ p, (buf < fst p < us_next st)%nat) (us_spawned st).

Lemma udp_packet_ok data from st : heap_ok st →
  heap_ok (udp_packet data from st) ∧ seen (udp_packet data from st) = seen st ++ [(take_bytes udpBuf data, from)].
Proof.
  intros [Hn Hs]. unfold heap_ok, udp_packet, seen. cbn [us_next us_spawned us_heap]. split.
  - split; [lia|]. apply Forall_app. split; [|repeat constructor; cbn; lia].
    eapply Forall_impl; [exact Hs|]. cbn. lia.
  - rewrite fmap_app. cbn [fmap list_fmap fst snd]. rewrite lookup_insert_eq. cbn. rewrite lookup_insert_eq. cbn.
    rewrite take_bytes_app. f_equal. apply list_fmap_ext. intros i [a f] Hi. cbn.
    assert (Ha : (buf < a < us_next st)%nat) by (by apply (Forall_lookup_1 _ _ _ _ Hs Hi)).
    by rewrite !lookup_insert_ne by lia.
Qed.

Lemma serveUDP_seen rs st st' e : heap_ok st → serveUDP rs st = (st', e) →
  heap_ok st' ∧ seen st' = seen st ++ received rs.
Proof.
  revert st. induction rs as [|r rs IH]; intros st Hok; cbn [serveUDP received].
  { intros [= <- <-]. by rewrite app_nil_r. }
  destruct (ur_done r); [intros [= <- <-]; by rewrite app_nil_r|].
  destruct (ur_read r) as [| |data from]; [by apply IH| |].
  - destruct (ur_err r); [intros [= <- <-]; by rewrite app_nil_r|by apply IH].
  - destruct (udp_packet_ok data from st Hok) as [Hok' Hs]. intros [H1 H2]%IH; [|done].
    split; [done|]. by rewrite H2, Hs, <-app_assoc.
Qed.

(** C31: No datagram is lost or changed on its way to its handler: whatever the loop has
    read since, each handler finds in its slice exactly the datagram it was started
    for (cut at the size of the buffer), with the address of its sender. *)
Theorem udp_handlers_isolated zeros rs :
  seen (fst (serveUDP rs (udp_start zeros))) = received rs.
Proof.
  destruct (serveUDP rs (udp_start zeros)) as [st' e] eqn:E.
  destruct (serveUDP_seen rs (udp_start zeros) st' e) as [_ H]; [|done|cbn [fst]; by rewrite H].
  split; cbn; [unfold buf; lia|constructor].
Qed.

(** What a call in progress or a later one can observe of a server in state [r]: a
    closed socket returns an error, and the context is the server's. *)
Definition udp_observes (r : Run) (u : uround) : Prop :=
  (r_udp r = Closed → ur_read u = ReadErr) ∧ ur_err u = r_cancelled r.
Definition tcp_observes {C} (r : Run) (t : tround C) : Prop :=
  (r_tcp r = Closed → tr_accept t = AcceptErr) ∧ tr_err t = r_cancelled r.

(** C35: A server that was started holds both sockets, one that failed to start holds
    none.  After [Stop] both are closed and both loops return at the very next
    result of their call, with no handler started any more, even if the loop had
    looked at the context before it was cancelled. *)
Theorem start_stop_releases {C} env enabled addr err r chain r' chain' :
  Start env enabled addr idle = (err, r) → Stop r chain = (r', chain') →
  match err with
  | Some _ => r_udp r ≠ Open ∧ r_tcp r ≠ Open
  | None =>
      r_udp r = Open ∧ r_tcp r = Open ∧ r_udp r' = Closed ∧ r_tcp r' = Closed ∧
      (∀ u us st, udp_observes r' u → serveUDP (u :: us) st = (st, true)) ∧
      (∀ (t : tround C) ts, tcp_observes r' t → serveTCP (t :: ts) = ([], true))
  end.
Proof.
  unfold Start, Stop. cbn [r_cancelled r_udp r_tcp idle]. intros Hs [= <- <-].
  destruct enabled; cbn in Hs; [|by injection Hs as <- <-].
  destruct (be_resolve env addr); cbn in Hs; [|by injection Hs as <- <-].
  destruct (be_udp env addr); cbn in Hs; [|by injection Hs as <- <-].
  destruct (be_tcp env addr); cbn in Hs; injection Hs as <- <-; [|done].
  split_and!; try done.
  - intros u us st [Hr He]. cbn in *. destruct (ur_done u); [done|]. by rewrite Hr, He.
  - intros t ts [Hr He]. cbn in *. destruct (tr_done t); [done|]. by rewrite Hr, He.
Qed.

(** An accept error that persists keeps the TCP loop busy: it starts the next round
    at once, as often as the error is returned. *)
Lemma serveTCP_spins {C} n (rs : list (tround C)) :
  serveTCP (replicate n (mkTRound false AcceptErr false) ++ rs) = serveTCP rs.
Proof. induction n as [|n IH]; cbn; [done|exact IH]. Qed.

End Mode1.

(** ** The accept loops of Mode 2 *)

Module Mode2Serve.

Definition millisecond : Z := 1000000.

(** *** DoT: the accept goroutine *)

Inductive aevent (C : Type) := AConn (c : C) | AClosed | AError.
Arguments AConn {C} c.
Arguments AClosed {C}.
Arguments AError {C}.

Inductive aout (C : Type) := Deliver (c : C) | Sleep (d : Z) | Ended.
Arguments Deliver {C} c.
Arguments Sleep {C} d.
Arguments Ended {C}.

Definition next_backoff (b : Z) : Z :=
  if b =? 0 then 5 * millisecond else if b * 2 >? second then second else b * 2.

Fixpoint dot_accept {C} (backoff : Z) (evs : list (aevent C)) : list (aout C) :=
  match evs with
  | [] => []
  | AConn c :: evs' => Deliver c :: dot_accept 0 evs'
  | AClosed :: _ => [Ended]
  | AError :: evs' => let b := next_backoff backoff in Sleep b :: dot_accept b evs'
  end.

(** *** DoT: the loop of [Serve] over what its select picks *)

Inductive sel (C : Type) := SelCtx | SelConn (c : C) | SelErr (ctxErr : bool) | SelTick.
Arguments SelCtx {C}.
Arguments SelConn {C} c.
Arguments SelErr {C} ctxErr.
Arguments SelTick {C}.

(** The connections handled, and the result: [Some true] for nil, [Some false] for an error. *)
Fixpoint dot_serve {C} (ss : list (sel C)) : list C * option bool :=
  match ss with
  | [] => ([], None)
  | SelCtx :: _ => ([], Some true)
  | SelConn c :: ss' => let '(cs, e) := dot_serve ss' in (c :: cs, e)
  | SelErr ctxErr :: _ => ([], Some ctxErr)
  | SelTick :: ss' => dot_serve ss'
  end.

(** *** DoQ: [Serve] ends with the first error *)

Fixpoint doq_serve {C} (evs : list (result C bool)) : list C * option bool :=
  match evs with
  | [] => ([], None)
  | Ok conn :: evs' => let '(cs, e) := doq_serve evs' in (conn :: cs, e)
  | Err ctxErr :: _ => ([], Some ctxErr)
  end.

(** *** DoH: the sockets of [Serve] *)

Record dsockets := mkDSock { dk_tcp : Mode1.sock; dk_udp : Mode1.sock }.

Inductive doh_serve_error := ETCPListen | EResolveUDP3 | EUDPListen | EServer.

Record doh_env := mkDohEnv {
  de_tcp : bool; de_resolve : bool; de_udp : bool;
  de_error : bool (* a server reports an error before the context is cancelled *) }.

Definition doh_serve (env : doh_env) (enableH3 : bool) : option doh_serve_error * dsockets :=
  if negb (de_tcp env) then (Some ETCPListen, mkDSock Mode1.Nil Mode1.Nil) else
  let s := mkDSock Mode1.Open Mode1.Nil in
  if enableH3 && negb (de_resolve env) then (Some EResolveUDP3, mkDSock (Mode1.close_sock (dk_tcp s)) (dk_udp s)) else
  if enableH3 && negb (de_udp env) then (Some EUDPListen, mkDSock (Mode1.close_sock (dk_tcp s)) (dk_udp s)) else
  let s := if enableH3 then mkDSock (dk_tcp s) Mode1.Open else s in
  (* the error path closes the listeners, and so does the shutdown of the servers *)
  let s := mkDSock (Mode1.close_sock (dk_tcp s)) (Mode1.close_sock (dk_udp s)) in
  (if de_error env then Some EServer else None, s).

(** *** Properties *)

(** The connections accepted before the listener is closed. *)
Fixpoint accepted {C} (evs : list (aevent C)) : list C :=
  match evs with
  | [] | AClosed :: _ => []
  | AConn c :: evs' => c :: accepted evs'
  | AError :: evs' => accepted evs'
  end.

Fixpoint delivered {C} (os : list (aout C)) : list C :=
  match os with [] => [] | Deliver c :: os' => c :: delivered os' | _ :: os' => delivered os' end.

(** After [k] errors in a row the loop sleeps 5 ms, doubled each time, at most a second. *)
Fixpoint backoffs (k : nat) (b : Z) : list Z :=
  match k with O => [] | S k' => let b := next_backoff b in b :: backoffs k' b end.

Lemma next_backoff_range b : b = 0 ∨ 5 * millisecond ≤ b ≤ second → 5 * millisecond ≤ next_backoff b ≤ second.
Proof. unfold next_backoff, millisecond, second. cases_lia. Qed.

Lemma backoff_closed_form k b n : next_backoff b = Z.min (5 * millisecond * 2 ^ Z.of_nat n) second →
  ∀ i d, backoffs k b !! i = Some d → d = Z.min (5 * millisecond * 2 ^ Z.of_nat (n + i)) second.
Proof.
  revert b n. induction k as [|k IH]; intros b n Hb i d; [done|]. cbn [backoffs]. destruct i as [|i]; cbn.
  { intros [= <-]. by rewrite Nat.add_0_r. }
  replace (n + S i)%nat with (S n + i)%nat by lia. apply IH. rewrite Hb.
  rewrite Nat2Z.inj_succ, Z.pow_succ_r by lia. pose proof (Z.pow_pos_nonneg 2 (Z.of_nat n) ltac:(lia) ltac:(lia)).
  set (p := 2 ^ Z.of_nat n) in *. unfold next_backoff, millisecond, second. cases_lia.
Qed.

Lemma dot_accept_errors {C} k b (evs : list (aevent C)) :
  ∃ b', dot_accept b (replicate k AError ++ evs) = (Sleep <$> backoffs k b) ++ dot_accept b' evs.
Proof.
  revert b. induction k as [|k IH]; intros b; cbn; [by exists b|]. destruct (IH (next_backoff b)) as [b' ->]. by exists b'.
Qed.

Lemma dot_accept_range {C} (evs : list (aevent C)) b d : b = 0 ∨ 5 * millisecond ≤ b ≤ second →
  Sleep d ∈ dot_accept b evs → 5 * millisecond ≤ d ≤ second.
Proof.
  revert b. induction evs as [|[c| |] evs IH]; intros b Hb; cbn [dot_accept].
  - by intros ?%elem_of_nil.
  - intros [?|H]%elem_of_cons; [done|]. apply (IH 0); [by left|done].
  - by intros [?|?%elem_of_nil]%elem_of_cons.
  - pose proof (next_backoff_range b Hb). intros [[= ->]|H']%elem_of_cons; [done|]. apply (IH (next_backoff b)); [by right|done].
Qed.

Lemma dot_accept_delivered {C} (evs : list (aevent C)) b : delivered (dot_accept b evs) = accepted evs.
Proof. revert b. induction evs as [|[c| |] evs IH]; intros b; cbn; [done| |done|]; by rewrite ?IH. Qed.

Lemma dot_accept_ended {C} (evs : list (aevent C)) b : Ended ∈ dot_accept b evs ↔ AClosed ∈ evs.
Proof.
  revert b. induction evs as [|[c| |] evs IH]; intros b; cbn [dot_accept]; rewrite ?elem_of_nil, ?elem_of_cons, ?IH; [done|..]; naive_solver.
Qed.

(** The accept goroutine of DoT survives errors: it hands over every connection in
    order and ends only when the listener is closed; each failure is followed by a
    pause of 5 ms to 1 s, and the i-th of a run of failures after a success by
    5 ms times 2 to the i, up to the limit, so that it never spins. *)
Theorem dot_accept_backoff {C} (evs : list (aevent C)) :
  delivered (dot_accept 0 evs) = accepted evs ∧
  (Ended ∈ dot_accept 0 evs ↔ AClosed ∈ evs) ∧
  (∀ d, Sleep d ∈ dot_accept 0 evs → 5 * millisecond ≤ d ≤ second) ∧
  (∀ c k rest, evs = AConn c :: replicate k AError ++ rest → ∃ ds out,
     dot_accept 0 evs = Deliver c :: (Sleep <$> ds) ++ out ∧ List.length ds = k ∧
     ∀ i d, ds !! i = Some d → d = Z.min (5 * millisecond * 2 ^ Z.of_nat i) second).
Proof.
  split_and!; [apply dot_accept_delivered|apply dot_accept_ended|intros d; apply dot_accept_range; by left|].
  intros c k rest ->. cbn [dot_accept]. destruct (dot_accept_errors k 0 rest) as [b' ->].
  exists (backoffs k 0), (dot_accept b' rest). split_and!; [done| |].
  - generalize 0. clear. induction k as [|k IH]; intros b; cbn; [done|]. by rewrite IH.
  - intros i d. apply (backoff_closed_form k 0 0). done.
Qed.

(** A single accept error that is not the end of the service ends the DoQ listener. *)
Lemma doq_serve_ends {C} (cs : list C) (evs : list (result C bool)) :
  doq_serve ((Ok <$> cs) ++ Err false :: evs) = (cs, Some false).
Proof. induction cs as [|c cs IH]; cbn; [done|]. by rewrite IH. Qed.

(** However [Serve] ends, the DoH listener holds no socket. *)
Lemma doh_serve_releases env h3 :
  let '(_, s) := doh_serve env h3 in dk_tcp s ≠ Mode1.Open ∧ dk_udp s ≠ Mode1.Open.
Proof. destruct env as [[] [] [] []], h3; cbn; done. Qed.

End Mode2Serve.

(** ** TLS configurations of the encrypted listeners *)

Module Alpn.

(** A [*tls.Config] of a server: the protocols it offers, and the hook that may
    refuse a client by the protocols it offers. *)
Record ServerTLS := mkSTLS { s_NextProtos : list string; s_GetConfigForClient : option (list string → bool) }.

(** The configurations in memory. *)
Record Store := mkStore { st_confs : gmap nat ServerTLS; st_next : nat }.

Definition get (st : Store) (p : nat) : ServerTLS := default (mkSTLS [] None) (st_confs st !! p).
Definition put (st : Store) (p : nat) (c : ServerTLS) : Store := mkStore (<[p := c]> (st_confs st)) (st_next st).

(** [Clone]: a copy at a new address. *)
Definition Clone (st : Store) (p : nat) : nat * Store :=
  (st_next st, mkStore (<[st_next st := get st p]> (st_confs st)) (S (st_next st))).

Definition set_NextProtos (l : list string) (c : ServerTLS) : ServerTLS := mkSTLS l (s_GetConfigForClient c).

(** The part of the three constructors that prepares the TLS configuration.
    [configure] is what [http2.ConfigureServer] makes of the protocol list, unless
    it fails. *)
Definition dot_config (st : Store) (base : option nat) : option nat * Store :=
  match base with
  | None => (None, st)
  | Some b => let '(p, st) := Clone st b in (Some p, put st p (set_NextProtos [alpnDoT] (get st p)))
  end.

Definition doq_config (st : Store) (base : option nat) : option nat * Store :=
  match base with
  | None => (None, st)
  | Some b => let '(p, st) := Clone st b in (Some p, put st p (set_NextProtos ["doq"] (get st p)))
  end.

Definition doh_config (configure : list string → option (list string)) (st : Store) (base : nat) : option nat * Store :=
  let '(p, st) := Clone st base in
  match configure (s_NextProtos (get st p)) with
  | None => (None, st)
  | Some protos =>
      let st := put st p (set_NextProtos protos (get st p)) in
      let st := put st p (set_NextProtos ["h2"] (get st p)) in
      (Some p, put st p (mkSTLS (s_NextProtos (get st p)) (Some doh_admits)))
  end.

(** [negotiateALPN] of crypto/tls: [None] is a failed handshake, the empty string
    a connection without a protocol. *)
Definition negotiateALPN (server client : list string) (quic : bool) : option string :=
  if bool_decide (server = []) || bool_decide (client = [])
  then if quic && negb (bool_decide (server = [])) then None else Some ""
  else match List.find (λ s, existsb (String.eqb s) client) server with
       | Some s => Some s
       | None => if existsb (String.eqb "h2") server && existsb (String.eqb "http/1.1") client then Some "" else None
       end.

(** The protocol of a connection with a client that offers [client]. *)
Definition accept_tls (c : ServerTLS) (quic : bool) (client : list string) : option string :=
  match s_GetConfigForClient c with
  | Some admits => if admits client then negotiateALPN (s_NextProtos c) client quic else None
  | None => negotiateALPN (s_NextProtos c) client quic
  end.

(** *** Properties *)

Lemma get_put_eq st p c : get (put st p c) p = c.
Proof. unfold get, put. cbn. by rewrite lookup_insert_eq. Qed.

Lemma get_put_ne st p q c : p ≠ q → get (put st p c) q = get st q.
Proof. intros H. unfold get, put. cbn. by rewrite lookup_insert_ne. Qed.

Lemma Clone_get st b : get (snd (Clone st b)) (fst (Clone st b)) = get st b.
Proof. unfold get, Clone. cbn. by rewrite lookup_insert_eq. Qed.

Lemma Clone_get_ne st b q : q ≠ st_next st → get (snd (Clone st b)) q = get st q.
Proof. intros H. unfold get at 1, Clone. cbn. by rewrite lookup_insert_ne. Qed.

Lemma negotiate_one s client quic p : s ≠ "" →
  negotiateALPN [s] client quic = Some p ↔
  (s ∈ client ∧ p = s) ∨
  (p = "" ∧ (s ∉ client) ∧ ((client = [] ∧ quic = false) ∨ (s = "h2" ∧ "http/1.1" ∈ client))).
Proof.
  intros Hs. unfold negotiateALPN. cbn [List.find existsb]. rewrite orb_false_r.
  rewrite (bool_decide_eq_false_2 ([s] = [])) by done. cbn [negb andb orb]. rewrite andb_true_r.
  assert (Hin : ∀ x, existsb (String.eqb x) client = true ↔ x ∈ client).
  { intros x. rewrite existsb_elem. setoid_rewrite String.eqb_eq. naive_solver. }
  destruct (decide (client = [])) as [->|Ec].
  { rewrite bool_decide_eq_true_2 by done. rewrite !elem_of_nil. destruct quic; naive_solver. }
  rewrite (bool_decide_eq_false_2 (client = [])) by done.
  destruct (existsb (String.eqb s) client) eqn:Ex; [apply Hin in Ex; naive_solver|].
  apply not_true_iff_false in Ex. rewrite Hin in Ex. destruct (String.eqb_spec "h2" s) as [<-|Hne]; cbn [orb andb]; [|naive_solver].
  destruct (existsb (String.eqb "http/1.1") client) eqn:Eh; [apply Hin in Eh; naive_solver|].
  apply not_true_iff_false in Eh. rewrite Hin in Eh. naive_solver.
Qed.

(** What each constructor leaves in memory. *)
Lemma dot_config_get st b : let '(p, st') := dot_config st (Some b) in
  p = Some (st_next st) ∧ st_next st' = S (st_next st) ∧
  get st' (st_next st) = set_NextProtos [alpnDoT] (get st b) ∧ (∀ q, q ≠ st_next st → get st' q = get st q).
Proof.
  unfold dot_config. pose proof (Clone_get st b) as H1. pose proof (Clone_get_ne st b) as H2. cbn [Clone fst snd] in *.
  split_and!; [done|done|by rewrite get_put_eq, H1|]. intros q Hq. rewrite get_put_ne by done. by apply H2.
Qed.

Lemma doq_config_get st b : let '(p, st') := doq_config st (Some b) in
  p = Some (st_next st) ∧ st_next st' = S (st_next st) ∧
  get st' (st_next st) = set_NextProtos ["doq"] (get st b) ∧ (∀ q, q ≠ st_next st → get st' q = get st q).
Proof.
  unfold doq_config. pose proof (Clone_get st b) as H1. pose proof (Clone_get_ne st b) as H2. cbn [Clone fst snd] in *.
  split_and!; [done|done|by rewrite get_put_eq, H1|]. intros q Hq. rewrite get_put_ne by done. by apply H2.
Qed.

Lemma doh_config_get configure st b : let '(p, st') := doh_config configure st b in
  st_next st' = S (st_next st) ∧
  (∀ hp, p = Some hp → hp = st_next st ∧ get st' (st_next st) = mkSTLS ["h2"] (Some doh_admits)) ∧
  (∀ q, q ≠ st_next st → get st' q = get st q).
Proof.
  unfold doh_config. pose proof (Clone_get_ne st b) as H2. cbn [Clone fst snd] in *.
  destruct (configure _) as [protos|]; [|done].
  split_and!; [done|intros hp [= <-]; split; [done|by rewrite !get_put_eq]|]. intros q Hq. rewrite !get_put_ne by done. by apply H2.
Qed.

(** C32: Every encrypted listener speaks its own protocol and nothing else, whatever the
    configuration they are all made from offers: DoH completes a handshake exactly
    with clients that offer h2, and then speaks h2, so that no HTTP/1.1 request can
    ever reach it; DoQ exactly with clients that offer doq; DoT with clients that
    offer dot or nothing.  The shared configuration is not changed. *)
Theorem listeners_pin_alpn configure st base :
  (base < st_next st)%nat →
  let '(h, st1) := doh_config configure st base in
  let '(t, st2) := dot_config st1 (Some base) in
  let '(q, st3) := doq_config st2 (Some base) in
  get st3 base = get st base ∧
  (∀ hp client p, h = Some hp → accept_tls (get st3 hp) false client = Some p ↔ "h2" ∈ client ∧ p = "h2") ∧
  (s_GetConfigForClient (get st base) = None → ∀ tp qp client p, t = Some tp → q = Some qp →
     (accept_tls (get st3 tp) false client = Some p ↔ ("dot" ∈ client ∧ p = "dot") ∨ (client = [] ∧ p = "")) ∧
     (accept_tls (get st3 qp) true client = Some p ↔ "doq" ∈ client ∧ p = "doq")).
Proof.
  intros Hb. pose proof (doh_config_get configure st base) as Hh. destruct (doh_config configure st base) as [h st1].
  destruct Hh as (N1 & G1 & K1). pose proof (dot_config_get st1 base) as Ht. destruct (dot_config st1 (Some base)) as [t st2].
  destruct Ht as (-> & N2 & G2 & K2). pose proof (doq_config_get st2 base) as Hq. destruct (doq_config st2 (Some base)) as [q st3].
  destruct Hq as (-> & N3 & G3 & K3). rewrite N2, N1 in *.
  assert (Eb : get st3 base = get st base) by (rewrite K3, K2, K1 by lia; done).
  split_and!; [done| |].
  - intros hp client p [-> G]%G1. rewrite K3, K2, G by lia. unfold accept_tls. cbn [s_GetConfigForClient s_NextProtos].
    destruct (doh_admits client) eqn:Ea.
    + unfold doh_admits in Ea. apply existsb_elem in Ea as (x & Hx & <-%String.eqb_eq). rewrite negotiate_one by done. naive_solver.
    + split; [done|]. intros [Hin _]. unfold doh_admits in Ea. apply existsb_false with (x := "h2") in Ea; done.
  - intros Hnone tp qp client p [= <-] [= <-]. rewrite K3, G2, K1, G3, K2, K1 by lia. unfold accept_tls.
    cbn [s_GetConfigForClient s_NextProtos set_NextProtos]. rewrite Hnone. unfold alpnDoT. rewrite !negotiate_one by done.
    split; (split; [naive_solver|]); [|naive_solver]. intros [?|[-> ->]]; [by left|right]. rewrite elem_of_nil. naive_solver.
Qed.

(** Without the hook a client that offers only HTTP/1.1 would get a connection. *)
Example h2_alone_is_not_enough : accept_tls (mkSTLS ["h2"] None) false ["http/1.1"] = Some "".
Proof. vm_compute. done. Qed.

End Alpn.

(** ** Shutdown of the service and of the daemon *)

(** Which listeners of the service are open. *)
Record MRun := mkMRun { mr_cancelled : bool; mr_doh : Mode1.sock; mr_dot : Mode1.sock; mr_doq : Mode1.sock }.

Definition service_run (s : Service) : MRun :=
  let open o := match o with Some _ => Mode1.Open | None => Mode1.Nil end in
  mkMRun false (open (sv_doh s)) (open (sv_dot s)) (open (sv_doq s)).

(** [Stop]: cancel, wait for at most the timeout, close what was started. *)
Definition service_stop (r : MRun) : MRun :=
  mkMRun true (Mode1.close_sock (mr_doh r)) (Mode1.close_sock (mr_dot r)) (Mode1.close_sock (mr_doq r)).

(** The end of main: the service, then Mode 1 with the chain, then the chain
    again.  [None] is a panic. *)
Definition shutdown (svc : option MRun) (srv : option Mode1.Run) (chain : FallbackResolver)
    : option (option MRun * option Mode1.Run * FallbackResolver) :=
  let svc := service_stop <$> svc in
  match srv with
  | None => match Close chain with Some chain => Some (svc, None, chain) | None => None end
  | Some r =>
      let '(r, chain) := Mode1.Stop r chain in
      match chain with
      | None => None
      | Some chain => match Close chain with Some chain => Some (svc, Some r, chain) | None => None end
      end
  end.

(** Shutting down never panics although the chain is closed from two places; the
    health checks are stopped, the connections of the chain are closed once, and no
    listener of either mode is left open. *)
Theorem shutdown_safe svc srv chain :
  closeDone chain = false → stopClosed chain = false → resolverCloses chain = 0 →
  ∃ svc' srv' chain', shutdown svc srv chain = Some (svc', srv', chain') ∧
    stopClosed chain' = true ∧ tickerStopped chain' = hasTicker chain ∧ resolverCloses chain' = 1 ∧
    (∀ r, svc' = Some r → mr_cancelled r = true ∧ Mode1.Open ∉ [mr_doh r; mr_dot r; mr_doq r]) ∧
    (∀ r, srv' = Some r → Mode1.r_cancelled r = true ∧ Mode1.Open ∉ [Mode1.r_udp r; Mode1.r_tcp r]).
Proof.
  intros H1 H2 H3. unfold shutdown, Mode1.Stop, Close.
  assert (Hc : ∀ s, Mode1.close_sock s ≠ Mode1.Open) by (by intros []).
  destruct srv as [r|]; rewrite H1, H2; cbn -[Mode1.close_sock]; rewrite H3; eexists _, _, _; (split; [reflexivity|]); cbn -[Mode1.close_sock];
    (split_and!; [done|done|done| |]).
  all: intros x Hx; try discriminate Hx; try (injection Hx as <-); try (apply fmap_Some in Hx as (y & _ & ->)); cbn -[Mode1.close_sock];
    (split; [done|]); rewrite !elem_of_cons, elem_of_nil; naive_solver.
Qed.

(** ** Witnesses *)

Definition ex_bind : Mode1.BindEnv := Mode1.mkBindEnv (λ _, true) (λ _, true) (λ _, true).

(** Two datagrams read into the same buffer before either handler runs. *)
Example udp_two_packets :
  let rs := [Mode1.mkRound false (Mode1.ReadPacket "query A" "a") false; Mode1.mkRound false Mode1.ReadTimeout false;
             Mode1.mkRound false (Mode1.ReadPacket "AAAA" "b") false; Mode1.mkRound true Mode1.ReadErr true] in
  Mode1.seen (fst (Mode1.serveUDP rs (Mode1.udp_start "00000000"))) = [("query A", "a"); ("AAAA", "b")].
Proof. vm_compute. done. Qed.

Lemma start_stop_releases_witness :
  let r := Mode1.mkRun true Mode1.Closed Mode1.Closed in
  Mode1.serveTCP [Mode1.mkTRound false (Mode1.AcceptErr (C := nat)) true; Mode1.mkTRound false (Mode1.AcceptConn 1%nat) true] = ([], true).
Proof.
  cbn zeta.
  destruct (Mode1.start_stop_releases (C := nat) ex_bind true "127.0.0.1:5300" None (Mode1.mkRun false Mode1.Open Mode1.Open)
    Fallback.ex_started (Mode1.mkRun true Mode1.Closed Mode1.Closed) (Close Fallback.ex_started) eq_refl eq_refl) as (_ & _ & _ & _ & _ & H).
  apply H. split; reflexivity.
Defined.

Lemma listeners_pin_alpn_witness :
  let st := Alpn.mkStore {[0%nat := Alpn.mkSTLS ["h2"] None]} 1 in
  let '(h, st1) := Alpn.doh_config (λ l, Some (l ++ ["http/1.1"])) st 0 in
  let '(t, st2) := Alpn.dot_config st1 (Some 0%nat) in
  let '(q, st3) := Alpn.doq_config st2 (Some 0%nat) in
  Alpn.get st3 0 = Alpn.get st 0.
Proof.
  cbn zeta.
  pose proof (Alpn.listeners_pin_alpn (λ l, Some (l ++ ["http/1.1"])) (Alpn.mkStore {[0%nat := Alpn.mkSTLS ["h2"] None]} 1) 0 ltac:(cbn; lia)) as H.
  destruct (Alpn.doh_config _ _ _) as [h st1]. destruct (Alpn.dot_config st1 _) as [t st2]. destruct (Alpn.doq_config st2 _) as [q st3].
  exact (proj1 H).
Defined.

Lemma shutdown_safe_witness :
  ∃ svc' srv' chain', shutdown (Some (service_run ex_service)) (Some (Mode1.mkRun false Mode1.Open Mode1.Open)) Fallback.ex_started
    = Some (svc', srv', chain') ∧ stopClosed chain' = true ∧ resolverCloses chain' = 1.
Proof.
  destruct (shutdown_safe (Some (service_run ex_service)) (Some (Mode1.mkRun false Mode1.Open Mode1.Open)) Fallback.ex_started
    eq_refl eq_refl eq_refl) as (a & b & c & H1 & H2 & _ & H3 & _).
  exists a, b, c. split; [exact H1|]. split; [exact H2|exact H3].
Defined.
