(* ===== verification/Shutdown.v ===== *)
(** * Shutdown in time (main.go; Service.Stop, Server.Stop, DOTListener.Serve, DOHListener.Serve)

    What happens, and when, from the signal to the end of main: the waits for
    connections and handlers, their timeouts, and the closing of the chain, which two
    goroutines race for.  [Lifecycle.shutdown] is the same sequence without time. *)

From S2P Require Import Prelude GoContext.
Open Scope Z_scope.

(** ** Waiting *)

(** [sync.WaitGroup.Wait] for goroutines that are all running: it returns with the
    last of them. *)
Fixpoint par (l : list (T ())) : T () := λ t,
  match l with
  | [] => Some ((), t)
  | c :: l' =>
      match c t, par l' t with
      | Some (_, t1), Some (_, t2) => Some ((), Z.max t1 t2)
      | _, _ => None
      end
  end.

(** A [select] between the end of [c], which runs in its own goroutine, and a timer of
    [d]: whether [c] was first. *)
Definition first_within (d : Z) (c : T ()) : T bool := λ t,
  match c t with
  | Some (_, t') => if t' <? t + d then Some (true, t') else Some (false, t + d)
  | None => Some (false, t + d)
  end.

(** ** The listeners of Mode 2 after their context is cancelled *)

(** A DoT connection whose handler is in a read: the rest of its read deadline, and
    when its client makes it return. *)
Record DotConn := mkDotConn { dc_deadline : N; dc_client : event () }.

(** The handler looks at the context only before a read. *)
Definition dot_conn_end (c : DotConn) : T () :=
  doT t ← nowT; await (Some (t + Z.of_N (dc_deadline c))) (dc_client c) ().

Definition dot_serve_end (conns : list DotConn) : T () :=
  doT _ ← first_within (5 * second) (par (dot_conn_end <$> conns)); retT ().

(** [http.Server.Shutdown] with its five seconds; [requests] is when the last active
    request ends.  Closing the HTTP/3 server does not wait. *)
Definition doh_serve_end (requests : event ()) : T () :=
  doT t ← nowT; await (Some (t + 5 * second)) requests ().

(** Accepting with a cancelled context returns; the handlers are not waited for. *)
Definition doq_serve_end : T () := retT ().

(** The listeners that run. *)
Record Listeners := mkListeners { ls_doh : option (event ()); ls_dot : option (list DotConn); ls_doq : bool }.

Definition serve_ends (l : Listeners) : list (T ()) :=
  option_list (doh_serve_end <$> ls_doh l) ++ option_list (dot_serve_end <$> ls_dot l) ++ (if ls_doq l then [doq_serve_end] else []).

(** [Service.Stop]. *)
Definition service_stopT (timeout : Z) (l : Listeners) : T bool := first_within timeout (par (serve_ends l)).

(** ** Mode 1 and the chain *)

(** [FallbackResolver.Close] under its [sync.Once]: the connections are closed one
    after another, each after a wait for its mutex, which a dial may hold.  A second
    caller waits for the first; [since] is when another goroutine calls it. *)
Definition close_chainT (waits : list N) (since : option Z) : T () := λ t,
  let d := Z.of_N (foldr N.add 0%N waits) in
  match since with
  | Some s => if s <? t then Some ((), Z.max t (s + d)) else Some ((), t + d)
  | None => Some ((), t + d)
  end.

(** [Server.Stop] up to the closing of the chain: the read loops and the handlers. *)
Definition server_waitT (timeout : Z) (handlers : T ()) : T bool := first_within timeout handlers.

(** ** The end of main *)

(** Whether the service and Mode 1 stopped before their time was up, if they ran. *)
Record Report := mkReport { rp_service : option bool; rp_mode1 : option bool }.

(** The part of main after the signal.  The context of five seconds is made before the
    service is stopped, and is what Mode 1 has left. *)
Definition shutdownT (svc : option Listeners) (srv : option (T ())) (waits : list N) : T Report :=
  doT t0 ← nowT;
  let deadline := t0 + 5 * second in
  doT service ← match svc with
                | None => retT None
                | Some l => doT graceful ← service_stopT (5 * second) l; retT (Some graceful)
                end;
  doT t1 ← nowT;
  match srv with
  | None => doT _ ← close_chainT waits None; retT (mkReport service None)
  | Some handlers =>
      let stop : T () := doT _ ← server_waitT (5 * second) handlers; close_chainT waits None in
      doT done ← first_within (Z.max 0 (deadline - t1)) stop;
      if done : bool then retT (mkReport service (Some true)) else
      let since := snd <$> server_waitT (5 * second) handlers t1 in
      doT _ ← close_chainT waits since; retT (mkReport service (Some false))
  end.

(** ** The bound *)

Lemma first_within_ends d c t : ∃ b t', first_within d c t = Some (b, t') ∧ t' ≤ t + d.
Proof.
  unfold first_within. destruct (c t) as [[u t']|]; [|by eexists _, _; split; [|apply Z.le_refl]].
  destruct (Z.ltb_spec t' (t + d)); eexists _, _; (split; [reflexivity|lia]).
Qed.

Lemma service_phase_ends svc t : ∃ r t',
  match svc with None => retT None | Some l => doT graceful ← service_stopT (5 * second) l; retT (Some graceful) end t = Some (r, t') ∧
  t' ≤ t + 5 * second.
Proof.
  destruct svc as [l|]; [|eexists _, _; split; [reflexivity|unfold second; lia]].
  destruct (first_within_ends (5 * second) (par (serve_ends l)) t) as (b & t' & H & ?).
  exists (Some b), t'. unfold bindT, service_stopT. by rewrite H.
Qed.

Lemma close_chain_ends waits since t : ∃ t', close_chainT waits since t = Some ((), t') ∧ t ≤ t' ≤ t + Z.of_N (foldr N.add 0%N waits).
Proof.
  unfold close_chainT. destruct since as [s|]; [destruct (Z.ltb_spec s t)|]; eexists; (split; [reflexivity|lia]).
Qed.

(** C27: The process ends in time: whatever clients, handlers and upstreams do, main
    returns at most five seconds after the signal, plus the time it takes to close the
    connections of the chain.  The service and Mode 1 together get those five seconds. *)
Theorem shutdown_in_time svc srv waits t :
  ∃ r t', shutdownT svc srv waits t = Some (r, t') ∧ t' ≤ t + 5 * second + Z.of_N (foldr N.add 0%N waits).
Proof.
  unfold shutdownT. rewrite now_run. cbv zeta. destruct (service_phase_ends svc t) as (r1 & t1 & H1 & L1).
  rewrite (bind_run _ _ _ _ _ H1), now_run. destruct srv as [handlers|].
  - set (stop := doT _ ← server_waitT _ _; _). destruct (first_within_ends (Z.max 0 (t + 5 * second - t1)) stop t1) as (b & t2 & H2 & L2).
    rewrite (bind_run _ _ _ _ _ H2). destruct b; [eexists _, _; split; [reflexivity|unfold second in *; lia]|].
    destruct (close_chain_ends waits (snd <$> server_waitT (5 * second) handlers t1) t2) as (t3 & H3 & L3).
    rewrite (bind_run _ _ _ _ _ H3). eexists _, _. split; [reflexivity|unfold second in *; lia].
  - destruct (close_chain_ends waits None t1) as (t3 & H3 & L3). rewrite (bind_run _ _ _ _ _ H3).
    eexists _, _. split; [reflexivity|unfold second in *; lia].
Qed.

(** ** Who gets the time *)

(** Waiting for all takes at least as long as waiting for one. *)
Lemma par_ge l c t b : c ∈ l → (∀ u t', c t = Some (u, t') → b ≤ t') → ∀ u t', par l t = Some (u, t') → b ≤ t'.
Proof.
  intros Hin Hc. induction l as [|c' l IH]; [by apply elem_of_nil in Hin|]. intros u t'. cbn [par].
  apply elem_of_cons in Hin as [->|Hin].
  - destruct (c' t) as [[u1 t1]|] eqn:E1; [|done]. destruct (par l t) as [[u2 t2]|]; [|done]. intros [= _ <-].
    specialize (Hc _ _ eq_refl). lia.
  - destruct (c' t) as [[u1 t1]|]; [|done]. destruct (par l t) as [[u2 t2]|]; [|done]. intros [= _ <-].
    specialize (IH Hin _ _ eq_refl). lia.
Qed.

Lemma first_within_late d c t : (∀ u t', c t = Some (u, t') → t + d ≤ t') → first_within d c t = Some (false, t + d).
Proof.
  intros H. unfold first_within. destruct (c t) as [[u t']|] eqn:E; [|done]. specialize (H _ _ eq_refl).
  by rewrite (proj2 (Z.ltb_ge _ _)).
Qed.

(** A computation does not end before it starts. *)
Definition forward {A} (c : T A) : Prop := ∀ t a t', c t = Some (a, t') → t ≤ t'.

(** One idle DoT client starves Mode 1: if its connection neither speaks nor reaches
    its read deadline within five seconds, the service uses up the whole time, and Mode
    1 is abandoned at once, however fast it would have stopped. *)
Theorem idle_client_starves_mode1 l conns c handlers waits t : ls_dot l = Some conns → c ∈ conns → dc_client c = None →
  5 * second ≤ Z.of_N (dc_deadline c) → forward handlers →
  ∃ t', shutdownT (Some l) (Some handlers) waits t = Some (mkReport (Some false) (Some false), t').
Proof.
  intros Hl Hin Hc Hd Hf.
  assert (Hdot : dot_serve_end conns t = Some ((), t + 5 * second)).
  { unfold dot_serve_end, bindT. rewrite first_within_late; [done|]. intros u t'.
    apply (par_ge _ (dot_conn_end c)); [by apply list_elem_of_fmap_2|]. intros u1 t1. unfold dot_conn_end, bindT, nowT. rewrite Hc. cbn.
    intros [= _ <-]. lia. }
  assert (Hs : service_stopT (5 * second) l t = Some (false, t + 5 * second)).
  { unfold service_stopT. apply first_within_late. intros u t'. apply (par_ge _ (dot_serve_end conns)).
    - unfold serve_ends. rewrite Hl. cbn. rewrite elem_of_app. right. left.
    - rewrite Hdot. by intros ? ? [= _ <-]. }
  unfold shutdownT. rewrite now_run. cbv zeta.
  rewrite (bind_run _ _ _ (Some false) (t + 5 * second)) by (by rewrite (bind_run _ _ _ _ _ Hs)). rewrite now_run.
  replace (Z.max 0 (t + 5 * second - (t + 5 * second))) with 0 by lia.
  set (stop := doT _ ← server_waitT _ _; _).
  assert (Hlate : first_within 0 stop (t + 5 * second) = Some (false, t + 5 * second + 0)).
  { apply first_within_late. intros u t' H. unfold stop, bindT in H. destruct (server_waitT _ _ _) as [[b t1]|] eqn:E; [|done].
    assert (t + 5 * second ≤ t1).
    { unfold server_waitT, first_within in E. destruct (handlers _) as [[u2 t2]|] eqn:E2; [|injection E as _ <-; unfold second; lia].
      apply Hf in E2. destruct (_ <? _); injection E as _ <-; unfold second in *; lia. }
    destruct (close_chain_ends waits None t1) as (t3 & H3 & ?). rewrite H3 in H. injection H as _ <-. lia. }
  rewrite (bind_run _ _ _ _ _ Hlate).
  destruct (close_chain_ends waits (snd <$> server_waitT (5 * second) handlers (t + 5 * second)) (t + 5 * second + 0)) as (t3 & H3 & _).
  rewrite (bind_run _ _ _ _ _ H3). by eexists.
Qed.

(** Without clients that hold connections both modes stop at once. *)
Example quiet_shutdown :
  shutdownT (Some (mkListeners (Some (Some (0%N, ()))) (Some []) true)) (Some (delay 1000000)) [0%N; 0%N] 0
  = Some (mkReport (Some true) (Some true), 1000000).
Proof. vm_compute. done. Qed.

(** A query that waits for a silent upstream is cut off after five seconds. *)
Example stuck_handler : shutdownT None (Some (await None None ())) [0%N] 0 = Some (mkReport None (Some false), 5 * second).
Proof. vm_compute. done. Qed.

Lemma idle_client_starves_mode1_witness :
  ∃ t', shutdownT (Some (mkListeners None (Some [mkDotConn 30000000000 None]) false)) (Some (delay 1)) [] 0
    = Some (mkReport (Some false) (Some false), t').
Proof.
  apply (idle_client_starves_mode1 (mkListeners None (Some [mkDotConn 30000000000 None]) false) [mkDotConn 30000000000 None]
    (mkDotConn 30000000000 None)); [reflexivity|left|reflexivity|unfold second; cbn; lia|].
  intros t a t' [= _ <-]. lia.
Defined.
