(* ===== verification/Endpoints.v ===== *)
(** * Creating and closing the encrypted listeners (dot.go, doq.go, doh.go)

    The constructors with the sockets they bind and the TLS configurations they
    make, closing under [sync.Once], the HTTP front of DoH (routes and the Alt-Svc
    header), the deadline of [acceptStream], and the writes of a DoQ reply with what
    is logged when they fail. *)

From S2P Require Import Prelude GoStrings GoNet GoFilepath GoContext Logger Config DnsMsg Cache Statistics Policy Fallback Interfaces Server Ddr Mode2 Service Lifecycle.
From Stdlib Require Import Ascii String.
Open Scope string_scope.
Open Scope list_scope.
Open Scope Z_scope.

(** ** Constructors *)

(** What the system and the libraries let happen at an address. *)
Record NetEnv := mkNetEnv {
  ne_resolve : string → bool; ne_tcp : string → bool; ne_udp : string → bool;
  ne_quic : bool;                                       (* [quic.Listen] accepts the configuration *)
  ne_configure : list string → option (list string)     (* [http2.ConfigureServer] on the protocols *) }.

Inductive new_error := EResolveAddr | EListenSocket | EListenQUIC | EConfigureH2.

(** A listener: its TLS configuration in the store, the socket it owns, and whether
    it was closed. *)
Record Endpoint := mkEndpoint { ep_addr : string; ep_tls : option nat; ep_sock : Mode1.sock; ep_closed : bool }.

Definition NewDOTListener (env : NetEnv) (addr : string) (st : Alpn.Store) (base : option nat)
    : result Endpoint new_error * Mode1.sock * Alpn.Store :=
  if negb (ne_resolve env addr) then (Err EResolveAddr, Mode1.Nil, st) else
  if negb (ne_tcp env addr) then (Err EListenSocket, Mode1.Nil, st) else
  let '(p, st) := Alpn.dot_config st base in
  (Ok (mkEndpoint addr p Mode1.Open false), Mode1.Open, st).

(** The UDP socket is closed when QUIC does not start on it. *)
Definition NewDOQListener (env : NetEnv) (addr : string) (st : Alpn.Store) (base : option nat)
    : result Endpoint new_error * Mode1.sock * Alpn.Store :=
  if negb (ne_resolve env addr) then (Err EResolveAddr, Mode1.Nil, st) else
  if negb (ne_udp env addr) then (Err EListenSocket, Mode1.Nil, st) else
  let udpConn := Mode1.Open in
  let '(p, st) := Alpn.doq_config st base in
  if negb (ne_quic env) then (Err EListenQUIC, Mode1.close_sock udpConn, st) else
  (Ok (mkEndpoint addr p udpConn false), udpConn, st).

(** The DoH listener binds nothing before it serves.  The HTTP/3 server, if there is
    one, has the base configuration. *)
Record DohEndpoint := mkDohEndpoint { dh_addr : string; dh_h2tls : nat; dh_h3tls : option nat; dh_enableH3 : bool }.

Definition NewDOHListener (env : NetEnv) (addr : string) (st : Alpn.Store) (base : nat) (enableH3 : bool)
    : result DohEndpoint new_error * Alpn.Store :=
  match Alpn.doh_config (ne_configure env) st base with
  | (None, st) => (Err EConfigureH2, st)
  | (Some p, st) => (Ok (mkDohEndpoint addr p (if enableH3 then Some base else None) enableH3), st)
  end.

(** [Close] of the DoT and DoQ listeners, once. *)
Definition Close (e : Endpoint) : Endpoint :=
  if ep_closed e then e else mkEndpoint (ep_addr e) (ep_tls e) (Mode1.close_sock (ep_sock e)) true.

(** ** The HTTP front of DoH *)

Inductive Http := H2 | H3.

(** Go's [cleanPath], for a path without escapes. *)
Definition cleanPath (p : string) : string :=
  if String.eqb p "" then "/" else
  let p := if HasPrefix p "/" then p else "/" +:+ p in
  let np := Clean p in
  if HasSuffix p "/" && negb (String.eqb np "/") then np +:+ "/" else np.

Inductive route_result := RDnsQuery | RRedirect (path : string) | RNotFound.

(** The mux with the two patterns of [NewDOHListener]. *)
Definition route (path : string) : route_result :=
  let cleaned := cleanPath path in
  if negb (String.eqb cleaned path) then RRedirect cleaned else
  if String.eqb path "/dns-query" || HasPrefix path "/dns-query/" then RDnsQuery else RNotFound.

Inductive WebReply := WDns (r : Doh.HttpReply) | WRedirect (path : string) | WNotFound.

Section Front.
Context {dl : DnsLib} {W V : Type} {UR : UpstreamResolver W} {VA : Validator V}.

(** A request over one of the two transports: the Alt-Svc header of the response, if
    any, and the response. *)
Definition serveHTTP (d : DohEndpoint) (l : Listener) (clk : Clock) (proto : Http) (path : string) (r : Doh.Request) (w : World W V)
    : option string * WebReply * World W V :=
  let header := match proto with H2 => if dh_enableH3 d then Some (altSvc (dh_addr d)) else None | H3 => None end in
  match route path with
  | RDnsQuery => let '(reply, w) := Doh.handleDNSQuery l clk r w in (header, WDns reply, w)
  | RRedirect p => (header, WRedirect p, w)
  | RNotFound => (header, WNotFound, w)
  end.

End Front.

(** ** Accepting a stream *)

(** [acceptStream]: the next stream of the connection, within thirty seconds; the
    context is looked at first. *)
Definition acceptStream (ctx : Ctx) (stream : GoContext.event (result nat accept_err)) (late : accept_err) : T (result nat accept_err) :=
  doT t ← nowT;
  let stop := done_at (WithTimeout t (30 * second) ctx) in
  match stop with
  | Some s => if s <=? t then retT (Err late) else await stop stream (Err late)
  | None => await stop stream (Err late)
  end.

(** ** Writing a reply over QUIC *)

(** [logBenignIdle]: at debug level when a levelled logger is there. *)
Definition logBenignIdle (debugLog : option Logger) (plain : Logger) (now : Z) (msg : string) (d : Dest) : Dest :=
  match debugLog with
  | Some l => Logf LevelDebug l now msg d
  | None => Printf plain now "doq.go:121" msg d
  end.

(** A failed write and its line in the log. *)
Definition log_write_error (debugLog : option Logger) (plain : Logger) (now : Z) (site what : string) (e : accept_err) (text : string) (d : Dest) : Dest :=
  if isBenignIdleConnErr (Some e)
  then logBenignIdle debugLog plain now ("DoQ write " +:+ what +:+ ": client connection closed (idle/clean): " +:+ text) d
  else Printf plain now site ("DoQ write " +:+ what +:+ " error: " +:+ text) d.

(** The end of [handleStream]: the prefix, then the message; whether the reply was
    sent, and the log.  [w1] and [w2] are the errors of the two writes. *)
Definition write_reply (debugLog : option Logger) (plain : Logger) (now : Z) (w1 w2 : option (accept_err * string)) (d : Dest) : bool * Dest :=
  match w1 with
  | Some (e, text) => (false, log_write_error debugLog plain now "doq.go:430" "length" e text d)
  | None =>
      match w2 with
      | Some (e, text) => (false, log_write_error debugLog plain now "doq.go:438" "message" e text d)
      | None => (true, d)
      end
  end.

(** ** Addresses of Mode 1 *)

(** [UDPAddr] and [TCPAddr]: nil before the socket is there; a closed socket keeps its
    address. *)
Definition local_addr (s : Mode1.sock) (addr : string) : option string := match s with Mode1.Nil => None | _ => Some addr end.
Definition UDPAddr (r : Mode1.Run) (addr : string) : option string := local_addr (Mode1.r_udp r) addr.
Definition TCPAddr (r : Mode1.Run) (addr : string) : option string := local_addr (Mode1.r_tcp r) addr.

(** ** Properties *)

(** A constructor that fails leaves no socket open. *)
Lemma new_listener_no_leak env addr st base :
  (let '(r, s, _) := NewDOTListener env addr st base in is_ok r = false → s ≠ Mode1.Open) ∧
  (let '(r, s, _) := NewDOQListener env addr st base in is_ok r = false → s ≠ Mode1.Open).
Proof.
  unfold NewDOTListener, NewDOQListener. split; repeat case_match; simplify_eq; done.
Qed.

(** Closing twice is closing once, and a closed listener holds no socket. *)
Lemma listener_Close_once e : Close (Close e) = Close e ∧ (ep_sock e = Mode1.Open → ep_closed e = false → ep_sock (Close e) = Mode1.Closed).
Proof. unfold Close. destruct (ep_closed e) eqn:E; [rewrite E|]; split; try done. by intros ->. Qed.

Section FrontProps.
Context {dl : DnsLib} {W V : Type} {UR : UpstreamResolver W} {VA : Validator V}.

(** The only thing the DoH listener serves is DNS at its two paths: any other request is
    answered without touching the resolver, its counters or its cache; a request at one of
    them is handled as on the other transport, and differs at most in the Alt-Svc
    header, which only HTTP/2 responses carry and which names the port HTTP/3 is bound on. *)
Theorem doh_front (d : DohEndpoint) l clk proto path r (w : World W V) :
  let '(header, reply, w') := serveHTTP d l clk proto path r w in
  (reply = WDns (fst (Doh.handleDNSQuery l clk r w)) ∧ w' = snd (Doh.handleDNSQuery l clk r w) ∧ (path = "/dns-query" ∨ ∃ t, path = "/dns-query/" +:+ t) ∨
   w' = w ∧ (reply = WNotFound ∨ ∃ p, reply = WRedirect p ∧ p = cleanPath path ∧ p ≠ path)) ∧
  (header ≠ None ↔ proto = H2 ∧ dh_enableH3 d = true) ∧
  (∀ h, header = Some h → ∀ host port, SplitHostPort (dh_addr d) = Some (host, port) →
     h = "h3=" +:+ String "034" (":" +:+ port +:+ String "034" "; ma=86400")).
Proof.
  unfold serveHTTP.
  assert (Hh : ∀ header, header = match proto with H2 => if dh_enableH3 d then Some (altSvc (dh_addr d)) else None | H3 => None end →
    (header ≠ None ↔ proto = H2 ∧ dh_enableH3 d = true) ∧
    (∀ h, header = Some h → ∀ host port, SplitHostPort (dh_addr d) = Some (host, port) → h = "h3=" +:+ String "034" (":" +:+ port +:+ String "034" "; ma=86400"))).
  { intros header ->. destruct proto, (dh_enableH3 d); (split; [naive_solver|]); intros h [= <-] host port E. unfold altSvc, portOf. by rewrite E. }
  unfold route. destruct (String.eqb_spec (cleanPath path) path) as [Ec|Ec]; cbn [negb].
  2: { split; [right|by apply Hh]. split; [done|]. right. by eexists. }
  destruct (String.eqb_spec path "/dns-query") as [Ep|Ep]; cbn [orb].
  { destruct (Doh.handleDNSQuery l clk r w) as [reply w'] eqn:E. split; [left|by apply Hh]. naive_solver. }
  destruct (HasPrefix path "/dns-query/") eqn:Hp.
  - apply HasPrefix_spec in Hp as [t Ht]. destruct (Doh.handleDNSQuery l clk r w) as [reply w'] eqn:E. split; [left|by apply Hh].
    split_and!; [done|done|right; by exists t].
  - split; [right|by apply Hh]. split; [done|by left].
Qed.

End FrontProps.

(** Waiting for a stream ends after thirty seconds, and at once when the service stops. *)
Lemma acceptStream_ends ctx stream late t : ∃ r t', acceptStream ctx stream late t = Some (r, t') ∧ t' ≤ t + 30 * second ∧
  (∀ s, done_at ctx = Some s → s ≤ t → t' = t ∧ r = Err late).
Proof.
  unfold acceptStream. rewrite now_run. cbv zeta.
  assert (Hs : ∃ s, done_at (WithTimeout t (30 * second) ctx) = Some s ∧ s ≤ t + 30 * second ∧ (∀ s', done_at ctx = Some s' → s ≤ s')).
  { unfold done_at, WithTimeout. cbn [c_deadline c_cancel]. destruct (c_deadline ctx), (c_cancel ctx); cbn; eexists;
      (split; [reflexivity|]); (split; [lia|]); intros s' [=]; lia. }
  destruct Hs as (s & -> & Hs & Hc). destruct (Z.leb_spec s t) as [Hle|Hlt].
  - eexists _, _. split; [reflexivity|]. split; [unfold second; lia|done].
  - destruct (within_await (t + 30 * second) s stream (Err late) Hs t) as (r & t' & E & Ht). exists r, t'. split; [done|].
    split; [unfold second in *; lia|]. intros s' Hs' Hle. apply Hc in Hs'. lia.
Qed.

(** What a client that closed its connection leaves in the log: nothing, unless the level
    is debug; an unexpected error is always logged. *)
Lemma benign_write_silent l plain now e text d w2 : isBenignIdleConnErr (Some e) = true → Enabled l LevelDebug = false →
  write_reply (Some l) plain now (Some (e, text)) w2 d = (false, d).
Proof. intros He Hl. unfold write_reply, log_write_error, logBenignIdle, Logf. by rewrite He, Hl. Qed.

Example routes : route <$> ["/dns-query"; "/dns-query/"; "/dns-query/x"; "/dns-queryx"; "/"; ""; "/a/../dns-query"; "//dns-query"; "/dns-query/../admin"]
  = [RDnsQuery; RDnsQuery; RDnsQuery; RNotFound; RNotFound; RRedirect "/"; RRedirect "/dns-query"; RRedirect "/dns-query"; RRedirect "/admin"].
Proof. vm_compute. done. Qed.

(** A service that started reports its DoH address although the socket could not be bound:
    it is bound only when the listener serves. *)
Example doh_bind_failure_unreported :
  let env := mkNetEnv (λ _, true) (λ _, false) (λ _, false) true (λ l, Some (l ++ ["h2"; "http/1.1"])) in
  is_ok (fst (NewDOHListener env "0.0.0.0:443" (Alpn.mkStore {[0%nat := Alpn.mkSTLS [] None]} 1) 0 true)) = true ∧
  fst (Mode2Serve.doh_serve (Mode2Serve.mkDohEnv false true true false) true) = Some Mode2Serve.ETCPListen.
Proof. vm_compute. done. Qed.
