(* ===== verification/Transports.v ===== *)
(** * The outgoing transports (internal/resolver: pin.go, doq.go, dot.go, doh.go)

    The clients that carry a query to one encrypted upstream: DNS over QUIC with
    a pooled connection and a retry, DNS over TLS likewise, DNS over HTTPS, and the
    verification of a pinned key they share.

    The QUIC, TLS and HTTP libraries are inputs: which dials succeed, which streams
    open, which writes succeed and which bytes come back before the peer or the
    deadline ends the stream.  A connection is named by the number of the dial that
    made it, so that the identity checks of the code are equality of numbers.  Other
    goroutines use the pool between the critical sections of a call; what they do is
    the argument [env], as in [Fallback]. *)

From S2P Require Import Prelude GoStrings GoNet GoFmt Config DnsMsg Statistics Fallback Edns Interfaces Server.
From Stdlib Require Import Ascii String.
Open Scope string_scope.
Open Scope list_scope.
Open Scope Z_scope.

(** ** Key pinning (pin.go) *)

(** A certificate: its raw public key and the names it is valid for. *)
Record Cert := mkCert { c_spki : string; c_names : string → bool }.

Inductive verify_error := EPinNoCert | EPinHostname | EPinMismatch.

(** The fields of a [tls.Config] the clients set. *)
Record TLSConf := mkTLSConf {
  t_ServerName : string; t_NextProtos : list string; t_MinTLS13 : bool;
  t_InsecureSkipVerify : bool; t_VerifyConnection : option (list Cert → option verify_error) }.

Section Pin.
Context (sum256 : string → string).

Definition pin_verifier (host want : string) (peer : list Cert) : option verify_error :=
  match peer with
  | [] => Some EPinNoCert
  | leaf :: _ =>
      if negb (c_names leaf host) then Some EPinHostname
      else if negb (String.eqb (sum256 (c_spki leaf)) want) then Some EPinMismatch
      else None
  end.

Definition pinnedTLSConfig (conf : TLSConf) (host pin : string) : TLSConf :=
  if String.eqb pin "" then conf else
  match ParsePin pin with
  | Err _ => conf
  | Ok want => mkTLSConf (t_ServerName conf) (t_NextProtos conf) (t_MinTLS13 conf) true (Some (pin_verifier host want))
  end.

(** Whether crypto/tls completes a handshake with a peer: [ca_ok] is the
    verification of its chain and of the server name, which [InsecureSkipVerify]
    turns off; [VerifyConnection] is always called. *)
Definition handshake (ca_ok : string → list Cert → bool) (conf : TLSConf) (peer : list Cert) : bool :=
  (t_InsecureSkipVerify conf || ca_ok (t_ServerName conf) peer) &&
  match t_VerifyConnection conf with Some v => match v peer with None => true | Some _ => false end | None => true end.

End Pin.

(** Where a client connects: what its constructor is given. *)
Record Endpoint := mkEndpoint { e_host : string; e_dialHost : string; e_port : Z; e_pin : string; e_stats : bool }.

Definition dial_addr (ep : Endpoint) : string := JoinHostPort (e_dialHost ep) (Itoa (e_port ep)).

(** The TLS configurations the three clients dial with: TLS 1.3 only, the name of
    the upstream, the transport's protocol, and the pin. *)
Definition doq_tls (sum256 : string → string) (ep : Endpoint) : TLSConf :=
  pinnedTLSConfig sum256 (mkTLSConf (e_host ep) ["doq"] true false None) (e_host ep) (e_pin ep).
Definition dot_tls (sum256 : string → string) (ep : Endpoint) : TLSConf :=
  pinnedTLSConfig sum256 (mkTLSConf (e_host ep) [] true false None) (e_host ep) (e_pin ep).

(** ** Errors and frames *)

Inductive xerr :=
| EConnection | EReconnect | EStream | EPack | ETooBig (n : Z) | EWriteLength | EWriteMsg
| EReadLength | EInvalidLength (n : Z) | EReadMsg | EUnpack
| errDoQQuestionMismatch | errDoQTruncated | errDoQEmptyNoSOA
| EIDMismatch (got want : Z)
| ERequest | EStatus (code : Z) | EReadBody.

#[global] Instance xerr_eq_dec : EqDecision xerr.
Proof. solve_decision. Defined.

(** What a stream lets the client do: its two writes, and the bytes it can read
    before the peer ends the stream or the deadline passes. *)
Record Stream := mkStream { st_write_length : bool; st_write_msg : bool; st_bytes : string }.

(** The length prefix and the message of a reply, and the bytes after it. *)
Definition read_reply (input : string) : result (string * string) xerr :=
  match input with
  | String hi (String lo rest) =>
      let respLen := read_length (Z.of_nat (nat_of_ascii hi), Z.of_nat (nat_of_ascii lo)) in
      if (respLen =? 0) || (respLen >? 65535) then Err (EInvalidLength respLen) else
      match read_full (Z.to_nat respLen) rest with
      | Some (buf, rest) => Ok (buf, rest)
      | None => Err EReadMsg
      end
  | _ => Err EReadLength
  end.

(** One request and reply on a stream: write the framed query, read and decode a reply. *)
Definition stream_exchange {dl : DnsLib} (query : string) (s : Stream) : result (Msg * string) xerr :=
  if negb (st_write_length s) then Err EWriteLength else
  if negb (st_write_msg s) then Err EWriteMsg else
  try br ← read_reply (st_bytes s);
  match Unpack (fst br) with
  | None => Err EUnpack
  | Some resp => Ok (resp, snd br)
  end.

(** The encoded query, if a two-byte length can express it. *)
Definition pack_query {dl : DnsLib} (msg : Msg) : result string xerr :=
  match Pack msg with
  | None => Err EPack
  | Some b => if blen b >? MaxMsgSize then Err (ETooBig (blen b)) else Ok b
  end.

(** ** DNS over QUIC (doq.go) *)

Lemma cnt_inc_same c st : cnt (inc c st) c = wrap64 (cnt st c + 1).
Proof. apply cnt_store_eq. Qed.

Module Doq.

Record DoQResolver := mkDoQ {
  conn : option nat;      (* the pooled connection *)
  lastUsed : Z;
  dials : nat;            (* dials made so far: the name of the next connection *)
  closed : list nat       (* the connections rcvd has closed *) }.

Definition NewDoQResolver : DoQResolver := mkDoQ None 0 0 [].

Definition set_conn (c : option nat) (q : DoQResolver) : DoQResolver := mkDoQ c (lastUsed q) (dials q) (closed q).
Definition close_conn (c : nat) (q : DoQResolver) : DoQResolver := mkDoQ (conn q) (lastUsed q) (dials q) (c :: closed q).

(** [dial] as [getConnection] calls it: the pool is empty. *)
Definition dial_and_pool (dial_ok : nat → bool) (now : Z) (q : DoQResolver) : option nat * DoQResolver :=
  let n := dials q in
  if dial_ok n then (Some n, mkDoQ (Some n) now (S n) (closed q))
  else (None, mkDoQ None (lastUsed q) (S n) (closed q)).

Definition getConnection (dial_ok : nat → bool) (now now' : Z) (q : DoQResolver) : option nat * DoQResolver :=
  match conn q with
  | Some c =>
      if time_sub now (lastUsed q) <? 20 * second then (Some c, q)
      else dial_and_pool dial_ok now' (set_conn None (close_conn c q))
  | None => dial_and_pool dial_ok now' q
  end.

Definition closeConnection (q : DoQResolver) : DoQResolver :=
  match conn q with Some c => set_conn None (close_conn c q) | None => q end.

Definition recycleConn (bad : nat) (q : DoQResolver) : DoQResolver :=
  close_conn bad (if bool_decide (conn q = Some bad) then set_conn None q else q).

Definition touch (now : Z) (q : DoQResolver) : DoQResolver := mkDoQ (conn q) now (dials q) (closed q).

Definition Close (q : DoQResolver) : DoQResolver := closeConnection q.

(** *** Checks on a response *)

Definition hasSOA (ns : list RR) : bool :=
  existsb (λ rr, match rData rr with D_SOA _ => true | _ => false end) ns.

Definition doqResponseUsable (resp : Msg) : option xerr :=
  if mTruncated resp then Some errDoQTruncated else
  if (mRcode resp =? RcodeSuccess) && (List.length (mAnswer resp) =? 0)%nat && negb (hasSOA (mNs resp))
  then Some errDoQEmptyNoSOA else None.

Section Exchange.
Context {dl : DnsLib}.

Definition doqResponseMatchesQuery (query resp : Msg) : bool :=
  match mQuestion query, mQuestion resp with
  | [a], [b] =>
      (qType a =? qType b) && (qClass a =? qClass b) &&
      String.eqb (CanonicalName (qName a)) (CanonicalName (qName b))
  | _, _ => false
  end.

(** *** The exchange

    The network: the outcome of every dial, of opening the [slot]-th stream on a
    connection, and the stream of the [k]-th exchange. *)
Record Net := mkNet { dial_ok : nat → bool; open_ok : nat → nat → bool; stream_of : nat → nat → Stream }.

(** What the other goroutines do to the pool before the [i]-th critical section,
    and the clock: before and after the first dial of the exchange, before and after
    the second, and (fifth) when a reply was accepted. *)
Context (net : Net) (env : nat → DoQResolver → DoQResolver) (clk : nat → Z).

Record exchange := mkExchange {
  x_result : result Msg xerr;
  x_retryable : bool;
  x_pool : DoQResolver;
  x_sent : list nat   (* the connections the query was written to *) }.

(** A connection with an open stream for the [k]-th exchange: the pooled one, or
    after a failed open a second one. *)
Definition open_exchange (k : nat) (q : DoQResolver) : result nat xerr * DoQResolver :=
  match getConnection (dial_ok net) (clk (6 * k)) (clk (6 * k + 1)) (env (6 * k) q) with
  | (None, q) => (Err EConnection, q)
  | (Some c, q) =>
      if open_ok net (2 * k) c then (Ok c, q) else
      let q := recycleConn c (env (6 * k + 1) q) in
      match getConnection (dial_ok net) (clk (6 * k + 2)) (clk (6 * k + 3)) (env (6 * k + 2) q) with
      | (None, q) => (Err EReconnect, q)
      | (Some c, q) =>
          if open_ok net (2 * k + 1) c then (Ok c, q)
          else (Err EStream, recycleConn c (env (6 * k + 3) q))
      end
  end.

Definition exchangeOnce (k : nat) (msg : Msg) (q : DoQResolver) : exchange :=
  match open_exchange k q with
  | (Err e, q) => mkExchange (Err e) false q []
  | (Ok c, q) =>
      match pack_query msg with
      | Err e => mkExchange (Err e) false q []
      | Ok msgBytes =>
          let s := stream_of net k c in
          let sent := if st_write_length s then [c] else [] in
          let failed e := mkExchange (Err e) true (recycleConn c (env (6 * k + 4) q)) sent in
          match stream_exchange msgBytes s with
          | Err e => failed e
          | Ok (resp, _) =>
              if negb (doqResponseMatchesQuery msg resp) then failed errDoQQuestionMismatch else
              match doqResponseUsable resp with
              | Some e => failed e
              | None => mkExchange (Ok resp) false (touch (clk (6 * k + 5)) (env (6 * k + 5) q)) sent
              end
          end
      end
  end.

(** [logIdleRetry] counts when there are counters; [logMismatchRetry] only logs. *)
Definition logIdleRetry (hasStats : bool) (st : Stats) : Stats := if hasStats then inc DoQIdleRetries st else st.

Definition Resolve (hasStats : bool) (msg : Msg) (q : DoQResolver) (st : Stats)
    : result Msg xerr * DoQResolver * Stats * list nat :=
  let st := if hasStats then inc DoQQueries st else st in
  let x := exchangeOnce 0 msg q in
  match x_result x with
  | Ok resp => (Ok resp, x_pool x, st, x_sent x)
  | Err err =>
      if negb (x_retryable x) then (Err err, x_pool x, st, x_sent x) else
      let st := if bool_decide (err = errDoQQuestionMismatch) then st else logIdleRetry hasStats st in
      let y := exchangeOnce 1 msg (x_pool x) in
      (x_result y, x_pool y, st, x_sent x ++ x_sent y)
  end.

End Exchange.

(** *** Every use of the pool by any number of goroutines *)

Inductive pool_step (dial_ok : nat → bool) : DoQResolver → DoQResolver → Prop :=
| step_get q now now' r q' : getConnection dial_ok now now' q = (r, q') → pool_step dial_ok q q'
| step_recycle q bad : (bad < dials q)%nat → pool_step dial_ok q (recycleConn bad q)
| step_touch q now : pool_step dial_ok q (touch now q)
| step_close q : pool_step dial_ok q (Close q).

(** *** Soundness *)

(** The client's own check is the one of the chain. *)
Lemma matches_same {dl : DnsLib} query resp : doqResponseMatchesQuery query resp = responseMatchesQuery query resp.
Proof. done. Qed.

Lemma hasSOA_spec ns : hasSOA ns = true ↔ ∃ rr s, rr ∈ ns ∧ rData rr = D_SOA s.
Proof.
  unfold hasSOA. rewrite existsb_elem. split.
  - intros (rr & Hin & H). destruct (rData rr) eqn:E; try done. eauto.
  - intros (rr & s & Hin & E). exists rr. by rewrite E.
Qed.

(** What a usable response is: complete, and an answer, an error or a negative
    answer with its SOA. *)
Lemma doqResponseUsable_spec resp :
  doqResponseUsable resp = None ↔
  mTruncated resp = false ∧
  (mRcode resp ≠ RcodeSuccess ∨ mAnswer resp ≠ [] ∨ ∃ rr s, rr ∈ mNs resp ∧ rData rr = D_SOA s).
Proof.
  unfold doqResponseUsable. rewrite <-hasSOA_spec. destruct (mTruncated resp); [intuition congruence|].
  destruct (Z.eqb_spec (mRcode resp) RcodeSuccess); cbn [andb]; [|intuition congruence].
  destruct (mAnswer resp); cbn; [|intuition congruence]. destruct (hasSOA (mNs resp)); cbn; intuition congruence.
Qed.

Section Sound.
Context {dl : DnsLib} (net : Net) (env : nat → DoQResolver → DoQResolver) (clk : nat → Z).
Local Abbreviation exchangeOnce := (exchangeOnce net env clk).
Local Abbreviation Resolve := (Resolve net env clk).

Lemma exchangeOnce_sound k msg q r : x_result (exchangeOnce k msg q) = Ok r →
  doqResponseMatchesQuery msg r = true ∧ doqResponseUsable r = None ∧
  ∃ c b rest, x_sent (exchangeOnce k msg q) = [c] ∧ Pack msg = Some b ∧ blen b ≤ MaxMsgSize ∧
    stream_exchange b (stream_of net k c) = Ok (r, rest).
Proof.
  unfold Doq.exchangeOnce. destruct (open_exchange _ _ _ _ _) as [[c|e] q']; [|done].
  unfold pack_query. destruct (Pack msg) as [b|] eqn:Ep; [|done].
  destruct (blen b >? MaxMsgSize) eqn:Eb; [done|]. bool_prop.
  destruct (stream_exchange b _) as [[resp rest]|e] eqn:Es; [|done].
  destruct (doqResponseMatchesQuery msg resp) eqn:Em; cbn [negb]; [|done].
  destruct (doqResponseUsable resp) eqn:Eu; [done|]. cbn. intros [= <-]. split_and!; try done.
  exists c, b, rest. split_and!; try done.
  unfold stream_exchange in Es. by destruct (st_write_length _).
Qed.

Lemma exchangeOnce_sent k msg q : (List.length (x_sent (exchangeOnce k msg q)) ≤ 1)%nat.
Proof.
  unfold Doq.exchangeOnce. destruct (open_exchange _ _ _ _ _) as [[c|e] q']; [|cbn; lia].
  destruct (pack_query msg); [|cbn; lia]. destruct (stream_exchange _ _) as [[resp rest]|e];
    [destruct (negb _); [|destruct (doqResponseUsable resp)]|]; cbn; destruct (st_write_length _); cbn; lia.
Qed.

(** C15: Whatever the network and the other goroutines do, a response the DoQ client
    returns was decoded from the reply on a stream the query was written to,
    answers the question asked, is not truncated and is no empty success without
    an SOA; the query is written at most twice, and the counters record the query
    and at most one retry. *)
Theorem Resolve_usable hasStats msg q st res q' st' sent :
  Resolve hasStats msg q st = (res, q', st', sent) →
  (List.length sent ≤ 2)%nat ∧
  (cnt st' DoQQueries = if hasStats then wrap64 (cnt st DoQQueries + 1) else cnt st DoQQueries) ∧
  (cnt st' DoQIdleRetries = cnt st DoQIdleRetries ∨
   hasStats = true ∧ cnt st' DoQIdleRetries = wrap64 (cnt st DoQIdleRetries + 1)) ∧
  ∀ r, res = Ok r →
    responseMatchesQuery msg r = true ∧ mTruncated r = false ∧
    (mRcode r ≠ RcodeSuccess ∨ mAnswer r ≠ [] ∨ ∃ rr s, rr ∈ mNs r ∧ rData rr = D_SOA s) ∧
    ∃ k c b rest, c ∈ sent ∧ Pack msg = Some b ∧ blen b ≤ MaxMsgSize ∧
      stream_exchange b (stream_of net k c) = Ok (r, rest).
Proof.
  unfold Doq.Resolve. pose proof (exchangeOnce_sent 0 msg q) as H0.
  pose proof (exchangeOnce_sent 1 msg (x_pool (exchangeOnce 0 msg q))) as H1.
  assert (Hfin : ∀ k p x r (l : list nat), x = exchangeOnce k msg p → x_result x = Ok r → (∀ c, c ∈ x_sent x → c ∈ l) →
    responseMatchesQuery msg r = true ∧ mTruncated r = false ∧
    (mRcode r ≠ RcodeSuccess ∨ mAnswer r ≠ [] ∨ ∃ rr s, rr ∈ mNs r ∧ rData rr = D_SOA s) ∧
    ∃ k c b rest, c ∈ l ∧ Pack msg = Some b ∧ blen b ≤ MaxMsgSize ∧ stream_exchange b (stream_of net k c) = Ok (r, rest)).
  { intros k p x r l -> (Hm & [Ht Hu]%doqResponseUsable_spec & c & b & rest & Hs & Hp & Hb & Hx)%exchangeOnce_sound Hl.
    split_and!; try done. exists k, c, b, rest. split_and!; try done. apply Hl. rewrite Hs. by left. }
  assert (Hq : ∀ s, cnt (if hasStats then inc DoQQueries s else s) DoQQueries = if hasStats then wrap64 (cnt s DoQQueries + 1) else cnt s DoQQueries).
  { intros s. destruct hasStats; [apply cnt_inc_same|done]. }
  assert (Hi : ∀ s, cnt (if hasStats then inc DoQQueries s else s) DoQIdleRetries = cnt s DoQIdleRetries).
  { intros s. destruct hasStats; [by apply cnt_inc_ne|done]. }
  destruct (x_result (exchangeOnce 0 msg q)) as [r0|e] eqn:E0.
  { intros [= <- <- <- <-]. rewrite Hq, Hi. split_and!; [lia|done|by left|]. intros r [= <-]. eapply Hfin; eauto. }
  destruct (x_retryable _); cbn [negb]; [|intros [= <- <- <- <-]; rewrite Hq, Hi; split_and!; [lia|done|by left|done]].
  intros [= <- <- <- <-]. split_and!.
  - rewrite length_app. lia.
  - destruct (bool_decide _); [by rewrite Hq|]. unfold logIdleRetry. destruct hasStats; [|done].
    rewrite cnt_inc_ne by done. apply cnt_inc_same.
  - destruct (bool_decide _); [rewrite Hi; by left|]. unfold logIdleRetry. destruct hasStats; [right|by left].
    split; [done|]. rewrite cnt_inc_same. by rewrite cnt_inc_ne.
  - intros r Hr. eapply (Hfin 1%nat); [done|done|]. intros c Hc. apply elem_of_app. by right.
Qed.

(** An answer in terms of the exchange that gave it. *)
Lemma Resolve_answer hasStats msg q st r q' st' sent : Resolve hasStats msg q st = (Ok r, q', st', sent) →
  ∃ b, Pack msg = Some b ∧ mTruncated r = false ∧ doqResponseUsable r = None ∧
    ∃ k c rest, stream_exchange b (stream_of net k c) = Ok (r, rest).
Proof.
  assert (Hx : ∀ k p, x_result (exchangeOnce k msg p) = Ok r → ∃ b, Pack msg = Some b ∧ mTruncated r = false ∧
    doqResponseUsable r = None ∧ ∃ k c rest, stream_exchange b (stream_of net k c) = Ok (r, rest)).
  { intros k p (_ & Hu & c & b & rest & _ & Hp & _ & Hs)%exchangeOnce_sound. exists b. split_and!; [done| |done|by exists k, c, rest].
    by apply doqResponseUsable_spec in Hu as [? _]. }
  unfold Doq.Resolve. destruct (x_result (exchangeOnce 0 msg q)) as [r0|e] eqn:E0; [intros [= -> _ _ _]; by apply Hx in E0|].
  destruct (negb _); [done|]. intros [= H _ _ _]. by apply Hx in H.
Qed.

End Sound.

(** *** Recovery from a stale connection *)

(** A connection that answers [r] to the encoded query [b] on every stream. *)
Definition answers {dl : DnsLib} (net : Net) (c : nat) (b : string) (r : Msg) : Prop :=
  dial_ok net c = true ∧ (∀ slot, open_ok net slot c = true) ∧
  ∀ k, ∃ rest, stream_exchange b (stream_of net k c) = Ok (r, rest).

Section Recovery.
Context {dl : DnsLib} (net : Net) (clk : nat → Z).
Local Abbreviation alone := (λ (_ : nat) (q : DoQResolver), q).

Lemma getConnection_fresh now now' q : conn q = None → dial_ok net (dials q) = true →
  getConnection (dial_ok net) now now' q = (Some (dials q), mkDoQ (Some (dials q)) now' (S (dials q)) (closed q)).
Proof. unfold getConnection, dial_and_pool. by intros -> ->. Qed.

Lemma getConnection_cases now now' q :
  (∃ c, conn q = Some c ∧ getConnection (dial_ok net) now now' q = (Some c, q)) ∨
  ∃ cl, getConnection (dial_ok net) now now' q =
    (if dial_ok net (dials q) then (Some (dials q), mkDoQ (Some (dials q)) now' (S (dials q)) cl)
     else (None, mkDoQ None (lastUsed q) (S (dials q)) cl)).
Proof.
  unfold getConnection, dial_and_pool. destruct (conn q) as [c|]; [|right; by exists (closed q)].
  destruct (_ <? _); [left; by exists c|right]. by exists (c :: closed q).
Qed.

Lemma exchangeOnce_good k msg q c b r p :
  open_exchange net alone clk k q = (Ok c, p) → answers net c b r → pack_query msg = Ok b →
  doqResponseMatchesQuery msg r = true → doqResponseUsable r = None →
  x_result (exchangeOnce net alone clk k msg q) = Ok r.
Proof.
  intros Ho (_ & _ & Hs) Hp Hm Hu. unfold exchangeOnce. rewrite Ho, Hp. destruct (Hs k) as [rest ->].
  by rewrite Hm, Hu.
Qed.

(** The first exchange either ends on the connection the next dial makes, or on
    the pooled one, which is then dropped from the pool when it fails. *)
Lemma open_exchange_cases k q b r :
  answers net (dials q) b r →
  (∃ p, open_exchange net alone clk k q = (Ok (dials q), p)) ∨
  (∃ c, conn q = Some c ∧ open_exchange net alone clk k q = (Ok c, q)).
Proof.
  intros (Hd & Ho & _). unfold open_exchange.
  destruct (getConnection_cases (clk (6 * k)%nat) (clk (6 * k + 1)%nat) q) as [(c & Hc & ->)|[cl ->]].
  - destruct (open_ok net (2 * k) c); [by right; exists c|left].
    rewrite getConnection_fresh; cbn; rewrite ?Hc, ?bool_decide_eq_true_2 by done; cbn; [|done|done].
    rewrite Ho. by eexists.
  - left. rewrite Hd, Ho. by eexists.
Qed.

(** The retry masks a stale connection: whatever the pooled connection does with
    the query (it cannot open a stream, drops it, or answers with garbage), the
    client returns a usable answer to it as soon as the next connection it dials
    answers properly. *)
Theorem stale_connection_recovered hasStats msg q st b r :
  pack_query msg = Ok b → answers net (dials q) b r →
  doqResponseMatchesQuery msg r = true → doqResponseUsable r = None →
  ∃ r', fst (fst (fst (Resolve net alone clk hasStats msg q st))) = Ok r' ∧
    doqResponseMatchesQuery msg r' = true ∧ doqResponseUsable r' = None.
Proof.
  intros Hp Ha Hm Hu. unfold Resolve. destruct (x_result (exchangeOnce net alone clk 0 msg q)) as [r0|e] eqn:E0.
  { exists r0. split; [done|]. by apply exchangeOnce_sound in E0 as (? & ? & _). }
  destruct (open_exchange_cases 0 q b r Ha) as [[p Ho]|(c & Hc & Ho)].
  { by rewrite (exchangeOnce_good _ _ _ _ _ _ _ Ho Ha Hp Hm Hu) in E0. }
  assert (Hx : x_retryable (exchangeOnce net alone clk 0 msg q) = true ∧
    conn (x_pool (exchangeOnce net alone clk 0 msg q)) = None ∧
    dials (x_pool (exchangeOnce net alone clk 0 msg q)) = dials q).
  { unfold exchangeOnce in *. rewrite Ho, Hp in *.
    destruct (stream_exchange b _) as [[resp rest]|e']; [destruct (negb _); [|destruct (doqResponseUsable resp); [|done]]|];
      cbn; by rewrite Hc, bool_decide_eq_true_2. }
  destruct Hx as (-> & Hn & Hd). cbn [negb fst]. exists r. split; [|done].
  destruct Ha as (Hd1 & Ho1 & Hs1). eapply exchangeOnce_good; [|done..|done|done|done].
  unfold open_exchange. rewrite getConnection_fresh by (rewrite ?Hd; done). rewrite Hd, Ho1. done.
Qed.

End Recovery.

(** *** The pool under any interleaving *)

Definition pool_wf (q : DoQResolver) : Prop :=
  (∀ c, conn q = Some c → (c < dials q)%nat ∧ c ∉ closed q) ∧ ∀ c, c ∈ closed q → (c < dials q)%nat.

Lemma pool_wf_new : pool_wf NewDoQResolver.
Proof. split; [done|]. intros c H. by apply elem_of_nil in H. Qed.

Lemma getConnection_wf dial_ok now now' q r q' :
  pool_wf q → getConnection dial_ok now now' q = (r, q') →
  pool_wf q' ∧ (dials q ≤ dials q')%nat ∧ ∀ c, r = Some c → conn q' = Some c.
Proof.
  intros [H1 H2]. unfold getConnection, dial_and_pool. destruct (conn q) as [c|] eqn:Ec.
  - destruct (H1 c eq_refl) as [Hlt Hnc]. destruct (_ <? _).
    { intros [= <- <-]. split_and!; [split; [by rewrite Ec|done]|done|by intros c' [= <-]]. }
    cbn. destruct (dial_ok (dials q)); intros [= <- <-]; split_and!; cbn; try done; try lia; split; cbn; try done.
    + intros c' [= <-]. split; [lia|]. rewrite elem_of_cons. intros [?|H%H2]; lia.
    + intros c'. rewrite elem_of_cons. intros [?|H%H2]; lia.
    + intros c'. rewrite elem_of_cons. intros [?|H%H2]; lia.
  - destruct (dial_ok (dials q)); intros [= <- <-]; split_and!; cbn; try done; try lia; split; cbn; try done.
    + intros c' [= <-]. split; [lia|]. intros H%H2. lia.
    + intros c' H%H2. lia.
    + intros c' H%H2. lia.
Qed.

Lemma recycleConn_wf bad q : pool_wf q → (bad < dials q)%nat → pool_wf (recycleConn bad q).
Proof.
  intros [H1 H2] Hb. unfold recycleConn. case_bool_decide as E; split; cbn; try done.
  - intros c. rewrite elem_of_cons. intros [->|?]; auto.
  - intros c Hc. rewrite elem_of_cons. destruct (H1 c Hc). split; [done|]. intros [->|?]; done.
  - intros c. rewrite elem_of_cons. intros [->|?]; auto.
Qed.

Lemma recycleConn_dials bad q : dials (recycleConn bad q) = dials q.
Proof. unfold recycleConn. by case_bool_decide. Qed.

Lemma pool_step_wf d q q' : pool_step d q q' → pool_wf q → pool_wf q' ∧ (dials q ≤ dials q')%nat.
Proof.
  intros H Hwf. destruct H as [q now now' r q' Hg|q bad Hb|q now|q].
  - destruct (getConnection_wf _ _ _ _ _ _ Hwf Hg) as (? & ? & _). done.
  - split; [by apply recycleConn_wf|by rewrite recycleConn_dials].
  - done.
  - unfold Close, closeConnection. destruct (conn q) as [c|] eqn:E; [|done]. destruct Hwf as [H1 H2].
    destruct (H1 c E). split; [|done]. split; cbn; [done|]. intros c'. rewrite elem_of_cons. intros [->|?]; auto.
Qed.

Lemma pool_steps_wf d q q' : rtc (pool_step d) q q' → pool_wf q → pool_wf q' ∧ (dials q ≤ dials q')%nat.
Proof.
  induction 1 as [|q q1 q' Hs _ IH]; [done|]. intros Hwf. destruct (pool_step_wf _ _ _ Hs Hwf) as [? ?].
  destruct IH as [? ?]; [done|]. split; [done|lia].
Qed.

(** C9: In every interleaving of the uses of the pool, a connection handed out is not
    one rcvd has closed and is the pooled one, and dropping a bad connection
    neither unpools nor closes the connection another goroutine pooled meanwhile. *)
Theorem pool_never_hands_out_closed d q :
  rtc (pool_step d) NewDoQResolver q →
  (∀ now now' c q', getConnection d now now' q = (Some c, q') → conn q' = Some c ∧ c ∉ closed q') ∧
  (∀ bad c, conn q = Some c → c ≠ bad →
     conn (recycleConn bad q) = Some c ∧ c ∉ closed (recycleConn bad q)) ∧
  (∀ bad, conn (recycleConn bad q) ≠ Some bad).
Proof.
  intros [Hwf _]%pool_steps_wf; [|apply pool_wf_new]. split_and!.
  - intros now now' c q' Hg. destruct (getConnection_wf _ _ _ _ _ _ Hwf Hg) as ([H1 _] & _ & Hc).
    specialize (Hc c eq_refl). split; [done|]. by apply H1.
  - intros bad c Hc Hne. destruct (proj1 Hwf c Hc). unfold recycleConn. rewrite bool_decide_eq_false_2 by congruence.
    cbn. split; [done|]. rewrite elem_of_cons. by intros [->|?].
  - intros bad. unfold recycleConn. case_bool_decide as E; cbn; congruence.
Qed.

(** The client itself only takes such steps, so the theorem above covers it:
    [env] is any behaviour of its siblings that does the same. *)
Section Steps.
Context {dl : DnsLib} (net : Net) (env : nat → DoQResolver → DoQResolver) (clk : nat → Z).
Context (Henv : ∀ i q, rtc (pool_step (dial_ok net)) q (env i q)).
Local Abbreviation steps := (rtc (pool_step (dial_ok net))).

Lemma steps_env i q p : steps q p → steps q (env i p).
Proof. intros H. etrans; [exact H|apply Henv]. Qed.

Lemma steps_get now now' q p r p' : steps q p → getConnection (dial_ok net) now now' p = (r, p') → steps q p'.
Proof. intros H Hg. etrans; [exact H|]. apply rtc_once. by eapply step_get. Qed.

Lemma steps_recycle q p bad : pool_wf q → steps q p → (∃ p0, steps q p0 ∧ steps p0 p ∧ conn p0 = Some bad) →
  steps q (recycleConn bad p).
Proof.
  intros Hwf H (p0 & H0 & H1 & Hc). etrans; [exact H|]. apply rtc_once, step_recycle.
  destruct (pool_steps_wf _ _ _ H0 Hwf) as [[Hw _] _]. destruct (Hw _ Hc) as [Hlt _].
  destruct (pool_steps_wf _ _ _ H1 (proj1 (pool_steps_wf _ _ _ H0 Hwf))) as [_ ?]. lia.
Qed.

Lemma open_exchange_steps k q r p : pool_wf q → open_exchange net env clk k q = (r, p) →
  steps q p ∧ ∀ c, r = Ok c → ∃ p0, steps q p0 ∧ steps p0 p ∧ conn p0 = Some c.
Proof.
  intros Hwf. unfold open_exchange. destruct (getConnection _ _ _ (env _ q)) as [[c|] p1] eqn:G1.
  2: { intros [= <- <-]. split; [|done]. eapply steps_get; [|exact G1]. by apply steps_env. }
  assert (S1 : steps q p1) by (eapply steps_get; [|exact G1]; by apply steps_env).
  assert (C1 : conn p1 = Some c).
  { eapply getConnection_wf; [|exact G1|done]. eapply pool_steps_wf; [apply steps_env; done|done]. }
  destruct (open_ok net (2 * k) c). { intros [= <- <-]. split; [done|]. intros c' [= <-]. exists p1. done. }
  set (p2 := recycleConn c (env (6 * k + 1) p1)).
  assert (S2 : steps q p2).
  { apply steps_recycle; [done|by apply steps_env|]. exists p1. split_and!; [done|by apply steps_env|done]. }
  destruct (getConnection _ _ _ (env (6 * k + 2) p2)) as [[c2|] p3] eqn:G3.
  2: { intros [= <- <-]. split; [|done]. eapply steps_get; [|exact G3]. by apply steps_env. }
  assert (S3 : steps q p3) by (eapply steps_get; [|exact G3]; by apply steps_env).
  assert (C3 : conn p3 = Some c2).
  { eapply getConnection_wf; [|exact G3|done]. eapply pool_steps_wf; [apply steps_env; exact S2|done]. }
  destruct (open_ok net (2 * k + 1) c2); intros [= <- <-].
  - split; [done|]. intros c' [= <-]. by exists p3.
  - split; [|done]. apply steps_recycle; [done|by apply steps_env|].
    exists p3. split_and!; [done|by apply steps_env|done].
Qed.

Lemma exchangeOnce_steps k msg q : pool_wf q → steps q (x_pool (exchangeOnce net env clk k msg q)).
Proof.
  intros Hwf. unfold exchangeOnce. destruct (open_exchange net env clk k q) as [[c|e] p] eqn:E;
    destruct (open_exchange_steps _ _ _ _ Hwf E) as [S Hc]; [|done].
  destruct (pack_query msg); [|done].
  assert (Sr : steps q (recycleConn c (env (6 * k + 4) p))).
  { destruct (Hc c eq_refl) as (p0 & H0 & H1 & H2). apply steps_recycle; [done|by apply steps_env|].
    exists p0. split_and!; [done|by apply steps_env|done]. }
  destruct (stream_exchange _ _) as [[resp rest]|e]; [|done]. destruct (negb _); [done|].
  destruct (doqResponseUsable resp); [done|]. cbn. etrans; [apply steps_env; exact S|]. apply rtc_once, step_touch.
Qed.

Lemma Resolve_steps hasStats msg q st : pool_wf q →
  steps q (snd (fst (fst (Resolve net env clk hasStats msg q st)))).
Proof.
  intros Hwf. unfold Resolve. pose proof (exchangeOnce_steps 0 msg q Hwf) as H0.
  destruct (x_result _); [done|]. destruct (negb _); [done|]. cbn.
  etrans; [exact H0|]. apply exchangeOnce_steps. by eapply pool_steps_wf.
Qed.

End Steps.

End Doq.

(** ** DNS over TLS (dot.go) *)

Module DotClient.

Record TLSResolver := mkTLSR {
  conn : option nat;
  unread : string;        (* bytes that arrived on the pooled connection and were not read *)
  dials : nat;
  closed : list nat }.

Definition NewTLSResolver : TLSResolver := mkTLSR None "" 0 [].

Definition isPooled (t : TLSResolver) : bool := match conn t with Some _ => true | None => false end.

Definition getConnection (dial_ok : nat → bool) (t : TLSResolver) : option nat * TLSResolver :=
  match conn t with
  | Some c => (Some c, t)
  | None =>
      let n := dials t in
      if dial_ok n then (Some n, mkTLSR (Some n) "" (S n) (closed t))
      else (None, mkTLSR None (unread t) (S n) (closed t))
  end.

Definition closeConnection (t : TLSResolver) : TLSResolver :=
  match conn t with Some c => mkTLSR None "" (dials t) (c :: closed t) | None => t end.

Definition Close (t : TLSResolver) : TLSResolver := closeConnection t.

Section Ops.
Context {dl : DnsLib}.

(** The outcome of every dial, and what the connection does during the [k]-th
    exchange: its bytes come after those still unread. *)
Context (dial_ok : nat → bool) (io : nat → nat → Stream).

(** One exchange, under [exchMu]: no other exchange runs on the connection. *)
Definition resolveOnce (k : nat) (msg : Msg) (t : TLSResolver) : result Msg xerr * TLSResolver :=
  match getConnection dial_ok t with
  | (None, t) => (Err EConnection, t)
  | (Some c, t) =>
      match pack_query msg with
      | Err e => (Err e, t)
      | Ok msgBytes =>
          let s := io k c in
          match stream_exchange msgBytes (mkStream (st_write_length s) (st_write_msg s) (unread t +:+ st_bytes s)) with
          | Err e => (Err e, closeConnection t)
          | Ok (resp, rest) =>
              if negb (mId resp =? mId msg) then (Err (EIDMismatch (mId resp) (mId msg)), closeConnection t)
              else (Ok resp, mkTLSR (conn t) rest (dials t) (closed t))
          end
      end
  end.

(** [env] is what other queries do to the client before the test of [isPooled]
    and before each exchange. *)
Definition Resolve (env : nat → TLSResolver → TLSResolver) (hasStats : bool) (msg : Msg) (t : TLSResolver) (st : Stats)
    : result Msg xerr * TLSResolver * Stats :=
  let st := if hasStats then inc DoTQueries st else st in
  let t := env 0%nat t in
  let pooledBefore := isPooled t in
  let '(r, t) := resolveOnce 0 msg (env 1%nat t) in
  match r with
  | Err _ => if pooledBefore then let '(r, t) := resolveOnce 1 msg (env 2%nat t) in (r, t, st) else (r, t, st)
  | Ok _ => (r, t, st)
  end.

(** A reply is decoded from the bytes of the connection and has the query's ID. *)
Lemma resolveOnce_sound k msg t r t' : resolveOnce k msg t = (Ok r, t') →
  mId r = mId msg ∧ ∃ c b s rest, getConnection dial_ok t = (Some c, s) ∧ Pack msg = Some b ∧ blen b ≤ MaxMsgSize ∧
    stream_exchange b (mkStream (st_write_length (io k c)) (st_write_msg (io k c)) (unread s +:+ st_bytes (io k c))) = Ok (r, rest).
Proof.
  unfold resolveOnce. destruct (getConnection dial_ok t) as [[c|] s] eqn:G; [|done].
  unfold pack_query. destruct (Pack msg) as [b|] eqn:Ep; [|done]. destruct (blen b >? MaxMsgSize) eqn:Eb; [done|].
  destruct (stream_exchange _ _) as [[resp rest]|] eqn:Es; [|done]. destruct (mId resp =? mId msg) eqn:Ei; [|done].
  intros [= <- _]. bool_prop. split; [done|]. exists c, b, s, rest. done.
Qed.

(** A failed exchange of an encodable query leaves no pooled connection. *)
Lemma resolveOnce_drops k msg t e t' b : pack_query msg = Ok b → resolveOnce k msg t = (Err e, t') → conn t' = None.
Proof.
  intros Hp. unfold resolveOnce. rewrite Hp. unfold getConnection. destruct (conn t) as [c|] eqn:Ec.
  - destruct (stream_exchange _ _) as [[resp rest]|]; [destruct (negb _)|]; intros [= _ <-]; unfold closeConnection; by rewrite Ec.
  - destruct (dial_ok (dials t)); [|by intros [= _ <-]]. cbn.
    destruct (stream_exchange _ _) as [[resp rest]|]; [destruct (negb _)|]; by intros [= _ <-].
Qed.

(** A connection that answers [r] from its first byte. *)
Definition answers (c : nat) (b : string) (r : Msg) : Prop :=
  dial_ok c = true ∧ ∀ k, ∃ rest, stream_exchange b (io k c) = Ok (r, rest).

Lemma resolveOnce_fresh k msg t b r : conn t = None → pack_query msg = Ok b → answers (dials t) b r → mId r = mId msg →
  fst (resolveOnce k msg t) = Ok r.
Proof.
  intros Hc Hp [Hd Hs] Hi. unfold resolveOnce, getConnection. rewrite Hc, Hd, Hp. destruct (Hs k) as [rest E].
  cbn. destruct (io k (dials t)) as [wl wm bytes]. cbn in *. rewrite E. by rewrite Hi, Z.eqb_refl.
Qed.

Lemma resolveOnce_dials k msg t : conn t ≠ None → dials (snd (resolveOnce k msg t)) = dials t.
Proof.
  intros Hc. unfold resolveOnce, getConnection. destruct (conn t) as [c|] eqn:Ec; [|done].
  destruct (pack_query msg); [|done]. destruct (stream_exchange _ _) as [[resp rest]|]; [destruct (negb _)|]; cbn;
    unfold closeConnection; by rewrite ?Ec.
Qed.

(** A pooled connection that went stale, or still holds the reply to an earlier
    query, does not fail a query: whatever it does, the client returns a reply with
    the query's ID as soon as the next connection it dials gives one. *)
Theorem stale_tls_recovered hasStats msg t st b r :
  pack_query msg = Ok b → answers (dials t) b r → mId r = mId msg →
  ∃ r', fst (fst (Resolve (λ _ t, t) hasStats msg t st)) = Ok r' ∧ mId r' = mId msg.
Proof.
  intros Hp Ha Hi. unfold Resolve. cbv beta. destruct (resolveOnce 0 msg t) as [[r0|e] t1] eqn:E0.
  { exists r0. split; [done|]. by apply resolveOnce_sound in E0 as [? _]. }
  destruct (isPooled t) eqn:Epool.
  - assert (Hc : conn t ≠ None) by (unfold isPooled in Epool; by destruct (conn t)).
    pose proof (resolveOnce_drops _ _ _ _ _ _ Hp E0) as Hn. pose proof (resolveOnce_dials 0 msg t Hc) as Hd.
    rewrite E0 in Hd. cbn in Hd. rewrite <-Hd in Ha. pose proof (resolveOnce_fresh 1 msg t1 b r Hn Hp Ha Hi) as H1.
    destruct (resolveOnce 1 msg t1) as [r1 t2]. exists r. cbn in *. by subst.
  - exfalso. assert (Hc : conn t = None) by (unfold isPooled in Epool; by destruct (conn t)).
    pose proof (resolveOnce_fresh 0 msg t b r Hc Hp Ha Hi) as H1. by rewrite E0 in H1.
Qed.

(** Whatever the other queries do, a reply has the query's ID. *)
Lemma dot_Resolve_answer env hasStats msg t st r t' st' :
  Resolve env hasStats msg t st = (Ok r, t', st') → (∃ b, Pack msg = Some b) ∧ mId r = mId msg.
Proof.
  unfold Resolve. destruct (resolveOnce 0 msg _) as [[r0|e] t1] eqn:E0.
  - intros [= <- _ _]. apply resolveOnce_sound in E0 as (? & c & b & s & rest & _ & ? & _). eauto.
  - destruct (isPooled _); [|done]. destruct (resolveOnce 1 msg _) as [r1 t2] eqn:E1. intros [= -> _ _].
    apply resolveOnce_sound in E1 as (? & c & b & s & rest & _ & ? & _). eauto.
Qed.

End Ops.

End DotClient.

(** ** DNS over HTTPS (doh.go) *)

Module DohClient.

Record HTTPResolver := mkHTTPR {
  endpoint : string; dialAddr : string; useH3 : bool; tlsConf : TLSConf }.

Inductive doh_error := EInvalidEndpoint | ENotHTTPS (scheme : string) | EConfigureH2.

(** [url_parse] gives the scheme of a URL that parses; [h2_ok] is the outcome of
    [http2.ConfigureTransport]. *)
Definition NewHTTPResolver (sum256 : string → string) (url_parse : string → option string) (h2_ok : bool)
    (ep : Endpoint) (path : string) (useH3 : bool) : result HTTPResolver doh_error :=
  let endpoint := "https://" +:+ e_host ep +:+ ":" +:+ Itoa (e_port ep) +:+ path in
  match url_parse endpoint with
  | None => Err EInvalidEndpoint
  | Some scheme =>
      if negb (String.eqb scheme "https") then Err (ENotHTTPS scheme) else
      let conf := pinnedTLSConfig sum256 (mkTLSConf (e_host ep) [] true false None) (e_host ep) (e_pin ep) in
      let dialAddr := dial_addr ep in
      if useH3 then Ok (mkHTTPR endpoint dialAddr true conf) else
      if h2_ok then
        Ok (mkHTTPR endpoint dialAddr false
              (mkTLSConf (t_ServerName conf) ["h2"] (t_MinTLS13 conf) (t_InsecureSkipVerify conf) (t_VerifyConnection conf)))
      else Err EConfigureH2
  end.

(** What [client.Do] returns: a status and a body, which may end in a read error. *)
Record HTTPResponse := mkHTTPResp { h_status : Z; h_body : string; h_broken : bool }.

(** [io.ReadAll(io.LimitReader(body, MaxMsgSize))]: an error after the limit is not seen. *)
Definition read_limited (r : HTTPResponse) : option string :=
  if blen (h_body r) >=? MaxMsgSize then Some (take_bytes MaxMsgSize (h_body r))
  else if h_broken r then None else Some (h_body r).

(** [request] tells whether the request can be built. *)
Definition Resolve {dl : DnsLib} (request : bool) (do_request : string → option HTTPResponse)
    (hasStats : bool) (msg : Msg) (st : Stats) : result Msg xerr * Stats :=
  let st := if hasStats then inc DoHQueries st else st in
  match Pack msg with
  | None => (Err EPack, st)
  | Some body =>
      if negb request then (Err ERequest, st) else
      match do_request body with
      | None => (Err ERequest, st)
      | Some resp =>
          if negb (h_status resp =? 200) then (Err (EStatus (h_status resp)), st) else
          match read_limited resp with
          | None => (Err EReadBody, st)
          | Some buf => match Unpack buf with None => (Err EUnpack, st) | Some m => (Ok m, st) end
          end
      end
  end.

End DohClient.

(** ** What a pin enforces *)

Lemma pinned_accepts sum256 ca_ok conf host pin peer :
  t_InsecureSkipVerify conf = false → t_VerifyConnection conf = None → t_ServerName conf = host →
  handshake ca_ok (pinnedTLSConfig sum256 conf host pin) peer = true ↔
  match ParsePin pin with
  | Ok want => ∃ leaf rest, peer = leaf :: rest ∧ c_names leaf host = true ∧ sum256 (c_spki leaf) = want
  | Err _ => ca_ok host peer = true
  end.
Proof.
  intros Hi Hv Hs. assert (Hca : handshake ca_ok conf peer = true ↔ ca_ok host peer = true).
  { unfold handshake. rewrite Hi, Hv, Hs, andb_true_r. done. }
  unfold pinnedTLSConfig. destruct (String.eqb_spec pin "") as [->|Hne]; [exact Hca|].
  destruct (ParsePin pin) as [want|e] eqn:Ep; [|exact Hca].
  unfold handshake. cbn. unfold pin_verifier. destruct peer as [|leaf rest].
  { split; [done|]. by intros (? & ? & ? & _). }
  destruct (c_names leaf host) eqn:En; cbn.
  2: { split; [done|]. intros (? & ? & [= <- <-] & ? & _). congruence. }
  destruct (String.eqb_spec (sum256 (c_spki leaf)) want) as [<-|Hd]; cbn.
  - split; [|done]. intros _. by exists leaf, rest.
  - split; [done|]. by intros (? & ? & [= <- <-] & _ & ?).
Qed.

(** With a well-formed pin the handshake is accepted exactly when the peer's first
    certificate is valid for the host and its key has the pinned digest, whatever
    the certificate authorities say; with no pin, or one that does not parse, it is
    exactly the verification against the authorities. *)
Theorem pinned_handshake sum256 ca_ok conf host pin peer :
  t_InsecureSkipVerify conf = false → t_VerifyConnection conf = None → t_ServerName conf = host →
  handshake ca_ok (pinnedTLSConfig sum256 conf host pin) peer = true ↔
  match ParsePin pin with
  | Ok want => ∃ leaf rest, peer = leaf :: rest ∧ c_names leaf host = true ∧ sum256 (c_spki leaf) = want
  | Err _ => ca_ok host peer = true
  end.
Proof. apply pinned_accepts. Qed.

(** A reader that stops at the limit returns at most that many bytes. *)
Lemma read_limited_bound r buf : DohClient.read_limited r = Some buf → blen buf ≤ MaxMsgSize.
Proof.
  unfold DohClient.read_limited. destruct (_ >=? _) eqn:E.
  - intros [= <-]. apply (take_bytes_length MaxMsgSize).
  - bool_prop. destruct (DohClient.h_broken r); [done|]. intros [= <-]. lia.
Qed.

Lemma doh_client_answer {dl : DnsLib} request do_request hasStats msg st r st' :
  DohClient.Resolve request do_request hasStats msg st = (Ok r, st') →
  ∃ body resp buf, Pack msg = Some body ∧ do_request body = Some resp ∧ DohClient.h_status resp = 200 ∧
    DohClient.read_limited resp = Some buf ∧ blen buf ≤ MaxMsgSize ∧ Unpack buf = Some r.
Proof.
  unfold DohClient.Resolve. destruct (Pack msg) as [body|]; [|done]. destruct (negb request); [done|].
  destruct (do_request body) as [resp|] eqn:Er; [|done].
  destruct (Z.eqb_spec (DohClient.h_status resp) 200); cbn [negb]; [|done].
  destruct (DohClient.read_limited resp) as [buf|] eqn:Eb; [|done]. destruct (Unpack buf) as [m|] eqn:Eu; [|done].
  intros [= <- _]. exists body, resp, buf. split_and!; try done. by eapply read_limited_bound.
Qed.

(** The DoH client posts the encoded query once and returns a message only when the
    server answered 200 and at most 65535 bytes of its body decode to it. *)
Theorem doh_client_sound {dl : DnsLib} request do_request hasStats msg st r st' :
  DohClient.Resolve request do_request hasStats msg st = (Ok r, st') →
  ∃ body resp buf, Pack msg = Some body ∧ do_request body = Some resp ∧ DohClient.h_status resp = 200 ∧
    DohClient.read_limited resp = Some buf ∧ blen buf ≤ MaxMsgSize ∧ Unpack buf = Some r.
Proof. apply doh_client_answer. Qed.

(** ** Examples *)

(** A query "q" and three replies: "r" the answer, "s" an empty success without
    SOA, anything else does not decode. *)
Definition ex_tquery : Msg := ex_squery.
Definition ex_tempty : Msg := mkMsg (replyHdr 7 RcodeSuccess) (mQuestion ex_squery) [] [] [].
Definition ex_twire : DnsLib :=
  wireLib (λ _, Some "q") (λ s, if String.eqb s "r" then Some ex_up_answer
                                else if String.eqb s "s" then Some ex_tempty else None).

Definition good_stream : Stream := mkStream true true (frame "r").
Definition dead_stream : Stream := mkStream true true "".
Definition empty_stream : Stream := mkStream true true (frame "s").

(** Connection 1 answers; the pooled connection 0 accepts the query and says nothing. *)
Definition ex_net : Doq.Net := Doq.mkNet (λ _, true) (λ _ _, true) (λ _ c, if (c =? 0)%nat then dead_stream else good_stream).
Definition ex_pool : Doq.DoQResolver := Doq.mkDoQ (Some 0%nat) 0 1 [].
Definition ex_tclk : nat → Z := λ _, second.
Definition ex_alone : nat → Doq.DoQResolver → Doq.DoQResolver := λ _ q, q.

Example doq_retry :
  let '(r, q, st, sent) := Doq.Resolve (dl := ex_twire) ex_net ex_alone ex_tclk true ex_tquery ex_pool (Statistics.New 0) in
  (is_ok r, Doq.conn q, Doq.closed q, sent, cnt st DoQQueries, cnt st DoQIdleRetries)
  = (true, Some 1%nat, [0%nat], [0; 1]%nat, 1, 1).
Proof. vm_compute. done. Qed.

(** A sibling may pool another stale connection between the two exchanges: the
    retry then runs on it and fails, although a fresh dial would have answered. *)
Example doq_retry_not_fresh :
  let net := Doq.mkNet (λ _, true) (λ _ _, true) (λ _ c, if (c <=? 1)%nat then dead_stream else good_stream) in
  let sibling := λ i q, if (i =? 6)%nat then Doq.mkDoQ (Some 1%nat) second 2 (Doq.closed q) else q in
  let '(r, q, st, sent) := Doq.Resolve (dl := ex_twire) net sibling ex_tclk true ex_tquery ex_pool (Statistics.New 0) in
  (r, sent, cnt st DoQIdleRetries, Doq.dial_ok net 2) = (Err EReadLength, [0; 1]%nat, 1, true).
Proof. vm_compute. done. Qed.

Lemma Resolve_usable_witness :
  ∃ q' st', Doq.Resolve (dl := ex_twire) ex_net ex_alone ex_tclk true ex_tquery ex_pool (Statistics.New 0) = (Ok ex_up_answer, q', st', [0; 1]%nat) ∧
    responseMatchesQuery (dl := ex_twire) ex_tquery ex_up_answer = true ∧ mTruncated ex_up_answer = false.
Proof.
  destruct (Doq.Resolve (dl := ex_twire) ex_net ex_alone ex_tclk true ex_tquery ex_pool (Statistics.New 0)) as [[[r q'] st'] sent] eqn:E.
  assert (Er : r = Ok ex_up_answer ∧ sent = [0; 1]%nat)
    by (split; [change r with (fst (fst (fst (r, q', st', sent))))|change sent with (snd (r, q', st', sent))]; rewrite <-E; vm_compute; reflexivity).
  destruct Er as [-> ->]. exists q', st'. split; [reflexivity|].
  destruct (Doq.Resolve_usable (dl := ex_twire) ex_net ex_alone ex_tclk true ex_tquery ex_pool (Statistics.New 0) _ _ _ _ E) as (_ & _ & _ & H).
  destruct (H ex_up_answer eq_refl) as (H1 & H2 & _). split; [exact H1|exact H2].
Defined.

Lemma stale_connection_recovered_witness :
  ∃ r', fst (fst (fst (Doq.Resolve (dl := ex_twire) ex_net ex_alone ex_tclk true ex_tquery ex_pool (Statistics.New 0)))) = Ok r' ∧
    Doq.doqResponseMatchesQuery (dl := ex_twire) ex_tquery r' = true ∧ Doq.doqResponseUsable r' = None.
Proof.
  apply (Doq.stale_connection_recovered (dl := ex_twire) ex_net ex_tclk true ex_tquery ex_pool (Statistics.New 0) "q" ex_up_answer);
    [reflexivity| |vm_compute; reflexivity|vm_compute; reflexivity].
  split; [reflexivity|]. split; [intros slot; reflexivity|]. intros k. exists "". vm_compute. reflexivity.
Defined.

Lemma pool_never_hands_out_closed_witness :
  let q := Doq.recycleConn 0 (Doq.mkDoQ (Some 0%nat) 5 1 []) in
  (∀ now now' c q', Doq.getConnection (λ _, true) now now' q = (Some c, q') → Doq.conn q' = Some c ∧ c ∉ Doq.closed q') ∧
  (∀ bad c, Doq.conn q = Some c → c ≠ bad →
     Doq.conn (Doq.recycleConn bad q) = Some c ∧ c ∉ Doq.closed (Doq.recycleConn bad q)) ∧
  (∀ bad, Doq.conn (Doq.recycleConn bad q) ≠ Some bad).
Proof.
  apply (Doq.pool_never_hands_out_closed (λ _, true)).
  eapply rtc_l; [by apply (Doq.step_get _ Doq.NewDoQResolver 0 5 (Some 0%nat) (Doq.mkDoQ (Some 0%nat) 5 1 []))|].
  apply rtc_once, (Doq.step_recycle _ (Doq.mkDoQ (Some 0%nat) 5 1 []) 0%nat). simpl. lia.
Defined.

(** The pooled connection still holds the reply to an earlier query. *)
Definition ex_old : Msg := set_Id 6 ex_up_answer.
Definition ex_dot_wire : DnsLib :=
  wireLib (λ _, Some "q") (λ s, if String.eqb s "r" then Some ex_up_answer else if String.eqb s "o" then Some ex_old else None).
Definition ex_tls : DotClient.TLSResolver := DotClient.mkTLSR (Some 0%nat) (frame "o") 1 [].

Example dot_stale_reply :
  let '(r, t, st) := DotClient.Resolve (dl := ex_dot_wire) (λ _, true) (λ _ _, good_stream) (λ _ t, t) true ex_tquery ex_tls (Statistics.New 0) in
  (is_ok r, DotClient.conn t, DotClient.unread t, DotClient.closed t, cnt st DoTQueries) = (true, Some 1%nat, "", [0%nat], 1).
Proof. vm_compute. done. Qed.

Lemma stale_tls_recovered_witness :
  ∃ r', fst (fst (DotClient.Resolve (dl := ex_dot_wire) (λ _, true) (λ _ _, good_stream) (λ _ t, t) true ex_tquery ex_tls (Statistics.New 0))) = Ok r' ∧
    mId r' = mId ex_tquery.
Proof.
  apply (DotClient.stale_tls_recovered (dl := ex_dot_wire) (λ _, true) (λ _ _, good_stream) true ex_tquery ex_tls (Statistics.New 0) "q" ex_up_answer);
    [reflexivity| |reflexivity]. split; [reflexivity|]. intros k. exists "". vm_compute. reflexivity.
Defined.

Definition ex_sum (s : string) : string := "0123456789abcdef0123456789abcde" +:+ s.

Lemma pinned_handshake_witness :
  handshake (λ _ _, false) (pinnedTLSConfig ex_sum (mkTLSConf "router.lan" [] true false None) "router.lan" (SPKIPin ex_sum "k"))
    [mkCert "k" (String.eqb "router.lan")] = true.
Proof.
  apply (pinned_handshake ex_sum (λ _ _, false) (mkTLSConf "router.lan" [] true false None) "router.lan" (SPKIPin ex_sum "k")
    [mkCert "k" (String.eqb "router.lan")]); try reflexivity.
  assert (Hp : ParsePin (SPKIPin ex_sum "k") = Ok (ex_sum "k")) by (vm_compute; reflexivity). rewrite Hp.
  exists (mkCert "k" (String.eqb "router.lan")), []. split; [reflexivity|]. split; reflexivity.
Defined.

Lemma doh_client_sound_witness :
  ∃ body resp buf, Pack (DnsLib := ex_twire) ex_tquery = Some body ∧ Some (DohClient.mkHTTPResp 200 "r" false) = Some resp ∧
    DohClient.h_status resp = 200 ∧ DohClient.read_limited resp = Some buf ∧ blen buf ≤ MaxMsgSize ∧
    Unpack (DnsLib := ex_twire) buf = Some ex_up_answer.
Proof.
  apply (doh_client_sound (dl := ex_twire) true (λ _, Some (DohClient.mkHTTPResp 200 "r" false)) false ex_tquery (Statistics.New 0)
    ex_up_answer (Statistics.New 0)). vm_compute. reflexivity.
Defined.
