(* ===== verification/Deadlines.v ===== *)
(** * Time limits of the outgoing queries (internal/resolver: doq.go, dot.go, doh.go, fallback.go)

    The clients of [Transports] and the chain of [Fallback] again, now with the time
    their calls take and the contexts and deadlines that cut them short.  A timed run
    that returns is a run of the untimed model ([doq_refines], [chain_refines]), so
    that what is proved there holds here; what is new is when calls return, and what
    a context that is over does to the chain. *)

From S2P Require Import Prelude GoStrings GoContext DnsMsg Statistics Fallback Edns Server Transports.
From Stdlib Require Import Ascii String.
Open Scope string_scope.
Open Scope list_scope.
Open Scope Z_scope.

(** ** Streams in time *)

(** A stream: its two writes, the reply in pieces, each with the time since the one
    before, and the end of the stream, if the peer ends it. *)
Record TStream := mkTStream {
  ts_write_length : event bool; ts_write_msg : event bool;
  ts_chunks : list (N * string); ts_end : event () }.

(** [io.ReadFull] of [n] bytes, of which [buf] has arrived: the bytes, what is left
    of the buffer, and the pieces still to come. *)
Fixpoint fill (stop : option Z) (n : nat) (buf : string) (chunks : list (N * string)) (fin : event ())
    : T (option (string * string * list (N * string))) :=
  match read_full n buf with
  | Some (s, rest) => retT (Some (s, rest, chunks))
  | None =>
      match chunks with
      | [] => doT _ ← await stop fin (); retT None
      | (δ, s) :: chunks' =>
          doT arrived ← await stop (Some (δ, true)) false;
          if arrived then fill stop n (buf +:+ s) chunks' fin else retT None
      end
  end.

(** What arrives from the instant [t] on, before [stop]. *)
Fixpoint received (stop : option Z) (t : Z) (chunks : list (N * string)) : string :=
  match chunks with
  | [] => ""
  | (δ, s) :: chunks' =>
      let t' := t + Z.of_N δ in
      if match stop with Some d => t' <? d | None => true end then s +:+ received stop t' chunks' else ""
  end.

(** The length prefix and the reply. The rest is what follows it on the stream. *)
Definition read_replyT (stop : option Z) (buf : string) (s : TStream) : T (result (string * string) xerr) :=
  doT l ← fill stop 2 buf (ts_chunks s) (ts_end s);
  match l with
  | Some (String hi (String lo ""), buf, chunks) =>
      let respLen := read_length (Z.of_nat (nat_of_ascii hi), Z.of_nat (nat_of_ascii lo)) in
      if (respLen =? 0) || (respLen >? 65535) then retT (Err (EInvalidLength respLen)) else
      doT m ← fill stop (Z.to_nat respLen) buf chunks (ts_end s);
      match m with
      | Some (m, buf, chunks) => doT t ← nowT; retT (Ok (m, buf +:+ received stop t chunks))
      | None => retT (Err EReadMsg)
      end
  | _ => retT (Err EReadLength)
  end.

(** One request and reply; [buf] arrived earlier and was not read. *)
Definition stream_exchangeT {dl : DnsLib} (stop : option Z) (buf query : string) (s : TStream)
    : T (bool * result (Msg * string) xerr) :=
  doT wl ← await stop (ts_write_length s) false;
  if negb wl then retT (false, Err EWriteLength) else
  doT wm ← await stop (ts_write_msg s) false;
  if negb wm then retT (true, Err EWriteMsg) else
  doT br ← read_replyT stop buf s;
  retT (true, match br with
              | Err e => Err e
              | Ok (b, rest) => match Unpack b with None => Err EUnpack | Some resp => Ok (resp, rest) end
              end).

(** ** DNS over QUIC *)

Module TDoq.
Import Doq.

(** The network: handshakes by the number of the dial, streams by slot and connection. *)
Record TNet := mkTNet {
  tn_dial : nat → event bool; tn_open : nat → nat → event bool; tn_stream : nat → nat → TStream }.

Definition openStreamTimeout : Z := 2 * second.
Definition streamExchangeTimeout : Z := 2 * second.

Section Client.
Context {dl : DnsLib} (net : TNet).
(** What other goroutines do to the pool before the [i]-th critical section, and how
    long they hold the mutex there. *)
Context (env : nat → DoQResolver → DoQResolver) (lk : nat → N) (ctx : Ctx).

(** The [i]-th acquisition of the mutex. *)
Definition lockT (i : nat) (q : DoQResolver) : T DoQResolver := doT _ ← delay (lk i); retT (env i q).

Definition dialT (q : DoQResolver) : T (option nat * DoQResolver) :=
  doT ok ← await (done_at ctx) (tn_dial net (dials q)) false;
  doT now ← nowT;
  retT (dial_and_pool (λ _, ok) now q).

Definition getConnectionT (i : nat) (q : DoQResolver) : T (option nat * DoQResolver) :=
  doT q ← lockT i q;
  doT now ← nowT;
  match conn q with
  | Some c =>
      if time_sub now (lastUsed q) <? 20 * second then retT (Some c, q)
      else dialT (set_conn None (close_conn c q))
  | None => dialT q
  end.

Definition openStream (slot c : nat) : T bool :=
  doT now ← nowT; await (done_at (WithTimeout now openStreamTimeout ctx)) (tn_open net slot c) false.

Definition recycleConnT (i : nat) (bad : nat) (q : DoQResolver) : T DoQResolver :=
  doT q ← lockT i q; retT (recycleConn bad q).

Definition open_exchangeT (k : nat) (q : DoQResolver) : T (result nat xerr * DoQResolver) :=
  doT g ← getConnectionT (6 * k) q;
  match g with
  | (None, q) => retT (Err EConnection, q)
  | (Some c, q) =>
      doT o ← openStream (2 * k) c;
      if o : bool then retT (Ok c, q) else
      doT q ← recycleConnT (6 * k + 1) c q;
      doT g ← getConnectionT (6 * k + 2) q;
      match g with
      | (None, q) => retT (Err EReconnect, q)
      | (Some c, q) =>
          doT o ← openStream (2 * k + 1) c;
          if o : bool then retT (Ok c, q) else
          doT q ← recycleConnT (6 * k + 3) c q; retT (Err EStream, q)
      end
  end.

Definition exchangeOnceT (k : nat) (msg : Msg) (q : DoQResolver) : T exchange :=
  doT o ← open_exchangeT k q;
  match o with
  | (Err e, q) => retT (mkExchange (Err e) false q [])
  | (Ok c, q) =>
      doT now ← nowT;
      let deadline := earlier (Some (now + streamExchangeTimeout)) (c_deadline ctx) in
      match pack_query msg with
      | Err e => retT (mkExchange (Err e) false q [])
      | Ok msgBytes =>
          doT x ← stream_exchangeT deadline "" msgBytes (tn_stream net k c);
          let sent := if fst x : bool then [c] else [] in
          let failed e := doT q ← recycleConnT (6 * k + 4) c q; retT (mkExchange (Err e) true q sent) in
          match snd x with
          | Err e => failed e
          | Ok (resp, _) =>
              if negb (doqResponseMatchesQuery msg resp) then failed errDoQQuestionMismatch else
              match doqResponseUsable resp with
              | Some e => failed e
              | None =>
                  doT q ← lockT (6 * k + 5) q;
                  doT now ← nowT;
                  retT (mkExchange (Ok resp) false (touch now q) sent)
              end
          end
      end
  end.

Definition ResolveT (hasStats : bool) (msg : Msg) (q : DoQResolver) (st : Stats)
    : T (result Msg xerr * DoQResolver * Stats * list nat) :=
  let st := if hasStats then inc DoQQueries st else st in
  doT x ← exchangeOnceT 0 msg q;
  match x_result x with
  | Ok resp => retT (Ok resp, x_pool x, st, x_sent x)
  | Err err =>
      if negb (x_retryable x) then retT (Err err, x_pool x, st, x_sent x) else
      let st := if bool_decide (err = errDoQQuestionMismatch) then st else logIdleRetry hasStats st in
      doT y ← exchangeOnceT 1 msg (x_pool x);
      retT (x_result y, x_pool y, st, x_sent x ++ x_sent y)
  end.

End Client.
End TDoq.

(** ** Streams: what is read is what arrived *)

Lemma read_full_extend n buf x s rest : read_full n buf = Some (s, rest) → read_full n (buf +:+ x) = Some (s, rest +:+ x).
Proof.
  revert buf s. induction n as [|n IH]; intros buf s; simpl; [by intros [= <- <-]|].
  destruct buf as [|a buf]; [done|]. simpl. destruct (read_full n buf) as [[y r]|] eqn:E; [|done].
  intros [= <- <-]. by rewrite (IH _ _ E).
Qed.

Lemma fill_spec stop n buf chunks fin t r t' : fill stop n buf chunks fin t = Some (r, t') →
  match r with
  | Some (s, rest, chunks') => read_full n (buf +:+ received stop t chunks) = Some (s, rest +:+ received stop t' chunks')
  | None => read_full n (buf +:+ received stop t chunks) = None
  end.
Proof.
  revert buf t. induction chunks as [|[δ s] chunks IH]; intros buf t; simpl;
    (destruct (read_full n buf) as [[y rest]|] eqn:Er; [intros [= <- <-]; by apply read_full_extend|]).
  - unfold bindT. destruct (await _ _ _ _) as [[[] ?]|]; [|done]. intros [= <- _]. by rewrite sapp_nil_r.
  - unfold bindT, await. destruct stop as [d|].
    + destruct (t + Z.of_N δ <? d) eqn:E; [|intros [= <- _]; by rewrite sapp_nil_r].
      intros H%IH. by rewrite !sapp_assoc in H.
    + intros H%IH. by rewrite !sapp_assoc in H.
Qed.

Lemma fill_within stop n buf chunks fin d s : stop = Some s → s ≤ d → within d 0 (fill stop n buf chunks fin).
Proof.
  intros -> Hs. revert buf. induction chunks as [|[δ x] chunks IH]; intros buf; cbn [fill];
    (destruct (read_full n buf) as [[y rest]|]; [auto with rcvd|]).
  - apply within_bind0; [by apply within_await|]. auto with rcvd.
  - apply within_bind0; [by apply within_await|]. intros []; [apply IH|auto with rcvd].
Qed.

Lemma read_full_two input x rest : read_full 2 input = Some (x, rest) →
  ∃ hi lo, x = String hi (String lo "") ∧ input = String hi (String lo rest).
Proof. destruct input as [|hi [|lo r]]; simpl; try done. intros [= <- <-]. eauto. Qed.

Lemma read_full_two_none input : read_full 2 input = None → read_reply input = Err EReadLength.
Proof. by destruct input as [|hi [|lo r]]. Qed.

Lemma read_replyT_spec stop buf s t r t' : read_replyT stop buf s t = Some (r, t') →
  read_reply (buf +:+ received stop t (ts_chunks s)) = r.
Proof.
  unfold read_replyT, bindT. destruct (fill _ _ _ _ _ _) as [[l t1]|] eqn:E1; [|done]. apply fill_spec in E1.
  destruct l as [[[l b] ch]|]; [|intros [= <- _]; by apply read_full_two_none].
  apply read_full_two in E1 as (hi & lo & -> & ->). simpl.
  destruct (_ || _); [by intros [= <- _]|].
  destruct (fill _ _ b _ _ _) as [[m t2]|] eqn:E2; [|done]. apply fill_spec in E2.
  destruct m as [[[m b2] ch2]|]; intros [= <- _]; by rewrite E2.
Qed.

Lemma read_replyT_within d s stop buf st : stop = Some s → s ≤ d → within d 0 (read_replyT stop buf st).
Proof.
  intros -> Hs. apply within_bind0; [by eapply fill_within|]. intros [[[x b] ch]|]; [|auto with rcvd].
  destruct x as [|hi [|lo [|]]]; auto with rcvd. cbv zeta. destruct (_ || _); [auto with rcvd|].
  apply within_bind0; [by eapply fill_within|]. intros [[[m b2] ch2]|]; [|auto with rcvd].
  apply within_now. auto with rcvd.
Qed.

Section Streams.
Context {dl : DnsLib}.

(** A timed exchange is an untimed one on the bytes that arrived in time. *)
Lemma stream_exchangeT_spec stop buf query s t wl r t' : stream_exchangeT stop buf query s t = Some ((wl, r), t') →
  ∃ wm bytes, stream_exchange query (mkStream wl wm (buf +:+ bytes)) = r.
Proof.
  unfold stream_exchangeT, bindT, stream_exchange. destruct (await _ _ _ _) as [[[] t1]|]; simpl; [| |done].
  2: { intros [= <- <- _]. by exists false, "". }
  destruct (await _ _ _ _) as [[[] t2]|]; simpl; [| |done].
  2: { intros [= <- <- _]. by exists false, "". }
  destruct (read_replyT _ _ _ _) as [[br t3]|] eqn:E; [|done]. apply read_replyT_spec in E. intros [= <- <- _].
  eexists true, _. simpl. rewrite E. by destruct br as [[b rest]|e].
Qed.

Lemma stream_exchangeT_within d s stop buf query st : stop = Some s → s ≤ d → within d 0 (stream_exchangeT stop buf query st).
Proof.
  intros -> Hs. apply within_bind0; [by apply within_await|]. intros []; cbn [negb]; [|auto with rcvd].
  apply within_bind0; [by apply within_await|]. intros []; cbn [negb]; [|auto with rcvd].
  apply within_bind0; [by eapply read_replyT_within|]. auto with rcvd.
Qed.

End Streams.

(** ** The DoQ client keeps its deadline *)

Module TDoqProps.
Import Doq TDoq.

Section Bound.
Context {dl : DnsLib} (net : TNet) (env : nat → DoQResolver → DoQResolver) (lk : nat → N) (ctx : Ctx) (D L : Z).
Context (HD : c_deadline ctx = Some D) (HL : ∀ i, Z.of_N (lk i) ≤ L).
Local Abbreviation getConnectionT := (getConnectionT net env lk ctx).
Local Abbreviation exchangeOnceT := (exchangeOnceT net env lk ctx).

Lemma L_nonneg : 0 ≤ L.
Proof. specialize (HL 0). lia. Qed.

Lemma done_le : ∃ s, done_at ctx = Some s ∧ s ≤ D.
Proof. by apply earlier_le. Qed.

Lemma within_lock i q : within D L (lockT env lk i q).
Proof.
  replace L with (L + 0) by lia. apply within_bind; [apply L_nonneg| |auto with rcvd].
  eapply within_weaken; [apply (HL i)|]. apply within_delay.
Qed.

Lemma within_dial q : within D 0 (dialT net ctx q).
Proof.
  destruct done_le as (s & Hs & Hle). unfold dialT. rewrite Hs. apply within_bind0; [by apply within_await|].
  intros ok. apply within_now. auto with rcvd.
Qed.

Lemma within_get i q : within D L (getConnectionT i q).
Proof.
  replace L with (L + 0) by lia. apply within_bind; [apply L_nonneg|apply within_lock|]. intros q'. apply within_now. intros t.
  destruct (conn q') as [c|]; [|apply within_dial]. destruct (_ <? _); [auto with rcvd|apply within_dial].
Qed.

Lemma within_open slot c : within D 0 (openStream net ctx slot c).
Proof.
  apply within_now. intros t. unfold WithTimeout, done_at. cbn [c_deadline c_cancel]. rewrite HD.
  destruct (earlier_le (earlier (Some (t + openStreamTimeout)) (Some D)) (c_cancel ctx) _ eq_refl) as (s & -> & Hle).
  apply within_await. lia.
Qed.

Lemma within_recycle i c q : within D L (recycleConnT env lk i c q).
Proof. replace L with (L + 0) by lia. apply within_bind; [apply L_nonneg|apply within_lock|auto with rcvd]. Qed.

(** Split the budget: one lock for the first part, the rest for what follows. *)
Local Ltac spend1 :=
  match goal with |- within D (?n * L) (bindT _ _) =>
    let m := eval cbv in (n - 1) in replace (n * L) with (L + m * L) by lia; apply within_bind; [apply L_nonneg| |] end.
Local Ltac spend0 := apply within_bind0.
Local Ltac done_early := pose proof L_nonneg; eapply within_weaken; [|apply within_ret]; lia.

Lemma within_open_exchange k q : within D (4 * L) (open_exchangeT net env lk ctx k q).
Proof.
  unfold open_exchangeT. spend1; [apply within_get|]. intros [[c|] q1]; [|done_early].
  spend0; [apply within_open|]. intros []; [done_early|].
  spend1; [apply within_recycle|]. intros q2. spend1; [apply within_get|]. intros [[c2|] q3]; [|done_early].
  spend0; [apply within_open|]. intros []; [done_early|]. spend1; [apply within_recycle|]. intros q4. done_early.
Qed.

Lemma within_exchange k msg q : within D (5 * L) (exchangeOnceT k msg q).
Proof.
  pose proof L_nonneg. replace (5 * L) with (4 * L + 1 * L) by lia. apply within_bind; [lia|apply within_open_exchange|].
  intros [[c|e] q1]; [|done_early]. apply within_now. intros now. destruct (pack_query msg) as [b|e]; [|done_early].
  rewrite HD. spend0; [eapply stream_exchangeT_within; [reflexivity|lia]|]. intros [wl r]. cbn [fst snd].
  assert (Hf : ∀ e sent, within D (1 * L) (doT q ← recycleConnT env lk (6 * k + 4) c q1; retT (mkExchange (Err e) true q sent))).
  { intros e sent. spend1; [apply within_recycle|]. intros q2. done_early. }
  destruct r as [[resp rest]|e]; [|apply Hf]. destruct (negb _); [apply Hf|]. destruct (doqResponseUsable resp); [apply Hf|].
  spend1; [apply within_lock|]. intros q2. apply within_now. intros t. done_early.
Qed.

(** The DoQ client keeps to its caller's deadline: whatever the network does, and
    whatever other queries do to the pool, it returns, at most ten waits for the
    mutex of the pool after the later of the call and the deadline. *)
Lemma doq_within hasStats msg q st : within D (10 * L) (ResolveT net env lk ctx hasStats msg q st).
Proof.
  pose proof L_nonneg. replace (10 * L) with (5 * L + 5 * L) by lia. apply within_bind; [lia|apply within_exchange|].
  intros x. destruct (x_result x) as [r|e]; [done_early|]. destruct (negb _); [done_early|]. cbv zeta.
  replace (5 * L) with (5 * L + 0) by lia. apply within_bind; [lia|apply within_exchange|]. auto with rcvd.
Qed.

End Bound.

(** *** A timed run is a run of the untimed client *)

Section Refines.
Context {dl : DnsLib} (net : TNet) (env : nat → DoQResolver → DoQResolver) (lk : nat → N) (ctx : Ctx).
Context (Henv : ∀ i q, (dials q ≤ dials (env i q))%nat).

Definition agree (lo hi : nat) (f g : nat → bool) : Prop := ∀ m, (lo ≤ m < hi)%nat → f m = g m.

Lemma agree_sub lo hi lo' hi' f g : (lo ≤ lo')%nat → (hi' ≤ hi)%nat → agree lo hi f g → agree lo' hi' f g.
Proof. intros ? ? H m ?. apply H. lia. Qed.

(** Choices for neighbouring ranges. *)
Definition splice (mid : nat) (f g : nat → bool) : nat → bool := λ m, if (m <? mid)%nat then f m else g m.

Lemma agree_splice lo mid hi d f g : (lo ≤ mid ≤ hi)%nat → agree lo hi d (splice mid f g) → agree lo mid d f ∧ agree mid hi d g.
Proof.
  intros ? H. split; intros m ?; rewrite (H m) by lia; unfold splice.
  - by rewrite (proj2 (Nat.ltb_lt _ _)) by lia.
  - by rewrite (proj2 (Nat.ltb_ge _ _)) by lia.
Qed.

(** What the network did during one exchange: the outcomes of the dials by number, of
    the two attempts to open a stream, the stream, and the clock. *)
Record script := mkScript { sc_dial : nat → bool; sc_open : nat → bool; sc_stream : Stream; sc_clk : nat → Z }.

(** An untimed network follows the script of the [k]-th exchange, which makes the dials
    from [lo] to [hi]. *)
Definition follows (k lo hi : nat) (sc : script) (net : Net) (clk : nat → Z) : Prop :=
  agree lo hi (dial_ok net) (sc_dial sc) ∧ 
  (∀ c, open_ok net (2 * k) c = sc_open sc 0 ∧ open_ok net (2 * k + 1) c = sc_open sc 1) ∧
  (∀ c, stream_of net k c = sc_stream sc) ∧
  clk (6 * k)%nat = sc_clk sc 0 ∧ clk (6 * k + 1)%nat = sc_clk sc 1 ∧ clk (6 * k + 2)%nat = sc_clk sc 2 ∧
  clk (6 * k + 3)%nat = sc_clk sc 3 ∧ clk (6 * k + 5)%nat = sc_clk sc 5.

Lemma getConnectionT_spec i q t g t' : getConnectionT net env lk ctx i q t = Some (g, t') →
  (dials (env i q) ≤ dials (snd g))%nat ∧
  ∃ b now now', ∀ dok, agree (dials (env i q)) (dials (snd g)) dok (λ _, b) → getConnection dok now now' (env i q) = g.
Proof.
  unfold getConnectionT, lockT, bindT, retT, delay, nowT. set (q1 := env i q). intros H.
  assert (Hdial : ∀ p, dials p = dials q1 → dialT net ctx p (t + Z.of_N (lk i)) = Some (g, t') →
    (dials q1 ≤ dials (snd g))%nat ∧ ∃ b now', ∀ dok, agree (dials q1) (dials (snd g)) dok (λ _, b) → dial_and_pool dok now' p = g).
  { intros p Hp. unfold dialT, bindT, nowT, retT. destruct (await _ _ _ _) as [[ok t1]|]; [|done]. intros [= <- <-].
    unfold dial_and_pool. rewrite Hp. split; [destruct ok; cbn; lia|]. exists ok, t1. intros dok Ha.
    rewrite (Ha (dials q1)) by (destruct ok; cbn; lia). done. }
  unfold getConnection. destruct (conn q1) as [c|] eqn:Ec.
  - destruct (_ <? _) eqn:Et.
    + injection H as <- <-. split; [cbn; lia|]. exists true, (t + Z.of_N (lk i)), 0. intros dok _. by rewrite Et.
    + apply Hdial in H as (? & b & now' & Hg); [|done]. split; [done|]. exists b, (t + Z.of_N (lk i)), now'. intros dok Ha. rewrite Et. by apply Hg.
  - apply Hdial in H as (? & b & now' & Hg); [|done]. split; [done|]. exists b, 0, now'. intros dok Ha. by apply Hg.
Qed.

Lemma recycleConnT_spec i c q t p t' : recycleConnT env lk i c q t = Some (p, t') → p = recycleConn c (env i q).
Proof. by intros [= <- _]. Qed.

(** The first five readings of a clock. *)
Definition clock4 (c0 c1 c2 c3 c5 : Z) (j : nat) : Z :=
  match j with 0%nat => c0 | 1%nat => c1 | 2%nat => c2 | 3%nat => c3 | _ => c5 end.
Definition pair_of (a b : bool) (j : nat) : bool := match j with O => a | S _ => b end.

Lemma open_exchangeT_spec k q t r t' s c5 : open_exchangeT net env lk ctx k q t = Some (r, t') →
  (dials q ≤ dials (snd r))%nat ∧
  ∃ f o c0 c1 c2 c3, ∀ net' clk, follows k (dials q) (dials (snd r)) (mkScript f o s (clock4 c0 c1 c2 c3 c5)) net' clk →
    open_exchange net' env clk k q = r.
Proof.
  unfold open_exchangeT, bindT. destruct (getConnectionT _ _ _ _ _ q t) as [[[r1 q1] t1]|] eqn:E1; [|done].
  apply getConnectionT_spec in E1 as (L1 & b1 & n0 & n1 & G1). pose proof (Henv (6 * k) q) as L0. cbn [snd] in *.
  assert (Hfirst : ∀ o net' clk, follows k (dials q) (dials q1) (mkScript (λ _, b1) o s (clock4 n0 n1 0 0 c5)) net' clk →
    getConnection (dial_ok net') (clk (6 * k)%nat) (clk (6 * k + 1)%nat) (env (6 * k)%nat q) = (r1, q1)).
  { intros o net' clk (Fd & _ & _ & -> & -> & _). apply G1. eapply agree_sub, Fd; lia. }
  destruct r1 as [c1|].
  2: { intros [= <- <-]. split; [cbn [snd]; lia|]. exists (λ _, b1), (pair_of true true), n0, n1, 0, 0. intros net' clk F.
       unfold open_exchange. by rewrite (Hfirst _ _ _ F). }
  destruct (openStream _ _ _ _ t1) as [[[] t2]|]; [| |done].
  { intros [= <- <-]. split; [cbn [snd]; lia|]. exists (λ _, b1), (pair_of true true), n0, n1, 0, 0. intros net' clk F.
    unfold open_exchange. rewrite (Hfirst _ _ _ F). destruct F as (_ & Fo & _). by rewrite (proj1 (Fo c1)). }
  destruct (recycleConnT _ _ _ _ _ t2) as [[q2 t3]|] eqn:E2; [|done]. apply recycleConnT_spec in E2.
  destruct (getConnectionT _ _ _ _ _ q2 t3) as [[[r2 q3] t4]|] eqn:E3; [|done].
  apply getConnectionT_spec in E3 as (L3 & b2 & n2 & n3 & G3). pose proof (Henv (6 * k + 1) q1) as L2.
  pose proof (Henv (6 * k + 2) q2) as L2'. cbn [snd] in *.
  assert (Hd : dials q2 = dials (env (6 * k + 1)%nat q1)) by (rewrite E2; apply recycleConn_dials).
  assert (Hboth : ∀ o2 hi net' clk, (dials q3 ≤ hi)%nat →
    follows k (dials q) hi (mkScript (splice (dials q1) (λ _, b1) (λ _, b2)) (pair_of false o2) s (clock4 n0 n1 n2 n3 c5)) net' clk →
    open_exchange net' env clk k q = match r2 with
      | None => (Err EReconnect, q3)
      | Some c => if o2 then (Ok c, q3) else (Err EStream, recycleConn c (env (6 * k + 3)%nat q3)) end).
  { intros o2 hi net' clk Hhi (Fd & Fo & _ & C0 & C1 & C2 & C3 & _). unfold open_exchange. cbn [sc_clk clock4] in *.
    apply agree_splice in Fd as [Fd1 Fd2]; [|lia]. rewrite C0, C1, G1 by (eapply agree_sub, Fd1; lia).
    rewrite (proj1 (Fo c1)), <-E2, C2, C3, G3 by (eapply agree_sub, Fd2; lia). destruct r2 as [c|]; [|done]. by rewrite (proj2 (Fo c)). }
  destruct r2 as [c2|].
  2: { intros [= <- <-]. split; [cbn [snd]; lia|]. eexists _, _, _, _, _, _. intros net' clk F. by eapply (Hboth true). }
  destruct (openStream _ _ _ _ t4) as [[[] t5]|]; [| |done].
  { intros [= <- <-]. split; [cbn [snd]; lia|]. eexists _, _, _, _, _, _. intros net' clk F. by eapply (Hboth true). }
  destruct (recycleConnT _ _ _ _ _ t5) as [[q4 t6]|] eqn:E4; [|done]. apply recycleConnT_spec in E4. intros [= <- <-].
  pose proof (Henv (6 * k + 3) q3) as L4. assert (Hd4 : (dials q3 ≤ dials q4)%nat) by (rewrite E4, recycleConn_dials; lia).
  cbn [snd]. split; [lia|]. eexists _, _, _, _, _, _. intros net' clk F. rewrite E4. by eapply (Hboth false).
Qed.

Lemma follows_sub k lo hi hi' sc net' clk : (hi' ≤ hi)%nat → follows k lo hi sc net' clk → follows k lo hi' sc net' clk.
Proof. intros ? (Fd & F). split; [|done]. eapply agree_sub, Fd; lia. Qed.

(** What an exchange does once it has a stream, untimed. *)
Definition on_stream (s : Stream) (c5 : Z) (k : nat) (msg : Msg) (c : nat) (q : DoQResolver) : exchange :=
  match pack_query msg with
  | Err e => mkExchange (Err e) false q []
  | Ok msgBytes =>
      let sent := if st_write_length s then [c] else [] in
      let failed e := mkExchange (Err e) true (recycleConn c (env (6 * k + 4)%nat q)) sent in
      match stream_exchange msgBytes s with
      | Err e => failed e
      | Ok (resp, _) =>
          if negb (doqResponseMatchesQuery msg resp) then failed errDoQQuestionMismatch else
          match doqResponseUsable resp with
          | Some e => failed e
          | None => mkExchange (Ok resp) false (touch c5 (env (6 * k + 5)%nat q)) sent
          end
      end
  end.

Lemma exchangeOnce_split net' clk k msg q : exchangeOnce net' env clk k msg q =
  match open_exchange net' env clk k q with
  | (Err e, q) => mkExchange (Err e) false q []
  | (Ok c, q) => on_stream (stream_of net' k c) (clk (6 * k + 5)%nat) k msg c q
  end.
Proof. done. Qed.

Lemma exchangeOnceT_spec k msg q t x t' : exchangeOnceT net env lk ctx k msg q t = Some (x, t') →
  (dials q ≤ dials (x_pool x))%nat ∧
  ∃ sc, ∀ net' clk, follows k (dials q) (dials (x_pool x)) sc net' clk → exchangeOnce net' env clk k msg q = x.
Proof.
  unfold exchangeOnceT, bindT at 1. destruct (open_exchangeT _ _ _ _ k q t) as [[[oc q1] t1]|] eqn:Eo; [|done]. intros H.
  pose proof (λ s c5, open_exchangeT_spec k q t (oc, q1) t1 s c5 Eo) as Ho. cbn [snd] in Ho.
  destruct (Ho (mkStream true true "") 0) as [L1 _].
  enough (Hx : (dials q1 ≤ dials (x_pool x))%nat ∧ ∃ s c5, match oc with
      | Err e => mkExchange (Err e) false q1 [] | Ok c => on_stream s c5 k msg c q1 end = x).
  { destruct Hx as (L2 & s & c5 & Hx). split; [lia|]. destruct (Ho s c5) as (_ & f & o & c0 & c1 & c2 & c3 & G).
    exists (mkScript f o s (clock4 c0 c1 c2 c3 c5)). intros net' clk F. rewrite exchangeOnce_split, (G net' clk) by (by eapply follows_sub).
    destruct F as (_ & _ & Fs & _ & _ & _ & _ & F5). destruct oc as [c|e]; [|done]. rewrite Fs, F5. exact Hx. }
  destruct oc as [c|e]; [|injection H as <- <-; split; [done|]; by exists (mkStream true true ""), 0].
  unfold on_stream. unfold bindT at 1, nowT in H. destruct (pack_query msg) as [b|e].
  2: { injection H as <- <-. split; [done|]. by exists (mkStream true true ""), 0. }
  unfold bindT at 1 in H. destruct (stream_exchangeT _ _ _ _ _) as [[[wl r] t2]|] eqn:Es; [|done].
  apply stream_exchangeT_spec in Es as (wm & bytes & Es). cbn [String.append fst snd] in *.
  pose proof (Henv (6 * k + 4) q1) as L4. pose proof (Henv (6 * k + 5) q1) as L5. destruct r as [[resp rest]|e].
  2: { injection H as <- <-. split; [cbn [x_pool]; by rewrite recycleConn_dials|]. exists (mkStream wl wm bytes), 0. by rewrite Es. }
  destruct (negb _) eqn:En.
  { injection H as <- <-. split; [cbn [x_pool]; by rewrite recycleConn_dials|]. exists (mkStream wl wm bytes), 0. by rewrite Es, En. }
  destruct (doqResponseUsable resp) as [e|] eqn:Eu.
  - injection H as <- <-. split; [cbn [x_pool]; by rewrite recycleConn_dials|]. exists (mkStream wl wm bytes), 0. by rewrite Es, En, Eu.
  - unfold bindT, lockT, delay, nowT, retT in H. injection H as <- _. split; [done|]. eexists (mkStream wl wm bytes), _. rewrite Es, En, Eu. reflexivity.
Qed.

(** The timed client is the client of the untimed model: every run that returns is a
    run of it for some outcome of the network, so that its answers are usable and
    checked, and its pool never hands out a closed connection. *)
Theorem doq_refines hasStats msg q st t out t' : ResolveT net env lk ctx hasStats msg q st t = Some (out, t') →
  ∃ net' clk, Resolve net' env clk hasStats msg q st = out.
Proof.
  unfold ResolveT, bindT. destruct (exchangeOnceT _ _ _ _ 0 msg q t) as [[x t1]|] eqn:E0; [|done].
  apply exchangeOnceT_spec in E0 as (L0 & sc0 & G0). intros H.
  set (two := match x_result x with Err _ => x_retryable x | Ok _ => false end).
  assert (Hy : ∃ y sc1, (two = true → ∃ t2, exchangeOnceT net env lk ctx 1 msg (x_pool x) t1 = Some (y, t2)) ∧
    ∀ net' clk, follows 1 (dials (x_pool x)) (dials (x_pool y)) sc1 net' clk → two = true → exchangeOnce net' env clk 1 msg (x_pool x) = y).
  { destruct two eqn:Ew; [|exists x, sc0; done]. unfold two in Ew. destruct (x_result x) as [r|e]; [done|]. rewrite Ew in H. cbn [negb] in H.
    destruct (exchangeOnceT _ _ _ _ 1 msg _ t1) as [[y t2]|] eqn:E1; [|done]. exists y.
    pose proof (exchangeOnceT_spec _ _ _ _ _ _ E1) as (_ & sc1 & G1). exists sc1. split; [eauto|]. intros net' clk F _. by apply G1. }
  destruct Hy as (y & sc1 & Hrun & G1).
  set (n := dials (x_pool x)).
  exists (mkNet (splice n (sc_dial sc0) (sc_dial sc1))
     (λ slot _, match slot with 0%nat => sc_open sc0 0 | 1%nat => sc_open sc0 1 | 2%nat => sc_open sc1 0 | _ => sc_open sc1 1 end)
     (λ k _, match k with O => sc_stream sc0 | _ => sc_stream sc1 end)),
   (λ i, if (i <? 6)%nat then sc_clk sc0 i else sc_clk sc1 (i - 6)).
  unfold Resolve. cbv zeta. rewrite G0.
  2: { split; [|split_and!; done]. intros m Hm. cbn [dial_ok]. unfold splice. by rewrite (proj2 (Nat.ltb_lt _ _)) by (unfold n; lia). }
  destruct (x_result x) as [r|e] eqn:Ex; [by injection H as <- <-|].
  destruct (x_retryable x) eqn:Er; cbn [negb] in *; [|by injection H as <- <-].
  destruct (Hrun eq_refl) as (t2 & E1). rewrite E1 in H. injection H as <- <-.
  rewrite G1; [done| |done]. split; [|split_and!; done]. intros m Hm. cbn [dial_ok]. unfold splice. by rewrite (proj2 (Nat.ltb_ge _ _)) by (unfold n; lia).
Qed.

End Refines.

(** *** Recovery from a stale connection, in time *)

Section InTime.
Context {dl : DnsLib} (net : TNet) (D : Z).
Let ctx := mkCtx (Some D) None.
Let env : nat → DoQResolver → DoQResolver := λ _ q, q.
Let lk : nat → N := λ _, 0%N.

(** Connection [n] answers the query [b] with [r]: the dial takes [δd], each stream
    opens in [δo], and the reply is there [δx] after the query was sent. *)
Record prompt (n : nat) (b : string) (r : Msg) (δd δo δx : Z) : Prop := mkPrompt {
  pr_dial : ∃ δ, tn_dial net n = Some (δ, true) ∧ Z.of_N δ ≤ δd;
  pr_open : ∀ slot, ∃ δ, tn_open net slot n = Some (δ, true) ∧ Z.of_N δ ≤ δo;
  pr_reply : ∀ k t stop, t + δx < stop → ∃ rest t',
    stream_exchangeT (Some stop) "" b (tn_stream net k n) t = Some ((true, Ok (r, rest)), t') ∧ t ≤ t' ≤ t + δx }.

Lemma getConnection_quiet i q t :
  (∃ c, conn q = Some c ∧ getConnectionT net env lk ctx i q t = Some ((Some c, q), t)) ∨
  (∃ p, conn p = None ∧ dials p = dials q ∧ getConnectionT net env lk ctx i q t = dialT net ctx p t).
Proof.
  unfold getConnectionT, lockT, delay, bindT, nowT, retT, lk, env. rewrite Z.add_0_r. destruct (conn q) as [c|] eqn:Ec; [|right; by exists q].
  destruct (_ <? _); [left; by exists c|right]. by exists (set_conn None (close_conn c q)).
Qed.

Lemma dial_prompt p n b r δd δo δx t : prompt n b r δd δo δx → dials p = n → t + δd < D →
  ∃ p' t', dialT net ctx p t = Some ((Some n, p'), t') ∧ t ≤ t' ≤ t + δd.
Proof.
  intros [(δ & Hd & Hδ) _ _] Hn Ht. unfold dialT, bindT. rewrite Hn, Hd. rewrite await_in_time.
  2: { intros s [= <-]. lia. }
  unfold nowT, retT, dial_and_pool. rewrite Hn. eexists _, _. split; [reflexivity|lia].
Qed.

Lemma open_prompt slot n b r δd δo δx t : prompt n b r δd δo δx → t + δo < D → δo < openStreamTimeout →
  ∃ t', openStream net ctx slot n t = Some (true, t') ∧ t ≤ t' ≤ t + δo.
Proof.
  intros [_ Ho _] Ht Hδ. destruct (Ho slot) as (δ & E & Hle). unfold openStream, bindT, nowT. rewrite E, await_in_time.
  2: { intros s [= <-]. unfold openStreamTimeout in *. lia. }
  eexists. split; [reflexivity|lia].
Qed.

(** Opening a stream, whatever the connection does, takes at most its timeout. *)
Lemma open_bounded slot c t : ∃ o t', openStream net ctx slot c t = Some (o, t') ∧ t ≤ t' ≤ t + openStreamTimeout.
Proof.
  unfold openStream, bindT, nowT. destruct (within_await (t + openStreamTimeout) (Z.min (t + openStreamTimeout) D) (tn_open net slot c) false ltac:(lia) t)
    as (o & t' & E & ?). unfold done_at. cbn [WithTimeout ctx c_deadline c_cancel earlier]. rewrite E. eexists _, _. split; [reflexivity|].
  unfold openStreamTimeout, second in *. lia.
Qed.

(** The part of an exchange after a stream is open. *)
Definition after_open (k : nat) (msg : Msg) (o : result nat xerr * DoQResolver) : T exchange :=
  match o with
  | (Err e, q) => retT (mkExchange (Err e) false q [])
  | (Ok c, q) =>
      doT now ← nowT;
      let deadline := earlier (Some (now + streamExchangeTimeout)) (c_deadline ctx) in
      match pack_query msg with
      | Err e => retT (mkExchange (Err e) false q [])
      | Ok msgBytes =>
          doT x ← stream_exchangeT deadline "" msgBytes (tn_stream net k c);
          let sent := if fst x : bool then [c] else [] in
          let failed e := doT q ← recycleConnT env lk (6 * k + 4) c q; retT (mkExchange (Err e) true q sent) in
          match snd x with
          | Err e => failed e
          | Ok (resp, _) =>
              if negb (doqResponseMatchesQuery msg resp) then failed errDoQQuestionMismatch else
              match doqResponseUsable resp with
              | Some e => failed e
              | None => doT q ← lockT env lk (6 * k + 5) q; doT now ← nowT; retT (mkExchange (Ok resp) false (touch now q) sent)
              end
          end
      end
  end.

Context (msg : Msg) (b : string) (r : Msg) (δd δo δx : Z).
Context (Hpack : pack_query msg = Ok b) (Hmatch : doqResponseMatchesQuery msg r = true) (Huse : doqResponseUsable r = None).
Context (Ho : δo < openStreamTimeout) (Hx : δx < streamExchangeTimeout).

Lemma after_open_prompt k n q t : prompt n b r δd δo δx → t + δx < D →
  ∃ x t', after_open k msg (Ok n, q) t = Some (x, t') ∧ x_result x = Ok r ∧ t ≤ t' ≤ t + δx.
Proof.
  intros [_ _ Hr] Ht. unfold after_open, bindT at 1, nowT at 1. rewrite Hpack. unfold bindT at 1. cbn [c_deadline ctx earlier].
  destruct (Hr k t (Z.min (t + streamExchangeTimeout) D)) as (rest & t' & -> & ?); [lia|]. cbn [fst snd].
  rewrite Hmatch, Huse. cbn [negb]. eexists _, _. split; [reflexivity|]. cbn. split; [done|]. unfold lk. lia.
Qed.

(** Whatever the connection does, an exchange on it ends within its timeout, and if it
    fails the connection is out of the pool and the query may be tried again. *)
Lemma after_open_any k c q t : conn q = Some c →
  ∃ x t', after_open k msg (Ok c, q) t = Some (x, t') ∧ t ≤ t' ≤ t + streamExchangeTimeout ∧
    ((∃ r', x_result x = Ok r') ∨
     (∃ e, x_result x = Err e ∧ x_retryable x = true ∧ conn (x_pool x) = None ∧ dials (x_pool x) = dials q)).
Proof.
  intros Hc. unfold after_open, bindT at 1, nowT at 1. rewrite Hpack. unfold bindT at 1. cbn [c_deadline ctx earlier].
  destruct (stream_exchangeT_within (t + streamExchangeTimeout) (Z.min (t + streamExchangeTimeout) D) (Some (Z.min (t + streamExchangeTimeout) D)) "" b
    (tn_stream net k c) eq_refl ltac:(lia) t) as ([wl res] & t1 & -> & Ht). cbn [fst snd].
  unfold streamExchangeTimeout, second in *.
  assert (Hf : ∀ e, ∃ x t', (doT q ← recycleConnT env lk (6 * k + 4) c q; retT (mkExchange (Err e) true q (if wl then [c] else []))) t1 = Some (x, t') ∧
    t ≤ t' ≤ t + 2 * 1000000000 ∧ ((∃ r', x_result x = Ok r') ∨
     (∃ e, x_result x = Err e ∧ x_retryable x = true ∧ conn (x_pool x) = None ∧ dials (x_pool x) = dials q))).
  { intros e. eexists _, _. split; [reflexivity|]. unfold lk, env. split; [lia|]. right. exists e. cbn [x_result x_retryable x_pool].
    split_and!; [done|done| |by rewrite recycleConn_dials]. unfold recycleConn. by rewrite bool_decide_eq_true_2. }
  destruct res as [[resp rest]|e]; [|apply Hf]. destruct (negb _); [apply Hf|]. destruct (doqResponseUsable resp); [apply Hf|].
  eexists _, _. split; [reflexivity|]. split; [unfold lk; lia|]. left. cbn. eauto.
Qed.

Lemma fresh_exchange k p p' n t : getConnectionT net env lk ctx (6 * k) p t = dialT net ctx p' t → dials p' = n → prompt n b r δd δo δx → t + δd + δo + δx < D →
  0 ≤ δo → 0 ≤ δx →
  ∃ x t', exchangeOnceT net env lk ctx k msg p t = Some (x, t') ∧ x_result x = Ok r ∧ t ≤ t' ≤ t + δd + δo + δx.
Proof.
  intros Hg Hn Hp Ht H1 H2. change (exchangeOnceT net env lk ctx k msg p t) with (bindT (open_exchangeT net env lk ctx k p) (after_open k msg) t).
  unfold bindT at 1, open_exchangeT, bindT at 1. rewrite Hg.
  destruct (dial_prompt p' n b r δd δo δx t Hp Hn ltac:(lia)) as (p1 & t1 & -> & ?).
  unfold bindT at 1. destruct (open_prompt (2 * k) n b r δd δo δx t1 Hp ltac:(lia) Ho) as (t2 & -> & ?). cbn [retT].
  destruct (after_open_prompt k n p1 t2 Hp ltac:(lia)) as (x & t3 & -> & ? & ?). exists x, t3. split_and!; [done|done|lia|lia].
Qed.

Local Abbreviation slack := (openStreamTimeout + streamExchangeTimeout).

Lemma first_exchange q t : prompt (dials q) b r δd δo δx → 0 ≤ δd → 0 ≤ δo → 0 ≤ δx → t + slack + δd + δo + δx < D →
  ∃ x t', exchangeOnceT net env lk ctx 0 msg q t = Some (x, t') ∧
    ((∃ r', x_result x = Ok r' ∧ t ≤ t' ≤ t + slack + δd + δo + δx) ∨
     (∃ e, x_result x = Err e ∧ x_retryable x = true ∧ conn (x_pool x) = None ∧ dials (x_pool x) = dials q ∧ t ≤ t' ≤ t + slack)).
Proof.
  intros Hp H0 H1 H2 Ht. unfold openStreamTimeout, streamExchangeTimeout, second in *.
  destruct (getConnection_quiet (6 * 0) q t) as [(c & Hc & E)|(p & Hc & Hn & E)].
  2: { destruct (fresh_exchange 0 q p (dials q) t E Hn Hp) as (x & t' & Ex & Hr & ?); [lia..|]. exists x, t'. split; [done|left].
       exists r. split; [done|lia]. }
  change (exchangeOnceT net env lk ctx 0 msg q t) with (bindT (open_exchangeT net env lk ctx 0 q) (after_open 0 msg) t).
  unfold bindT at 1, open_exchangeT, bindT at 1. rewrite E. unfold bindT at 1.
  destruct (open_bounded (2 * 0) c t) as ([] & t1 & -> & Ho1); unfold openStreamTimeout, second in Ho1.
  - cbn [retT]. destruct (after_open_any 0 c q t1 Hc) as (x & t' & -> & Hb & [[r' Hr]|(e & He & ? & ? & ?)]);
      unfold streamExchangeTimeout, second in Hb; exists x, t'; (split; [done|]); [left|right; exists e; split_and!; try done; lia].
    exists r'. split; [done|lia].
  - set (p := recycleConn c (env 1%nat q)). assert (Hpc : conn p = None) by (unfold p, env, recycleConn; by rewrite bool_decide_eq_true_2).
    assert (Hpd : dials p = dials q) by apply recycleConn_dials.
    change (recycleConnT env lk (6 * 0 + 1) c q) with (λ t, Some (p, t + 0)). cbn [bindT]. unfold bindT at 1. cbn beta iota. rewrite Z.add_0_r.
    unfold bindT at 1. destruct (getConnection_quiet (6 * 0 + 2) p t1) as [(c' & Hc' & _)|(p' & _ & Hn' & E')]; [congruence|].
    rewrite E'.
    destruct (dial_prompt p' (dials q) b r δd δo δx t1 Hp ltac:(congruence) ltac:(lia)) as (p1 & t2 & -> & ?).
    unfold bindT at 1. destruct (open_prompt (2 * 0 + 1) (dials q) b r δd δo δx t2 Hp ltac:(lia) Ho) as (t3 & -> & ?). cbn [retT].
    destruct (after_open_prompt 0 (dials q) p1 t3 Hp ltac:(lia)) as (x & t4 & -> & Hr & ?). exists x, t4. split; [done|left]. exists r. split; [done|lia].
Qed.

(** C23: A stale connection costs a query at most four seconds, so that the budget of five
    seconds of the callers leaves one for a fresh connection.  For a DoQ client that no
    other query uses meanwhile (so that nobody holds its mutex) and a context with a
    deadline that is not cancelled: whatever the pooled connection does, if the next one
    is dialled, opened and answered with a usable reply to the question, each within its
    own timeout and all before the deadline counted from four seconds after the query,
    then the query is answered, by that time. *)
Theorem stale_recovered_in_time hasStats q st t :
  prompt (dials q) b r δd δo δx → 0 ≤ δd → 0 ≤ δo → 0 ≤ δx → t + slack + δd + δo + δx < D →
  ∃ r' out t', ResolveT net env lk ctx hasStats msg q st t = Some (out, t') ∧ fst (fst (fst out)) = Ok r' ∧
    t ≤ t' ≤ t + slack + δd + δo + δx.
Proof.
  intros Hp H0 H1 H2 Ht. unfold ResolveT, bindT at 1.
  destruct (first_exchange q t Hp H0 H1 H2 Ht) as (x & t1 & -> & [(r' & Hr & ?)|(e & He & Hre & Hc & Hd & Ht1)]).
  - exists r'. rewrite Hr. eexists _, _. split; [reflexivity|]. split; [done|lia].
  - rewrite He, Hre. cbn [negb]. unfold bindT at 1. destruct (getConnection_quiet (6 * 1) (x_pool x) t1) as [(c & Hc' & _)|(p & _ & Hn & E)]; [congruence|].
    destruct (fresh_exchange 1 (x_pool x) p (dials q) t1 E ltac:(congruence) Hp) as (y & t2 & -> & Hr & ?); [lia..|].
    exists r. eexists _, _. split; [reflexivity|]. split; [done|lia].
Qed.

End InTime.
(** *** A context that is over *)

Section Done.
Context {dl : DnsLib} (net : TNet) (env : nat → DoQResolver → DoQResolver) (lk : nat → N) (ctx : Ctx).

Lemma dial_done s p t : done_at ctx = Some s → s ≤ t → dialT net ctx p t = Some (dial_and_pool (λ _, false) t p, t).
Proof. intros Hs Ht. unfold dialT, bindT. rewrite Hs, await_late by done. done. Qed.

Lemma open_done s slot c t : done_at ctx = Some s → s ≤ t → openStream net ctx slot c t = Some (false, t).
Proof.
  intros Hs Ht. unfold openStream, bindT, nowT. cbv beta iota.
  assert (H : ∃ s', done_at (WithTimeout t openStreamTimeout ctx) = Some s' ∧ s' ≤ t).
  { unfold done_at in *. destruct ctx as [[d|] [x|]]; cbn in *; try discriminate Hs; injection Hs as <-; eexists; (split; [reflexivity|]);
      unfold openStreamTimeout, second; lia. }
  destruct H as (s' & -> & ?). by rewrite await_late.
Qed.

Lemma get_done s i q t : done_at ctx = Some s → s ≤ t →
  ∃ g q' t', getConnectionT net env lk ctx i q t = Some ((g, q'), t') ∧ t ≤ t' ∧ (conn (env i q) = None → g = None).
Proof.
  intros Hs Ht. unfold getConnectionT, lockT, bindT, delay, nowT, retT. destruct (conn (env i q)) as [c|] eqn:Ec.
  - destruct (_ <? _); [eexists _, _, _; split; [reflexivity|split; [lia|done]]|]. rewrite (dial_done s) by (done || lia).
    eexists _, _, _. split; [reflexivity|split; [lia|done]].
  - rewrite (dial_done s) by (done || lia). eexists _, _, _. split; [reflexivity|split; [lia|done]].
Qed.

(** With a context that is over, a query fails without being sent, whatever the
    network would do. *)
Lemma doq_done_fails s hasStats msg q st t : done_at ctx = Some s → s ≤ t →
  ∃ e q' st' t', ResolveT net env lk ctx hasStats msg q st t = Some ((Err e, q', st', []), t') ∧ t ≤ t'.
Proof.
  intros Hs Ht. unfold ResolveT, exchangeOnceT, open_exchangeT. unfold bindT at 1 2 3.
  destruct (get_done s (6 * 0) q t Hs Ht) as ([c|] & q1 & t1 & -> & ? & _).
  2: { eexists _, _, _, _. split; [reflexivity|lia]. }
  unfold bindT at 1. rewrite (open_done s) by (done || lia). unfold bindT at 1, recycleConnT, lockT at 1, delay at 1, bindT at 1 2, retT at 1 2.
  unfold bindT at 1. match goal with |- context [getConnectionT net env lk ctx ?i ?p ?u] =>
    destruct (get_done s i p u Hs ltac:(lia)) as ([c'|] & q2 & t2 & -> & ? & _) end.
  2: { eexists _, _, _, _. split; [reflexivity|lia]. }
  unfold bindT at 1. rewrite (open_done s) by (done || lia). eexists _, _, _, _. split; [reflexivity|lia].
Qed.

End Done.

(** Its pooled connection is closed even so, together with the queries of others on it. *)
Lemma doq_done_closes {dl : DnsLib} net ctx s hasStats msg q st t c :
  done_at ctx = Some s → s ≤ t → conn q = Some c → time_sub t (lastUsed q) < 20 * second →
  ∃ e q' st', ResolveT net (λ _ q, q) (λ _, 0%N) ctx hasStats msg q st t = Some ((Err e, q', st', []), t) ∧ conn q' = None ∧ c ∈ closed q'.
Proof.
  intros Hs Ht Hc Ha. unfold ResolveT, exchangeOnceT, open_exchangeT. unfold bindT at 1 2 3.
  assert (G : getConnectionT net (λ _ q, q) (λ _, 0%N) ctx (6 * 0) q t = Some ((Some c, q), t)).
  { unfold getConnectionT, lockT, bindT, delay, nowT, retT. rewrite Hc. cbn [Z.of_N]. rewrite Z.add_0_r, (proj2 (Z.ltb_lt _ _)) by done. done. }
  rewrite G. unfold bindT at 1. rewrite (open_done net ctx s) by done. unfold bindT at 1, recycleConnT, lockT at 1, delay at 1, bindT at 1 2, retT at 1 2.
  unfold bindT at 1. cbn [Z.of_N]. rewrite Z.add_0_r. set (p := recycleConn c q).
  assert (Hp : conn p = None) by (unfold p, recycleConn; by rewrite bool_decide_eq_true_2).
  assert (G2 : getConnectionT net (λ _ q, q) (λ _, 0%N) ctx (6 * 0 + 2) p t = Some (dial_and_pool (λ _, false) t p, t)).
  { unfold getConnectionT, lockT, bindT, delay, nowT, retT. rewrite Hp. cbn [Z.of_N]. rewrite Z.add_0_r. by apply (dial_done _ _ s). }
  rewrite G2. eexists _, _, _. split; [reflexivity|]. split; [done|]. cbn. unfold p, recycleConn. cbn. by left.
Qed.

End TDoqProps.

(** ** DNS over TLS *)

Module TDot.
Import DotClient.

Record TNet := mkTNet { td_dial : nat → event bool; td_io : nat → nat → TStream }.

Definition dialTimeout : Z := 10 * second.

Section Client.
Context {dl : DnsLib} (net : TNet).
(** What other queries do to the client before the test of [isPooled] and before each
    exchange, and how long they hold [exchMu]. *)
Context (env : nat → TLSResolver → TLSResolver) (lk : nat → N).

(** The dial has its own time limit. *)
Definition getConnectionT (t : TLSResolver) : T (option nat * TLSResolver) :=
  match conn t with
  | Some c => retT (Some c, t)
  | None =>
      doT now ← nowT;
      doT ok ← await (Some (now + dialTimeout)) (td_dial net (dials t)) false;
      retT (getConnection (λ _, ok) t)
  end.

(** No deadline is set on the connection: its reads and writes wait for the peer. *)
Definition resolveOnceT (k : nat) (msg : Msg) (t : TLSResolver) : T (result Msg xerr * TLSResolver) :=
  doT g ← getConnectionT t;
  match g with
  | (None, t) => retT (Err EConnection, t)
  | (Some c, t) =>
      match pack_query msg with
      | Err e => retT (Err e, t)
      | Ok msgBytes =>
          doT x ← stream_exchangeT None (unread t) msgBytes (td_io net k c);
          retT (match snd x with
                | Err e => (Err e, closeConnection t)
                | Ok (resp, rest) =>
                    if negb (mId resp =? mId msg) then (Err (EIDMismatch (mId resp) (mId msg)), closeConnection t)
                    else (Ok resp, mkTLSR (conn t) rest (dials t) (closed t))
                end)
      end
  end.

(** The context is not used. *)
Definition ResolveT (ctx : Ctx) (hasStats : bool) (msg : Msg) (t : TLSResolver) (st : Stats)
    : T (result Msg xerr * TLSResolver * Stats) :=
  let st := if hasStats then inc DoTQueries st else st in
  let t := env 0%nat t in
  let pooledBefore := isPooled t in
  doT _ ← delay (lk 0%nat);
  doT x ← resolveOnceT 0 msg (env 1%nat t);
  match fst x with
  | Err _ =>
      if pooledBefore then
        doT _ ← delay (lk 1%nat);
        doT y ← resolveOnceT 1 msg (env 2%nat (snd x)); retT (fst y, snd y, st)
      else retT (fst x, snd x, st)
  | Ok _ => retT (fst x, snd x, st)
  end.

(** *** Properties *)

(** A peer that takes the query and then stays silent. *)
Definition silent (s : TStream) : Prop :=
  (∃ δ, ts_write_length s = Some (δ, true)) ∧ (∃ δ, ts_write_msg s = Some (δ, true)) ∧ ts_chunks s = [] ∧ ts_end s = None.

Lemma silent_blocks b s t : silent s → stream_exchangeT None "" b s t = None.
Proof.
  intros ((δ1 & H1) & (δ2 & H2) & H3 & H4). unfold stream_exchangeT, bindT. rewrite H1, H2. cbn. unfold read_replyT, bindT.
  by rewrite H3, H4.
Qed.

(** The DoT client does not keep its caller's deadline: on a pooled connection whose peer
    has gone silent a query never returns, whatever its context. *)
Theorem dot_ignores_deadline ctx hasStats msg t st b c now :
  pack_query msg = Ok b → env 1%nat (env 0%nat t) = t → conn t = Some c → unread t = "" → silent (td_io net 0 c) →
  ResolveT ctx hasStats msg t st now = None.
Proof.
  intros Hp He Hc Hu Hs. unfold ResolveT, bindT at 1, delay. cbv beta iota. rewrite He. unfold bindT at 1, resolveOnceT, getConnectionT.
  rewrite Hc. unfold bindT at 1, retT at 1. rewrite Hp. unfold bindT at 1. rewrite Hu. by rewrite silent_blocks.
Qed.

(** Every run that returns is a run of the untimed client. *)
Lemma dot_getConnectionT_spec t u g u' : getConnectionT t u = Some (g, u') →
  (dials t ≤ dials (snd g))%nat ∧ ∃ b, ∀ dok, TDoqProps.agree (dials t) (dials (snd g)) dok (λ _, b) → getConnection dok t = g.
Proof.
  unfold getConnectionT, getConnection. destruct (conn t) as [c|] eqn:Ec; [intros [= <- <-]; split; [done|by exists true]|].
  unfold bindT, nowT. destruct (await _ _ _ _) as [[ok u1]|]; [|done]. intros [= <- <-]. split; [destruct ok; cbn; lia|]. exists ok.
  intros dok Ha. rewrite (Ha (dials t)) by (destruct ok; cbn; lia). done.
Qed.

Lemma resolveOnceT_spec k msg t u x u' : resolveOnceT k msg t u = Some (x, u') →
  (dials t ≤ dials (snd x))%nat ∧
  ∃ b s, ∀ dok io, TDoqProps.agree (dials t) (dials (snd x)) dok (λ _, b) → (∀ c, io k c = s) → resolveOnce dok io k msg t = x.
Proof.
  unfold resolveOnceT, bindT. destruct (getConnectionT t u) as [[[g t1] u1]|] eqn:Eg; [|done].
  apply dot_getConnectionT_spec in Eg as (Hd & b & G). cbn [snd] in *. unfold resolveOnce.
  destruct g as [c|]; [|intros [= <- <-]; split; [done|]; exists b, (mkStream true true ""); intros dok io Ha _; by rewrite G].
  destruct (pack_query msg) as [q|e]; [|intros [= <- <-]; split; [done|]; exists b, (mkStream true true ""); intros dok io Ha _; by rewrite G].
  destruct (stream_exchangeT _ _ _ _ _) as [[[wl r] u2]|] eqn:Es; [|done]. apply stream_exchangeT_spec in Es as (wm & bytes & Es).
  intros [= <- <-]. cbn [snd].
  assert (Hx : ∀ y, y = match r with
      | Err e => (Err e, closeConnection t1)
      | Ok (resp, rest) => if negb (mId resp =? mId msg) then (Err (EIDMismatch (mId resp) (mId msg)), closeConnection t1)
                           else (Ok resp, mkTLSR (conn t1) rest (dials t1) (closed t1)) end → dials (snd y) = dials t1).
  { intros y ->. unfold closeConnection. destruct r as [[resp rest]|e]; [destruct (negb _)|]; cbn; by destruct (conn t1). }
  rewrite (Hx _ eq_refl). split; [done|]. exists b, (mkStream wl wm bytes). intros dok io Ha Hio. rewrite G by done.
  rewrite Hio. cbn [st_write_length st_write_msg st_bytes]. rewrite Es. by destruct r as [[resp rest]|e].
Qed.

Lemma dot_refines ctx hasStats msg t st u out u' : (∀ i t, (dials t ≤ dials (env i t))%nat) →
  ResolveT ctx hasStats msg t st u = Some (out, u') → ∃ dok io, Resolve dok io env hasStats msg t st = out.
Proof.
  intros Henv. unfold ResolveT, bindT at 1, delay at 1. cbv beta iota. unfold bindT at 1.
  destruct (resolveOnceT 0 _ _ _) as [[[r t1] u1]|] eqn:E0; [|done]. apply resolveOnceT_spec in E0 as (L0 & b0 & s0 & G0). cbn [fst snd] in *.
  pose proof (Henv 2%nat t1) as L1. unfold Resolve. cbv zeta. destruct r as [m|e].
  { intros [= <- <-]. exists (λ _, b0), (λ _ _, s0). by rewrite G0. }
  destruct (isPooled (env 0%nat t)); [|intros [= <- <-]; exists (λ _, b0), (λ _ _, s0); by rewrite G0].
  unfold bindT at 1, delay. cbv beta iota. unfold bindT. destruct (resolveOnceT 1 _ _ _) as [[[r2 t2] u2]|] eqn:E1; [|done].
  apply resolveOnceT_spec in E1 as (L2 & b1 & s1 & G1). cbn [fst snd] in *. intros [= <- <-].
  exists (TDoqProps.splice (dials t1) (λ _, b0) (λ _, b1)), (λ k _, match k with O => s0 | _ => s1 end).
  rewrite G0; [| |done].
  - rewrite G1; [done| |done]. intros m Hm. unfold TDoqProps.splice. by rewrite (proj2 (Nat.ltb_ge _ _)) by lia.
  - intros m Hm. unfold TDoqProps.splice. by rewrite (proj2 (Nat.ltb_lt _ _)) by lia.
Qed.

End Client.
End TDot.

(** ** DNS over HTTPS *)

Module TDoh.
Import DohClient.

(** A response: its status, the pieces of its body, and the end of the body, in order
    ([true]) or broken. *)
Record TResponse := mkTResponse { tr_status : Z; tr_chunks : list (N * string); tr_end : event bool }.

Definition clientTimeout : Z := 30 * second.

(** [io.ReadAll] of the limited body. *)
Fixpoint read_bodyT (stop : option Z) (buf : string) (chunks : list (N * string)) (fin : event bool) : T (option string) :=
  if blen buf >=? MaxMsgSize then retT (Some (take_bytes MaxMsgSize buf)) else
  match chunks with
  | [] => doT eof ← await stop fin false; retT (if eof then Some buf else None)
  | (δ, s) :: chunks' =>
      doT arrived ← await stop (Some (δ, true)) false;
      if arrived then read_bodyT stop (buf +:+ s) chunks' fin else retT None
  end.

Section Client.
Context {dl : DnsLib} (request : bool) (http : string → event (option TResponse)) (ctx : Ctx).

Definition ResolveT (hasStats : bool) (msg : Msg) (st : Stats) : T (result Msg xerr * Stats) :=
  let st := if hasStats then inc DoHQueries st else st in
  match Pack msg with
  | None => retT (Err EPack, st)
  | Some body =>
      if negb request then retT (Err ERequest, st) else
      doT now ← nowT;
      let stop := earlier (Some (now + clientTimeout)) (done_at ctx) in
      doT resp ← await stop (http body) None;
      match resp with
      | None => retT (Err ERequest, st)
      | Some r =>
          if negb (tr_status r =? 200) then retT (Err (EStatus (tr_status r)), st) else
          doT b ← read_bodyT stop "" (tr_chunks r) (tr_end r);
          retT (match b with
                | None => Err EReadBody
                | Some buf => match Unpack buf with None => Err EUnpack | Some m => Ok m end
                end, st)
      end
  end.

(** *** Properties *)

Lemma read_body_within d s stop buf chunks fin : stop = Some s → s ≤ d → within d 0 (read_bodyT stop buf chunks fin).
Proof.
  intros -> Hs. revert buf. induction chunks as [|[δ x] chunks IH]; intros buf; cbn [read_bodyT];
    (destruct (_ >=? _); [auto with rcvd|]); (apply within_bind0; [by apply within_await|]); [auto with rcvd|].
  intros []; [apply IH|auto with rcvd].
Qed.

Lemma read_body_spec stop status buf chunks fin t o t' : read_bodyT stop buf chunks fin t = Some (o, t') →
  ∃ body broken, read_limited (mkHTTPResp status (buf +:+ body) broken) = o.
Proof.
  revert buf t. induction chunks as [|[δ s] chunks IH]; intros buf t; cbn [read_bodyT]; (destruct (_ >=? _) eqn:E;
    [intros [= <- _]; exists "", false; unfold read_limited; cbn [h_body]; by rewrite sapp_nil_r, E|]).
  - unfold bindT. destruct (await _ _ _ _) as [[eof t1]|]; [|done]. intros [= <- _]. exists "", (negb eof).
    unfold read_limited. cbn [h_body h_broken]. rewrite sapp_nil_r, E. by destruct eof.
  - unfold bindT. destruct (await _ _ _ _) as [[[] t1]|]; [| |done].
    + intros (body & broken & H)%IH. exists (s +:+ body), broken. by rewrite <-sapp_assoc.
    + intros [= <- _]. exists "", true. unfold read_limited. cbn [h_body h_broken]. by rewrite sapp_nil_r, E.
Qed.

Lemma doh_refines hasStats msg st t out t' : ResolveT hasStats msg st t = Some (out, t') →
  ∃ do_request, Resolve request do_request hasStats msg st = out.
Proof.
  unfold ResolveT, Resolve. destruct (Pack msg) as [body|]; [|intros [= <- _]; by exists (λ _, None)].
  destruct (negb request); [intros [= <- _]; by exists (λ _, None)|]. unfold bindT, nowT. cbv zeta.
  destruct (await _ (http body) _ _) as [[[r|] t1]|]; [|intros [= <- _]; by exists (λ _, None)|done].
  destruct (negb _) eqn:Es; [intros [= <- _]; exists (λ _, Some (mkHTTPResp (tr_status r) "" false)); cbn [h_status]; by rewrite Es|].
  destruct (read_bodyT _ _ _ _ _) as [[b t2]|] eqn:Eb; [|done].
  apply (read_body_spec _ (tr_status r)) in Eb as (bd & broken & Eb). intros [= <- _]. exists (λ _, Some (mkHTTPResp (tr_status r) bd broken)).
  cbn [h_status]. rewrite Es. cbn [String.append] in Eb. rewrite Eb. by destruct b as [buf|]; [destruct (Unpack buf)|].
Qed.

(** The DoH client keeps its deadline. *)
Lemma doh_within D hasStats msg st : c_deadline ctx = Some D → within D 0 (ResolveT hasStats msg st).
Proof.
  intros HD. unfold ResolveT. destruct (Pack msg) as [body|]; [|auto with rcvd]. destruct (negb request); [auto with rcvd|]. apply within_now. intros now.
  destruct (earlier_le (c_deadline ctx) (c_cancel ctx) D HD) as (s & Hs & Hle). fold (done_at ctx) in Hs.
  destruct (earlier_le_r (Some (now + clientTimeout)) (done_at ctx) s Hs) as (s' & Hs' & Hle'). cbv zeta. rewrite Hs'.
  apply within_bind0; [apply within_await; lia|]. intros [r|]; [|auto with rcvd]. destruct (negb _); [auto with rcvd|].
  apply within_bind0; [eapply read_body_within; [done|lia]|auto with rcvd].
Qed.

(** With a context that is over, it fails at once. *)
Lemma doh_done_fails s hasStats msg st t : done_at ctx = Some s → s ≤ t →
  ∃ e st', ResolveT hasStats msg st t = Some ((Err e, st'), t).
Proof.
  intros Hs Ht. unfold ResolveT. destruct (Pack msg) as [body|]; [|eexists _, _; reflexivity]. destruct (negb request); [eexists _, _; reflexivity|].
  unfold bindT at 1, nowT. destruct (earlier_le_r (Some (t + clientTimeout)) (done_at ctx) s Hs) as (s' & -> & ?).
  unfold bindT at 1. rewrite await_late by lia. eexists _, _. reflexivity.
Qed.

End Client.
End TDoh.

(** ** The chain *)

(** A client of the chain with what the network and other goroutines do to it, call by
    call. *)
Inductive TTransport :=
| CDoQ (q : Doq.DoQResolver) (net : nat → TDoq.TNet) (env : nat → nat → Doq.DoQResolver → Doq.DoQResolver) (lk : nat → nat → N)
| CDoT (t : DotClient.TLSResolver) (net : nat → TDot.TNet) (env : nat → nat → DotClient.TLSResolver → DotClient.TLSResolver)
       (lk : nat → nat → N)
| CDoH (request : nat → bool) (http : nat → string → event (option TDoh.TResponse)).

Record TClient := mkTClient { tc_transport : TTransport; tc_stats : bool; tc_calls : nat }.

Section Chain.
Context {dl : DnsLib} (error_text : xerr → string) (ctx : Ctx).

Definition client_resolveT (msg : Msg) (c : TClient) (st : Stats) : T (result Msg xerr * TClient * Stats) :=
  let k := tc_calls c in
  let next t := mkTClient t (tc_stats c) (S k) in
  match tc_transport c with
  | CDoQ q net env lk =>
      doT x ← TDoq.ResolveT (net k) (env k) (lk k) ctx (tc_stats c) msg q st;
      let '(r, q, st, _) := x in retT (r, next (CDoQ q net env lk), st)
  | CDoT t net env lk =>
      doT x ← TDot.ResolveT (net k) (env k) (lk k) ctx (tc_stats c) msg t st;
      let '(r, t, st) := x in retT (r, next (CDoT t net env lk), st)
  | CDoH request http =>
      doT x ← TDoh.ResolveT (request k) (http k) ctx (tc_stats c) msg st;
      let '(r, st) := x in retT (r, next (CDoH request http), st)
  end.

Section Loop.
Context (f : FallbackResolver) (env : nat → list UpstreamState → list UpstreamState) (msg : Msg) (phase : Z) (n : nat).

(** The loop of [Resolve]: every upstream is given the same context. *)
Fixpoint resolve_loopT (todo i : nat) (triedPrimary : bool) (ups : list UpstreamState) (st : Stats) (calls : list nat)
    (cs : list TClient) : T (resolved * list TClient) :=
  match todo with
  | O => retT (mkResolved (Err ErrAllUpstreamsFailed) ups st calls, cs)
  | S todo' =>
      let ups := env (2 * i)%nat ups in
      match ups !! i, cs !! i with
      | Some u, Some c =>
          if bool_decide (uState u = StateDOWN) && (1 <? n)%nat
          then resolve_loopT todo' (S i) triedPrimary ups st calls cs
          else
            let calls := calls ++ [i] in
            doT x ← client_resolveT msg c st;
            let '(res, c, st) := x in
            let cs := <[i := c]> cs in
            let ups := env (2 * i + 1)%nat ups in
            let failed e := resolve_loopT todo' (S i) true (alter (recordError (phase2FailureThreshold f) (Some e) phase) i ups) st calls cs in
            match res with
            | Err e => failed (error_text e)
            | Ok r =>
                if negb (responseMatchesQuery msg r) then failed mismatch_text
                else retT (mkResolved (Ok r) (alter recordSuccess i ups)
                             (if (triedPrimary || (0 <? i)%nat) && hasStats f then inc UpstreamFallbacks st else st) calls, cs)
            end
      | _, _ => resolve_loopT todo' (S i) triedPrimary ups st calls cs
      end
  end.

End Loop.

Definition ResolveT (f : FallbackResolver) (env : nat → list UpstreamState → list UpstreamState) (msg : Msg) (st : Stats)
    (cs : list TClient) : T (resolved * list TClient) :=
  if negb (List.length (mQuestion msg) =? 1)%nat
  then retT (mkResolved (Err errResponseMismatch) (upstreams f) st [], cs)
  else
    doT now ← nowT;
    let n := List.length (upstreams f) in
    resolve_loopT f env msg (getCurrentPhase now f) n n 0 false (upstreams f) st [] cs.

(** *** Every run that returns is a run of the untimed chain *)

(** The part of an outcome that does not depend on the counters. *)
Definition same_run (r r' : resolved) : Prop :=
  r_result r' = r_result r ∧ r_upstreams r' = r_upstreams r ∧ r_calls r' = r_calls r.

Lemma loop_refines f env msg phase n todo i tried ups st calls cs r cs' t t' : (List.length cs = i + todo)%nat →
  resolve_loopT f env msg phase n todo i tried ups st calls cs t = Some ((r, cs'), t') →
  ∃ out, ∀ out' st', (∀ j, (i ≤ j)%nat → out' j = out j) → same_run r (resolve_loop f out' env msg phase n todo i tried ups st' calls).
Proof.
  revert i tried ups st calls cs t. induction todo as [|todo IH]; intros i tried ups st calls cs t Hlen; cbn [resolve_loopT].
  { intros [= <- <- <-]. exists (λ _, (None, None)). intros out' st' _. done. }
  assert (Hrec : ∀ o tried ups st calls cs t, (List.length cs = i + S todo)%nat →
    resolve_loopT f env msg phase n todo (S i) tried ups st calls cs t = Some ((r, cs'), t') →
    ∃ out, out i = o ∧ ∀ out' st', (∀ j, (i ≤ j)%nat → out' j = out j) → same_run r (resolve_loop f out' env msg phase n todo (S i) tried ups st' calls)).
  { intros o tried' ups' st' calls' cs1 t1 Hl H. apply IH in H as [out Hout]; [|lia]. exists (λ j, if (j =? i)%nat then o else out j).
    split; [by rewrite Nat.eqb_refl|]. intros out' st2 Ho. apply Hout. intros j ?. rewrite Ho by lia. by rewrite (proj2 (Nat.eqb_neq _ _)) by lia. }
  clear IH. cbn [resolve_loop]. set (ups1 := env (2 * i)%nat ups). destruct (cs !! i) as [c|] eqn:Ec.
  2: { apply lookup_ge_None in Ec. lia. }
  destruct (ups1 !! i) as [u|] eqn:Eu.
  2: { intros H. apply (Hrec (None, None)) in H as (out & _ & Hout); [|done]. exists out. intros out' st' Ho. by apply Hout. }
  destruct (bool_decide _ && _) eqn:Ed.
  { intros H. apply (Hrec (None, None)) in H as (out & _ & Hout); [|done]. exists out. intros out' st' Ho. by apply Hout. }
  unfold bindT at 1. destruct (client_resolveT msg c st t) as [[[[res c1] st1] t1]|]; [|done].
  assert (Hlen1 : (List.length (<[i := c1]> cs) = i + S todo)%nat) by by rewrite length_insert.
  destruct res as [m|e].
  - destruct (negb (responseMatchesQuery msg m)) eqn:Em.
    + intros H. apply (Hrec (Some m, None)) in H as (out & Hi & Hout); [|done]. exists out. intros out' st' Ho.
      rewrite (Ho i), Hi, Em by done. by apply Hout.
    + intros [= <- <- <-]. exists (λ _, (Some m, None)). intros out' st' Ho. by rewrite (Ho i), Em by done.
  - intros H. apply (Hrec (None, Some (error_text e))) in H as (out & Hi & Hout); [|done]. exists out. intros out' st' Ho.
    rewrite (Ho i), Hi by done. by apply Hout.
Qed.

(** The chain with its clients in time is the chain of the untimed model: every run
    that returns has the result, the health states and the upstreams contacted of a
    run of it, for some outcome of each upstream. *)
Theorem chain_refines f env msg st cs t r cs' t' : List.length cs = List.length (upstreams f) →
  ResolveT f env msg st cs t = Some ((r, cs'), t') →
  ∃ out, same_run r (Fallback.Resolve t f out env msg st).
Proof.
  intros Hl. unfold ResolveT, Fallback.Resolve. destruct (negb _); [intros [= <- <- <-]; by exists (λ _, (None, None))|].
  unfold bindT, nowT. intros [out H]%loop_refines; [|done]. exists out. by apply H.
Qed.

(** *** The deadline *)

(** A client that returns when the deadline of its caller passes, but for waiting at
    most [w] for others. *)
Definition keeps_deadline (D w : Z) (msg : Msg) (c : TClient) : Prop := ∀ st, within D w (client_resolveT msg c st).

Lemma within_fmap {A B} D w (c : T A) (g : A → B) : 0 ≤ w → within D w c → within D w (doT x ← c; retT (g x)).
Proof. intros Hw H. replace w with (w + 0) by lia. apply within_bind; [done..|]. auto with rcvd. Qed.

Lemma doq_keeps D L msg q net env lk b k : c_deadline ctx = Some D → (∀ i, Z.of_N (lk k i) ≤ L) →
  keeps_deadline D (10 * L) msg (mkTClient (CDoQ q net env lk) b k).
Proof.
  intros HD HL st. unfold client_resolveT. cbn [tc_transport tc_calls tc_stats].
  pose proof (HL 0%nat). replace (10 * L) with (10 * L + 0) by lia. apply within_bind; [lia|by apply TDoqProps.doq_within|].
  intros [[[r q'] st'] sent]. auto with rcvd.
Qed.

Lemma doh_keeps D msg request http b k : c_deadline ctx = Some D → keeps_deadline D 0 msg (mkTClient (CDoH request http) b k).
Proof.
  intros HD st. unfold client_resolveT. cbn [tc_transport tc_calls tc_stats].
  apply within_bind0; [by apply TDoh.doh_within|]. intros [r st']. auto with rcvd.
Qed.

Lemma loop_within D w f env msg phase n todo i tried ups st calls cs : 0 ≤ w →
  (∀ j c, (i ≤ j)%nat → cs !! j = Some c → keeps_deadline D w msg c) →
  within D (Z.of_nat todo * w) (resolve_loopT f env msg phase n todo i tried ups st calls cs).
Proof.
  intros Hw. revert i tried ups st calls cs. induction todo as [|todo IH]; intros i tried ups st calls cs Hc; cbn [resolve_loopT]; [auto with rcvd|].
  assert (Hrec : ∀ tried ups st calls cs', (∀ j, (S i ≤ j)%nat → cs' !! j = cs !! j) →
    within D (Z.of_nat todo * w) (resolve_loopT f env msg phase n todo (S i) tried ups st calls cs')).
  { intros tried' ups' st' calls' cs' Hcs. apply IH. intros j c Hj. rewrite Hcs by done. apply Hc. lia. }
  assert (Hskip : within D (Z.of_nat (S todo) * w) (resolve_loopT f env msg phase n todo (S i) tried (env (2 * i)%nat ups) st calls cs)).
  { eapply within_weaken, Hrec; [lia|done]. }
  destruct (env (2 * i)%nat ups !! i) as [u|]; [|done]. destruct (cs !! i) as [c|] eqn:Ec; [|done]. destruct (_ && _); [done|].
  replace (Z.of_nat (S todo) * w) with (w + Z.of_nat todo * w) by lia. apply within_bind; [done|by apply (Hc i)|].
  intros [[res c1] st1]. assert (Hk : ∀ j, (S i ≤ j)%nat → <[i:=c1]> cs !! j = cs !! j) by (intros j ?; by rewrite list_lookup_insert_ne by lia).
  destruct res as [m|e]; [|by apply Hrec]. destruct (negb _); [by apply Hrec|]. eapply within_weaken; [|apply within_ret]. lia.
Qed.

Lemma chain_within D w f env msg st cs : 0 ≤ w → Forall (keeps_deadline D w msg) cs →
  within D (Z.of_nat (List.length (upstreams f)) * w) (ResolveT f env msg st cs).
Proof.
  intros Hw Hc. unfold ResolveT. destruct (negb _); [eapply within_weaken; [|apply within_ret]; lia|].
  apply within_now. intros now. apply loop_within; [done|]. intros j c _. by apply Forall_lookup_1.
Qed.

(** A DoQ client whose pool nobody holds for more than [L] at a time, or a DoH client. *)
Definition timely (L : Z) (c : TClient) : Prop :=
  match tc_transport c with
  | CDoQ _ _ _ lk => ∀ k i, Z.of_N (lk k i) ≤ L
  | CDoT _ _ _ _ => False
  | CDoH _ _ => True
  end.

Lemma timely_keeps D L msg c : 0 ≤ L → c_deadline ctx = Some D → timely L c → keeps_deadline D (10 * L) msg c.
Proof.
  intros HL HD. destruct c as [[q net env lk|t net env lk|request http] b k]; unfold timely; cbn [tc_transport]; [|done|].
  - intros Hlk. by apply doq_keeps.
  - intros _ st. eapply within_weaken; [|by apply doh_keeps]. lia.
Qed.

(** *** A context that is over takes the healthy upstreams down *)

(** A client that fails, and does not return before it is called, once its context is over. *)
Definition obeys (msg : Msg) (c : TClient) : Prop :=
  ∀ st t s, done_at ctx = Some s → s ≤ t → ∃ e c' st' t', client_resolveT msg c st t = Some ((Err e, c', st'), t') ∧ t ≤ t'.

Lemma doq_obeys msg q net env lk b k : obeys msg (mkTClient (CDoQ q net env lk) b k).
Proof.
  intros st t s Hs Ht. unfold client_resolveT. cbn [tc_transport tc_calls tc_stats]. unfold bindT.
  destruct (TDoqProps.doq_done_fails (net k) (env k) (lk k) ctx s b msg q st t Hs Ht) as (e & q' & st' & t' & -> & ?).
  eexists _, _, _, _. by split.
Qed.

Lemma doh_obeys msg request http b k : obeys msg (mkTClient (CDoH request http) b k).
Proof.
  intros st t s Hs Ht. unfold client_resolveT. cbn [tc_transport tc_calls tc_stats]. unfold bindT.
  destruct (TDoh.doh_done_fails (request k) (http k) ctx s b msg st t Hs Ht) as (e & st' & ->). eexists _, _, _, _. by split.
Qed.

Lemma loop_poisoned f msg n todo i tried ups st calls cs t s :
  List.length cs = List.length ups → (List.length ups ≤ i + todo)%nat → done_at ctx = Some s → s ≤ t →
  (∀ j c, (i ≤ j)%nat → cs !! j = Some c → obeys msg c) →
  (∀ j u, (j < i)%nat → ups !! j = Some u → uState u = StateDOWN) →
  ∃ r cs' t', resolve_loopT f quiet msg 1 n todo i tried ups st calls cs t = Some ((r, cs'), t') ∧
    r_result r = Err ErrAllUpstreamsFailed ∧ Forall (λ u, uState u = StateDOWN) (r_upstreams r) ∧ List.length (r_upstreams r) = List.length ups.
Proof.
  intros Hl Hn Hs. revert i tried ups st calls cs t Hl Hn. induction todo as [|todo IH]; intros i tried ups st calls cs t Hl Hn Ht Hc Hd; cbn [resolve_loopT].
  { eexists _, _, _. split; [reflexivity|]. split_and!; [done| |done]. apply Forall_lookup. cbn [r_upstreams]. intros j u Hj. apply (Hd j u); [|done].
    apply lookup_lt_Some in Hj. lia. }
  assert (Hskip : ∀ u, ups !! i = Some u → uState u = StateDOWN → ∃ r cs' t', resolve_loopT f quiet msg 1 n todo (S i) tried ups st calls cs t = Some ((r, cs'), t') ∧
    r_result r = Err ErrAllUpstreamsFailed ∧ Forall (λ u, uState u = StateDOWN) (r_upstreams r) ∧ List.length (r_upstreams r) = List.length ups).
  { intros u Hu Hdn. apply IH; [done|lia|done| |]. - intros j c ?. apply Hc. lia.
    - intros j v Hj Hv. destruct (decide (j = i)) as [->|]; [congruence|]. apply (Hd j); [lia|done]. }
  unfold quiet at 1. destruct (ups !! i) as [u|] eqn:Eu.
  2: { apply IH; [done|lia|done| |]. - intros j c ?. apply Hc. lia. - intros j v Hj Hv. apply (Hd j); [|done].
       apply lookup_ge_None in Eu. apply lookup_lt_Some in Hv. lia. }
  destruct (cs !! i) as [c|] eqn:Ec; [|apply lookup_ge_None in Ec; apply lookup_lt_Some in Eu; lia].
  destruct (bool_decide _ && _) eqn:Ed; [apply andb_true_iff in Ed as [Ed%bool_decide_eq_true _]; by apply (Hskip u)|].
  destruct (Hc i c (le_n _) Ec st t s Hs Ht) as (e & c' & st' & t' & E & ?). unfold bindT at 1. rewrite E.
  change (quiet (2 * i + 1) (quiet (2 * i) ups)) with ups.
  destruct (IH (S i) true (alter (recordError (phase2FailureThreshold f) (Some (error_text e)) 1) i ups) st' (calls ++ [i]) (<[i:=c']> cs) t')
    as (r & cs' & t2 & -> & H1 & H2 & H3); [by rewrite length_insert, length_alter|rewrite length_alter; lia|lia| |
      |eexists _, _, _; split; [reflexivity|]; split_and!; [done|done|by rewrite H3, length_alter]].
  - intros j c1 Hj. rewrite list_lookup_insert_ne by lia. apply Hc. lia.
  - intros j v Hj Hv. destruct (decide (j = i)) as [->|].
    + rewrite list_lookup_alter_eq, Eu in Hv. by injection Hv as <-.
    + rewrite list_lookup_alter_ne in Hv by done. apply (Hd j); [lia|done].
Qed.

(** A context that is spent takes the whole chain down.  During the startup phase, if the
    first upstream fails no earlier than its context is over, every other upstream is
    called with that context, fails at once and is marked DOWN, healthy as it may be;
    from then on no upstream is contacted at all until a health check succeeds. *)
Theorem spent_context_poisons_chain f msg st cs t s c0 e c0' st0 t1 :
  List.length (mQuestion msg) = 1%nat → List.length cs = List.length (upstreams f) → (1 < List.length (upstreams f))%nat →
  getCurrentPhase t f = 1 → (∀ u, upstreams f !! 0%nat = Some u → uState u ≠ StateDOWN) →
  cs !! 0%nat = Some c0 → client_resolveT msg c0 st t = Some ((Err e, c0', st0), t1) → done_at ctx = Some s → s ≤ t1 →
  Forall (obeys msg) (tail cs) →
  ∃ r cs' t', ResolveT f quiet msg st cs t = Some ((r, cs'), t') ∧ r_result r = Err ErrAllUpstreamsFailed ∧
    Forall (λ u, uState u = StateDOWN) (r_upstreams r) ∧
    ∀ now out msg' st', List.length (mQuestion msg') = 1%nat →
      r_calls (Fallback.Resolve now (set_upstreams (r_upstreams r) f) out quiet msg' st') = [].
Proof.
  intros Hq Hl Hn Hp Hu Hc0 E Hs Ht1 Hob. unfold ResolveT. rewrite Hq. cbn [Nat.eqb negb]. unfold bindT at 1, nowT. rewrite Hp. cbv beta zeta.
  enough (H : ∃ r cs' t', resolve_loopT f quiet msg 1 (List.length (upstreams f)) (List.length (upstreams f)) 0 false (upstreams f) st [] cs t = Some ((r, cs'), t') ∧
    r_result r = Err ErrAllUpstreamsFailed ∧ Forall (λ u, uState u = StateDOWN) (r_upstreams r) ∧ List.length (r_upstreams r) = List.length (upstreams f)).
  { destruct H as (r & cs' & t' & H1 & H2 & H3 & H4). exists r, cs', t'. split_and!; [done..|]. intros now out msg' st' Hq'.
    rewrite Fallback.Resolve_all_down; [done|done|cbn; lia|]. intros u Hin. rewrite Forall_forall in H3. by apply H3. }
  destruct (upstreams f) as [|u ups] eqn:Eu; [cbn in Hn; lia|]. destruct cs as [|c cs]; [done|]. injection Hc0 as ->.
  cbn [List.length resolve_loopT]. unfold quiet at 1. cbn [lookup list_lookup].
  rewrite (bool_decide_eq_false_2 (uState u = StateDOWN)) by (by apply Hu). cbn [andb].
  unfold bindT at 1. rewrite E. cbn [list_insert insert alter list_alter].
  destruct (loop_poisoned f msg (S (List.length ups)) (List.length ups) 1 true (recordError (phase2FailureThreshold f) (Some (error_text e)) 1 u :: ups) st0 [0%nat] (c0' :: cs) t1 s)
    as (r & cs' & t' & E' & H1 & H2 & H3); [by injection Hl as Hl; cbn; rewrite Hl|cbn; lia|done|done| | |].
  - intros [|j] c' Hj Hc'; [lia|]. by apply (Forall_lookup_1 _ _ _ _ Hob Hc').
  - intros [|j] v Hj Hv; [|lia]. by injection Hv as <-.
  - exists r, cs', t'. split_and!; [exact E'|done|done|by rewrite H3].
Qed.

End Chain.

(** ** The contexts of the listeners *)

(** Mode 1, DoT and DoQ give a query five seconds. *)
Definition query_ctx (service : Ctx) (t : Z) : Ctx := WithTimeout t (5 * second) service.

(** DoH passes on the context of the request: no deadline, and cancelled at the instant
    the client goes away. *)
Definition request_ctx (gone : option Z) : Ctx := mkCtx None gone.

Lemma query_ctx_deadline service t : ∃ D, c_deadline (query_ctx service t) = Some D ∧ D ≤ t + 5 * second.
Proof. apply earlier_le. done. Qed.

(** C20: The call of the upstream chain for a query of Mode 1, DoT or DoQ ends in time:
    through a chain of DoQ and DoH upstreams, whatever the network and the other
    goroutines do to the health states, it returns, with an answer or an error, at most
    five seconds after it was made, but for ten waits for the mutex of its pool at each
    upstream.  (The bound is on the chain, which is called with the listener's context of
    five seconds; the validation that follows it has a budget of its own for every
    signature.) *)
Theorem query_in_time {dl : DnsLib} error_text service L f env msg st cs t : 0 ≤ L → Forall (timely L) cs →
  ∃ r cs' t', ResolveT error_text (query_ctx service t) f env msg st cs t = Some ((r, cs'), t') ∧
    t ≤ t' ≤ t + 5 * second + Z.of_nat (List.length (upstreams f)) * (10 * L).
Proof.
  intros HL Hcs. destruct (query_ctx_deadline service t) as (D & HD & HDt).
  destruct (chain_within error_text (query_ctx service t) D (10 * L) f env msg st cs ltac:(lia)) with (t := t) as ([r cs'] & t' & H & ?).
  { eapply Forall_impl; [exact Hcs|]. intros c. by apply timely_keeps. }
  exists r, cs', t'. split; [exact H|]. unfold second in *. lia.
Qed.

(** ** Examples and witnesses *)

Definition ms : N := 1000000.
Definition ex_ok (δ : N) : event bool := Some (δ, true).

(** A stream on which the reply is there after [δ], and one that stays silent. *)
Definition ex_reply (δ : N) : TStream := mkTStream (ex_ok 0) (ex_ok 0) [(δ, frame "r")] None.
Definition ex_mute : TStream := mkTStream (ex_ok 0) (ex_ok 0) [] None.

(** The pooled connection 0 is mute, later ones answer in 20 ms. *)
Definition ex_tnet : TDoq.TNet :=
  TDoq.mkTNet (λ _, ex_ok (30 * ms)) (λ _ _, ex_ok ms) (λ _ c, if (c =? 0)%nat then ex_mute else ex_reply (20 * ms)).
Definition ex_budget : Ctx := mkCtx (Some (5 * second)) None.

(** The query on a mute connection is answered 2.052 s later. *)
Example ex_stale_timing :
  option_map (λ x, (is_ok (fst (fst (fst (fst x)))), snd x))
    (TDoq.ResolveT (dl := ex_twire) ex_tnet (λ _ q, q) (λ _, 0%N) ex_budget true ex_tquery ex_pool (Statistics.New 0) 0)
  = Some (true, 2052000000).
Proof. vm_compute. done. Qed.

(** A healthy client with a pooled connection, one whose dials are never answered, and a
    DoT client whose peer has gone silent. *)
Definition ex_healthy : TClient :=
  mkTClient (CDoQ ex_pool (λ _, TDoq.mkTNet (λ _, ex_ok ms) (λ _ _, ex_ok ms) (λ _ _, ex_reply ms)) (λ _ _ q, q) (λ _ _, 0%N)) true 0.
Definition ex_unreachable : TClient :=
  mkTClient (CDoQ Doq.NewDoQResolver (λ _, TDoq.mkTNet (λ _, None) (λ _ _, None) (λ _ _, ex_mute)) (λ _ _ q, q) (λ _ _, 0%N)) true 0.
Definition ex_silent_dot : TClient :=
  mkTClient (CDoT (DotClient.mkTLSR (Some 0%nat) "" 1 []) (λ _, TDot.mkTNet (λ _, ex_ok ms) (λ _ _, ex_mute)) (λ _ _ t, t) (λ _ _, 0%N)) true 0.

Definition ex_two : FallbackResolver :=
  NewFallbackResolver 0 [mkUpstream "a (DoQ)" StateUP "" 0 0; mkUpstream "b (DoQ)" StateUP "" 0 0] true 300 3 30.

Abbreviation ex_run ctx cs :=
  (ResolveT (dl := ex_twire) (λ _, "error") ctx ex_two quiet ex_tquery (Statistics.New 0) cs 0).
Definition ex_view (x : option (resolved * list TClient * Z)) : option (bool * list State * list nat * Z) :=
  option_map (λ '(r, _, t), (is_ok (r_result r), uState <$> r_upstreams r, r_calls r, t)) x.

(** An unreachable first upstream uses up the five seconds: the second one, which would
    have answered in 2 ms, fails as well and both are DOWN. *)
Example unreachable_first_takes_all_down :
  ex_view (ex_run (query_ctx Background 0) [ex_unreachable; ex_healthy]) = Some (false, [StateDOWN; StateDOWN], [0; 1]%nat, 5 * second).
Proof. vm_compute. done. Qed.

(** A silent DoT upstream blocks the query for ever. *)
Example silent_dot_blocks_chain : ex_run (query_ctx Background 0) [ex_silent_dot; ex_healthy] = None.
Proof. vm_compute. done. Qed.

Example healthy_chain : ex_view (ex_run (query_ctx Background 0) [ex_healthy; ex_healthy]) = Some (true, [StateUP; StateUP], [0%nat], 2000000).
Proof. vm_compute. done. Qed.

(** A DoH client that sends a query and goes away takes down two healthy upstreams. *)
Lemma spent_context_poisons_chain_witness :
  ∃ r cs' t', ex_run (request_ctx (Some 0)) [ex_healthy; ex_healthy] = Some ((r, cs'), t') ∧
    r_result r = Err ErrAllUpstreamsFailed ∧ Forall (λ u, uState u = StateDOWN) (r_upstreams r).
Proof.
  destruct (client_resolveT (dl := ex_twire) (request_ctx (Some 0)) ex_tquery ex_healthy (Statistics.New 0) 0) as [[[[res c'] st'] t1]|] eqn:E.
  2: { vm_compute in E. discriminate E. }
  assert (Hr : ∃ e, res = Err e ∧ t1 = 0).
  { assert (H : option_map (λ x, (fst (fst (fst x)), snd x)) (client_resolveT (dl := ex_twire) (request_ctx (Some 0)) ex_tquery ex_healthy (Statistics.New 0) 0)
      = Some (Err EReconnect, 0)) by (vm_compute; reflexivity).
    rewrite E in H. injection H as -> ->. by exists EReconnect. }
  destruct Hr as (e & -> & ->).
  destruct (spent_context_poisons_chain (dl := ex_twire) (λ _, "error") (request_ctx (Some 0)) ex_two ex_tquery (Statistics.New 0) [ex_healthy; ex_healthy] 0 0
    ex_healthy e c' st' 0) as (r & cs' & t' & H1 & H2 & H3 & _); try reflexivity; try done.
  - cbn. lia.
  - intros u [= <-]. discriminate.
  - cbn. constructor; [|constructor]. apply doq_obeys.
  - exists r, cs', t'. split; [exact H1|]. split; [exact H2|exact H3].
Defined.

Lemma doq_refines_witness :
  ∃ out net' clk, Doq.Resolve (dl := ex_twire) net' (λ _ q, q) clk true ex_tquery ex_pool (Statistics.New 0) = out ∧ is_ok (fst (fst (fst out))) = true.
Proof.
  destruct (TDoq.ResolveT (dl := ex_twire) ex_tnet (λ _ q, q) (λ _, 0%N) ex_budget true ex_tquery ex_pool (Statistics.New 0) 0) as [[out t']|] eqn:E.
  2: { vm_compute in E. discriminate E. }
  destruct (TDoqProps.doq_refines (dl := ex_twire) ex_tnet (λ _ q, q) (λ _, 0%N) ex_budget (λ _ _, le_n _) true ex_tquery ex_pool (Statistics.New 0) 0 out t' E)
    as (net' & clk & H).
  exists out, net', clk. split; [exact H|].
  assert (Ho : option_map (λ x, is_ok (fst (fst (fst (fst x))))) (TDoq.ResolveT (dl := ex_twire) ex_tnet (λ _ q, q) (λ _, 0%N) ex_budget true ex_tquery ex_pool (Statistics.New 0) 0)
    = Some true) by (vm_compute; reflexivity).
  rewrite E in Ho. by injection Ho.
Defined.

Lemma stale_recovered_in_time_witness :
  ∃ r' out t', TDoq.ResolveT (dl := ex_twire) ex_tnet (λ _ q, q) (λ _, 0%N) ex_budget true ex_tquery ex_pool (Statistics.New 0) 0 = Some (out, t') ∧
    fst (fst (fst out)) = Ok r' ∧ 0 ≤ t' ≤ 4051000000.
Proof.
  assert (Hp : TDoqProps.prompt (dl := ex_twire) ex_tnet 1 "q" ex_up_answer 30000000 1000000 20000000).
  { constructor.
    - exists (30 * ms)%N. split; [reflexivity|]. unfold ms. lia.
    - intros slot. exists ms. split; [reflexivity|]. unfold ms. lia.
    - intros k t stop Hs. exists "", (t + 20000000). split; [|lia].
      change (TDoq.tn_stream ex_tnet k 1) with (ex_reply (20 * ms)). unfold ex_reply, ex_ok, ms.
      unfold stream_exchangeT. cbn [ts_write_length ts_write_msg].
      do 2 (erewrite bind_run by (apply await_in_time; intros s [= <-]; lia); cbn [negb]).
      rewrite (bind_run _ _ _ (Ok ("r", "")) (t + 20000000)); [reflexivity|]. unfold read_replyT. cbn [ts_chunks ts_end].
      erewrite bind_run; [|cbn -[await]; erewrite bind_run by (apply await_in_time; intros s [= <-]; lia); reflexivity].
      cbn -[Z.add]. by rewrite !Z.add_0_r. }
  destruct (TDoqProps.stale_recovered_in_time (dl := ex_twire) ex_tnet (5 * second) ex_tquery "q" ex_up_answer 30000000 1000000 20000000
    eq_refl eq_refl eq_refl ltac:(vm_compute; reflexivity) ltac:(vm_compute; reflexivity) true ex_pool (Statistics.New 0) 0 Hp ltac:(lia) ltac:(lia) ltac:(lia) ltac:(vm_compute; reflexivity))
    as (r' & out & t' & H1 & H2 & H3).
  exists r', out, t'. split; [exact H1|]. split; [exact H2|]. unfold TDoq.openStreamTimeout, TDoq.streamExchangeTimeout, second in H3. lia.
Defined.

Lemma dot_ignores_deadline_witness :
  TDot.ResolveT (dl := ex_twire) (TDot.mkTNet (λ _, ex_ok ms) (λ _ _, ex_mute)) (λ _ t, t) (λ _, 0%N) ex_budget true ex_tquery
    (DotClient.mkTLSR (Some 0%nat) "" 1 []) (Statistics.New 0) 0 = None.
Proof.
  apply (TDot.dot_ignores_deadline (dl := ex_twire) _ _ _ _ _ _ _ _ "q" 0%nat); try reflexivity.
  split; [by exists 0%N|]. split; [by exists 0%N|]. split; reflexivity.
Defined.

Lemma chain_refines_witness :
  ∃ out, is_ok (r_result (Fallback.Resolve (dl := ex_twire) 0 ex_two out quiet ex_tquery (Statistics.New 0))) = true.
Proof.
  destruct (ex_run (query_ctx Background 0) [ex_healthy; ex_healthy]) as [[[r cs'] t']|] eqn:E; [|vm_compute in E; discriminate E].
  destruct (chain_refines (dl := ex_twire) (λ _, "error") (query_ctx Background 0) ex_two quiet ex_tquery (Statistics.New 0) [ex_healthy; ex_healthy] 0 r cs' t' eq_refl E)
    as (out & H & _). exists out. rewrite H.
  pose proof healthy_chain as Hh. rewrite E in Hh. cbn [ex_view option_map] in Hh. by injection Hh.
Defined.

Lemma query_in_time_witness :
  ∃ r cs' t', ex_run (query_ctx Background 0) [ex_unreachable; ex_healthy] = Some ((r, cs'), t') ∧ 0 ≤ t' ≤ 5 * second.
Proof.
  destruct (query_in_time (dl := ex_twire) (λ _, "error") Background 0 ex_two quiet ex_tquery (Statistics.New 0) [ex_unreachable; ex_healthy] 0)
    as (r & cs' & t' & H & Ht); [lia|repeat constructor; intros k i; cbn; lia|].
  exists r, cs', t'. split; [exact H|]. cbn in Ht. unfold second in *. lia.
Defined.
