(* ===== verification/Verify.v ===== *)
(** * The verification verbs (internal/verify)

    [--verify-upstream], [--verify-pin], [--show-pin] and [--verify-self]: which
    addresses they dial with which TLS configuration, what they conclude, and the
    reports they print.  What a server at an address presents is the argument
    [server]; whether the handshake with it completes is computed by [handshake] of
    [Transports] from the configuration of the probe. *)

From S2P Require Import Prelude GoStrings GoBase64 GoNet GoFmt GoStrconv GoFloat GoTime Config Automation Cache Statistics Reports UpstreamEdns Service Transports.
From Stdlib Require Import Ascii String.
Open Scope string_scope.
Open Scope list_scope.
Open Scope Z_scope.

(** ** Data *)

Inductive PublicKey := ECDSAKey (curve : string) | RSAKey (bits : Z) | OtherKey.

(** An x509 certificate: what the handshake looks at, and what is printed. *)
Record XCert := mkXCert {
  x_cert : Cert; x_raw : string; x_Subject : string; x_Issuer : string; x_DNSNames : list string; x_IPs : list string;
  x_NotBefore : Z; x_NotAfter : Z; x_algorithm : string; x_key : PublicKey }.

Record ConnState := mkConnState {
  cs_Version : string; cs_CipherSuite : string; cs_Protocol : string; cs_Peer : list XCert; cs_Remote : string }.

Record CertInfo := mkCertInfo {
  ci_Subject : string; ci_Issuer : string; ci_SANs : list string; ci_NotBefore : Z; ci_NotAfter : Z;
  ci_KeyAlgorithm : string; ci_KeyDetail : string; ci_Fingerprint : string; ci_SPKIPin : string }.

Record UpstreamResult := mkResult {
  vr_Name : string; vr_Host : string; vr_Port : Z; vr_Protocol : string; vr_Success : bool; vr_Error : string;
  vr_TLSVersion : string; vr_ALPN : string; vr_CipherSuite : string; vr_Certs : list CertInfo;
  vr_ChainValid : bool; vr_HostnameValid : bool; vr_DaysRemaining : Z; vr_Pinned : bool; vr_Addr : string; vr_DialHost : string }.

Record selfEndpoint := mkSelfEndpoint { se_protocol : string; se_dialHost : string; se_port : Z; se_sni : string }.

Inductive showpin_error := ENoUpstreamsAtAll | EIndexRange (index : Z) (n : nat) | EProbe (e : string).

Section Verify.
Context (sum256 : string → string) (ca_ok : string → list Cert → bool).
(** What answers at an address, over TCP or QUIC: a server's side of the handshake
    or the text of an error. *)
Context (server : bool → string → result ConnState string) (untrusted : string).
(** The clock (read once), and the printable code points above U+00FF. *)
Context (now : Z) (printable : Z → bool).
Context (pin_error_text : pin_error → string).
(** The addresses of the local interfaces, if they can be listed. *)
Context (interfaces : option (list IP)).

(** ** Probing *)

Definition peer_certs (st : ConnState) : list Cert := x_cert <$> cs_Peer st.

(** A dial with a TLS configuration: the server answers and its certificate passes. *)
Definition dial_tls (quic : bool) (conf : TLSConf) (addr : string) : result ConnState string :=
  match server quic addr with
  | Err e => Err e
  | Ok st => if handshake ca_ok conf (peer_certs st) then Ok st else Err untrusted
  end.

Definition key_detail (c : XCert) : string :=
  match x_key c with ECDSAKey curve => curve | RSAKey bits => "RSA " +:+ Itoa bits | OtherKey => x_algorithm c end.

(** Unpadded base64, as [RawStdEncoding]. *)
Definition raw_base64 (s : string) : string :=
  of_chars (List.filter (λ a, negb (Ascii.eqb a "=")) (schars (Std.EncodeToString s))).

Definition fingerprint (c : XCert) : string := "SHA256:" +:+ raw_base64 (sum256 (x_raw c)).

Definition extractCerts (certs : list XCert) : list CertInfo :=
  (λ c, mkCertInfo (x_Subject c) (x_Issuer c) (x_DNSNames c ++ x_IPs c) (x_NotBefore c) (x_NotAfter c) (x_algorithm c)
          (key_detail c) (fingerprint c) (SPKIPin sum256 (c_spki (x_cert c)))) <$> certs.

Definition days_left (notAfter : Z) : Z := whole_days (time_sub notAfter now).

Definition buildResult (protocol host : string) (port : Z) (st : ConnState) : UpstreamResult :=
  let '(chain, name, days) :=
    match cs_Peer st with
    | [] => (false, false, 0)
    | leaf :: _ => (ca_ok host (peer_certs st), c_names (x_cert leaf) host, days_left (x_NotAfter leaf))
    end in
  mkResult "" host port protocol true "" (cs_Version st) (cs_Protocol st) (cs_CipherSuite st) (extractCerts (cs_Peer st))
    chain name days false "" "".

Definition set_Addr (a : string) (r : UpstreamResult) : UpstreamResult :=
  mkResult (vr_Name r) (vr_Host r) (vr_Port r) (vr_Protocol r) (vr_Success r) (vr_Error r) (vr_TLSVersion r) (vr_ALPN r)
    (vr_CipherSuite r) (vr_Certs r) (vr_ChainValid r) (vr_HostnameValid r) (vr_DaysRemaining r) (vr_Pinned r) a (vr_DialHost r).

Definition prefix_err {A} (p : string) (r : result A string) : result A string :=
  match r with Ok a => Ok a | Err e => Err (p +:+ e) end.

Definition probeDoT (host dialHost : string) (port : Z) : result UpstreamResult string :=
  try st ← prefix_err "TLS dial: " (dial_tls false (mkTLSConf host [] false false None) (JoinHostPort dialHost (Itoa port)));
  Ok (set_Addr (cs_Remote st) (buildResult "DoT" host port st)).

Definition probeDoQ (host dialHost : string) (port : Z) : result UpstreamResult string :=
  try st ← prefix_err "QUIC dial: " (dial_tls true (mkTLSConf host ["doq"] true false None) (JoinHostPort dialHost (Itoa port)));
  Ok (set_Addr (cs_Remote st) (buildResult "DoQ" host port st)).

Definition probeDoH (host dialHost : string) (port : Z) : result UpstreamResult string :=
  try st ← prefix_err "TLS dial: " (dial_tls false (mkTLSConf host [] false false None) (JoinHostPort dialHost (Itoa port)));
  Ok (set_Addr (cs_Remote st) (buildResult "DoH" host port st)).

Definition failed (e : string) : UpstreamResult :=
  mkResult "" "" 0 "" false e "" "" "" [] false false 0 false "" "".

(** The probe of one upstream; [None] is the use of a nil result when the upstream
    has no protocol. *)
Definition verify_one (up : UpstreamServer) : option UpstreamResult :=
  let dialHost := DialHost up in
  let probe :=
    if us_DoQ up then Some (probeDoQ (us_Host up) dialHost (us_Port up))
    else if us_DoT up then Some (probeDoT (us_Host up) dialHost (us_Port up))
    else if us_DoH up then Some (probeDoH (us_Host up) dialHost (us_Port up))
    else None in
  (λ p,
    let r := match p with Ok r => r | Err e => failed e end in
    mkResult (us_Name up) (us_Host up) (us_Port up) (vr_Protocol r) (vr_Success r) (vr_Error r) (vr_TLSVersion r) (vr_ALPN r)
      (vr_CipherSuite r) (vr_Certs r) (vr_ChainValid r) (vr_HostnameValid r) (vr_DaysRemaining r)
      (nonempty (us_PinnedPubKey up)) (vr_Addr r) dialHost) <$> probe.

Fixpoint verify_all (ups : list UpstreamServer) : option (list UpstreamResult) :=
  match ups with
  | [] => Some []
  | up :: ups' => match verify_one up, verify_all ups' with Some r, Some rs => Some (r :: rs) | _, _ => None end
  end.

(** ** Reports *)

Definition isLocalIP (ip : IP) : bool :=
  if IsLoopback ip || IsUnspecified ip then true else
  match interfaces with None => false | Some l => bool_decide (ip ∈ l) end.

Definition is_ip (h : string) : bool := match ParseIP h with Some _ => true | None => false end.

Definition upstreamProbedLine (dialHost remote : string) : string :=
  if String.eqb remote "" then "" else
  let target := if nonempty dialHost && negb (is_ip dialHost) then dialHost +:+ " -> " +:+ remote else remote in
  if match SplitHostPort remote with
     | Some (host, _) => match ParseIP host with Some ip => isLocalIP ip | None => false end
     | None => false
     end
  then "  Probed:         " +:+ target +:+ " (resolved to this host, not a remote server; check /etc/hosts)" +:+ nl
  else "  Probed:         " +:+ target +:+ " (remote; left this host)" +:+ nl.

Definition date (t : Z) : string := Format t "2006-01-02".

Definition protocol_line (r : UpstreamResult) : list string :=
  let p := vr_Protocol r in
  if String.eqb p "DoQ" then ["  Protocol:       QUIC + " +:+ vr_TLSVersion r +:+ " (DoQ, RFC 9250)" +:+ nl]
  else if String.eqb p "DoT" then ["  Protocol:       TCP + " +:+ vr_TLSVersion r +:+ " (DoT, RFC 7858)" +:+ nl]
  else if String.eqb p "DoH" then ["  Protocol:       TCP + " +:+ vr_TLSVersion r +:+ " (DoH, RFC 8484)" +:+ nl]
  else [].

(** The lines of the certificate at position [i]; [pin] says whether the pin of the
    leaf is printed. *)
Definition cert_lines (pin : bool) (i : nat) (c : CertInfo) : list string :=
  [nl; "  [" +:+ Itoa (Z.of_nat i) +:+ "] " +:+ (if (i =? 0)%nat then "Leaf" else "Intermediate") +:+ nl;
   "      Subject:      " +:+ ci_Subject c +:+ nl; "      Issuer:       " +:+ ci_Issuer c +:+ nl] ++
  (if bool_decide (ci_SANs c = []) then [] else ["      SANs:         " +:+ Join (ci_SANs c) ", " +:+ nl]) ++
  ["      Valid:        " +:+ date (ci_NotBefore c) +:+ " — " +:+ date (ci_NotAfter c) +:+ " (" +:+ Itoa (days_left (ci_NotAfter c))
     +:+ " days remaining)" +:+ nl;
   "      Key:          " +:+ ci_KeyAlgorithm c +:+ " " +:+ ci_KeyDetail c +:+ nl] ++
  (if (i =? 0)%nat then
     ["      Fingerprint:  " +:+ ci_Fingerprint c +:+ nl] ++
     (if pin then ["      SPKI pin:     " +:+ ci_SPKIPin c +:+ nl] else [])
   else []).

Definition tls_lines (pin : bool) (r : UpstreamResult) : list string :=
  protocol_line r ++
  (if nonempty (vr_ALPN r) then ["  ALPN:           " +:+ vr_ALPN r +:+ nl] else []) ++
  ["  Cipher Suite:   " +:+ vr_CipherSuite r +:+ nl] ++
  List.concat (imap (cert_lines pin) (vr_Certs r)) ++ [nl].

Definition result_lines (i : nat) (r : UpstreamResult) : list string :=
  ["Upstream " +:+ Itoa (Z.of_nat i) +:+ ": " +:+ vr_Name r +:+ " [" +:+ vr_Protocol r +:+ "] " +:+ vr_Host r +:+ ":" +:+ Itoa (vr_Port r) +:+ nl;
   upstreamProbedLine (vr_DialHost r) (vr_Addr r)] ++
  if negb (vr_Success r) then
    ["  Connection:  FAILED — " +:+ vr_Error r +:+ nl] ++
    (if vr_Pinned r then
       ["               (this upstream sets pinned_pubkey — it is verified by SPKI pin," +:+ nl;
        "                not CA chain; use --verify-pin to validate the configured pin)" +:+ nl] else []) ++ [nl]
  else
    tls_lines (vr_Pinned r) r ++
    [if vr_ChainValid r then "  Chain:     Verified against system CA bundle" +:+ nl
     else "  Chain:     FAILED — certificate chain does not verify" +:+ nl;
     if vr_HostnameValid r then "  Hostname:  " +:+ vr_Host r +:+ " matches certificate SANs" +:+ nl
     else "  Hostname:  FAILED — " +:+ vr_Host r +:+ " does not match certificate SANs" +:+ nl;
     if vr_DaysRemaining r >? 30 then "  Expiry:    " +:+ Itoa (vr_DaysRemaining r) +:+ " days remaining" +:+ nl
     else if vr_DaysRemaining r >? 0 then "  Expiry:    WARNING — only " +:+ Itoa (vr_DaysRemaining r) +:+ " days remaining" +:+ nl
     else "  Expiry:    EXPIRED" +:+ nl; nl].

Definition formatResults (configPath : string) (rs : list UpstreamResult) : string :=
  Join (["RCVD Upstream TLS Verification" +:+ nl; "  Config: " +:+ configPath +:+ nl; nl] ++ List.concat (imap result_lines rs)) "".

Definition VerifyUpstreams (configPath : string) (ups : list UpstreamServer) : option (string * bool) :=
  (λ rs, (formatResults configPath rs, forallb vr_Success rs)) <$> verify_all ups.

(** ** Pins *)

(** The configuration of the pin probe: no verification at all, the caller compares. *)
Definition pin_conf (up : UpstreamServer) : TLSConf :=
  if us_DoQ up then mkTLSConf (us_Host up) ["doq"] true true None else mkTLSConf (us_Host up) [] false true None.

(** The leaf or an error, and the address reached. *)
Definition probePinLeaf (up : UpstreamServer) : result XCert string * string :=
  let addr := JoinHostPort (DialHost up) (Itoa (us_Port up)) in
  match prefix_err (if us_DoQ up then "QUIC dial: " else "TLS dial: ") (dial_tls (us_DoQ up) (pin_conf up) addr) with
  | Err e => (Err e, "")
  | Ok st => (match cs_Peer st with [] => Err "no peer certificate presented" | leaf :: _ => Ok leaf end, cs_Remote st)
  end.

Inductive pin_verdict := PinNone | PinFailed (e : string) | PinOK (observed : string) | PinMismatch (observed : string).

(** The verdict on one upstream, and where the probe went. *)
Definition verify_pin (up : UpstreamServer) : pin_verdict * (string * string) :=
  if negb (nonempty (us_PinnedPubKey up)) then (PinNone, ("", "")) else
  match probePinLeaf up with
  | (Err e, remote) => (PinFailed e, (DialHost up, remote))
  | (Ok leaf, remote) =>
      (match ParsePin (us_PinnedPubKey up) with
       | Err e => PinFailed ("configured pin unparseable: " +:+ pin_error_text e)
       | Ok want =>
           let observed := SPKIPin sum256 (c_spki (x_cert leaf)) in
           if String.eqb (sum256 (c_spki (x_cert leaf))) want then PinOK observed else PinMismatch observed
       end, (DialHost up, remote))
  end.

Definition pin_ok_or_none (v : pin_verdict) : bool := match v with PinNone | PinOK _ => true | _ => false end.

Definition pin_protocol (up : UpstreamServer) : string :=
  if us_DoQ up then "DoQ" else if us_DoT up then "DoT" else if us_DoH up then "DoH" else "".

Definition pin_lines (i : nat) (up : UpstreamServer) : list string :=
  let '(v, (dialHost, remote)) := verify_pin up in
  ["Upstream " +:+ Itoa (Z.of_nat i) +:+ ": " +:+ (if nonempty (us_Name up) then us_Name up else "(unnamed)") +:+
     " [" +:+ pin_protocol up +:+ "] " +:+ us_Host up +:+ ":" +:+ Itoa (us_Port up) +:+ nl;
   upstreamProbedLine dialHost remote] ++
  match v with
  | PinNone => ["  Pin: (none configured) — use --verify-upstream for CA validation" +:+ nl]
  | PinFailed e => ["  Pin: FAILED — " +:+ e +:+ nl]
  | PinOK observed => ["  Pin: OK — matches configured pinned_pubkey" +:+ nl +:+ "       " +:+ observed +:+ nl]
  | PinMismatch observed =>
      ["  Pin: MISMATCH — server key does NOT match configured pinned_pubkey" +:+ nl;
       "       configured: " +:+ us_PinnedPubKey up +:+ nl; "       observed:   " +:+ observed +:+ nl]
  end ++ [nl].

Definition VerifyPins (configPath : string) (ups : list UpstreamServer) : string * bool :=
  (Join (["RCVD Upstream Pin Verification" +:+ nl; "  Config: " +:+ configPath +:+ nl +:+ nl] ++ List.concat (imap pin_lines ups) ++
         (if existsb (λ up, nonempty (us_PinnedPubKey up)) ups then []
          else ["No upstreams have a pinned_pubkey configured — nothing to verify." +:+ nl])) "",
   forallb (λ up, pin_ok_or_none (fst (verify_pin up))) ups).

Definition ShowPin (ups : list UpstreamServer) (index : Z) : result string showpin_error :=
  match ups with
  | [] => Err ENoUpstreamsAtAll
  | _ =>
      if (index <? 0) || (index >=? Z.of_nat (List.length ups)) then Err (EIndexRange index (List.length ups)) else
      match ups !! Z.to_nat index with
      | None => Err (EIndexRange index (List.length ups))
      | Some up =>
          match fst (probePinLeaf up) with
          | Err e => Err (EProbe e)
          | Ok leaf => Ok (SPKIPin sum256 (c_spki (x_cert leaf)))
          end
      end
  end.

(** ** --verify-self *)

(** [fmt.Sscanf(s, "%d", &port)] into a zero variable. *)
Fixpoint take_digits (l : list ascii) : list ascii :=
  match l with a :: l' => if is_digit a then a :: take_digits l' else [] | [] => [] end.

Definition scan_int (s : string) : Z :=
  let l := schars (trim_left s) in
  let '(neg, l) := match l with
    | "-"%char :: l' => (true, l') | "+"%char :: l' => (false, l') | _ => (false, l) end in
  match take_digits l with
  | [] => 0
  | ds => match digits_val 0 ds with
          | Some v => let v := if neg : bool then - v else v in if (min_int64 <=? v) && (v <=? max_int64) then v else 0
          | None => 0
          end
  end.

Definition self_endpoint (addr proto : string) : list selfEndpoint :=
  if String.eqb addr "" then [] else
  match SplitHostPort addr with
  | None => []
  | Some (host, portStr) =>
      let '(dialHost, sni) :=
        match ParseIP host with
        | Some ip => (if IsUnspecified ip then "127.0.0.1" else host, "localhost")
        | None => (host, host)
        end in
      [mkSelfEndpoint proto dialHost (scan_int portStr) sni]
  end.

Definition selfEndpoints (cfg : UpstreamConfig) : list selfEndpoint :=
  self_endpoint (u_ListenDoH cfg) "DoH" ++ self_endpoint (u_ListenDoT cfg) "DoT" ++ self_endpoint (u_ListenDoQ cfg) "DoQ".

Definition dialTCPSelf (protocol serverName addr : string) (port : Z) (alpn : list string) : result UpstreamResult string :=
  try st ← prefix_err "TLS dial: " (dial_tls false (mkTLSConf serverName alpn false true None) addr);
  Ok (buildResult protocol serverName port st).

Definition probeSelf (protocol serverName dialHost : string) (port : Z) : result UpstreamResult string :=
  let addr := JoinHostPort dialHost (Itoa port) in
  if String.eqb protocol "DoQ" then
    try st ← prefix_err "QUIC dial: " (dial_tls true (mkTLSConf serverName ["doq"] true true None) addr);
    Ok (buildResult "DoQ" serverName port st)
  else if String.eqb protocol "DoH" then dialTCPSelf "DoH" serverName addr port ["h2"]
  else dialTCPSelf "DoT" serverName addr port [].

Definition self_server_name (override dohHostname : string) (ep : selfEndpoint) : string :=
  if nonempty override then override
  else if String.eqb (se_protocol ep) "DoH" && nonempty dohHostname then dohHostname else se_sni ep.

Definition self_result (override dohHostname : string) (ep : selfEndpoint) : UpstreamResult :=
  let serverName := self_server_name override dohHostname ep in
  let r := match probeSelf (se_protocol ep) serverName (se_dialHost ep) (se_port ep) with Ok r => r | Err e => failed e end in
  mkResult ("Mode-2 " +:+ se_protocol ep) serverName (se_port ep) (vr_Protocol r) (vr_Success r) (vr_Error r) (vr_TLSVersion r)
    (vr_ALPN r) (vr_CipherSuite r) (vr_Certs r) (vr_ChainValid r) (vr_HostnameValid r) (vr_DaysRemaining r) (vr_Pinned r)
    (JoinHostPort (se_dialHost ep) (Itoa (se_port ep))) (vr_DialHost r).

Fixpoint common_name (parts : list string) : string :=
  match parts with
  | [] => ""
  | p :: ps => let p := TrimSpace p in if HasPrefix p "CN=" then TrimPrefix p "CN=" else common_name ps
  end.

Definition issuerCommonName (issuer : string) : string := common_name (Split issuer ",").

Definition classifySelfCert (certs : list CertInfo) : string :=
  match certs with
  | [] => "unknown (no certificate presented)"
  | leaf :: _ =>
      if String.eqb (ci_Subject leaf) (ci_Issuer leaf) && (List.length certs =? 1)%nat then
        "SELF-SIGNED (tls_cert_autogen or self-signed file) — NOT a public-CA cert; " +:+
        "browsers/standards clients will reject it unless they trust it explicitly"
      else
        let issuer := issuerCommonName (ci_Issuer leaf) in
        let issuer := if String.eqb issuer "" then ci_Issuer leaf else issuer in
        "CA-ISSUED — issuer " +:+ Quote printable issuer +:+ " (chain length " +:+ Itoa (Z.of_nat (List.length certs)) +:+ ")"
  end.

Definition probeScope (addr : string) : string :=
  match SplitHostPort addr with
  | None => ""
  | Some (host, _) =>
      match ParseIP host with
      | None => "(hostname listen address, resolved before dialing)"
      | Some ip =>
          if IsLoopback ip then "(loopback, this host's own listener; never left this host)"
          else if isLocalIP ip then "(local interface address, this host's own listener; never left this host)"
          else "(not a local interface address)"
      end
  end.

Definition self_lines (r : UpstreamResult) : list string :=
  ["Endpoint: " +:+ vr_Name r +:+ "   (SNI " +:+ vr_Host r +:+ ", port " +:+ Itoa (vr_Port r) +:+ ")" +:+ nl] ++
  (if nonempty (vr_Addr r) then ["  Probed:         " +:+ vr_Addr r +:+ " " +:+ probeScope (vr_Addr r) +:+ nl] else []) ++
  if negb (vr_Success r) then
    ["  Connection:  FAILED — " +:+ vr_Error r +:+ nl;
     "  (is this instance running with this Mode-2 listener enabled?)" +:+ nl +:+ nl]
  else
    tls_lines true r ++
    let expires := match vr_Certs r with [] => "" | c :: _ => date (ci_NotAfter c) +:+ " " end in
    ["  Cert source:  " +:+ classifySelfCert (vr_Certs r) +:+ nl;
     if vr_DaysRemaining r >? 30 then "  Expiry:       " +:+ expires +:+ "(" +:+ Itoa (vr_DaysRemaining r) +:+ " days remaining)" +:+ nl
     else if vr_DaysRemaining r >? 0
     then "  Expiry:       WARNING — " +:+ expires +:+ "(only " +:+ Itoa (vr_DaysRemaining r) +:+ " days remaining)" +:+ nl
     else "  Expiry:       EXPIRED " +:+ TrimSpace expires +:+ nl; nl].

Definition formatSelfResults (configPath dohHostname : string) (rs : list UpstreamResult) : string :=
  Join (["RCVD Self (Mode-2) TLS Verification" +:+ nl; "  Config: " +:+ configPath +:+ nl] ++
    (if nonempty dohHostname
     then ["  DoH hostname: " +:+ dohHostname +:+ " (from tls_automation; used as the DoH SNI unless -server-name is given)" +:+ nl] else []) ++
    ["  Probes THIS instance's listeners for the cert it presents to clients." +:+ nl;
     "  Self means self: every probe dials this host's own listen address and never" +:+ nl;
     "  leaves this host. It does not test DNS, firewall, NAT, or reachability from" +:+ nl;
     "  the internet; run a client from another host for that." +:+ nl; nl] ++ List.concat (self_lines <$> rs)) "".

Definition VerifySelf (configPath : string) (cfg : UpstreamConfig) (serverNameOverride dohHostname : string) : string * bool :=
  let head := "RCVD Self (Mode-2) TLS Verification" +:+ nl +:+ "  Config: " +:+ configPath +:+ nl +:+ nl in
  if negb (u_Enabled cfg) then
    (head +:+ "  Mode 2 (upstream service) is not enabled in this config — nothing to verify." +:+ nl +:+
     "  (--verify-self inspects the cert THIS instance presents on its DoH/DoT/DoQ listeners.)" +:+ nl, false)
  else
    match selfEndpoints cfg with
    | [] => (head +:+ "  Mode 2 is enabled but no listener address is configured (listen_doh/listen_dot/listen_doq)." +:+ nl, false)
    | eps =>
        let rs := self_result serverNameOverride dohHostname <$> eps in
        (formatSelfResults configPath dohHostname rs, forallb vr_Success rs)
    end.

End Verify.

(** ** Properties *)

(** Whether the live client of an upstream accepts a peer. *)
Definition live_conf (sum256 : string → string) (up : UpstreamServer) : TLSConf :=
  let ep := mkEndpoint (us_Host up) (DialHost up) (us_Port up) (us_PinnedPubKey up) false in
  if us_DoQ up then doq_tls sum256 ep else dot_tls sum256 ep.

Definition set_pin (pin : string) (up : UpstreamServer) : UpstreamServer :=
  mkUpstreamServer (us_Name up) (us_Host up) (us_IP up) (us_Port up) (us_DoQ up) (us_DoT up) (us_DoH up) (us_DoHPath up) (us_DoH3 up) pin.

Section Props.
Context (sum256 : string → string) (ca_ok : string → list Cert → bool).
Context (server : bool → string → result ConnState string) (untrusted : string).
Context (pin_error_text : pin_error → string) (interfaces : option (list IP)).

Local Abbreviation verify_pin := (verify_pin sum256 ca_ok server untrusted pin_error_text).
Local Abbreviation probePinLeaf := (probePinLeaf ca_ok server untrusted).
Local Abbreviation VerifyPins := (VerifyPins sum256 ca_ok server untrusted pin_error_text interfaces).
Local Abbreviation ShowPin := (ShowPin sum256 ca_ok server untrusted).

Definition upstream_addr (up : UpstreamServer) : string := JoinHostPort (DialHost up) (Itoa (us_Port up)).

(** The pin probe accepts any certificate. *)
Lemma probePinLeaf_spec up leaf remote :
  probePinLeaf up = (Ok leaf, remote) ↔
  ∃ st rest, server (us_DoQ up) (upstream_addr up) = Ok st ∧ cs_Peer st = leaf :: rest ∧ remote = cs_Remote st.
Proof.
  unfold Verify.probePinLeaf, dial_tls, upstream_addr.
  assert (Hh : ∀ peer, handshake ca_ok (pin_conf up) peer = true) by (intros; unfold handshake, pin_conf; by destruct (us_DoQ up)).
  destruct (server (us_DoQ up) _) as [st|e]; cbn; [rewrite Hh; cbn|naive_solver].
  destruct (cs_Peer st) as [|l rest] eqn:E.
  - split; [done|]. intros (? & ? & [= <-] & H & _). by rewrite E in H.
  - split; [intros [= <- <-]; by exists st, rest|]. intros (? & ? & [= <-] & H & ->). rewrite E in H. by injection H as <- <-.
Qed.

Lemma verify_pin_ok up : nonempty (us_PinnedPubKey up) = true →
  (∃ o, fst (verify_pin up) = PinOK o) ↔
  ∃ st leaf rest, server (us_DoQ up) (upstream_addr up) = Ok st ∧ cs_Peer st = leaf :: rest ∧
    ParsePin (us_PinnedPubKey up) = Ok (sum256 (c_spki (x_cert leaf))).
Proof.
  intros Hp. unfold Verify.verify_pin. rewrite Hp. cbn [negb].
  destruct (probePinLeaf up) as [[leaf|e] remote] eqn:E.
  - apply probePinLeaf_spec in E as (st & rest & Es & Ep & ->). rewrite Es. cbn [fst].
    destruct (ParsePin (us_PinnedPubKey up)) as [want|e]; [|split; [by intros [o [=]]|by intros (? & ? & ? & _ & _ & [=])]].
    destruct (String.eqb_spec (sum256 (c_spki (x_cert leaf))) want) as [<-|Hne].
    + split; [intros _; by exists st, leaf, rest|intros _; by eexists].
    + split; [by intros [o [=]]|]. intros (st' & l' & r' & [= <-] & Ep' & [= ->]). rewrite Ep in Ep'. by injection Ep' as <- <-.
  - split; [by intros [o [=]]|]. intros (st & leaf & rest & Es & Ep & _).
    assert (E' : probePinLeaf up = (Ok leaf, cs_Remote st)) by (apply probePinLeaf_spec; eauto). congruence.
Qed.

(** What --verify-pin says is what the resolver does, up to the name: for a server
    that answers, the live client accepts it exactly when the report says OK and the
    certificate is valid for the configured host name (which the report does not check). *)
Theorem verify_pin_vs_live up st :
  is_ok (ParsePin (us_PinnedPubKey up)) = true → server (us_DoQ up) (upstream_addr up) = Ok st →
  handshake ca_ok (live_conf sum256 up) (peer_certs st) = true ↔
  (∃ o, fst (verify_pin up) = PinOK o) ∧
  (∃ leaf rest, cs_Peer st = leaf :: rest ∧ c_names (x_cert leaf) (us_Host up) = true).
Proof.
  intros Hok Hs. assert (Hne : nonempty (us_PinnedPubKey up) = true).
  { destruct (us_PinnedPubKey up); [by vm_compute in Hok|done]. }
  rewrite verify_pin_ok by done. unfold live_conf, doq_tls, dot_tls.
  assert (Hl : handshake ca_ok (if us_DoQ up
      then pinnedTLSConfig sum256 (mkTLSConf (us_Host up) ["doq"] true false None) (us_Host up) (us_PinnedPubKey up)
      else pinnedTLSConfig sum256 (mkTLSConf (us_Host up) [] true false None) (us_Host up) (us_PinnedPubKey up)) (peer_certs st) = true ↔
    match ParsePin (us_PinnedPubKey up) with
    | Ok want => ∃ leaf rest, peer_certs st = leaf :: rest ∧ c_names leaf (us_Host up) = true ∧ sum256 (c_spki leaf) = want
    | Err _ => ca_ok (us_Host up) (peer_certs st) = true
    end) by (destruct (us_DoQ up); by apply pinned_accepts).
  cbn [e_host e_pin]. rewrite Hl. clear Hl. destruct (ParsePin (us_PinnedPubKey up)) as [want|]; [|done].
  unfold peer_certs. destruct (cs_Peer st) as [|leaf rest] eqn:Ep; cbn; [naive_solver|]. split.
  - intros (? & ? & [= <- <-] & Hn & <-). split; [by exists st, leaf, rest|by exists leaf, rest].
  - intros [(st' & l' & r' & Hs' & Ep' & [= ->]) (? & ? & [= <- <-] & Hn)]. rewrite Hs in Hs'. injection Hs' as <-.
    rewrite Ep in Ep'. injection Ep' as <- <-. by exists (x_cert leaf), (x_cert <$> rest).
Qed.

(** The pin printed by --show-pin is of use: it is printed for exactly the upstream
    asked for, it passes the check of the configuration, and with it --verify-pin
    reports a match as long as the server keeps its key. *)
Theorem show_pin_bootstrap path ups index pin :
  (∀ s, String.length (sum256 s) = pinSHA256Len) → ShowPin ups index = Ok pin →
  ∃ up, 0 ≤ index ∧ ups !! Z.to_nat index = Some up ∧ validatePinnedPubKey pin = None ∧
    us_PinnedPubKey (set_pin pin up) ≠ "" ∧ snd (VerifyPins path [set_pin pin up]) = true.
Proof.
  intros Hsum. unfold Verify.ShowPin. destruct ups as [|u0 ups']; [done|].
  destruct ((index <? 0) || _) eqn:Er; [done|]. bool_prop. destruct ((u0 :: ups') !! Z.to_nat index) as [up|] eqn:Eu; [|done].
  destruct (probePinLeaf up) as [[leaf|e] remote] eqn:Ep; cbn [fst]; [|done]. intros [= <-].
  set (pin := SPKIPin sum256 (c_spki (x_cert leaf))).
  assert (Hpin : ParsePin pin = Ok (sum256 (c_spki (x_cert leaf)))) by (by apply ParsePin_SPKIPin).
  assert (Hne : nonempty pin = true) by (unfold pin, SPKIPin; done).
  exists up. split_and!; [done|done| | |].
  - unfold validatePinnedPubKey. rewrite Hpin. by destruct (String.eqb pin "").
  - cbn. by apply nonempty_true.
  - unfold Verify.VerifyPins. cbn [snd forallb]. rewrite andb_true_r.
    apply probePinLeaf_spec in Ep as (st & rest & Es & Epe & _).
    destruct (proj2 (verify_pin_ok (set_pin pin up) Hne)) as [o ->]; [|done]. by exists st, leaf, rest.
Qed.

(** A pin is never read from an upstream that does not exist. *)
Lemma ShowPin_range ups index : index < 0 ∨ Z.of_nat (List.length ups) ≤ index →
  ∃ e, ShowPin ups index = Err e ∧ match e with EProbe _ => False | _ => True end.
Proof.
  intros H. unfold Verify.ShowPin. destruct ups as [|u ups]; [by eexists|].
  assert ((index <? 0) || (index >=? Z.of_nat (List.length (u :: ups))) = true) as ->; [|by eexists].
  apply orb_true_iff. rewrite Z.ltb_lt, Z.geb_le. lia.
Qed.

Context (now : Z).
Local Abbreviation VerifyUpstreams := (VerifyUpstreams sum256 ca_ok server untrusted now interfaces).
Local Abbreviation verify_one := (verify_one sum256 ca_ok server untrusted now).

Lemma verify_one_spec up : us_DoQ up = true ∨ us_DoT up = true ∨ us_DoH up = true →
  ∃ r, verify_one up = Some r ∧
    (vr_Success r = true ↔ ∃ st, server (us_DoQ up) (upstream_addr up) = Ok st ∧ ca_ok (us_Host up) (peer_certs st) = true).
Proof.
  intros Hp. unfold Verify.verify_one, probeDoQ, probeDoT, probeDoH, dial_tls, upstream_addr.
  assert (Hh : ∀ l b st, handshake ca_ok (mkTLSConf (us_Host up) l b false None) (peer_certs st) = ca_ok (us_Host up) (peer_certs st))
    by (intros; unfold handshake; cbn; by rewrite andb_true_r).
  destruct (us_DoQ up) eqn:Eq; [|destruct (us_DoT up) eqn:Et; [|destruct (us_DoH up) eqn:Eh; [|naive_solver]]];
    (destruct (server _ _) as [st|e]; cbn; [rewrite Hh; destruct (ca_ok (us_Host up) (peer_certs st)) eqn:Ec; cbn|];
     eexists; (split; [reflexivity|]); cbn; unfold buildResult; destruct_with_eqn (cs_Peer st) || idtac; cbn; naive_solver).
Qed.

(** With a validated configuration --verify-upstream never runs into an upstream
    without a protocol, and it exits successfully exactly when every upstream answers
    on its first protocol with a certificate that the authorities vouch for. *)
Theorem verify_upstreams_sound os StringToType requireToken path c cfg :
  Config.validate os StringToType requireToken c = Ok cfg →
  ∃ text ok, VerifyUpstreams path (cfg_Upstreams cfg) = Some (text, ok) ∧
    (ok = true ↔ ∀ up, up ∈ cfg_Upstreams cfg →
       ∃ st, server (us_DoQ up) (upstream_addr up) = Ok st ∧ ca_ok (us_Host up) (peer_certs st) = true).
Proof.
  intros [Ha ->]%validate_sound. destruct (ac_upstreams _ _ _ _ Ha) as [_ Hok]. rewrite <-normalize_upstreams in Hok.
  unfold Verify.VerifyUpstreams.
  assert (H : ∃ rs, verify_all sum256 ca_ok server untrusted now (cfg_Upstreams (normalize c)) = Some rs ∧
    (forallb vr_Success rs = true ↔ ∀ up, up ∈ cfg_Upstreams (normalize c) →
       ∃ st, server (us_DoQ up) (upstream_addr up) = Ok st ∧ ca_ok (us_Host up) (peer_certs st) = true)).
  { induction Hok as [|up ups Hup Hok IH]; [exists []; split; [done|]; split; [intros _ up Hin; by apply elem_of_nil in Hin|done]|].
    destruct IH as (rs & Hrs & Hiff). destruct (verify_one_spec up (uo_proto _ Hup)) as (r & Hr & Hs).
    exists (r :: rs). cbn [verify_all]. rewrite Hr, Hrs. split; [done|]. cbn [forallb]. rewrite andb_true_iff, Hs, Hiff. split.
    - intros [H1 H2] u [->|Hu]%elem_of_cons; [done|by apply H2].
    - intros Hall. split; [apply Hall; left|]. intros u Hu. apply Hall. by right. }
  destruct H as (rs & -> & H). eexists _, _. split; [reflexivity|exact H].
Qed.

End Props.

Lemma self_endpoint_literal addr proto ep : literal_addr addr → ep ∈ self_endpoint addr proto →
  (se_dialHost ep = "" ∨ is_Some (ParseAddr (se_dialHost ep))) ∧ (is_Some (ParseIP (se_dialHost ep)) → se_sni ep = "localhost").
Proof.
  unfold self_endpoint. destruct (String.eqb_spec addr "") as [->|Hne]; [by intros _ ?%elem_of_nil|].
  intros [?|(host & port & -> & _ & Hh)]; [done|]. destruct (ParseIP host) as [ip|] eqn:E; intros ->%list_elem_of_singleton; cbn.
  - split; [|done]. right. destruct (IsUnspecified ip); [vm_compute; by eexists|]. rewrite (ParseIP_ParseAddr _ _ E). by eexists.
  - split; [done|]. rewrite E. by intros [? [=]].
Qed.

(** With a validated configuration --verify-self needs no name resolution: every
    endpoint it dials is an address literal, or a port on this host, and an endpoint
    with an address is probed under a name that the self-signed certificate of the
    service is valid for. *)
Theorem verify_self_no_lookup os StringToType requireToken c cfg ep env v st o s cert :
  Config.validate os StringToType requireToken c = Ok cfg → ep ∈ selfEndpoints (cfg_UpstreamService cfg) →
  Service.New env (cfg_UpstreamService cfg) (cfg_TLSAutomation cfg) (lo_Timestamp (cfg_Logging cfg)) v st o = Ok s →
  sv_tls s = SelfSigned cert →
  (se_dialHost ep = "" ∨ is_Some (ParseAddr (se_dialHost ep))) ∧
  (is_Some (ParseIP (se_dialHost ep)) → cert_covers cert (se_sni ep)).
Proof.
  intros [Ha ->]%validate_sound Hep Hn Ht. destruct (selfsigned_covers _ _ _ _ _ _ _ _ _ Hn Ht) as [Hl _].
  pose proof (ac_listen _ _ _ _ Ha) as Hls. unfold listen_addrs in Hls.
  rewrite normalize_service in Hep. apply Forall_cons_iff in Hls as [_ Hls]. apply Forall_cons_iff in Hls as [H1 Hls].
  apply Forall_cons_iff in Hls as [H2 Hls]. apply Forall_cons_iff in Hls as [H3 _].
  assert (H : (se_dialHost ep = "" ∨ is_Some (ParseAddr (se_dialHost ep))) ∧ (is_Some (ParseIP (se_dialHost ep)) → se_sni ep = "localhost")).
  { unfold selfEndpoints in Hep. rewrite !elem_of_app in Hep. destruct Hep as [Hep|[Hep|Hep]];
      (eapply self_endpoint_literal; [|exact Hep]); done. }
  destruct H as [Hd Hs]. split; [done|]. intros Hi. by rewrite (Hs Hi).
Qed.

(** ** Examples and witnesses *)

Definition ex_leaf : XCert :=
  mkXCert (mkCert "key" (λ h, String.eqb h "dns.example")) "der" "CN=dns.example" "CN=R11,O=Let's Encrypt,C=US"
    ["dns.example"] ["192.0.2.1"] 0 (40 * day) "ECDSA" (ECDSAKey "P-256").
Definition ex_conn : ConnState := mkConnState "TLS 1.3" "TLS_AES_128_GCM_SHA256" "doq" [ex_leaf] "192.0.2.1:853".
Definition ex_servers (quic : bool) (addr : string) : result ConnState string :=
  if quic && String.eqb addr "192.0.2.1:853" then Ok ex_conn else Err "connection refused".
Definition ex_up (pin : string) : UpstreamServer :=
  mkUpstreamServer "Example" "dns.example" "192.0.2.1" 853 true false false "" false pin.
Definition ex_sha (s : string) : string := "0123456789abcdef0123456789abcdef".

Abbreviation ex_show := (ShowPin ex_sha (λ _ _, true) ex_servers "x509: unknown authority").
Abbreviation ex_verify_pin := (verify_pin ex_sha (λ _ _, true) ex_servers "x509: unknown authority" (λ _, "bad")).

Example ex_fingerprint : fingerprint ex_sha ex_leaf = "SHA256:MDEyMzQ1Njc4OWFiY2RlZjAxMjM0NTY3ODlhYmNkZWY".
Proof. vm_compute. done. Qed.

Example classify_examples :
  let info s i := mkCertInfo s i [] 0 0 "" "" "" "" in
  (classifySelfCert (λ _, true) [], classifySelfCert (λ _, true) [info "CN=a" "O=X, CN=R11"], issuerCommonName "O=X")
  = ("unknown (no certificate presented)", "CA-ISSUED — issuer " +:+ Quote (λ _, true) "R11" +:+ " (chain length 1)", "").
Proof. vm_compute. done. Qed.

(** A listen address without a host is dialled on this host, but the report calls it
    a host name, and the probe sends no server name. *)
Example empty_host_self :
  self_endpoint ":443" "DoH" = [mkSelfEndpoint "DoH" "" 443 ""] ∧
  probeScope None (JoinHostPort "" "443") = "(hostname listen address, resolved before dialing)".
Proof. vm_compute. done. Qed.

(** A service name as port is probed on port 0. *)
Example service_port_self : self_endpoint "[::1]:https" "DoH" = [mkSelfEndpoint "DoH" "::1" 0 "localhost"].
Proof. vm_compute. done. Qed.

Example probed_lines :
  (upstreamProbedLine None "dns.example" "127.0.0.1:853", upstreamProbedLine None "9.9.9.9" "9.9.9.9:853", upstreamProbedLine None "x" "")
  = ("  Probed:         dns.example -> 127.0.0.1:853 (resolved to this host, not a remote server; check /etc/hosts)" +:+ nl,
     "  Probed:         9.9.9.9:853 (remote; left this host)" +:+ nl, "").
Proof. vm_compute. done. Qed.

(** A pin that matches is reported OK although the live client refuses the name. *)
Example pin_ok_wrong_name :
  let up := mkUpstreamServer "Example" "other.example" "192.0.2.1" 853 true false false "" false (SPKIPin ex_sha "key") in
  fst (ex_verify_pin up) = PinOK (SPKIPin ex_sha "key") ∧
  handshake (λ _ _, true) (live_conf ex_sha up) (peer_certs ex_conn) = false.
Proof. vm_compute. done. Qed.

Lemma verify_pin_vs_live_witness :
  handshake (λ _ _, true) (live_conf ex_sha (ex_up (SPKIPin ex_sha "key"))) (peer_certs ex_conn) = true.
Proof.
  apply (verify_pin_vs_live ex_sha (λ _ _, true) ex_servers "x509: unknown authority" (λ _, "bad") (ex_up (SPKIPin ex_sha "key")) ex_conn);
    [vm_compute; reflexivity|vm_compute; reflexivity|].
  split; [eexists; vm_compute; reflexivity|]. exists ex_leaf, []. split; vm_compute; reflexivity.
Defined.

Lemma show_pin_bootstrap_witness :
  ∃ up, [ex_up ""] !! 0%nat = Some up ∧ us_PinnedPubKey (set_pin (SPKIPin ex_sha "key") up) ≠ "".
Proof.
  destruct (show_pin_bootstrap ex_sha (λ _ _, true) ex_servers "x509: unknown authority" (λ _, "bad") None "/etc/rcvd.toml" [ex_up ""] 0
    (SPKIPin ex_sha "key")) as (up & _ & H1 & _ & H2 & _); [reflexivity|vm_compute; reflexivity|].
  exists up. split; [exact H1|exact H2].
Defined.

Lemma verify_upstreams_sound_witness :
  ∃ text ok, VerifyUpstreams ex_sha (λ _ _, true) ex_servers "x509: unknown authority" 0 None "/etc/rcvd.toml"
    (cfg_Upstreams (normalize (ex_config ""))) = Some (text, ok).
Proof.
  destruct (verify_upstreams_sound ex_sha (λ _ _, true) ex_servers "x509: unknown authority" None 0 ex_os ex_types false "/etc/rcvd.toml"
    (ex_config "") (normalize (ex_config ""))) as (text & ok & H & _); [vm_compute; reflexivity|]. exists text, ok. exact H.
Defined.

Definition ex_self_cfg : Config :=
  mkConfig false (mkResolverConfig false "") (mkUpstreamConfig true "0.0.0.0:443" "" "" false [] [] false true "" "")
    [ex_upstream] (mkDNSSECConfig false false "") (mkBlocklistConfig false [] [] "") (mkAllowlistConfig false "" [] [])
    (mkCacheConfig true "" 0 0 0 0 0 false) (mkMetricsConfig false "") (mkLoggingConfig "" "" "" "") (mkFallbackConfig 0 0 0 0 0)
    (mkTLSAutomationConfig false [] "" "" false "" "" "" "" "" "").

Lemma verify_self_no_lookup_witness :
  cert_covers (generateSelfSignedCert ["127.0.0.1"; "localhost"] 0) "localhost".
Proof.
  refine (proj2 (verify_self_no_lookup ex_os ex_types true ex_self_cfg (normalize ex_self_cfg) (mkSelfEndpoint "DoH" "127.0.0.1" 443 "localhost")
    ex_env true true ex_range
    (mkService (cfg_UpstreamService ex_self_cfg) "" None true true ex_range (SelfSigned (generateSelfSignedCert ["127.0.0.1"; "localhost"] 0)) None None None)
    _ _ _ _ _) _); try (vm_compute; reflexivity).
  - left.
  - eexists. vm_compute. reflexivity.
Defined.
