(* ===== verification/Wiring.v ===== *)
(** * Start-up and wiring (cmd/rcvd/main.go)

    How the daemon is put together from a loaded configuration: the chain of
    clients, the cache, the lists, the validator with its anchors, the policy that
    both modes share, and the order in which things may fail.  Also the choice of
    the command line verb, the status lines and the reload callback.  What the
    operating system lets happen is the record [StartEnv]. *)

From S2P Require Import Prelude GoStrings GoBufio GoNet GoFmt Config DnsMsg Cache Blocklist Allowlist Statistics.
From S2P Require Import Reports Policy Fallback Edns Interfaces Server Dnssec Anchors DnssecChain EndToEnd Mode2 Automation Service Transports Lifecycle.
From Stdlib Require Import Ascii String.
Open Scope string_scope.
Open Scope list_scope.
Open Scope Z_scope.

(** ** The chain of clients *)

Inductive Client := ClientDoQ | ClientDoT | ClientDoH (h : DohClient.HTTPResolver).

(** An entry of the chain: its state, the endpoint of its client, and the client. *)
Record ChainEntry := mkEntryC { ce_state : UpstreamState; ce_endpoint : Endpoint; ce_client : Client }.

Inductive chain_error := EDoH (name : string) (e : DohClient.doh_error) | EEmptyChain.

Definition new_state (name : string) : UpstreamState := mkUpstream name StateUP "" 0 0.

Section Chain.
Context (sum256 : string → string) (url_parse : string → option string) (h2_ok : string → bool) (hasStats : bool).

Definition endpoint_of (up : UpstreamServer) : Endpoint :=
  mkEndpoint (us_Host up) (DialHost up) (us_Port up) (us_PinnedPubKey up) hasStats.

(** The entries of one upstream: DoQ, then DoT, then DoH. *)
Definition upstream_entries (up : UpstreamServer) : result (list ChainEntry) chain_error :=
  let ep := endpoint_of up in
  let baseName := if String.eqb (us_Name up) "" then us_Host up else us_Name up in
  let doq := if us_DoQ up then [mkEntryC (new_state (baseName +:+ " (DoQ)")) ep ClientDoQ] else [] in
  let dot := if us_DoT up then [mkEntryC (new_state (baseName +:+ " (DoT)")) ep ClientDoT] else [] in
  if us_DoH up then
    let dohPath := if String.eqb (us_DoHPath up) "" then "/dns-query" else us_DoHPath up in
    match DohClient.NewHTTPResolver sum256 url_parse (h2_ok (us_Host up)) ep dohPath (us_DoH3 up) with
    | Err e => Err (EDoH baseName e)
    | Ok h =>
        let label := if us_DoH3 up then " (DoH3)" else " (DoH)" in
        Ok (doq ++ dot ++ [mkEntryC (new_state (baseName +:+ label)) ep (ClientDoH h)])
    end
  else Ok (doq ++ dot).

Fixpoint chain_loop (ups : list UpstreamServer) : result (list ChainEntry) chain_error :=
  match ups with
  | [] => Ok []
  | up :: ups' => try es ← upstream_entries up; try rest ← chain_loop ups'; Ok (es ++ rest)
  end.

Definition buildUpstreamChain (ups : list UpstreamServer) : result (list ChainEntry) chain_error :=
  try chain ← chain_loop ups;
  match chain with [] => Err EEmptyChain | _ => Ok chain end.

(** The TLS configuration a client connects with. *)
Definition entry_tls (e : ChainEntry) : TLSConf :=
  match ce_client e with
  | ClientDoQ => doq_tls sum256 (ce_endpoint e)
  | ClientDoT => dot_tls sum256 (ce_endpoint e)
  | ClientDoH h => DohClient.tlsConf h
  end.

End Chain.

(** ** Status lines *)

Definition upstreamConnInfo (f : FallbackResolver) : list UpstreamConnInfo :=
  let status := GetStatus f in
  omap (λ name, match status !! name with
                | None => None
                | Some s => Some (mkConnInfo name (sState s) (sErrors s) (sLastError s))
                end) (UpstreamNames f).

(** ** Start-up *)

Definition cache_options (c : CacheConfig) : Options :=
  mkOptions (cc_Enabled c) (cc_MaxSize c) (cc_TTLMin c) (cc_TTLMax c) (cc_NegTTLMax c) (cc_ServeStaleMaxS c).

Record StartEnv := mkStartEnv {
  se_now : Z;
  se_open_log : string → bool;               (* the log file can be opened *)
  se_open : string → option Reader;          (* the files of the lists *)
  se_crypto : DnssecLib;
  se_parseTime : string → option Z; se_xml : string → option (list keyDigestXML); se_zone : string → list RR * bool;
  se_rootAnchorsXML : string;                (* the file embedded in the binary *)
  se_readFile : string → option string;
  se_ids : nat → Z; se_fetch : nat → Msg → option Msg;
  se_bind : Mode1.BindEnv;                   (* the sockets of Mode 1 *)
  se_service : Service.Env;
  se_order : gmap string CacheEntry → list (string * CacheEntry) }.

Inductive start_error :=
| ELogFile | ENoUpstreams | ENoEncrypted | EAllowlist (e : load_error) | EChainBuild (e : chain_error)
| ETickerPanic | ENoModeEnabled | EMode1Start (e : Mode1.start_err) | EServiceNew (e : svc_error) | EServiceStart (e : svc_error).

Record Daemon := mkDaemon {
  d_cache : Cache; d_blocklist : Blocklist; d_allowlist : option Allowlist;
  d_validator : VConfig * VState; d_stats : bool; d_chain : list ChainEntry; d_resolver : FallbackResolver;
  d_policy : Policy; d_server : option Server; d_service : option Service }.

Definition loadAllowlistAtStartup (open : string → option Reader) (a : AllowlistConfig) : result (option Allowlist) load_error :=
  if negb (al_Enabled a) then Ok None else
  match LoadFiles open Allowlist.New (al_Files a) with
  | (Some e, _) => Err e
  | (None, a) => Ok (Some a)
  end.

(** The validator as main configures it: a failure to load anchors is a warning,
    and the validator then has none. *)
Definition start_validator (env : StartEnv) (d : DNSSECConfig) : VConfig * VState :=
  let '(v, st) := DnssecChain.New (se_now env) (se_ids env) (ds_Enabled d) (ds_ValidateAll d) in
  if negb (ds_Enabled d) then (v, st) else
  let anchors :=
    if nonempty (ds_RootKeyFile d)
    then LoadTrustAnchorsFromFile (cl := se_crypto env) (se_parseTime env) (se_xml env) (se_zone env) (se_readFile env)
           (se_now env) (ds_RootKeyFile d)
    else DefaultTrustAnchors (se_parseTime env) (se_xml env) (se_rootAnchorsXML env) (se_now env) in
  let v := match anchors with Ok ((_ :: _) as l) => SetTrustAnchors l v | _ => v end in
  (SetResolver (Some (se_fetch env)) v, st).

Section Start.
Context (sum256 : string → string) (url_parse : string → option string) (h2_ok : string → bool).
Context (StringToType : string → option Z).

(** The shared policy. *)
Definition start_policy (cfg : Config) (a : option Allowlist) (b : Blocklist) : Policy :=
  let p := Policy.New a (Some b) (cfg_StatsEnabled cfg) in
  if al_Enabled (cfg_Allowlist cfg) then
    SetQTypes (match QTypeCodes StringToType (cfg_Allowlist cfg) with Ok l => l | Err _ => [] end) p
  else p.

Definition start_mode1 (env : StartEnv) (cfg : Config) (b : Blocklist) (p : Policy) : result (option Server) start_error :=
  if rc_Enabled (cfg_Resolver cfg) then
    let srv := Server.SetPolicy (Some p) (NewServer (Some b) true (cfg_StatsEnabled cfg) (se_order env)) in
    match Mode1.Start (se_bind env) (rc_Enabled (cfg_Resolver cfg)) (rc_Listen (cfg_Resolver cfg)) Mode1.idle with
    | (Some e, _) => Err (EMode1Start e)
    | (None, _) => Ok (Some srv)
    end
  else Ok None.

Definition start_mode2 (env : StartEnv) (cfg : Config) (p : Policy) : result (option Service) start_error :=
  if u_Enabled (cfg_UpstreamService cfg) then
    match Service.New (se_service env) (cfg_UpstreamService cfg) (cfg_TLSAutomation cfg) (lo_Timestamp (cfg_Logging cfg)) true
            (cfg_StatsEnabled cfg) (se_order env) with
    | Err e => Err (EServiceNew e)
    | Ok svc =>
        match Service.Start (se_service env) (Service.SetPolicy (Some p) svc) with
        | (Some e, _) => Err (EServiceStart e)
        | (None, svc) => Ok (Some svc)
        end
    end
  else Ok None.

Definition open_log (env : StartEnv) (file : string) : bool :=
  if String.eqb file "stdout" || String.eqb file "stderr" || String.eqb file "" then true else se_open_log env file.

Definition startup (env : StartEnv) (cfg : Config) : result Daemon start_error :=
  if negb (open_log env (lo_File (cfg_Logging cfg))) then Err ELogFile else
  if bool_decide (cfg_Upstreams cfg = []) then Err ENoUpstreams else
  if negb (existsb (λ up, us_DoQ up || us_DoT up || us_DoH up) (cfg_Upstreams cfg)) then Err ENoEncrypted else
  let dnsCache := Cache.New (cache_options (cfg_Cache cfg)) in
  let dnsBlocklist := Blocklist.New (bl_Enabled (cfg_Blocklists cfg)) in
  match loadAllowlistAtStartup (se_open env) (cfg_Allowlist cfg) with
  | Err e => Err (EAllowlist e)
  | Ok dnsAllowlist =>
      let dnsValidator := start_validator env (cfg_DNSSEC cfg) in
      let stats := cfg_StatsEnabled cfg in
      match buildUpstreamChain sum256 url_parse h2_ok stats (cfg_Upstreams cfg) with
      | Err e => Err (EChainBuild e)
      | Ok chain =>
          let fb := cfg_Fallback cfg in
          match Fallback.Start (NewFallbackResolver (se_now env) (ce_state <$> chain) stats
                  (fb_Phase1DurationS fb) (fb_Phase2FailureThreshold fb) (fb_HealthCheckIntervalS fb)) with
          | None => Err ETickerPanic
          | Some resolv =>
              let dnsPolicy := start_policy cfg dnsAllowlist dnsBlocklist in
              if negb (rc_Enabled (cfg_Resolver cfg)) && negb (u_Enabled (cfg_UpstreamService cfg)) then Err ENoModeEnabled else
              try srv ← start_mode1 env cfg dnsBlocklist dnsPolicy;
              try svc ← start_mode2 env cfg dnsPolicy;
              Ok (mkDaemon dnsCache dnsBlocklist dnsAllowlist dnsValidator stats chain resolv dnsPolicy srv svc)
          end
      end
  end.

End Start.

(** ** What the reports are given *)

Definition instance_info (absConfig socketPath : string) (cfg : Config) (c : Cache) : InstanceInfo :=
  let mode := if nonempty (cc_Type (cfg_Cache cfg)) then cc_Type (cfg_Cache cfg) else "standard" in
  let on := cc_Enabled (cfg_Cache cfg) in
  mkInstanceInfo absConfig socketPath (rc_Enabled (cfg_Resolver cfg)) (u_Enabled (cfg_UpstreamService cfg))
    (ds_Enabled (cfg_DNSSEC cfg)) (al_Enabled (cfg_Allowlist cfg))
    (if on then mode else "") (on && NegativeCachingEnabled c)
    (if on && ServeStaleEnabled c then cc_ServeStaleMaxS (cfg_Cache cfg) else 0).

Definition audit_info (absConfig socketPath : string) (cfg : Config) (c : Cache) : AuditInfo :=
  let u := cfg_UpstreamService cfg in
  mkAuditInfo absConfig socketPath (rc_Enabled (cfg_Resolver cfg)) (rc_Listen (cfg_Resolver cfg))
    (match SplitHostPort (rc_Listen (cfg_Resolver cfg)) with Some (host, _) => is_loopback_host host | None => false end)
    (u_Enabled u) (u_ListenDoH u) (u_DoH3 u) (u_ListenDoT u) (u_ListenDoQ u)
    (cc_Enabled (cfg_Cache cfg)) (cc_Type (cfg_Cache cfg)) (NegativeCachingEnabled c) (cc_NegTTLMax (cfg_Cache cfg))
    (if ServeStaleEnabled c then cc_ServeStaleMaxS (cfg_Cache cfg) else 0).

(** ** The background load of the blocklists *)

(** One source after another, each counted when it loaded. *)
Section Background.
Context (open : string → option Reader) (fetch : string → option (Z * Reader)) (hasStats : bool).

Definition count_file (st : Statistics.Stats) : Statistics.Stats := if hasStats then AddBlocklistFile st else st.

Definition load_one (acc : Blocklist * Statistics.Stats) (path : string) : Blocklist * Statistics.Stats :=
  let '(b, st) := acc in
  match Blocklist.LoadFiles open b [path] with
  | (_, None, b) => (b, count_file st)
  | (_, Some _, b) => (b, st)
  end.

Definition background_load (c : BlocklistConfig) (b : Blocklist) (st : Statistics.Stats) : Blocklist * Statistics.Stats :=
  if negb (bl_Enabled c) then (b, st) else
  let '(b, st) := fold_left load_one (bl_Files c) (b, st) in
  match bl_UpdateURLs c with
  | [] => (b, st)
  | urls =>
      match Blocklist.LoadURLs fetch b urls with
      | (_, Some _, b) => (b, st)
      | (_, None, b) => (b, fold_left (λ st _, count_file st) urls st)
      end
  end.

End Background.

(** ** Reloading the allowlist *)

Definition warnShadowedAllowlist (a : option Allowlist) (b : option Blocklist) : string := ShadowSummary (Shadowed a b).

(** The callback of the control socket: the reply or the error text, and the live set. *)
Definition allowlistReload (err_text : load_error → string) (open : string → option Reader) (files : list string)
    (b : Blocklist) (a : Allowlist) : result string string * Allowlist :=
  match LoadFiles open a files with
  | (Some e, a) => (Err ("allowlist reload FAILED, previous list still active: " +:+ err_text e), a)
  | (None, a) =>
      let reply := "allowlist reloaded: " +:+ Itoa (Allowlist.Size a) +:+ " entries from " +:+
                   Itoa (Z.of_nat (List.length files)) +:+ " file(s)" in
      let warn := warnShadowedAllowlist (Some a) (Some b) in
      (Ok (if String.eqb warn "" then reply else reply +:+ "; warning: " +:+ warn), a)
  end.

(** The exit code the command line picks from the reply of the daemon. *)
Definition reload_exit_code (reply : option string) : Z :=
  match reply with
  | None => 1
  | Some output => if HasPrefix output "allowlist reloaded" then 0 else 1
  end.

(** ** The command line *)

Record Flags := mkFlags {
  fl_configPath : string; fl_version : bool; fl_help : bool; fl_stats : bool; fl_audit : bool;
  fl_blocklistReload : bool; fl_allowlistReload : bool; fl_verifyUpstream : bool; fl_verifyPin : bool;
  fl_showPin : Z; fl_verifySelf : bool; fl_serverName : string }.

Inductive verb :=
| VUnexpected (extra hint : string) | VVersion | VHelp | VStats | VAudit | VBlocklistReload | VAllowlistReload
| VVerifyUpstream | VShowPin (index : Z) | VVerifyPin | VVerifySelf | VRun.

Definition configHintPath (extra configPath : string) : string :=
  if HasSuffix extra ".toml" then extra else configPath.

(** The first action flag in the order of main, after the check for stray arguments. *)
Definition choose_verb (f : Flags) (args : list string) : verb :=
  match args with
  | extra :: _ => VUnexpected extra (configHintPath extra (fl_configPath f))
  | [] =>
      if fl_version f then VVersion else if fl_help f then VHelp else
      if fl_stats f then VStats else if fl_audit f then VAudit else
      if fl_blocklistReload f then VBlocklistReload else if fl_allowlistReload f then VAllowlistReload else
      if fl_verifyUpstream f then VVerifyUpstream else if fl_showPin f >=? 0 then VShowPin (fl_showPin f) else
      if fl_verifyPin f then VVerifyPin else if fl_verifySelf f then VVerifySelf else VRun
  end.

Definition displayVersion (version : string) : string := "v" +:+ TrimPrefix version "v".

(** [settings] are the build settings Go embeds, if any. *)
Definition vcs_setting (acc : string * string) (kv : string * string) : string * string :=
  if String.eqb (fst kv) "vcs.revision" then (snd kv, snd acc)
  else if String.eqb (fst kv) "vcs.modified" then (fst acc, snd kv) else acc.

Definition vcsRevision (settings : option (list (string * string))) : string :=
  match settings with
  | None => "unknown"
  | Some l =>
      let '(rev, modified) := fold_left vcs_setting l ("", "") in
      if String.eqb rev "" then "unknown" else
      let rev := if (12 <? String.length rev)%nat then take_bytes 12 rev else rev in
      if String.eqb modified "true" then rev +:+ "-dirty" else rev
  end.

Definition buildString (version buildDate : string) (settings : option (list (string * string))) : string :=
  let rev := vcsRevision settings in
  let parts := (if negb (String.eqb rev "unknown") then ["commit " +:+ rev] else []) ++
               (if negb (String.eqb buildDate "unknown") then ["built " +:+ buildDate] else []) in
  match parts with
  | [] => displayVersion version
  | _ => displayVersion version +:+ " (" +:+ Join parts ", " +:+ ")"
  end.

(** ** The chain that is built *)

(** What a client speaks: the URL of a DoH client, and whether over HTTP/3. *)
Inductive speaks := SpeaksDoQ | SpeaksDoT | SpeaksDoH (url : string) (h3 : bool).

(** What an entry is: its name, the server it connects to (the name to verify, the
    address to dial, the port, the pin) and what it speaks. *)
Definition entry_view (e : ChainEntry) : string * (string * string * Z * string) * speaks :=
  let ep := ce_endpoint e in
  (uName (ce_state e), (e_host ep, e_dialHost ep, e_port ep, e_pin ep),
   match ce_client e with ClientDoQ => SpeaksDoQ | ClientDoT => SpeaksDoT | ClientDoH h => SpeaksDoH (DohClient.endpoint h) (DohClient.useH3 h) end).

(** The entries the documentation describes for an upstream: DoQ before DoT before DoH;
    an address in place of the host is dialled, but the host is verified; a DoH path
    that is not given is /dns-query. *)
Definition documented_entries (up : UpstreamServer) : list (string * (string * string * Z * string) * speaks) :=
  let name := if decide (us_Name up = "") then us_Host up else us_Name up in
  let server := (us_Host up, if decide (us_IP up = "") then us_Host up else us_IP up, us_Port up, us_PinnedPubKey up) in
  let path := if decide (us_DoHPath up = "") then "/dns-query" else us_DoHPath up in
  (if us_DoQ up then [(name +:+ " (DoQ)", server, SpeaksDoQ)] else []) ++
  (if us_DoT up then [(name +:+ " (DoT)", server, SpeaksDoT)] else []) ++
  (if us_DoH up then [(name +:+ (if us_DoH3 up then " (DoH3)" else " (DoH)"), server,
     SpeaksDoH ("https://" +:+ us_Host up +:+ ":" +:+ Itoa (us_Port up) +:+ path) (us_DoH3 up))] else []).

Section ChainProps.
Context (sum256 : string → string) (url_parse : string → option string) (h2_ok : string → bool) (hasStats : bool).
Local Abbreviation upstream_entries := (upstream_entries sum256 url_parse h2_ok hasStats).
Local Abbreviation chain_loop := (chain_loop sum256 url_parse h2_ok hasStats).
Local Abbreviation buildUpstreamChain := (buildUpstreamChain sum256 url_parse h2_ok hasStats).

Lemma upstream_entries_view up es : upstream_entries up = Ok es → entry_view <$> es = documented_entries up.
Proof.
  unfold Wiring.upstream_entries, documented_entries, endpoint_of, DialHost. cbv zeta.
  assert (Hd : ∀ s (x y : string), (if decide (s = "") then x else y) = if String.eqb s "" then x else y)
    by (intros s x y; case_decide; [by subst|by rewrite (proj2 (String.eqb_neq s ""))]).
  rewrite !Hd. clear Hd. destruct (us_DoH up), (String.eqb (us_IP up) "").
  1,2: destruct (DohClient.NewHTTPResolver _ _ _ _ _ _) as [h|] eqn:Eh; [|done]; intros [= <-];
    unfold DohClient.NewHTTPResolver in Eh; destruct (url_parse _); [|done]; destruct (negb _); [done|];
    destruct (us_DoH3 up); [|destruct (h2_ok _); [|done]]; injection Eh as <-; by destruct (us_DoQ up), (us_DoT up).
  all: intros [= <-]; by destruct (us_DoQ up), (us_DoT up).
Qed.

Lemma chain_loop_view ups chain : chain_loop ups = Ok chain → entry_view <$> chain = mjoin (documented_entries <$> ups).
Proof.
  revert chain. induction ups as [|up ups IH]; intros chain; simpl; [by intros [= <-]|].
  intros (es & He & (rest & Hr & [= <-])%bind_ok)%bind_ok. rewrite fmap_app, (upstream_entries_view _ _ He), (IH _ Hr). done.
Qed.

(** Every client of the chain connects as its upstream's endpoint says. *)
Definition entry_ok (up : UpstreamServer) (e : ChainEntry) : Prop :=
  ce_endpoint e = endpoint_of hasStats up ∧ uState (ce_state e) = StateUP ∧ ConsecutiveErrors (ce_state e) = 0 ∧
  t_MinTLS13 (entry_tls sum256 e) = true ∧
  ∀ ca_ok peer, handshake ca_ok (entry_tls sum256 e) peer =
    handshake ca_ok (pinnedTLSConfig sum256 (mkTLSConf (us_Host up) [] true false None) (us_Host up) (us_PinnedPubKey up)) peer.

Lemma pinned_tls13 conf host pin : t_MinTLS13 (pinnedTLSConfig sum256 conf host pin) = t_MinTLS13 conf.
Proof. unfold pinnedTLSConfig. destruct (String.eqb pin ""); [done|]. by destruct (ParsePin pin). Qed.

(** The protocols offered play no part in the verification of the peer. *)
Lemma pinned_protos ca_ok protos protos' host pin peer :
  handshake ca_ok (pinnedTLSConfig sum256 (mkTLSConf host protos true false None) host pin) peer =
  handshake ca_ok (pinnedTLSConfig sum256 (mkTLSConf host protos' true false None) host pin) peer.
Proof. unfold pinnedTLSConfig. destruct (String.eqb pin ""); [done|]. by destruct (ParsePin pin). Qed.

Lemma upstream_entries_ok up es e : upstream_entries up = Ok es → e ∈ es → entry_ok up e.
Proof.
  assert (Hq : entry_ok up (mkEntryC (new_state ((if String.eqb (us_Name up) "" then us_Host up else us_Name up) +:+ " (DoQ)")) (endpoint_of hasStats up) ClientDoQ)).
  { split_and!; try done; [apply pinned_tls13|]. intros. apply pinned_protos. }
  assert (Ht : entry_ok up (mkEntryC (new_state ((if String.eqb (us_Name up) "" then us_Host up else us_Name up) +:+ " (DoT)")) (endpoint_of hasStats up) ClientDoT)).
  { split_and!; try done. apply pinned_tls13. }
  unfold Wiring.upstream_entries. cbv zeta. destruct (us_DoH up).
  - destruct (DohClient.NewHTTPResolver _ _ _ _ _ _) as [h|] eqn:Eh; [|done]. intros [= <-] Hin.
    assert (Hh : ∀ name, entry_ok up (mkEntryC (new_state name) (endpoint_of hasStats up) (ClientDoH h))).
    { intros name. unfold DohClient.NewHTTPResolver in Eh. destruct (url_parse _) as [scheme|]; [|done].
      destruct (negb _); [done|]. destruct (us_DoH3 up); [|destruct (h2_ok _); [|done]]; injection Eh as <-;
        split_and!; try done; cbn; try apply pinned_tls13. }
    rewrite !elem_of_app in Hin. destruct Hin as [Hin|[Hin|Hin]];
      [destruct (us_DoQ up); [|by apply elem_of_nil in Hin]|destruct (us_DoT up); [|by apply elem_of_nil in Hin]|];
      apply list_elem_of_singleton in Hin as ->; [done|done|apply Hh].
  - intros [= <-] Hin. rewrite elem_of_app in Hin. destruct Hin as [Hin|Hin];
      [destruct (us_DoQ up); [|by apply elem_of_nil in Hin]|destruct (us_DoT up); [|by apply elem_of_nil in Hin]];
      by apply list_elem_of_singleton in Hin as ->.
Qed.

Lemma chain_loop_ok ups chain e : chain_loop ups = Ok chain → e ∈ chain → ∃ up, up ∈ ups ∧ entry_ok up e.
Proof.
  revert chain. induction ups as [|up ups IH]; intros chain; simpl; [intros [= <-] ?%elem_of_nil; done|].
  intros (es & He & (rest & Hr & [= <-])%bind_ok)%bind_ok [Hin|Hin]%elem_of_app.
  - exists up. split; [by left|]. by eapply upstream_entries_ok.
  - destruct (IH _ Hr Hin) as (u & ? & ?). exists u. split; [by right|done].
Qed.

Lemma buildUpstreamChain_loop ups chain : buildUpstreamChain ups = Ok chain → chain_loop ups = Ok chain ∧ chain ≠ [].
Proof. intros (l & Hl & H)%bind_ok. by destruct l; [|injection H as <-]. Qed.

Lemma documented_entries_nonempty up : upstream_ok up → documented_entries up ≠ [].
Proof.
  intros [_ _ _ Hp _ _ _]. unfold documented_entries. cbv zeta.
  destruct Hp as [-> | [-> | ->]]; destruct (us_DoQ up), (us_DoT up), (us_DoH up); cbn; discriminate.
Qed.

(** Why the DoH client of an upstream cannot be built: its URL does not parse, or not as
    an https URL, or HTTP/2 cannot be configured. *)
Definition doh_cause (up : UpstreamServer) (e : DohClient.doh_error) : Prop :=
  let url := "https://" +:+ us_Host up +:+ ":" +:+ Itoa (us_Port up) +:+ (if String.eqb (us_DoHPath up) "" then "/dns-query" else us_DoHPath up) in
  us_DoH up = true ∧
  match e with
  | DohClient.EInvalidEndpoint => url_parse url = None
  | DohClient.ENotHTTPS scheme => url_parse url = Some scheme ∧ scheme ≠ "https"
  | DohClient.EConfigureH2 => us_DoH3 up = false ∧ h2_ok (us_Host up) = false
  end.

Lemma doh_client_err up e : us_DoH up = true →
  DohClient.NewHTTPResolver sum256 url_parse (h2_ok (us_Host up)) (endpoint_of hasStats up)
    (if String.eqb (us_DoHPath up) "" then "/dns-query" else us_DoHPath up) (us_DoH3 up) = Err e → doh_cause up e.
Proof.
  intros Hd. unfold DohClient.NewHTTPResolver, doh_cause. cbv zeta. cbn [e_host e_port endpoint_of].
  destruct (url_parse _) as [scheme|] eqn:Eu; [|by intros [= <-]].
  destruct (String.eqb_spec scheme "https") as [->|Hs]; cbn [negb]; [|by intros [= <-]].
  destruct (us_DoH3 up); [done|]. destruct (h2_ok _) eqn:Eh; [done|by intros [= <-]].
Qed.

(** A chain fails to build only when a DoH client does. *)
Lemma chain_loop_err ups err : chain_loop ups = Err err →
  ∃ name e up, err = EDoH name e ∧ up ∈ ups ∧ doh_cause up e.
Proof.
  revert err. induction ups as [|up ups IH]; intros err; simpl; [done|].
  assert (Hrest : ∀ es, (try rest ← chain_loop ups; Ok (es ++ rest)) = Err err →
    ∃ name e u, err = EDoH name e ∧ u ∈ up :: ups ∧ doh_cause u e).
  { intros es. destruct (chain_loop ups) as [|e']; simpl; [done|]. intros [= ->].
    destruct (IH err eq_refl) as (name & e & u & ? & ? & ?). exists name, e, u. split_and!; [done|by right|done]. }
  unfold Wiring.upstream_entries. cbv zeta. destruct (us_DoH up) eqn:Ed; [|apply Hrest].
  destruct (DohClient.NewHTTPResolver _ _ _ _ _ _) as [h|e] eqn:En; [apply Hrest|]. simpl. intros [= <-].
  eexists _, _, up. split_and!; [done|by left|by apply doh_client_err].
Qed.

Lemma buildUpstreamChain_err ups err : ups ≠ [] → Forall upstream_ok ups →
  buildUpstreamChain ups = Err err → ∃ name e up, err = EDoH name e ∧ up ∈ ups ∧ doh_cause up e.
Proof.
  intros Hn Hok. unfold Wiring.buildUpstreamChain. destruct (chain_loop ups) as [chain|e] eqn:E; simpl.
  - destruct chain; [|done]. intros _. apply chain_loop_view in E. destruct ups as [|up ups]; [done|].
    inversion Hok as [|? ? Hu _]; subst. apply documented_entries_nonempty in Hu. simpl in E. by destruct (documented_entries up).
  - intros [= ->]. by apply chain_loop_err.
Qed.

End ChainProps.

(** ** A daemon that started *)

Section StartProps.
Context (sum256 : string → string) (url_parse : string → option string) (h2_ok : string → bool).
Context (StringToType : string → option Z) (os : OS).
Local Abbreviation startup := (startup sum256 url_parse h2_ok StringToType).

Lemma startup_inv env cfg d : startup env cfg = Ok d →
  loadAllowlistAtStartup (se_open env) (cfg_Allowlist cfg) = Ok (d_allowlist d) ∧
  buildUpstreamChain sum256 url_parse h2_ok (cfg_StatsEnabled cfg) (cfg_Upstreams cfg) = Ok (d_chain d) ∧
  Fallback.Start (NewFallbackResolver (se_now env) (ce_state <$> d_chain d) (cfg_StatsEnabled cfg)
    (fb_Phase1DurationS (cfg_Fallback cfg)) (fb_Phase2FailureThreshold (cfg_Fallback cfg))
    (fb_HealthCheckIntervalS (cfg_Fallback cfg))) = Some (d_resolver d) ∧
  d_cache d = Cache.New (cache_options (cfg_Cache cfg)) ∧
  d_validator d = start_validator env (cfg_DNSSEC cfg) ∧
  d_policy d = start_policy StringToType cfg (d_allowlist d) (d_blocklist d) ∧
  start_mode1 env cfg (d_blocklist d) (d_policy d) = Ok (d_server d) ∧
  start_mode2 env cfg (d_policy d) = Ok (d_service d).
Proof.
  unfold Wiring.startup. destruct (negb _); [done|]. destruct (bool_decide _); [done|]. destruct (negb _); [done|].
  destruct (loadAllowlistAtStartup _ _) as [a|]; [|done]. destruct (buildUpstreamChain _ _ _ _ _) as [chain|]; [|done].
  destruct (Fallback.Start _) as [f|] eqn:Ef; [|done]. destruct (_ && _); [done|].
  intros (srv & Hs & (svc & Hv & [= <-])%bind_ok)%bind_ok. cbn. split_and!; done.
Qed.

(** The certificates an upstream of the configuration identifies itself with. *)
Definition identified (ca_ok : string → list Cert → bool) (up : UpstreamServer) (peer : list Cert) : Prop :=
  (us_PinnedPubKey up = "" ∧ ca_ok (us_Host up) peer = true) ∨
  (∃ leaf rest, peer = leaf :: rest ∧ c_names leaf (us_Host up) = true ∧
     ParsePin (us_PinnedPubKey up) = Ok (sum256 (c_spki leaf))).

Lemma entry_identity requireToken c cfg env d e ca_ok peer :
  Config.validate os StringToType requireToken c = Ok cfg → startup env cfg = Ok d → e ∈ d_chain d →
  ∃ up, up ∈ cfg_Upstreams cfg ∧ ce_endpoint e = endpoint_of (cfg_StatsEnabled cfg) up ∧
    t_MinTLS13 (entry_tls sum256 e) = true ∧
    (handshake ca_ok (entry_tls sum256 e) peer = true → identified ca_ok up peer).
Proof.
  intros [Ha ->]%validate_sound (_ & Hc & _)%startup_inv Hin. apply buildUpstreamChain_loop in Hc as [Hc _].
  destruct (chain_loop_ok _ _ _ _ _ _ _ Hc Hin) as (up & Hup & He & _ & _ & Hm & Hh).
  exists up. split_and!; [done..|]. rewrite Hh. intros H%pinned_accepts; [|done..].
  assert (Hok : upstream_ok up).
  { destruct (ac_upstreams _ _ _ _ Ha) as [_ Hf]. rewrite Forall_forall in Hf. apply Hf.
    revert Hup. unfold normalize. cbn. by rewrite (proj1 (proj2 (default_listen_fields c))). }
  destruct (uo_pin _ Hok) as [Hnp|(p & Hp & raw & Hr & Hl)]; [left; rewrite Hnp in *; split; [done|exact H]|right].
  assert (E : ParsePin (us_PinnedPubKey up) = Ok raw) by (apply ParsePin_spec; eauto). rewrite E in *.
  destruct H as (leaf & rest & -> & Hn & <-). by exists leaf, rest.
Qed.

(** No query leaves over a connection whose peer was not authenticated: with a
    validated configuration every client of the running chain speaks TLS 1.3, and
    completes a handshake only with a peer whose key has the configured pin and
    whose certificate is valid for the upstream's host or, where no pin is
    configured, with one the certificate authorities vouch for. *)
Theorem upstreams_authenticated requireToken c cfg env d e ca_ok peer :
  Config.validate os StringToType requireToken c = Ok cfg → startup env cfg = Ok d → e ∈ d_chain d →
  ∃ up, up ∈ cfg_Upstreams cfg ∧ ce_endpoint e = endpoint_of (cfg_StatsEnabled cfg) up ∧
    t_MinTLS13 (entry_tls sum256 e) = true ∧
    (handshake ca_ok (entry_tls sum256 e) peer = true →
     (us_PinnedPubKey up = "" ∧ ca_ok (us_Host up) peer = true) ∨
     (∃ leaf rest, peer = leaf :: rest ∧ c_names leaf (us_Host up) = true ∧
        ParsePin (us_PinnedPubKey up) = Ok (sum256 (c_spki leaf)))).
Proof. apply entry_identity. Qed.


(** Why Mode 1 does not start: the system refuses its address. *)
Definition mode1_cause (env : StartEnv) (addr : string) (e : Mode1.start_err) : Prop :=
  match e with
  | Mode1.ENotEnabled => False
  | Mode1.EResolveUDP => Mode1.be_resolve (se_bind env) addr = false
  | Mode1.EListenUDP => Mode1.be_udp (se_bind env) addr = false
  | Mode1.EListenTCP => Mode1.be_tcp (se_bind env) addr = false
  end.

Lemma mode1_start_cause env addr r e r' : Mode1.Start (se_bind env) true addr r = (Some e, r') → mode1_cause env addr e.
Proof.
  unfold Mode1.Start. cbn [negb]. destruct (Mode1.be_resolve _ _) eqn:E1; cbn; [|by intros [= <- _]].
  destruct (Mode1.be_udp _ _) eqn:E2; cbn; [|by intros [= <- _]]. destruct (Mode1.be_tcp _ _) eqn:E3; cbn; [done|by intros [= <- _]].
Qed.

(** Why the service of Mode 2 cannot be built: on-demand issuance without names, no
    certificate configured, or the system. *)
Definition service_new_cause (env : Env) (u : UpstreamConfig) (t : TLSAutomationConfig) (e : svc_error) : Prop :=
  match e with
  | ErrTLSManager EOnDemandDomains => u_TLSAutomation u = true ∧ ta_OnDemand t = true ∧ ta_AllowedDomains t = []
  | ErrTLSManager EHomeDir => u_TLSAutomation u = true ∧ ta_StorageDir t = "" ∧ ae_home (env_auto env) = None
  | ErrTLSManager (EStorageDir dir) => u_TLSAutomation u = true ∧ ae_mkdir (env_auto env) dir = false
  | ErrSelfSigned => u_TLSCertAutoGen u = true ∧ env_selfsigned env = false
  | ErrNoCertificate => u_TLSAutomation u = false ∧ u_TLSCertAutoGen u = false ∧ (u_TLSCert u = "" ∨ u_TLSKey u = "")
  | ErrLoadCertificate => env_loadpair env = false
  | _ => False
  end.

Lemma service_new_err c cfg env v st o e : Config.validate os StringToType true c = Ok cfg → u_Enabled (cfg_UpstreamService cfg) = true →
  Service.New env (cfg_UpstreamService cfg) (cfg_TLSAutomation cfg) (lo_Timestamp (cfg_Logging cfg)) v st o = Err e →
  service_new_cause env (cfg_UpstreamService cfg) (cfg_TLSAutomation cfg) e.
Proof.
  intros Hv Hu. unfold Service.New. rewrite Hu. cbn [negb]. destruct (setupTLS _ _ _ _) as [tls|e'] eqn:Et; cbn [res_bind]; [done|].
  intros [= ->]. revert Et. unfold setupTLS. destruct (u_TLSAutomation _) eqn:Ea.
  - destruct (NewManager _ _) as [m|e'] eqn:Em; [done|]. intros [= <-]. cbn. pose proof (validated_manager _ _ _ _ _ _ Hv Em) as H. by destruct e'.
  - destruct (u_TLSCertAutoGen _) eqn:Eg.
    + destruct (env_selfsigned env) eqn:Es; [done|]. by intros [= <-].
    + destruct (String.eqb_spec (u_TLSCert (cfg_UpstreamService cfg)) "") as [H1|H1]; cbn [orb]; [intros [= <-]; cbn; by auto|].
      destruct (String.eqb_spec (u_TLSKey (cfg_UpstreamService cfg)) "") as [H2|H2]; [intros [= <-]; cbn; by auto|].
      destruct (env_loadpair env) eqn:El; [done|]. by intros [= <-].
Qed.

(** Why the service does not start: the certificates of the domains cannot be obtained,
    or a listener cannot be created. *)
Definition service_start_cause (env : Env) (u : UpstreamConfig) (t : TLSAutomationConfig) (e : svc_error) : Prop :=
  match e with
  | ErrManageDomains EManageAsync => u_TLSAutomation u = true ∧ ta_OnDemand t = true ∧ ae_async (env_auto env) (ta_AllowedDomains t) = false
  | ErrManageDomains EManageSync => u_TLSAutomation u = true ∧ ta_OnDemand t = false ∧ ae_sync (env_auto env) (ta_AllowedDomains t) = false
  | ErrStartDoH => u_ListenDoH u ≠ "" ∧ env_bind env DoH (u_ListenDoH u) = false
  | ErrStartDoT => u_ListenDoT u ≠ "" ∧ env_bind env DoT (u_ListenDoT u) = false
  | ErrStartDoQ => u_ListenDoQ u ≠ "" ∧ env_bind env DoQ (u_ListenDoQ u) = false
  | _ => False
  end.

Lemma start_one_err env t addr e l set s e' s' : start_one env t addr e l set s = (Some e', s') → e' = e ∧ addr ≠ "" ∧ env_bind env t addr = false.
Proof.
  unfold start_one. destruct (String.eqb_spec addr "") as [|Hne]; [done|]. destruct (env_bind env t addr) eqn:E; [done|]. by intros [= <- _].
Qed.

Lemma start_one_ok env t addr e l set s s' : start_one env t addr e l set s = (None, s') → s' = s ∨ s' = set l s.
Proof. unfold start_one. destruct (String.eqb addr ""); [intros [= <-]; by left|]. destruct (env_bind env t addr); [|done]. intros [= <-]. by right. Qed.

Lemma service_start_err env u t ts v st o svc p e svc' : Service.New env u t ts v st o = Ok svc →
  Service.Start env (Service.SetPolicy p svc) = (Some e, svc') → service_start_cause env u t e.
Proof.
  unfold Service.New. destruct (u_Enabled u); [cbn [negb]|done]. intros (tls & Ht & [= <-])%bind_ok. unfold Service.Start. cbn [sv_tls sv_cfg Service.SetPolicy].
  destruct (match tls with Automated m => ManageDomains (env_auto env) m | _ => None end) as [me|] eqn:Em.
  - intros [= <- _]. unfold setupTLS in Ht. destruct (u_TLSAutomation u) eqn:Ea.
    + destruct (NewManager _ _) as [m|] eqn:En; [|done]. injection Ht as <-. apply NewManager_inv in En as (_ & _ & Hm & _).
      revert Em. unfold ManageDomains, manage_call_of. rewrite Hm. cbn. destruct (ta_AllowedDomains t) as [|d ds] eqn:Ed; [done|].
      destruct (ta_OnDemand t) eqn:Eo; [destruct (ae_async _ _) eqn:Ex|destruct (ae_sync _ _) eqn:Ex]; try done; intros [= <-]; cbn; by rewrite ?Ed.
    + destruct (u_TLSCertAutoGen u); [destruct (env_selfsigned env); [injection Ht as <-; done|done]|].
      destruct (_ || _); [done|]. destruct (env_loadpair env); [injection Ht as <-; done|done].
  - clear Em. destruct (start_one _ DoH _ _ _ _ _) as [[e1|] s1] eqn:E1.
    { intros [= <- _]. by apply start_one_err in E1 as (-> & ? & ?). }
    destruct (start_one _ DoT _ _ _ _ _) as [[e2|] s2] eqn:E2.
    { intros [= <- _]. by apply start_one_err in E2 as (-> & ? & ?). }
    intros (-> & ? & ?)%start_one_err. done.
Qed.

Lemma normalize_modes c : rc_Enabled (cfg_Resolver c) = true ∨ u_Enabled (cfg_UpstreamService c) = true →
  rc_Enabled (cfg_Resolver (normalize c)) = true ∨ u_Enabled (cfg_UpstreamService (normalize c)) = true.
Proof.
  intros H. rewrite normalize_service. pose proof (default_listen_fields c) as F. cbv zeta in F.
  destruct F as (_ & _ & _ & _ & _ & _ & _ & _ & _ & Fr). unfold normalize. cbn. by rewrite Fr.
Qed.


(** What start-up hands to every listener. *)
Lemma listeners_wired env cfg d :
  startup env cfg = Ok d →
  (∀ srv, d_server d = Some srv → s_policy srv = Some (d_policy d) ∧ s_validator srv = true ∧ s_order srv = se_order env) ∧
  (∀ svc l, d_service d = Some svc → running svc l → l_policy l = Some (d_policy d) ∧ l_validate l = true ∧ l_order l = se_order env).
Proof.
  intros (_ & _ & _ & _ & _ & _ & H1 & H2)%startup_inv. split.
  - intros srv Hs. unfold start_mode1 in H1. destruct (rc_Enabled _); [|congruence].
    destruct (Mode1.Start _ _ _ _) as [[e1|] r1]; [done|]. rewrite Hs in H1. by injection H1 as <-.
  - intros svc l Hs Hr. unfold start_mode2 in H2. destruct (u_Enabled _) eqn:Eu; [|congruence].
    destruct (Service.New _ _ _ _ _ _) as [s0|] eqn:En; [|done].
    pose proof (Start_spec (se_service env) (Service.SetPolicy (Some (d_policy d)) s0)) as Hst.
    destruct (Service.Start _ _) as [[e|] svc'] eqn:Est; [done|]. rewrite Hs in H2. injection H2 as ->.
    unfold Service.New in En. rewrite Eu in En. apply bind_ok in En as (tls & _ & [= <-]). destruct Hst as (Hl & _); [done|].
    by rewrite (Hl l Hr).
Qed.

(** The types a list of names stands for. *)
Lemma qtype_codes_elem a codes t : QTypeCodes StringToType a = Ok codes →
  t ∈ codes ↔ ∃ name, name ∈ al_QTypes a ∧ StringToType (ToUpper (TrimSpace name)) = Some t.
Proof.
  intros H. apply qtype_loop_spec in H as (new & -> & H & _); [|constructor]. cbn [app]. split.
  - intros Ht. apply list_elem_of_lookup in Ht as [i Hi]. destruct (Forall2_lookup_r _ _ _ _ _ H Hi) as (n & Hn & Hs).
    exists n. split; [by eapply list_elem_of_lookup_2|done].
  - intros (n & Hn & Hs). apply list_elem_of_lookup in Hn as [i Hi]. destruct (Forall2_lookup_l _ _ _ _ _ H Hi) as (t' & Ht & Hs').
    assert (t' = t) as -> by congruence. by eapply list_elem_of_lookup_2.
Qed.

(** The record types the policy refuses: with a list of types, those it does not name. *)
Lemma start_policy_qtypes requireToken c cfg a b t : Config.validate os StringToType requireToken c = Ok cfg →
  qtype_refused (start_policy StringToType cfg a b) t = false ↔
  al_Enabled (cfg_Allowlist cfg) = false ∨ al_QTypes (cfg_Allowlist cfg) = [] ∨
  ∃ name, name ∈ al_QTypes (cfg_Allowlist cfg) ∧ StringToType (ToUpper (TrimSpace name)) = Some t.
Proof.
  intros [Ha ->]%validate_sound. pose proof (ac_allow _ _ _ _ Ha) as Hal.
  assert (Ec : cfg_Allowlist (normalize c) = cfg_Allowlist c) by (unfold normalize; cbn; apply default_listen_fields).
  unfold start_policy. rewrite Ec. destruct (al_Enabled (cfg_Allowlist c)) eqn:Ee; [|unfold qtype_refused; cbn; tauto].
  apply validateAllowlist_spec in Hal. unfold validateAllowlist in Hal. rewrite Ee in Hal. cbn [negb] in Hal.
  destruct (QTypeCodes _ _) as [codes|] eqn:Eq; [clear Hal|repeat case_match; done].
  pose proof (qtype_codes_elem (cfg_Allowlist c) codes t Eq) as Hc. unfold qtype_refused, SetQTypes. cbn [qtypes].
  destruct codes as [|code codes].
  - split; [|intros _; reflexivity]. intros _. right. left. apply qtype_loop_spec in Eq as (new & E & Hf & _); [|constructor].
    cbn in E. subst new. by inversion Hf.
  - assert (Hn : al_QTypes (cfg_Allowlist c) ≠ []).
    { intros En. unfold QTypeCodes in Eq. by rewrite En in Eq. }
    rewrite negb_false_iff, bool_decide_eq_true, elem_of_list_to_set, Hc. naive_solver.
Qed.

(** C11: The policy of a running daemon whose configuration was validated is one object: the
    Mode 1 server and every Mode 2 listener that runs enforce it.  With the allowlist
    enabled it holds exactly the entries of the configured files, at least one, and
    without it no allowlist; and it refuses a record type exactly when the allowlist is
    enabled with a list of types and none of them names it. *)
Theorem one_policy_everywhere requireToken c env cfg d :
  Config.validate os StringToType requireToken c = Ok cfg → startup env cfg = Ok d →
  (∀ srv, d_server d = Some srv → s_policy srv = Some (d_policy d)) ∧
  (∀ svc l, d_service d = Some svc → running svc l → l_policy l = Some (d_policy d)) ∧
  (if al_Enabled (cfg_Allowlist cfg)
   then ∃ a, allow (d_policy d) = Some a ∧ scan_files (se_open env) (al_Files (cfg_Allowlist cfg)) Allowlist.New = Ok a ∧ no_entries a = false
   else allow (d_policy d) = None) ∧
  (∀ t, qtype_refused (d_policy d) t = true ↔
     al_Enabled (cfg_Allowlist cfg) = true ∧ al_QTypes (cfg_Allowlist cfg) ≠ [] ∧
     ∀ name, name ∈ al_QTypes (cfg_Allowlist cfg) → StringToType (ToUpper (TrimSpace name)) ≠ Some t).
Proof.
  intros Hv Hst. destruct (listeners_wired _ _ _ Hst) as [H1 H2]. apply startup_inv in Hst as (Ha & _ & _ & _ & _ & Hp & _). split_and!.
  - intros srv Hs. by apply H1.
  - intros svc l Hs Hr. by apply (H2 svc).
  - assert (Hal : allow (d_policy d) = d_allowlist d) by (rewrite Hp; unfold start_policy; by destruct (al_Enabled _)).
    rewrite Hal. unfold loadAllowlistAtStartup in Ha. destruct (al_Enabled _); cbn [negb] in Ha; [|congruence].
    unfold LoadFiles in Ha. destruct (scan_files _ _ _) as [fresh|]; [|done].
    destruct (no_entries fresh) eqn:E; [done|]. injection Ha as <-. eauto.
  - intros t. rewrite Hp. pose proof (start_policy_qtypes requireToken c cfg (d_allowlist d) (d_blocklist d) t Hv) as Hq.
    destruct (qtype_refused _ t), (al_Enabled _); naive_solver.
Qed.

(** With a cache preset every answer the daemon caches lives between the preset's
    bounds: at most seven days, and at most five minutes for a negative answer. *)
Theorem preset_lifetimes requireToken c cfg env d resp ttl :
  Config.validate os StringToType requireToken c = Ok cfg → cc_Type (cfg_Cache cfg) ≠ "" → startup env cfg = Ok d →
  put_ttl (d_cache d) resp = Some ttl →
  if isNegative resp then 0 < ttl ≤ 300 else cc_TTLMin (cfg_Cache cfg) ≤ ttl ≤ cc_TTLMax (cfg_Cache cfg) ∧ 0 ≤ ttl ≤ 604800.
Proof.
  intros [Ha ->]%validate_sound Hty (_ & _ & _ & Hc & _)%startup_inv Hput.
  assert (Hb : ∃ x, resolveCacheType (cfg_Cache c) = Ok x ∧ cfg_Cache (normalize c) = default_max_size x).
  { pose proof (ac_cache _ _ _ _ Ha) as Hm. apply resolveCacheType_spec in Hm.
    destruct (resolveCacheType (cfg_Cache c)) as [x|] eqn:E; [|done]. exists x. split; [done|].
    by rewrite (normalize_eq c x E). }
  destruct Hb as (x & Hx & E). rewrite E in *.
  assert (Hsame : cc_Type (default_max_size x) = cc_Type x ∧ cc_TTLMin (default_max_size x) = cc_TTLMin x ∧
    cc_TTLMax (default_max_size x) = cc_TTLMax x ∧ cc_NegTTLMax (default_max_size x) = cc_NegTTLMax x)
    by (unfold default_max_size; by destruct (_ && _)).
  destruct Hsame as (S1 & S2 & S3 & S4). rewrite S1 in Hty. destruct (preset_bounds _ _ Hx Hty) as (B1 & B2 & B3 & B4 & _).
  rewrite Hc in Hput. apply put_ttl_bounds in Hput.
  - destruct Hput as [[-> Hp]|(-> & Hp & _)]; cbn in Hp; rewrite ?S2, ?S3, ?S4 in *; cases_lia.
  - cbn. rewrite S2, S3. cases_lia.
Qed.

(** The validator of a daemon with DNSSEC turned off accepts everything, and the
    listeners still take its word for it: every answer of an upstream is handed out
    with the AD bit. *)
Theorem disabled_dnssec_sets_ad {dl : DnsLib} {cl : DnssecLib} {W : Type} {UR : UpstreamResolver W}
    env cfg d srv clk query (w : World W (VConfig * VState)) r :
  startup env cfg = Ok d → ds_Enabled (cfg_DNSSEC cfg) = false → d_server d = Some srv →
  al_Enabled (cfg_Allowlist cfg) = false → w_val w = d_validator d →
  fst (call_resolver query (missed srv w)) = Ok r →
  fst (forward srv clk query w) = set_AD true r.
Proof.
  intros Hst Hd Hs Hal Hw Hr. pose proof (startup_inv _ _ _ Hst) as (Ha & _ & _ & _ & Hv & Hp & H1 & _).
  assert (Hsrv : s_validator srv = true ∧ s_policy srv = Some (d_policy d)).
  { unfold start_mode1 in H1. destruct (rc_Enabled _); [|congruence].
    destruct (Mode1.Start _ _ _ _) as [[e1|] r1]; [done|]. rewrite Hs in H1. by injection H1 as <-. }
  destruct Hsrv as [Hsv Hsp].
  assert (Hall : allow (d_policy d) = None).
  { rewrite Hp. unfold start_policy, loadAllowlistAtStartup in *. rewrite Hal in *. cbn in *. congruence. }
  unfold forward. fold (missed srv w). pose proof (call_resolver_frame query (missed srv w)) as [_ Hval].
  destruct (call_resolver query (missed srv w)) as [res w1]. simpl in *. subst res. rewrite Hsv.
  assert (Hen : v_enabled (fst (w_val w1)) = false).
  { rewrite Hval. unfold missed. autorewrite with world. rewrite Hw, Hv. unfold start_validator. rewrite Hd. done. }
  unfold applyDNSSEC, validate, chain_validator. rewrite latency_val. unfold ValidateResponse. rewrite Hen. simpl.
  unfold policyAnswer, Answer. rewrite Hsp. by rewrite Hall.
Qed.

(** A daemon that started can be stopped: whichever modes run, shutting it down does
    not panic, ends the health checks, closes the upstream connections exactly once
    and leaves no listener open. *)
Theorem started_daemon_stops env cfg d :
  startup env cfg = Ok d →
  ∃ svc srv chain,
    shutdown (service_run <$> d_service d) ((λ _, Mode1.mkRun false Mode1.Open Mode1.Open) <$> d_server d) (d_resolver d)
      = Some (svc, srv, chain) ∧
    stopClosed chain = true ∧ tickerStopped chain = true ∧ resolverCloses chain = 1 ∧
    (∀ r, svc = Some r → Mode1.Open ∉ [mr_doh r; mr_dot r; mr_doq r]) ∧
    (∀ r, srv = Some r → Mode1.Open ∉ [Mode1.r_udp r; Mode1.r_tcp r]).
Proof.
  intros (_ & _ & Hf & _)%startup_inv. unfold Fallback.Start in Hf. destruct (seconds _ <=? 0); [done|]. injection Hf as Hf.
  destruct (shutdown_safe (service_run <$> d_service d) ((λ _, Mode1.mkRun false Mode1.Open Mode1.Open) <$> d_server d) (d_resolver d))
    as (svc & srv & chain & H1 & H2 & H3 & H4 & H5 & H6); [by rewrite <-Hf..|].
  exists svc, srv, chain. split_and!; [done|done|by rewrite H3, <-Hf|done| |]; intros r Hr; [by apply H5|by apply H6].
Qed.

End StartProps.

(** ** Status lines *)

Definition status_line (u : UpstreamState) : UpstreamConnInfo :=
  mkConnInfo (uName u) (state_string (uState u)) (ConsecutiveErrors u) (LastError u).

Lemma GetStatus_lookup_ne ups (m : gmap string status) name :
  name ∉ (uName <$> ups) →
  fold_left (λ m u, <[uName u := mkStatus (state_string (uState u)) (ConsecutiveErrors u) (LastError u) (LastHealthCheck u)]> m) ups m !! name
  = m !! name.
Proof.
  revert m. induction ups as [|u ups IH]; intros m Hn; [done|]. rewrite fmap_cons, not_elem_of_cons in Hn. destruct Hn as [Hne Hn].
  simpl. rewrite IH by done. by apply lookup_insert_ne.
Qed.

Lemma GetStatus_lookup ups (m : gmap string status) u : NoDup (uName <$> ups) → u ∈ ups →
  fold_left (λ m u, <[uName u := mkStatus (state_string (uState u)) (ConsecutiveErrors u) (LastError u) (LastHealthCheck u)]> m) ups m !! uName u
  = Some (mkStatus (state_string (uState u)) (ConsecutiveErrors u) (LastError u) (LastHealthCheck u)).
Proof.
  revert m. induction ups as [|v ups IH]; intros m Hnd Hin; [by apply elem_of_nil in Hin|].
  rewrite fmap_cons, NoDup_cons in Hnd. destruct Hnd as [Hni Hnd]. simpl. apply elem_of_cons in Hin as [<-|Hin]; [|by apply IH].
  rewrite GetStatus_lookup_ne by done. apply lookup_insert_eq.
Qed.

(** With distinct names, the status shows every entry of the chain, in order and
    with its own state. *)
Lemma upstreamConnInfo_exact f : NoDup (UpstreamNames f) → upstreamConnInfo f = status_line <$> upstreams f.
Proof.
  intros Hnd. unfold upstreamConnInfo, UpstreamNames in *.
  assert (H : ∀ l : list UpstreamState, (∀ u, u ∈ l → u ∈ upstreams f) →
    omap (λ name, match GetStatus f !! name with None => None | Some s => Some (mkConnInfo name (sState s) (sErrors s) (sLastError s)) end) (uName <$> l)
    = status_line <$> l); [|by apply H].
  induction l as [|u l IH]; intros Hl; [done|]. rewrite !fmap_cons. cbn [omap list_omap].
  unfold GetStatus at 1. rewrite GetStatus_lookup by (done || (apply Hl; by left)). cbn. f_equal. apply IH.
  intros v Hv. apply Hl. by right.
Qed.

(** ** The exit code of --allowlist-reload *)

Lemma take_bytes_prefix n p t : Z.of_nat (String.length p) ≤ n →
  take_bytes n (p +:+ t) = p +:+ take_bytes (n - Z.of_nat (String.length p)) t.
Proof.
  revert n. induction p as [|a p IH]; intros n Hn.
  - change ("" +:+ t) with t. cbn [String.length Z.of_nat]. by rewrite Z.sub_0_r.
  - change (String a p +:+ t) with (String a (p +:+ t)). cbn [take_bytes String.length] in *.
    assert ((n <=? 0) = false) as -> by (apply Z.leb_gt; lia). rewrite IH by lia.
    change (String a p +:+ ?x) with (String a (p +:+ x)). do 2 f_equal. f_equal. lia.
Qed.

Lemma reload_reply_exit p t q : Z.of_nat (String.length p) ≤ 2 ^ 20 → (∀ x, HasPrefix (p +:+ x) "allowlist reloaded" = q) →
  reload_exit_code (Some (take_bytes (2 ^ 20) (p +:+ t))) = if q then 0 else 1.
Proof. intros Hl Hq. unfold reload_exit_code. rewrite take_bytes_prefix by done. by rewrite Hq. Qed.

Lemma allowlistReload_cases (err_text : load_error → string) open files b a :
  (∃ t a', allowlistReload err_text open files b a = (Ok ("allowlist reloaded: " +:+ t), a') ∧
     scan_files open files Allowlist.New = Ok a' ∧ no_entries a' = false) ∨
  (∃ t, allowlistReload err_text open files b a = (Err ("allowlist reload FAILED, previous list still active: " +:+ t), a) ∧
     ∀ a', scan_files open files Allowlist.New = Ok a' → no_entries a' = true).
Proof.
  unfold allowlistReload, LoadFiles. destruct (scan_files open files Allowlist.New) as [fresh|e].
  - destruct (no_entries fresh) eqn:En.
    + right. eexists. split; [reflexivity|]. by intros ? [= <-].
    + left. destruct (String.eqb _ ""); [|rewrite !sapp_assoc]; eexists _, fresh; split; [reflexivity|done|reflexivity|done].
  - right. eexists. split; [reflexivity|done].
Qed.

(** ** The chain with its clients

    The clients of the chain with what the network does to each, call by call; an
    error is recorded as its text.  Each client is called at most once in a round
    of the chain, so that its state changes exactly when it was called. *)

Inductive Transport :=
| TDoQ (q : Doq.DoQResolver) (net : nat → Doq.Net) (env : nat → nat → Doq.DoQResolver → Doq.DoQResolver) (clk : nat → nat → Z)
| TDoT (t : DotClient.TLSResolver) (dial_ok : nat → bool) (io : nat → nat → nat → Stream)
       (env : nat → nat → DotClient.TLSResolver → DotClient.TLSResolver)
| TDoH (request : nat → bool) (http : nat → string → option DohClient.HTTPResponse).

Record WClient := mkWClient { wc_transport : Transport; wc_stats : bool; wc_calls : nat }.

Section Wired.
Context {dl : DnsLib} (error_text : xerr → string).

(** [Resolver.Resolve] of the three implementations. *)
Definition client_resolve (msg : Msg) (c : WClient) (st : Statistics.Stats) : result Msg xerr * WClient * Statistics.Stats :=
  let k := wc_calls c in
  let next t := mkWClient t (wc_stats c) (S k) in
  match wc_transport c with
  | TDoQ q net env clk =>
      let '(r, q, st, _) := Doq.Resolve (net k) (env k) (clk k) (wc_stats c) msg q st in (r, next (TDoQ q net env clk), st)
  | TDoT t dial_ok io env =>
      let '(r, t, st) := DotClient.Resolve dial_ok (io k) (env k) (wc_stats c) msg t st in (r, next (TDoT t dial_ok io env), st)
  | TDoH request http =>
      let '(r, st) := DohClient.Resolve (request k) (http k) (wc_stats c) msg st in (r, next (TDoH request http), st)
  end.

Definition client_out (msg : Msg) (st : Statistics.Stats) (cs : list WClient) (i : nat) : outcome :=
  match cs !! i with
  | None => (None, None)
  | Some c =>
      match fst (fst (client_resolve msg c st)) with
      | Ok r => (Some r, None)
      | Err e => (None, Some (error_text e))
      end
  end.

Definition call_client (msg : Msg) (acc : list WClient * Statistics.Stats) (i : nat) : list WClient * Statistics.Stats :=
  let '(cs, st) := acc in
  match cs !! i with
  | None => (cs, st)
  | Some c => let '(_, c', st') := client_resolve msg c st in (<[i := c']> cs, st')
  end.

Record Wired := mkWired {
  wi_chain : FallbackResolver; wi_clients : list WClient; wi_now : Z;
  wi_env : nat → list UpstreamState → list UpstreamState }.

Definition wired_resolve (msg : Msg) (w : Wired) (st : Statistics.Stats) : result Msg () * Wired * Statistics.Stats :=
  let r := Fallback.Resolve (wi_now w) (wi_chain w) (client_out msg st (wi_clients w)) (wi_env w) msg st in
  let '(cs, st') := fold_left (call_client msg) (r_calls r) (wi_clients w, r_stats r) in
  (match r_result r with Ok m => Ok m | Err _ => Err () end,
   mkWired (set_upstreams (r_upstreams r) (wi_chain w)) cs (wi_now w) (wi_env w), st').

(** What an answer of each client is known to be. *)
Definition client_promise (msg : Msg) (c : WClient) (r : Msg) : Prop :=
  ∃ b, Pack msg = Some b ∧
  match wc_transport c with
  | TDoQ _ net _ _ =>
      mTruncated r = false ∧ Doq.doqResponseUsable r = None ∧
      ∃ k n rest, stream_exchange b (Doq.stream_of (net (wc_calls c)) k n) = Ok (r, rest)
  | TDoT _ _ _ _ => mId r = mId msg
  | TDoH _ http => ∃ resp buf, http (wc_calls c) b = Some resp ∧ DohClient.h_status resp = 200 ∧ blen buf ≤ MaxMsgSize ∧
                     DohClient.read_limited resp = Some buf ∧ Unpack buf = Some r
  end.

Lemma client_resolve_promise msg c st r c' st' : client_resolve msg c st = (Ok r, c', st') → client_promise msg c r.
Proof.
  unfold client_resolve, client_promise. destruct (wc_transport c) as [q net env clk|t dial_ok io env|request http].
  - destruct (Doq.Resolve _ _ _ _ _ _ _) as [[[res q'] st1] sent] eqn:E. intros [= -> _ _].
    apply Doq.Resolve_answer in E as (b & Hb & Ht & Hu & H). eauto 8.
  - destruct (DotClient.Resolve _ _ _ _ _ _ _) as [[res t'] st1] eqn:E. intros [= -> _ _].
    apply DotClient.dot_Resolve_answer in E as [(b & Hb) Hi]. eauto.
  - destruct (DohClient.Resolve _ _ _ _ _) as [res st1] eqn:E. intros [= -> _ _].
    apply doh_client_answer in E as (b & resp & buf & H1 & H2 & H3 & H4 & H5 & H6). exists b. eauto 10.
Qed.

Lemma client_resolve_stats msg c st : stats_agree st (snd (client_resolve msg c st)).
Proof.
  intros k Hk. assert (Hinc : ∀ (b : bool) c' s, c' ∈ chain_counters → cnt (if b then inc c' s else s) k = cnt s k).
  { intros b c' s Hc. destruct b; [|done]. apply cnt_inc_ne. intros ->. done. }
  unfold client_resolve. destruct (wc_transport c) as [q net env clk|t dial_ok io env|request http].
  - unfold Doq.Resolve. destruct (Doq.x_result _); [cbn; apply Hinc; set_solver|].
    destruct (negb _); [cbn; apply Hinc; set_solver|]. destruct (bool_decide _); cbn; [apply Hinc; set_solver|].
    unfold Doq.logIdleRetry. rewrite Hinc by set_solver. apply Hinc; set_solver.
  - unfold DotClient.Resolve. destruct (DotClient.resolveOnce _ _ _ _) as [[r|e] t1]; [cbn; apply Hinc; set_solver|].
    destruct (DotClient.isPooled _); [|cbn; apply Hinc; set_solver].
    destruct (DotClient.resolveOnce _ _ _ _) as [r t2]. cbn. apply Hinc; set_solver.
  - unfold DohClient.Resolve.
    destruct (Pack msg) as [body|]; [|cbn; apply Hinc; set_solver]. destruct (negb (request _)); [cbn; apply Hinc; set_solver|].
    destruct (http _ body) as [resp|]; [|cbn; apply Hinc; set_solver]. destruct (negb _); [cbn; apply Hinc; set_solver|].
    destruct (DohClient.read_limited resp) as [buf|]; [|cbn; apply Hinc; set_solver].
    destruct (Unpack buf); cbn; apply Hinc; set_solver.
Qed.

Lemma call_clients_stats msg calls cs st : stats_agree st (snd (fold_left (call_client msg) calls (cs, st))).
Proof.
  revert cs st. induction calls as [|i calls IH]; intros cs st; [done|]. cbn [fold_left call_client].
  destruct (cs !! i) as [c|]; [|apply IH]. pose proof (client_resolve_stats msg c st) as H.
  destruct (client_resolve msg c st) as [[r c'] st']. cbn in H. intros k Hk. rewrite (IH _ st' k Hk). by apply H.
Qed.

Lemma fallback_stats now f out env msg st : stats_agree st (r_stats (Fallback.Resolve now f out env msg st)).
Proof. unfold Fallback.Resolve. destruct (negb _); [done|]. apply resolve_loop_stats. Qed.

Lemma wired_result msg w st r w' st' : wired_resolve msg w st = (Ok r, w', st') →
  responseMatchesQuery msg r = true ∧ ∃ i, client_out msg st (wi_clients w) i = (Some r, None).
Proof.
  unfold wired_resolve. destruct (fold_left _ _ _) as [cs st1].
  destruct (Fallback.Resolve _ _ _ _ msg st) as [res ups st2 calls] eqn:E. cbn. destruct res as [m|]; [|done].
  intros [= -> _ _]. unfold Fallback.Resolve in E. destruct (negb _); [done|].
  apply resolve_loop_sound in E as [? (j & _ & ?)]. eauto.
Qed.

(** The chain with its clients is a resolver in the sense of the listeners. *)
#[global] Program Instance wired_resolver : UpstreamResolver Wired := {| resolve := wired_resolve |}.
Next Obligation. intros msg w st r w' st' H. by apply wired_result in H as [? _]. Qed.
Next Obligation.
  intros msg w st res w' st'. unfold wired_resolve. pose proof (fallback_stats (wi_now w) (wi_chain w) (client_out msg st (wi_clients w)) (wi_env w) msg st) as H1.
  set (r := Fallback.Resolve _ _ _ _ _ _) in *.
  pose proof (call_clients_stats msg (r_calls r) (wi_clients w) (r_stats r)) as H2.
  destruct (fold_left _ _ _) as [cs st1]. intros [= _ _ <-] k Hk. cbn in H2. rewrite (H2 k Hk). by apply H1.
Qed.

(** Where an answer comes from: what the chain returns was decoded by one of its
    encrypted clients and keeps that client's promise (complete and usable over
    QUIC, the query's ID over TLS, status 200 and bounded size over HTTPS), and it
    answers the question asked. *)
Theorem wired_answer_provenance msg w st r w' st' :
  resolve msg w st = (Ok r, w', st') →
  responseMatchesQuery msg r = true ∧
  ∃ i c, wi_clients w !! i = Some c ∧ client_promise msg c r.
Proof.
  intros [Hm [i Hi]]%wired_result. split; [done|]. unfold client_out in Hi.
  destruct (wi_clients w !! i) as [c|] eqn:Ec; [|done]. exists i, c. split; [done|].
  destruct (client_resolve msg c st) as [[res c'] st1] eqn:E. cbn in Hi. destruct res as [r'|]; [|done].
  injection Hi as <-. by apply client_resolve_promise in E.
Qed.

End Wired.

(** ** Examples *)

Definition ex_pinned : UpstreamServer :=
  mkUpstreamServer "router" "router.lan" "192.168.1.1" 443 false false true "" true (SPKIPin ex_sum "k").

(** A configuration of both modes with two upstreams, one of them pinned. *)
Definition ex_start_cfg (dnssec allow : bool) (interval : Z) : Config :=
  mkConfig true (mkResolverConfig true "") (mkUpstreamConfig true "0.0.0.0:443" "" "[::]:853" true [] [] false false "c.pem" "k.pem")
    [ex_upstream; ex_pinned] (mkDNSSECConfig dnssec false "") (mkBlocklistConfig true [] [] "")
    (mkAllowlistConfig allow "default-deny" ["allow"] ["a"]) (mkCacheConfig true "aggressive" 0 0 0 0 0 false)
    (mkMetricsConfig false "") (mkLoggingConfig "" "" "" "stdout") (mkFallbackConfig 0 0 0 0 interval)
    (mkTLSAutomationConfig false [] "" "" false "" "" "" "" "" "").

Definition ex_start_env : StartEnv :=
  mkStartEnv 0 (λ _, true) Allowlist.ex_open toyCrypto (λ _, Some 0) (λ _, Some []) ex_rootkey_zone "" (λ _, None) (λ _, 0) (λ _ _, None) ex_bind Service.ex_env ex_range.

Abbreviation ex_startup := (startup ex_sum (λ _, Some "https") (λ _, true) ex_types ex_start_env).

(** The daemon the example configuration starts. *)
Definition ex_daemon (dnssec allow : bool) : Daemon :=
  match ex_startup (normalize (ex_start_cfg dnssec allow 0)) with
  | Ok d => d
  | Err _ => mkDaemon (Cache.New (mkOptions false 0 0 0 0 0)) (Blocklist.New false) None (DnssecChain.New 0 (λ _, 0) false false)
               false [] (NewFallbackResolver 0 [] false 0 0 0) (Policy.New None None false) None None
  end.

Lemma ex_valid dnssec allow : Config.validate ex_os ex_types true (ex_start_cfg dnssec allow 0) = Ok (normalize (ex_start_cfg dnssec allow 0)).
Proof. destruct dnssec, allow; vm_compute; reflexivity. Qed.

Lemma ex_started dnssec allow : ex_startup (normalize (ex_start_cfg dnssec allow 0)) = Ok (ex_daemon dnssec allow).
Proof. destruct dnssec, allow; vm_compute; reflexivity. Qed.

Example ex_chain_names : UpstreamNames (d_resolver (ex_daemon true false)) = ["Quad9 (DoQ)"; "Quad9 (DoT)"; "router (DoH3)"].
Proof. vm_compute. done. Qed.

(** A negative health check period passes validation and ends the daemon at start. *)
Example negative_interval_panics :
  is_ok (Config.validate ex_os ex_types true (ex_start_cfg true false (-1))) = true ∧
  ex_startup (normalize (ex_start_cfg true false (-1))) = Err ETickerPanic.
Proof. vm_compute. done. Qed.

(** Two upstreams of the same name share a status line: both show the second one's state. *)
Example same_name_status :
  upstreamConnInfo (NewFallbackResolver 0 [mkUpstream "a (DoQ)" StateDOWN "timeout" 3 0; mkUpstream "a (DoQ)" StateUP "" 0 0] true 300 3 30)
  = [mkConnInfo "a (DoQ)" "UP" 0 ""; mkConnInfo "a (DoQ)" "UP" 0 ""].
Proof. vm_compute. done. Qed.

Example verbs :
  let f pin self stats := mkFlags "rcvd.toml" false false stats false false false false false pin self "" in
  (choose_verb (f (-1) false false) [], choose_verb (f 0 true false) [], choose_verb (f (-1) true true) [],
   choose_verb (f (-1) true false) ["/etc/rcvd/rcvd.toml"; "x"], choose_verb (f (-1) true false) ["x"])
  = (VRun, VShowPin 0, VStats, VUnexpected "/etc/rcvd/rcvd.toml" "/etc/rcvd/rcvd.toml", VUnexpected "x" "rcvd.toml").
Proof. vm_compute. done. Qed.

Example build_strings :
  (buildString "v0.3.0" "unknown" None,
   buildString "0.3.0" "2026" (Some [("vcs.revision", "fbdbb37687c7aa"); ("vcs.modified", "true")]))
  = ("v0.3.0", "v0.3.0 (commit fbdbb37687c7-dirty, built 2026)").
Proof. vm_compute. done. Qed.

Lemma upstreams_authenticated_witness :
  ∃ e up, e ∈ d_chain (ex_daemon true false) ∧ us_Name up = "router" ∧ ce_endpoint e = endpoint_of true up ∧
    t_MinTLS13 (entry_tls ex_sum e) = true.
Proof.
  assert (He : ∃ e, d_chain (ex_daemon true false) !! 2%nat = Some e) by (vm_compute; eexists; reflexivity).
  destruct He as [e He].
  destruct (upstreams_authenticated ex_sum (λ _, Some "https") (λ _, true) ex_types ex_os true (ex_start_cfg true false 0)
    (normalize (ex_start_cfg true false 0)) ex_start_env (ex_daemon true false) e (λ _ _, true) [] (ex_valid true false) (ex_started true false)
    (list_elem_of_lookup_2 _ _ _ He)) as (up & Hup & Hep & Htls & _).
  exists e, ex_pinned. split; [exact (list_elem_of_lookup_2 _ _ _ He)|]. split; [reflexivity|]. split; [|exact Htls].
  vm_compute in He. injection He as <-. reflexivity.
Defined.



Lemma one_policy_everywhere_witness :
  (∃ a, allow (d_policy (ex_daemon true true)) = Some a ∧ no_entries a = false) ∧
  qtype_refused (d_policy (ex_daemon true true)) TypeA = false ∧ qtype_refused (d_policy (ex_daemon true true)) TypeDNSKEY = true.
Proof.
  destruct (one_policy_everywhere ex_sum (λ _, Some "https") (λ _, true) ex_types ex_os true (ex_start_cfg true true 0) ex_start_env
    (normalize (ex_start_cfg true true 0)) (ex_daemon true true) (ex_valid true true) (ex_started true true)) as (_ & _ & (a & H1 & _ & H2) & H3).
  split; [exists a; split; assumption|]. split; [vm_compute; reflexivity|]. apply H3. split; [vm_compute; reflexivity|].
  assert (E : al_QTypes (cfg_Allowlist (normalize (ex_start_cfg true true 0))) = ["a"]) by (vm_compute; reflexivity).
  rewrite E. split; [discriminate|]. intros name Hn. apply list_elem_of_singleton in Hn as ->. vm_compute. discriminate.
Defined.

Lemma preset_lifetimes_witness : 300 ≤ 300 ≤ 604800 ∧ 0 ≤ 300 ≤ 604800.
Proof.
  apply (preset_lifetimes ex_sum (λ _, Some "https") (λ _, true) ex_types ex_os true (ex_start_cfg true false 0)
    (normalize (ex_start_cfg true false 0)) ex_start_env (ex_daemon true false) Cache.ex_resp 300 (ex_valid true false));
    [vm_compute; discriminate|exact (ex_started true false)|vm_compute; reflexivity].
Defined.

Definition ex_dns_server : Server := default (NewServer None true true ex_range) (d_server (ex_daemon false false)).
Definition ex_dns_world : World chain_state (VConfig * VState) :=
  mkWorld None (Statistics.New 0) (ex_chain_state (Some ex_up_answer, None)) (d_validator (ex_daemon false false)) [].

Lemma disabled_dnssec_sets_ad_witness :
  fst (forward (dl := exLib) (UR := chain_resolver (dl := exLib)) (VA := chain_validator (dl := exLib) (cl := toyCrypto))
         ex_dns_server ex_clock ex_squery ex_dns_world) = set_AD true ex_up_answer.
Proof.
  apply (disabled_dnssec_sets_ad ex_sum (λ _, Some "https") (λ _, true) ex_types (dl := exLib) (cl := toyCrypto) (UR := chain_resolver (dl := exLib))
    ex_start_env (normalize (ex_start_cfg false false 0)) (ex_daemon false false) ex_dns_server ex_clock ex_squery ex_dns_world ex_up_answer
    (ex_started false false)); vm_compute; reflexivity.
Defined.

Definition ex_wired : Wired :=
  mkWired (NewFallbackResolver 0 [new_state "dot"; new_state "doq"] true 300 3 30)
    [mkWClient (TDoT DotClient.NewTLSResolver (λ _, false) (λ _ _ _, dead_stream) (λ _ _ t, t)) true 0;
     mkWClient (TDoQ ex_pool (λ _, ex_net) (λ _, ex_alone) (λ _, ex_tclk)) true 0] 0 (λ _ u, u).

Example ex_wired_run :
  let '(r, w, st) := wired_resolve (dl := ex_twire) (λ _, "error") ex_tquery ex_wired (Statistics.New 0) in
  (is_ok r, uState <$> upstreams (wi_chain w), wc_calls <$> wi_clients w, (λ c, cnt st c) <$> chain_counters)
  = (true, [StateDOWN; StateUP], [1; 1]%nat, [1; 1; 1; 0; 1]).
Proof. vm_compute. done. Qed.

Lemma wired_answer_provenance_witness :
  responseMatchesQuery (dl := ex_twire) ex_tquery ex_up_answer = true ∧
  ∃ i c, wi_clients ex_wired !! i = Some c ∧ client_promise (dl := ex_twire) ex_tquery c ex_up_answer.
Proof.
  destruct (resolve (UpstreamResolver := wired_resolver (dl := ex_twire) (λ _, "error")) ex_tquery ex_wired (Statistics.New 0)) as [[r w'] st'] eqn:E.
  assert (Er : r = Ok ex_up_answer) by (change r with (fst (fst (r, w', st'))); rewrite <-E; vm_compute; reflexivity). subst r.
  apply (wired_answer_provenance (dl := ex_twire) (λ _, "error") ex_tquery ex_wired (Statistics.New 0) ex_up_answer w' st' E).
Defined.

Lemma started_daemon_stops_witness :
  ∃ svc srv chain, shutdown (service_run <$> d_service (ex_daemon true true))
    ((λ _, Mode1.mkRun false Mode1.Open Mode1.Open) <$> d_server (ex_daemon true true)) (d_resolver (ex_daemon true true))
    = Some (svc, srv, chain) ∧ resolverCloses chain = 1.
Proof.
  destruct (started_daemon_stops ex_sum (λ _, Some "https") (λ _, true) ex_types ex_start_env
    (normalize (ex_start_cfg true true 0)) (ex_daemon true true) (ex_started true true)) as (a & b & c & H1 & _ & _ & H4 & _).
  exists a, b, c. split; [exact H1|exact H4].
Defined.
