(* ===== verification/Peers.v ===== *)
(** * The clients of the chain on a network of peers

    What the transports of [Transports] take as inputs is derived here from one
    description of the network: who answers at an address at each dial, with which
    certificates, and which bytes it sends.  A dial succeeds when the handshake of
    the client's TLS configuration accepts the certificates.  The theorem of the
    file: a message a client returns was decoded from bytes a peer sent over a
    connection whose handshake was accepted, however other queries use the pools. *)

From S2P Require Import Prelude GoStrings GoNet GoFmt Config DnsMsg Cache Statistics Fallback Edns Interfaces Server Transports Wiring.
From Stdlib Require Import Ascii String.
Open Scope string_scope.
Open Scope list_scope.
Open Scope Z_scope.

(** ** Bytes *)

(** [buf] occurs in the bytes [s]. *)
Definition part_of (buf s : string) : Prop := ∃ pre post, s = pre +:+ (buf +:+ post).

Lemma read_full_split n input x rest : read_full n input = Some (x, rest) → input = x +:+ rest.
Proof.
  revert input x. induction n as [|n IH]; intros input x; simpl; [by intros [= <- <-]|].
  destruct input as [|a input]; [done|]. destruct (read_full n input) as [[y r]|] eqn:E; [|done].
  intros [= <- <-]. cbn. by rewrite (IH _ _ E).
Qed.

(** A reply is decoded from a part of the bytes of its stream; what follows it is left. *)
Lemma stream_exchange_bytes {dl : DnsLib} query s r rest : stream_exchange query s = Ok (r, rest) →
  ∃ pre buf, st_bytes s = pre +:+ (buf +:+ rest) ∧ Unpack buf = Some r.
Proof.
  unfold stream_exchange. destruct (negb _); [done|]. destruct (negb _); [done|]. intros ([buf rest'] & H & E)%bind_ok.
  cbn in E. destruct (Unpack buf) as [m|] eqn:Eu; [|done]. injection E as -> ->. unfold read_reply in H.
  destruct (st_bytes s) as [|hi [|lo bs]]; [done|done|]. destruct (_ || _); [done|].
  destruct (read_full _ bs) as [[x y]|] eqn:Er; [|done]. injection H as -> ->. apply read_full_split in Er as ->.
  by exists (String hi (String lo "")), buf.
Qed.

Lemma read_limited_part resp buf : DohClient.read_limited resp = Some buf → part_of buf (DohClient.h_body resp).
Proof.
  unfold DohClient.read_limited. destruct (_ >=? _).
  - intros [= <-]. destruct (take_bytes_prefix_of MaxMsgSize (DohClient.h_body resp)) as [post E]. exists "", post. exact E.
  - destruct (DohClient.h_broken resp); [done|]. intros [= <-]. exists "", "". cbn. by rewrite sapp_nil_r.
Qed.

(** ** Pools hold only connections whose dial succeeded *)

Module DoqPeers.
Import Doq.

Definition dialled (d : nat → bool) (q : DoQResolver) : Prop := ∀ c, conn q = Some c → d c = true.

Section Pool.
Context (d : nat → bool).

Lemma get_dialled now now' q r q' : getConnection d now now' q = (r, q') → dialled d q →
  dialled d q' ∧ ∀ c, r = Some c → d c = true.
Proof.
  unfold getConnection, dial_and_pool. intros H Hq. destruct (conn q) as [c|] eqn:Ec.
  - destruct (_ <? _); [injection H as <- <-; split; [done|]; intros c' [= <-]; by apply Hq|]. cbn in H.
    destruct (d (dials q)) eqn:Ed; injection H as <- <-; (split; [|done || by intros c' [= <-]]); intros c' [=]; by subst.
  - destruct (d (dials q)) eqn:Ed; injection H as <- <-; (split; [|done || by intros c' [= <-]]); intros c' [=]; by subst.
Qed.

Lemma recycle_dialled bad q : dialled d q → dialled d (recycleConn bad q).
Proof. intros Hq c. unfold recycleConn. case_bool_decide; cbn; [done|]. apply Hq. Qed.

Lemma step_dialled q q' : pool_step d q q' → dialled d q → dialled d q'.
Proof.
  intros [q0 now now' r q1 Hg|q0 bad _|q0 now|q0] Hq.
  - by apply (get_dialled _ _ _ _ _ Hg Hq).
  - by apply recycle_dialled.
  - exact Hq.
  - unfold Close, closeConnection. destruct (conn q0) as [c|] eqn:E; [by intros c'|exact Hq].
Qed.

Lemma steps_dialled q q' : rtc (pool_step d) q q' → dialled d q → dialled d q'.
Proof. induction 1 as [|q q1 q' Hs _ IH]; [done|]. intros H. eapply IH, step_dialled; eauto. Qed.

End Pool.

Section Client.
Context {dl : DnsLib} (net : Net) (env : nat → DoQResolver → DoQResolver) (clk : nat → Z).
Context (Henv : ∀ i q, rtc (pool_step (dial_ok net)) q (env i q)).
Local Abbreviation D := (dialled (dial_ok net)).

Lemma env_dialled i q : D q → D (env i q).
Proof. apply steps_dialled, Henv. Qed.

Lemma open_dialled k q r q' : open_exchange net env clk k q = (r, q') → D q →
  D q' ∧ ∀ c, r = Ok c → dial_ok net c = true.
Proof.
  intros H Hq. unfold open_exchange in H. destruct (getConnection _ _ _ _) as [[c|] q1] eqn:E1.
  2: { apply get_dialled in E1 as [? _]; [|by apply env_dialled]. by injection H as <- <-. }
  apply get_dialled in E1 as [H1 Hc]; [|by apply env_dialled].
  destruct (open_ok net (2 * k) c); [injection H as <- <-; split; [done|]; intros c' [= <-]; by apply Hc|].
  destruct (getConnection _ _ _ (env (6 * k + 2)%nat _)) as [[c2|] q2] eqn:E2.
  2: { apply get_dialled in E2 as [? _]; [|by apply env_dialled, recycle_dialled, env_dialled]. by injection H as <- <-. }
  apply get_dialled in E2 as [H2 Hc2]; [|by apply env_dialled, recycle_dialled, env_dialled].
  destruct (open_ok net (2 * k + 1) c2); injection H as <- <-.
  - split; [done|]. intros c' [= <-]. by apply Hc2.
  - split; [by apply recycle_dialled, env_dialled|done].
Qed.

(** The connection the reply of an exchange came over. *)
Definition came_over (msg r : Msg) : Prop :=
  ∃ b k c rest, Pack msg = Some b ∧ dial_ok net c = true ∧ stream_exchange b (stream_of net k c) = Ok (r, rest).

Lemma exchange_dialled k msg q : D q →
  D (x_pool (exchangeOnce net env clk k msg q)) ∧ ∀ r, x_result (exchangeOnce net env clk k msg q) = Ok r → came_over msg r.
Proof.
  intros Hq. unfold exchangeOnce. destruct (open_exchange net env clk k q) as [[c|e] q1] eqn:Eo;
    apply open_dialled in Eo as [H1 Hc]; try done.
  unfold pack_query. destruct (Pack msg) as [b|] eqn:Ep; [|done]. destruct (blen b >? MaxMsgSize); [done|].
  destruct (stream_exchange b (stream_of net k c)) as [[resp rest]|e] eqn:Es; [|split; [by apply recycle_dialled, env_dialled|done]].
  destruct (negb _); [split; [by apply recycle_dialled, env_dialled|done]|].
  destruct (doqResponseUsable resp); [split; [by apply recycle_dialled, env_dialled|done]|]. cbn.
  split; [by apply (env_dialled (6 * k + 5) q1)|]. intros r [= <-]. exists b, k, c, rest. split_and!; [done|by apply Hc|done].
Qed.

Lemma Resolve_dialled hasStats msg q st res q' st' sent : Resolve net env clk hasStats msg q st = (res, q', st', sent) → D q →
  D q' ∧ ∀ r, res = Ok r → came_over msg r.
Proof.
  intros H Hq. unfold Resolve in H. destruct (exchange_dialled 0 msg q Hq) as [H0 R0].
  destruct (x_result (exchangeOnce net env clk 0 msg q)) as [r0|e] eqn:E0; [injection H as <- <- <- <-; by split|].
  destruct (negb _); [by injection H as <- <- <- <-|].
  destruct (exchange_dialled 1 msg _ H0) as [H1 R1]. injection H as <- <- <- <-. by split.
Qed.

End Client.
End DoqPeers.

Module DotPeers.
Import DotClient.

(** What other queries do to the client: exchanges of any message, and [Close]. *)
Inductive tls_step {dl : DnsLib} (d : nat → bool) (io : nat → nat → nat → Stream) : TLSResolver → TLSResolver → Prop :=
| tls_exchange n k msg t : tls_step d io t (snd (resolveOnce d (io n) k msg t))
| tls_close t : tls_step d io t (Close t).

(** The bytes connection [c] delivers in the given exchanges, each a call and its
    attempt. *)
Fixpoint spoken (io : nat → nat → nat → Stream) (c : nat) (l : list (nat * nat)) : string :=
  match l with [] => "" | (n, k) :: l' => st_bytes (io n k c) +:+ spoken io c l' end.

Lemma spoken_snoc io c l n k : spoken io c (l ++ [(n, k)]) = spoken io c l +:+ st_bytes (io n k c).
Proof. induction l as [|[n' k'] l IH]; cbn; [by rewrite sapp_nil_r|]. by rewrite IH, sapp_assoc. Qed.

Section Pool.
Context {dl : DnsLib} (d : nat → bool) (io : nat → nat → nat → Stream).

(** A pooled connection was dialled, and what is still unread ends what it sent. *)
Definition tls_wf (t : TLSResolver) : Prop :=
  ∀ c, conn t = Some c → d c = true ∧ ∃ l pre, spoken io c l = pre +:+ unread t.

Lemma tls_wf_new : tls_wf NewTLSResolver.
Proof. by intros c. Qed.

Lemma tls_get_wf t r t' : getConnection d t = (r, t') → tls_wf t → tls_wf t' ∧ ∀ c, r = Some c → conn t' = Some c.
Proof.
  unfold getConnection. intros H Ht. destruct (conn t) as [c|] eqn:Ec; [injection H as <- <-; split; [done|]; by intros c' [= <-]|].
  destruct (d (dials t)) eqn:Ed; injection H as <- <-; split; try done.
  intros c' [= <-]. split; [done|]. by exists [], "".
Qed.

Lemma tls_close_wf t : tls_wf t → tls_wf (closeConnection t).
Proof. intros Ht. unfold closeConnection. destruct (conn t) eqn:E; [by intros c|exact Ht]. Qed.

Definition heard_over (r : Msg) : Prop :=
  ∃ c l buf, d c = true ∧ part_of buf (spoken io c l) ∧ Unpack buf = Some r.

Lemma resolveOnce_wf n k msg t res t' : resolveOnce d (io n) k msg t = (res, t') → tls_wf t →
  tls_wf t' ∧ ∀ r, res = Ok r → heard_over r.
Proof.
  intros H Ht. unfold resolveOnce in H. destruct (getConnection d t) as [[c|] t1] eqn:Eg;
    apply tls_get_wf in Eg as [H1 Hc]; try done; [|by injection H as <- <-].
  specialize (Hc c eq_refl). destruct (H1 c Hc) as [Hd (l & pre & Hl)].
  destruct (pack_query msg) as [b|e]; [|by injection H as <- <-].
  destruct (stream_exchange b _) as [[resp rest]|e] eqn:Es; [|injection H as <- <-; split; [by apply tls_close_wf|done]].
  apply stream_exchange_bytes in Es as (pre' & buf & Hb & Hu). cbn in Hb.
  assert (Hs : spoken io c (l ++ [(n, k)]) = (pre +:+ pre') +:+ (buf +:+ rest)).
  { by rewrite spoken_snoc, Hl, !sapp_assoc, Hb. }
  destruct (negb _); injection H as <- <-; [split; [by apply tls_close_wf|done]|]. split.
  - intros c' E. cbn in E. rewrite Hc in E. injection E as <-. split; [done|]. exists (l ++ [(n, k)]), ((pre +:+ pre') +:+ buf).
    cbn. by rewrite Hs, !sapp_assoc.
  - intros r [= <-]. exists c, (l ++ [(n, k)]), buf. split_and!; [done| |done]. exists (pre +:+ pre'), rest. exact Hs.
Qed.

Lemma tls_steps_wf t t' : rtc (tls_step d io) t t' → tls_wf t → tls_wf t'.
Proof.
  induction 1 as [|t t1 t' Hs _ IH]; [done|]. intros Ht. apply IH. destruct Hs as [n k msg t|t]; [|by apply tls_close_wf].
  destruct (resolveOnce d (io n) k msg t) as [res t1] eqn:E. by apply (resolveOnce_wf _ _ _ _ _ _ E).
Qed.

Lemma dot_Resolve_wf env n hasStats msg t st res t' st' : (∀ i t, rtc (tls_step d io) t (env i t)) →
  Resolve d (io n) env hasStats msg t st = (res, t', st') → tls_wf t → tls_wf t' ∧ ∀ r, res = Ok r → heard_over r.
Proof.
  intros Henv H Ht. unfold Resolve in H.
  assert (He : ∀ i t, tls_wf t → tls_wf (env i t)) by (intros i t0; apply tls_steps_wf, Henv).
  destruct (resolveOnce d (io n) 0 msg _) as [r0 t1] eqn:E0. apply resolveOnce_wf in E0 as [H1 R1]; [|by apply He, He].
  destruct r0 as [r0|e]; [by injection H as <- <- <-|]. destruct (isPooled _); [|by injection H as <- <- <-].
  destruct (resolveOnce d (io n) 1 msg _) as [r1 t2] eqn:E1. apply resolveOnce_wf in E1 as [H2 R2]; [|by apply He].
  by injection H as <- <- <-.
Qed.

End Pool.
End DotPeers.

(** ** The network *)

(** What is at the other end for one client: the certificates presented at each dial
    ([None] when there is no connection), the streams of each call, and the HTTP
    exchanges with the certificates of the connection they used. *)
Record Peer := mkPeer {
  p_cert : nat → option (list Cert);
  p_open : nat → nat → nat → bool;
  p_stream : nat → nat → nat → Stream;
  p_request : nat → bool;
  p_http : nat → string → option (list Cert * DohClient.HTTPResponse) }.

(** The peer that presented [certs] sent bytes that contain [buf]. *)
Inductive heard (p : Peer) (certs : list Cert) (buf : string) : Prop :=
| heard_quic k j c : p_cert p c = Some certs → part_of buf (st_bytes (p_stream p k j c)) → heard p certs buf
| heard_tls c l : p_cert p c = Some certs → part_of buf (DotPeers.spoken (p_stream p) c l) → heard p certs buf
| heard_https k body resp : p_http p k body = Some (certs, resp) → part_of buf (DohClient.h_body resp) → heard p certs buf.

(** What the other goroutines do to the pools of each client during each call, and
    the clock readings of the calls. *)
Record Siblings := mkSiblings {
  sib_doq : nat → nat → nat → Doq.DoQResolver → Doq.DoQResolver;
  sib_dot : nat → nat → nat → DotClient.TLSResolver → DotClient.TLSResolver;
  sib_clk : nat → nat → nat → Z }.

Section Network.
Context {dl : DnsLib} (sum256 : string → string) (ca_ok : string → list Cert → bool).
Context (net : nat → string → Peer) (sib : Siblings).

(** The client of entry [i] talks to whoever is at its dial address. *)
Definition peer_of (i : nat) (e : ChainEntry) : Peer := net i (dial_addr (ce_endpoint e)).

Definition accepts (i : nat) (e : ChainEntry) (n : nat) : bool :=
  match p_cert (peer_of i e) n with Some certs => handshake ca_ok (entry_tls sum256 e) certs | None => false end.

Definition do_request (i : nat) (e : ChainEntry) (k : nat) (body : string) : option DohClient.HTTPResponse :=
  match p_http (peer_of i e) k body with
  | Some (certs, resp) => if handshake ca_ok (entry_tls sum256 e) certs then Some resp else None
  | None => None
  end.

Definition doq_net (i : nat) (e : ChainEntry) (k : nat) : Doq.Net :=
  Doq.mkNet (accepts i e) (p_open (peer_of i e) k) (p_stream (peer_of i e) k).

(** The clients as the constructors leave them. *)
Definition connect (i : nat) (e : ChainEntry) : WClient :=
  mkWClient (match ce_client e with
             | ClientDoQ => TDoQ Doq.NewDoQResolver (doq_net i e) (sib_doq sib i) (sib_clk sib i)
             | ClientDoT => TDoT DotClient.NewTLSResolver (accepts i e) (p_stream (peer_of i e)) (sib_dot sib i)
             | ClientDoH _ => TDoH (p_request (peer_of i e)) (do_request i e)
             end) (e_stats (ce_endpoint e)) 0.

(** The siblings use the pools as the client itself does. *)
Definition siblings_ok : Prop := ∀ i e k j,
  (∀ q, rtc (Doq.pool_step (accepts i e)) q (sib_doq sib i k j q)) ∧
  (∀ t, rtc (DotPeers.tls_step (accepts i e) (p_stream (peer_of i e))) t (sib_dot sib i k j t)).

(** A client of the running chain is the one of its entry, in some state of its pool. *)
Definition client_linked (i : nat) (e : ChainEntry) (c : WClient) : Prop :=
  match wc_transport c, ce_client e with
  | TDoQ q n env clk, ClientDoQ => n = doq_net i e ∧ env = sib_doq sib i ∧ DoqPeers.dialled (accepts i e) q
  | TDoT t d io env, ClientDoT => d = accepts i e ∧ io = p_stream (peer_of i e) ∧ env = sib_dot sib i ∧ DotPeers.tls_wf (accepts i e) io t
  | TDoH _ http, ClientDoH _ => http = do_request i e
  | _, _ => False
  end.

Lemma connect_linked i e : client_linked i e (connect i e).
Proof. unfold client_linked, connect. destruct (ce_client e); cbn; [by split_and!|by split_and!|done]. Qed.

(** The message was decoded from what a peer with acceptable certificates sent. *)
Definition said (i : nat) (e : ChainEntry) (r : Msg) : Prop :=
  ∃ certs buf, handshake ca_ok (entry_tls sum256 e) certs = true ∧ heard (peer_of i e) certs buf ∧ Unpack buf = Some r.

Lemma accepts_certs i e c : accepts i e c = true → ∃ certs, p_cert (peer_of i e) c = Some certs ∧ handshake ca_ok (entry_tls sum256 e) certs = true.
Proof. unfold accepts. destruct (p_cert _ c) as [certs|]; [eauto|done]. Qed.

Lemma client_said (Hsib : siblings_ok) i e msg c st res c' st' : client_linked i e c → client_resolve msg c st = (res, c', st') →
  client_linked i e c' ∧ ∀ r, res = Ok r → said i e r.
Proof.
  unfold client_linked, client_resolve. intros Hl H.
  destruct (wc_transport c) as [q n env clk|t d io env|request http], (ce_client e) eqn:Ee; try done.
  - destruct Hl as (-> & -> & Hq). destruct (Doq.Resolve _ _ _ _ _ _ _) as [[[res1 q1] st1] sent] eqn:E. injection H as <- <- <-.
    apply DoqPeers.Resolve_dialled in E as [H1 H2]; [|intros j q0; apply (Hsib i e)|exact Hq]. cbn. split; [done|].
    intros r Hr. destruct (H2 r Hr) as (b & k & cn & rest & _ & Hd & Hs). apply accepts_certs in Hd as (certs & Hc & Hh).
    apply stream_exchange_bytes in Hs as (pre & buf & Hb & Hu). exists certs, buf. split_and!; [done| |done].
    apply (heard_quic _ _ _ (wc_calls c) k cn); [exact Hc|]. exists pre, rest. exact Hb.
  - destruct Hl as (-> & -> & -> & Ht). destruct (DotClient.Resolve _ _ _ _ _ _ _) as [[res1 t1] st1] eqn:E. injection H as <- <- <-.
    apply DotPeers.dot_Resolve_wf in E as [H1 H2]; [|intros j t0; apply (Hsib i e)|exact Ht]. cbn. split; [done|].
    intros r Hr. destruct (H2 r Hr) as (cn & l & buf & Hd & Hp & Hu). apply accepts_certs in Hd as (certs & Hc & Hh).
    exists certs, buf. split_and!; [done| |done]. by eapply heard_tls.
  - subst http. destruct (DohClient.Resolve _ _ _ _ _) as [res1 st1] eqn:E. injection H as <- <- <-. cbn. split; [done|].
    intros r ->. apply doh_client_answer in E as (body & resp & buf & _ & Hd & _ & Hl & _ & Hu). unfold do_request in Hd.
    destruct (p_http _ _ body) as [[certs resp']|] eqn:Eh; [|done]. destruct (handshake _ _ certs) eqn:Ehs; [|done].
    injection Hd as ->. exists certs, buf. split_and!; [done| |done]. eapply heard_https; [exact Eh|]. by apply read_limited_part.
Qed.

(** *** The chain *)

Definition linked (es : list ChainEntry) (w : Wired) : Prop :=
  ∀ i c, wi_clients w !! i = Some c → ∃ e, es !! i = Some e ∧ client_linked i e c.

Lemma call_clients_linked (Hsib : siblings_ok) (es : list ChainEntry) msg calls (cs : list WClient) st :
  (∀ i c, cs !! i = Some c → ∃ e, es !! i = Some e ∧ client_linked i e c) →
  ∀ i c, fst (fold_left (call_client msg) calls (cs, st)) !! i = Some c → ∃ e, es !! i = Some e ∧ client_linked i e c.
Proof.
  revert cs st. induction calls as [|j calls IH]; intros cs st Hcs; [exact Hcs|]. cbn [fold_left call_client].
  destruct (cs !! j) as [cj|] eqn:Ej; [|by apply IH]. destruct (client_resolve msg cj st) as [[r c'] st'] eqn:Ec.
  apply IH. intros i c Hi. destruct (decide (i = j)) as [->|Hne]; [|rewrite list_lookup_insert_ne in Hi by done; by apply Hcs].
  rewrite list_lookup_insert_eq in Hi by (by eapply lookup_lt_Some). injection Hi as <-.
  destruct (Hcs j cj Ej) as (e & He & Hl). exists e. split; [done|]. by apply (client_said Hsib _ _ _ _ _ _ _ _ Hl Ec).
Qed.

(** What the chain returns was said by the peer of one of its entries, and answers the
    question asked. *)
Lemma wired_said (Hsib : siblings_ok) (es : list ChainEntry) error_text msg w st res w' st' : linked es w →
  wired_resolve error_text msg w st = (res, w', st') →
  linked es w' ∧ ∀ r, res = Ok r → responseMatchesQuery msg r = true ∧ ∃ i e, es !! i = Some e ∧ said i e r.
Proof.
  intros Hl H. split.
  - unfold wired_resolve in H. destruct (fold_left _ _ _) as [cs st1] eqn:Ef. injection H as _ <- _. intros i c. cbn.
    change cs with (fst (cs, st1)). rewrite <-Ef. by apply call_clients_linked.
  - intros r ->. apply wired_result in H as [Hm [i Hi]]. split; [done|]. unfold client_out in Hi.
    destruct (wi_clients w !! i) as [c|] eqn:Ec; [|done]. destruct (Hl i c Ec) as (e & He & Hle).
    destruct (client_resolve msg c st) as [[res c'] st1] eqn:E. cbn in Hi. destruct res as [r'|]; [|done]. injection Hi as ->.
    exists i, e. split; [done|]. by apply (client_said Hsib _ _ _ _ _ _ _ _ Hle E).
Qed.

End Network.
