(* ===== verification/Goroutines.v ===== *)
(** * The goroutines of the daemon

    The query paths of [Server] and [Mode2], the chain of [Fallback] with the clients of
    [Transports], the health checks and the validator of [DnssecChain], each as the
    program of atomic sections that its goroutine executes: one for every section under
    a mutex and every atomic counter.  The lists of the policy, the cache, the key cache,
    the states and pools of the chain and the counters are shared; between two sections
    of a goroutine the others may change them.  [Sequential] proves that a goroutine
    alone does what the definitions of those files say; [Daemon] runs them together.

    Of a policy [p], only what is fixed at start-up is used here: whether there is an
    allowlist or a blocklist, the record types, and whether there are counters.  The
    lists themselves are read from the shared state at every look-up. *)

From S2P Require Import Prelude GoStrings DnsMsg Cache Blocklist Allowlist Statistics Policy Fallback Interfaces Edns Server.
From S2P Require Import Dnssec DnssecChain UpstreamEdns Ddr Mode2 Transports Wiring Threads.
From Stdlib Require Import Ascii String.
Open Scope string_scope.
Open Scope list_scope.
Open Scope Z_scope.

(** ** The chain and its clients *)

(** What they share: the chain with its clients, and the counters. *)
Abbreviation Chain := (Wired * Stats)%type.

Definition set_clients (cs : list WClient) (u : Wired) : Wired := mkWired (wi_chain u) cs (wi_now u) (wi_env u).
Definition set_chain (f : FallbackResolver) (u : Wired) : Wired := mkWired f (wi_clients u) (wi_now u) (wi_env u).

Definition countP (hasStats : bool) (c : counter) : prog Chain () :=
  writeP (λ '(u, st), (u, if hasStats then inc c st else st)).

Definition set_transport (t : Transport) (c : WClient) : WClient := mkWClient t (wc_stats c) (wc_calls c).

(** A section under the mutex of the pool of the [i]-th client. *)
Definition on_doq {X} (i : nat) (dflt : X) (f : Doq.DoQResolver → X * Doq.DoQResolver) : prog Chain X :=
  atomic (λ '(u, st),
    match wi_clients u !! i with
    | Some c =>
        match wc_transport c with
        | TDoQ q net env clk =>
            let '(x, q') := f q in (x, (set_clients (<[i := set_transport (TDoQ q' net env clk) c]> (wi_clients u)) u, st))
        | _ => (dflt, (u, st))
        end
    | None => (dflt, (u, st))
    end).

(** A section under the mutex of the exchanges of the [i]-th client. *)
Definition on_dot {X} (i : nat) (dflt : X) (f : DotClient.TLSResolver → X * DotClient.TLSResolver) : prog Chain X :=
  atomic (λ '(u, st),
    match wi_clients u !! i with
    | Some c =>
        match wc_transport c with
        | TDoT t dial_ok io env =>
            let '(x, t') := f t in (x, (set_clients (<[i := set_transport (TDoT t' dial_ok io env) c]> (wi_clients u)) u, st))
        | _ => (dflt, (u, st))
        end
    | None => (dflt, (u, st))
    end).

(** The number of the call, which the behaviour of the network is indexed by. *)
Definition begin_call (i : nat) : prog Chain (option WClient) :=
  atomic (λ '(u, st),
    match wi_clients u !! i with
    | Some c => (Some c, (set_clients (<[i := mkWClient (wc_transport c) (wc_stats c) (S (wc_calls c))]> (wi_clients u)) u, st))
    | None => (None, (u, st))
    end).

Section Chain.
Context {dl : DnsLib} (error_text : xerr → string).

Section DoQ.
Context (i : nat) (net : Doq.Net) (clk : nat → Z).

Definition getConnectionP (n n' : nat) : prog Chain (option nat) :=
  on_doq i None (Doq.getConnection (Doq.dial_ok net) (clk n) (clk n')).
Definition recycleConnP (c : nat) : prog Chain () := on_doq i () (λ q, ((), Doq.recycleConn c q)).

Definition open_exchangeP (k : nat) : prog Chain (result nat xerr) :=
  doP first ← getConnectionP (6 * k) (6 * k + 1);
  match first with
  | None => Ret (Err EConnection)
  | Some c =>
      if Doq.open_ok net (2 * k) c then Ret (Ok c) else
      doP _ ← recycleConnP c;
      doP second ← getConnectionP (6 * k + 2) (6 * k + 3);
      match second with
      | None => Ret (Err EReconnect)
      | Some c =>
          if Doq.open_ok net (2 * k + 1) c then Ret (Ok c)
          else doP _ ← recycleConnP c; Ret (Err EStream)
      end
  end.

(** The result of an exchange, and whether another one may succeed. *)
Definition exchangeOnceP (k : nat) (msg : Msg) : prog Chain (result Msg xerr * bool) :=
  doP opened ← open_exchangeP k;
  match opened with
  | Err e => Ret (Err e, false)
  | Ok c =>
      match pack_query msg with
      | Err e => Ret (Err e, false)
      | Ok msgBytes =>
          let failed e := doP _ ← recycleConnP c; Ret (Err e, true) in
          match stream_exchange msgBytes (Doq.stream_of net k c) with
          | Err e => failed e
          | Ok (resp, _) =>
              if negb (Doq.doqResponseMatchesQuery msg resp) then failed errDoQQuestionMismatch else
              match Doq.doqResponseUsable resp with
              | Some e => failed e
              | None => doP _ ← on_doq i () (λ q, ((), Doq.touch (clk (6 * k + 5)%nat) q)); Ret (Ok resp, false)
              end
          end
      end
  end.

Definition doqP (hasStats : bool) (msg : Msg) : prog Chain (result Msg xerr) :=
  doP _ ← countP hasStats DoQQueries;
  doP x ← exchangeOnceP 0 msg;
  match x with
  | (Ok resp, _) => Ret (Ok resp)
  | (Err err, retryable) =>
      if negb retryable then Ret (Err err) else
      doP _ ← (if bool_decide (err = errDoQQuestionMismatch) then Ret () else countP hasStats DoQIdleRetries);
      doP y ← exchangeOnceP 1 msg;
      Ret (fst y)
  end.

End DoQ.

Definition dotP (i : nat) (dial_ok : nat → bool) (io : nat → nat → Stream) (hasStats : bool) (msg : Msg) : prog Chain (result Msg xerr) :=
  doP _ ← countP hasStats DoTQueries;
  doP pooledBefore ← on_dot i false (λ t, (DotClient.isPooled t, t));
  doP r ← on_dot i (Err EConnection) (DotClient.resolveOnce dial_ok io 0 msg);
  match r with
  | Err _ => if pooledBefore : bool then on_dot i (Err EConnection) (DotClient.resolveOnce dial_ok io 1 msg) else Ret r
  | Ok _ => Ret r
  end.

Definition dohP (request : bool) (http : string → option DohClient.HTTPResponse) (hasStats : bool) (msg : Msg) : prog Chain (result Msg xerr) :=
  atomic (λ '(u, st), let '(r, st) := DohClient.Resolve request http hasStats msg st in (r, (u, st))).

(** [upstream.Resolver.Resolve] of the [i]-th upstream. *)
Definition clientP (i : nat) (msg : Msg) : prog Chain outcome :=
  doP client ← begin_call i;
  match client with
  | None => Ret (None, None)
  | Some c =>
      let k := wc_calls c in
      doP r ← match wc_transport c with
              | TDoQ _ net _ clk => doqP i (net k) (clk k) (wc_stats c) msg
              | TDoT _ dial_ok io _ => dotP i dial_ok (io k) (wc_stats c) msg
              | TDoH request http => dohP (request k) (http k) (wc_stats c) msg
              end;
      Ret (match r with Ok m => (Some m, None) | Err e => (None, Some (error_text e)) end)
  end.

(** A section under the mutex of the chain that changes one of its upstreams. *)
Definition on_upstream (i : nat) (g : FallbackResolver → UpstreamState → UpstreamState) : prog Chain () :=
  writeP (λ '(u, st), (set_chain (set_upstreams (alter (g (wi_chain u)) i (upstreams (wi_chain u))) (wi_chain u)) u, st)).

Section Loop.
Context (msg : Msg) (phase : Z) (n : nat).

Fixpoint resolve_loopP (todo i : nat) (triedPrimary : bool) : prog Chain (result Msg ()) :=
  match todo with
  | O => Ret (Err ())
  | S todo' =>
      doP entry ← readP (λ '(u, _), upstreams (wi_chain u) !! i);
      match entry with
      | None => resolve_loopP todo' (S i) triedPrimary
      | Some u =>
          if bool_decide (uState u = StateDOWN) && (1 <? n)%nat then resolve_loopP todo' (S i) triedPrimary else
          doP out ← clientP i msg;
          let failed e :=
            doP _ ← on_upstream i (λ f, recordError (phase2FailureThreshold f) e phase);
            resolve_loopP todo' (S i) true in
          match out with
          | (Some r, None) =>
              if negb (responseMatchesQuery msg r) then failed (Some mismatch_text) else
              doP _ ← on_upstream i (λ _, recordSuccess);
              doP hasStats ← readP (λ '(u, _), hasStats (wi_chain u));
              doP _ ← (if triedPrimary || (0 <? i)%nat then countP hasStats UpstreamFallbacks else Ret ());
              Ret (Ok r)
          | (_, err) => failed err
          end
      end
  end.
End Loop.

(** [FallbackResolver.Resolve]. *)
Definition resolveP (msg : Msg) : prog Chain (result Msg ()) :=
  if negb (List.length (mQuestion msg) =? 1)%nat then Ret (Err ()) else
  doP start ← readP (λ '(u, _), (List.length (upstreams (wi_chain u)), getCurrentPhase (wi_now u) (wi_chain u)));
  let '(n, phase) := start in
  resolve_loopP msg phase n n 0 false.

(** [performHealthChecks]; [now] are the clock readings after failed probes. *)
Fixpoint probe_allP (now : nat → Z) (down : list nat) : prog Chain () :=
  match down with
  | [] => Ret ()
  | i :: down =>
      doP out ← clientP i testMsg;
      doP _ ← match out with
              | (Some _, None) => on_upstream i (λ _, recordSuccess)
              | (_, err) => on_upstream i (λ f, recordError (phase2FailureThreshold f) err (getCurrentPhase (now i) f))
              end;
      probe_allP now down
  end.

Definition performHealthChecksP (now : nat → Z) : prog Chain () :=
  doP down ← readP (λ '(u, _), downUpstreams (upstreams (wi_chain u)));
  probe_allP now down.

End Chain.

(** ** The shared state *)

Abbreviation DWorld := (World Wired (VConfig * VState)).

(** The world of the handlers, and the two lists with the lists they replaced. *)
Record Shared := mkShared {
  sh_world : DWorld;
  sh_allow : Allowlist.Allowlist; sh_allow_past : list Allowlist.Allowlist;
  sh_block : Blocklist.Blocklist; sh_block_past : list Blocklist.Blocklist }.

Definition on_world (f : DWorld → DWorld) (sh : Shared) : Shared :=
  mkShared (f (sh_world sh)) (sh_allow sh) (sh_allow_past sh) (sh_block sh) (sh_block_past sh).

(** A reload installs a list. *)
Definition install_allow (a : Allowlist.Allowlist) (sh : Shared) : Shared :=
  mkShared (sh_world sh) a (sh_allow_past sh ++ [sh_allow sh]) (sh_block sh) (sh_block_past sh).
Definition install_block (b : Blocklist.Blocklist) (sh : Shared) : Shared :=
  mkShared (sh_world sh) (sh_allow sh) (sh_allow_past sh) b (sh_block_past sh ++ [sh_block sh]).

Definition worldP {A} (f : DWorld → A * DWorld) : prog Shared A :=
  atomic (λ sh, let '(a, w) := f (sh_world sh) in (a, on_world (λ _, w) sh)).
Definition bumpP (s : Server) (c : counter) : prog Shared () := writeP (on_world (bump s c)).

(** The programs of the chain, on its part of the shared state. *)
Definition get_chain (sh : Shared) : Chain := (w_up (sh_world sh), w_stats (sh_world sh)).
Definition put_chain (c : Chain) : Shared → Shared :=
  on_world (λ w, mkWorld (w_cache w) (snd c) (fst c) (w_val w) (w_fwd w)).
Definition on_chain {A} : prog Chain A → prog Shared A := zoom get_chain put_chain.

(** ** The policy *)

Definition allowedP (name : string) : prog Shared bool := readP (λ sh, Allowed (sh_allow sh) name).
Definition isBlockedP (name : string) : prog Shared bool := readP (λ sh, IsBlocked (sh_block sh) name).

Section Policy.
Context {dl : DnsLib} (p : Policy).

Definition denyP (query : Msg) (reason : string) : prog Shared Msg :=
  worldP (λ w, let '(st, m) := deny p query reason (w_stats w) in (m, set_stats st w)).

Definition block_checkP (query : Msg) (q : Question) : prog Shared (option Msg) :=
  match block p with
  | None => Ret None
  | Some _ =>
      doP blocked ← isBlockedP (qName q);
      if blocked : bool then
        doP _ ← writeP (on_world (λ w, set_stats (count BlockedQueries p (w_stats w)) w));
        Ret (Some (mkMsg (replyHdr (mId query) RcodeNameError) (mQuestion query) [] [] []))
      else Ret None
  end.

Definition ResponseP (query : Msg) : prog Shared (option Msg) :=
  match mQuestion query with
  | [] => Ret None
  | q :: _ =>
      match allow p with
      | None => block_checkP query q
      | Some _ =>
          doP allowed ← allowedP (qName q);
          if negb allowed then doP m ← denyP query "default-deny allowlist"; Ret (Some m)
          else if qtype_refused p (qType q) then doP m ← denyP query "qtype not allowed"; Ret (Some m)
          else block_checkP query q
      end
  end.

(** The reason to refuse a record, if any: the owner and the target of an alias are
    looked up one after the other. *)
Definition answer_refusedP (rr : RR) : prog Shared (option string) :=
  let h := rHdr rr in
  if hRrtype h =? TypeRRSIG then Ret None else
  if qtype_refused p (hRrtype h) then Ret (Some "answer type not allowed") else
  doP owner ← allowedP (hName h);
  if negb owner then Ret (Some "answer outside allowlist") else
  match rData rr with
  | D_CNAME t | D_DNAME t =>
      doP target ← allowedP t;
      Ret (if negb target then Some "answer outside allowlist" else None)
  | _ => Ret None
  end.

Fixpoint first_refusedP (l : list RR) : prog Shared (option string) :=
  match l with
  | [] => Ret None
  | rr :: l =>
      doP refused ← answer_refusedP rr;
      match refused with Some reason => Ret (Some reason) | None => first_refusedP l end
  end.

Definition AnswerP (query resp : Msg) : prog Shared Msg :=
  match allow p with
  | None => Ret resp
  | Some _ =>
      doP refused ← first_refusedP (mAnswer resp);
      match refused with Some reason => denyP query reason | None => Ret resp end
  end.

End Policy.

(** A nil policy lets everything pass. *)
Definition policyResponseP {dl : DnsLib} (s : Server) (query : Msg) : prog Shared (option Msg) :=
  match s_policy s with Some p => ResponseP p query | None => Ret None end.
Definition policyAnswerP {dl : DnsLib} (s : Server) (query resp : Msg) : prog Shared Msg :=
  match s_policy s with Some p => AnswerP p query resp | None => Ret resp end.

(** ** The cache *)

Section CacheP.
Context {dl : DnsLib}.

(** [cache.Get]: the two sections of [Cache.Get]. *)
Definition getP (now : Z) (query : Msg) : prog Shared (option Msg) :=
  doP found ← readP (λ sh, match w_cache (sh_world sh) with Some c => Get_lookup c now (Some query) | None => Miss end);
  match found with
  | Miss => Ret None
  | Hit m => Ret (Some m)
  | Expired key =>
      doP _ ← writeP (on_world (λ w, set_cache ((λ c, Get_delete c key) <$> w_cache w) w));
      Ret None
  end.

Definition getStaleP (now : Z) (query : Msg) : prog Shared (option Msg) :=
  readP (λ sh, match w_cache (sh_world sh) with Some c => GetStale c now (Some query) | None => None end).

(** [cache.Put], on the condition of the caller. *)
Definition putP (order : gmap string CacheEntry → list (string * CacheEntry)) (now : Z) (query resp : Msg)
    (may : Cache → bool) : prog Shared () :=
  writeP (on_world (λ w,
    match w_cache w with
    | Some c => if may c then set_cache (Some (Put order c now (Some query) (Some resp))) w else w
    | None => w
    end)).

Definition has_cacheP : prog Shared bool := readP (λ sh, bool_decide (is_Some (w_cache (sh_world sh)))).

End CacheP.

(** ** The handlers

    The chain and the validator as programs are arguments. *)

Section Handlers.
Context {dl : DnsLib} (upstreamP : Msg → prog Shared (result Msg ())) (validateP : Msg → prog Shared validation).

(** [resolver.Resolve], recorded among the forwarded queries. *)
Definition callP (up : Msg) : prog Shared (result Msg ()) :=
  doP _ ← writeP (on_world (λ w, mkWorld (w_cache w) (w_stats w) (w_up w) (w_val w) (w_fwd w ++ [up])));
  upstreamP up.

(** *** Mode 1 *)

Definition upstreamFailureResponseP (s : Server) (clk : Clock) (query : Msg) : prog Shared Msg :=
  doP stale ← getStaleP (t_stale clk) query;
  match stale with
  | Some stale => doP _ ← bumpP s StaleServed; Ret (set_Id (mId query) stale)
  | None => Ret (servfail query)
  end.

Definition applyDNSSECP (s : Server) (clk : Clock) (response query : Msg) : prog Shared Msg :=
  doP verdict ← validateP response;
  match verdict with
  | Secure => doP _ ← bumpP s DnssecValidated; Ret (set_AD true response)
  | Insecure => doP _ ← bumpP s DnssecUnsigned; Ret (set_AD false response)
  | Bogus => doP _ ← bumpP s DnssecFailed; upstreamFailureResponseP s clk query
  end.

Definition forwardP (s : Server) (clk : Clock) (query : Msg) : prog Shared Msg :=
  doP _ ← bumpP s CacheMisses;
  doP _ ← bumpP s UpstreamQueries;
  doP res ← callP (queryWithDO query);
  doP response ←
    match res with
    | Err _ => doP _ ← bumpP s UpstreamErrors; upstreamFailureResponseP s clk query
    | Ok response =>
        doP _ ← writeP (on_world (record_latency s (t_latency clk)));
        doP response ← (if s_validator s then applyDNSSECP s clk response query else Ret response);
        doP _ ← putP (s_order s) (t_put clk) query response
                  (λ c, (0 <? List.length (mQuestion query))%nat && cacheableResponse (Some c) response);
        Ret response
    end;
  policyAnswerP s query response.

(** The reply to one query, over UDP and over TCP. *)
Definition mode1P (s : Server) (clk : Clock) (query : Msg) : prog Shared Msg :=
  doP _ ← bumpP s TotalQueries;
  doP denied ← (if negb (List.length (mQuestion query) =? 1)%nat then Ret (Some (formErrResponse query)) else policyResponseP s query);
  match denied with
  | Some response => Ret response
  | None =>
      doP hit ← (if (0 <? List.length (mQuestion query))%nat then getP (t_get clk) query else Ret None);
      match hit with
      | Some cached => doP _ ← bumpP s CacheHits; policyAnswerP s query (set_Id (mId query) cached)
      | None => forwardP s clk query
      end
  end.

Definition udpP (s : Server) (clk : Clock) (queryBuf : string) : prog Shared (option (Msg * string)) :=
  match Unpack queryBuf with
  | None => Ret None
  | Some query =>
      doP response ← mode1P s clk query;
      let response := ensureResponseEDNS response query in
      match packUDP response query with
      | None => Ret None
      | Some buf =>
          let response := Truncate (udpResponseLimit query) response in
          doP _ ← writeP (on_world (record_response s (mRcode response)));
          Ret (Some (response, buf))
      end
  end.

Definition tcpP (s : Server) (clk : Clock) (wr : bool) (query : Msg) : prog Shared (option (Msg * string * bool)) :=
  doP response ← mode1P s clk query;
  let response := ensureResponseEDNS response query in
  match packStream response query with
  | (None, _) => Ret None
  | (Some buf, replaced) =>
      if negb wr then Ret None else
      doP _ ← writeP (on_world (record_response s (mRcode response)));
      Ret (Some (response, buf, replaced))
  end.

(** *** Mode 2 *)

Definition validateFuncP (l : Listener) (msg : Msg) : prog Shared (option Msg) :=
  doP verdict ← validateP msg;
  match verdict with
  | Secure => doP _ ← bumpP l DnssecValidated; Ret (Some (set_AD true msg))
  | Insecure => doP _ ← bumpP l DnssecUnsigned; Ret (Some (set_AD false msg))
  | Bogus => Ret None
  end.

Definition upstream2P (l : Listener) (clk : Clock) (query : Msg) : prog Shared Msg :=
  doP _ ← bumpP l UpstreamQueries;
  doP res ← callP (Up.queryWithDO query);
  doP response ←
    match res with
    | Err _ => doP _ ← bumpP l UpstreamErrors; Ret (servfail query)
    | Ok resp =>
        if l_validate l then
          doP checked ← validateFuncP l resp;
          match checked with
          | Some r => Ret r
          | None => doP _ ← bumpP l DnssecFailed; Ret (servfail query)
          end
        else Ret resp
    end;
  doP _ ← putP (l_order l) (t_put clk) query response
            (λ _, (0 <? List.length (mQuestion query))%nat && (mRcode response =? RcodeSuccess));
  policyAnswerP l query response.

(** What is answered without going upstream.  The copies of the query path differ in
    the order of the counter and the answer check on a hit ([hit_first]). *)
Definition local2P (hit_first : bool) (l : Listener) (clk : Clock) (query : Msg) : prog Shared (option Msg) :=
  doP response ←
    (if negb (List.length (mQuestion query) =? 1)%nat then Ret (Some (formErrResponse query)) else
     match answer (l_ddr l) query with
     | Some resp => Ret (Some resp)
     | None => policyResponseP l query
     end);
  match response with
  | Some r => Ret (Some r)
  | None =>
      doP cache ← has_cacheP;
      if negb cache then Ret None else
      doP hit ← getP (t_get clk) query;
      match hit with
      | Some cached =>
          doP _ ← (if hit_first then bumpP l CacheHits else Ret ());
          doP r ← policyAnswerP l query (set_Id (mId query) cached);
          doP _ ← (if hit_first then Ret () else bumpP l CacheHits);
          Ret (Some r)
      | None => doP _ ← bumpP l CacheMisses; Ret None
      end
  end.

Definition reply2P (hit_first : bool) (l : Listener) (clk : Clock) (query : Msg) : prog Shared Msg :=
  doP response ← local2P hit_first l clk query;
  match response with Some r => Ret r | None => upstream2P l clk query end.

Definition servedP (l : Listener) (rcode us : Z) : prog Shared () :=
  doP _ ← writeP (on_world (record_response l rcode));
  writeP (on_world (λ w, if l_stats l then set_stats (RecordMode2Latency us (w_stats w)) w else w)).

(** One query of a DoT connection, or of a DoQ stream. *)
Definition stream2P (served : counter) (l : Listener) (clk : Clock) (wr : bool) (query : Msg) : prog Shared (option (Msg * string * bool)) :=
  doP _ ← bumpP l served;
  doP _ ← bumpP l TotalQueries;
  doP response ← reply2P false l clk query;
  let response := Up.ensureResponseEDNS response query in
  match Up.packStream response query with
  | (None, _) => Ret None
  | (Some buf, replaced) =>
      if negb wr then Ret None else
      doP _ ← servedP l (mRcode response) (t_latency clk);
      Ret (Some (response, buf, replaced))
  end.

Definition doqStreamP (l : Listener) (clk : Clock) (wr : bool) (input : string) : prog Shared (option (Msg * string * bool)) :=
  match read_message input with
  | None => Ret None
  | Some (msgBuf, _) => match Unpack msgBuf with None => Ret None | Some query => stream2P DoQServed l clk wr query end
  end.

(** A request to DoH.  The reply of the zone is not normalised again. *)
Definition respondP (l : Listener) (clk : Clock) (query : Msg) : prog Shared Msg :=
  if negb (List.length (mQuestion query) =? 1)%nat then Ret (Up.ensureResponseEDNS (formErrResponse query) query) else
  match answer (l_ddr l) query with
  | Some resp => Ret resp
  | None =>
      doP response ← reply2P true l clk query;
      Ret (Up.ensureResponseEDNS response query)
  end.

Definition dohQueryP (l : Listener) (clk : Clock) (r : Doh.Request) : prog Shared Doh.HttpReply :=
  match Doh.request_body r with
  | Err status => Ret (Doh.HttpError status)
  | Ok body =>
      match Unpack body with
      | None => Ret (Doh.HttpError Doh.StatusBadRequest)
      | Some query =>
          doP _ ← bumpP l DoHServed;
          doP _ ← bumpP l TotalQueries;
          doP response ← respondP l clk query;
          match Pack response with
          | None => Ret (Doh.HttpError Doh.StatusInternalServerError)
          | Some respBuf =>
              doP _ ← servedP l (mRcode response) (t_latency clk);
              Ret (Doh.HttpOK response respBuf)
          end
      end
  end.

End Handlers.

(** ** The chain and the validator of the daemon *)

Section Validator.
Context {dl : DnsLib} {cl : DnssecLib} (upstreamP : Msg → prog Shared (result Msg ())).

(** A computation of the validator: its key cache is shared, and its queries go upstream
    like those of the clients. *)
Definition set_keys (c : rrsetCache) (w : DWorld) : DWorld := set_val (fst (w_val w), mkVState c (fetched (snd (w_val w)))) w.

Fixpoint walkP {A} (c : M A) : prog Shared (result A verr) :=
  match c with
  | DoneM r => Ret r
  | CacheM f k =>
      Act (λ sh, let '(x, keys) := f (keyCache (snd (w_val (sh_world sh)))) in (x, on_world (set_keys keys) sh)) (λ x, walkP (k x))
  | AskM cfg zone t k =>
      Act (λ sh, let v := w_val (sh_world sh) in
                 let q := key_query cfg (List.length (fetched (snd v))) zone t in
                 (q, on_world (set_val (fst v, mkVState (keyCache (snd v)) (fetched (snd v) ++ [q]))) sh))
          (λ q, doP res ← upstreamP q; walkP (k (match res with Ok m => Some m | Err _ => None end)))
  end.

(** [ValidateResponse] of the daemon's validator, at the time it starts. *)
Definition validateResponseP (msg : Msg) : prog Shared validation :=
  doP cfg ← readP (λ sh, fst (w_val (sh_world sh)));
  doP res ← walkP (ValidateResponse cfg msg);
  Ret (match res with Ok _ => Secure | Err e => if IsInsecure e then Insecure else Bogus end).

End Validator.

Definition chainP {dl : DnsLib} (error_text : xerr → string) (msg : Msg) : prog Shared (result Msg ()) := on_chain (resolveP error_text msg).
Definition healthP {dl : DnsLib} (error_text : xerr → string) (now : nat → Z) : prog Shared () := on_chain (performHealthChecksP error_text now).
