(* ===== verification/Sequential.v ===== *)
(** * A goroutine alone

    Run without interference, the programs of [Goroutines] are the definitions of the
    other files: the handlers of both modes, the chain with its clients, and the
    validator.  What is proved about those definitions holds of the goroutines, and the
    interleavings of [Daemon] are interleavings of them. *)

From S2P Require Import Prelude GoStrings DnsMsg Cache Blocklist Allowlist Statistics Policy Fallback Interfaces Edns Server.
From S2P Require Import Dnssec DnssecChain UpstreamEdns Ddr Mode2 Transports Wiring Threads Goroutines.
From Stdlib Require Import Ascii String.
Open Scope string_scope.
Open Scope list_scope.
Open Scope Z_scope.

(** A policy and the listeners with the lists of the shared state. *)
Definition live_policy (a : Allowlist.Allowlist) (b : Blocklist.Blocklist) (p : Policy) : Policy :=
  mkPolicy ((λ _, a) <$> allow p) ((λ _, b) <$> block p) (Policy.hasStats p) (qtypes p).
Definition live_server (a : Allowlist.Allowlist) (b : Blocklist.Blocklist) (s : Server) : Server :=
  Server.SetPolicy (live_policy a b <$> s_policy s) s.
Definition with_policy (p : option Policy) (l : Listener) : Listener :=
  mkListener p (l_validate l) (l_stats l) (l_order l) (l_ddr l).
Definition live_listener (a : Allowlist.Allowlist) (b : Blocklist.Blocklist) (l : Listener) : Listener :=
  with_policy (live_policy a b <$> l_policy l) l.

Lemma run_ret {S A} (x : A) (s : S) : run (Ret x) s = (x, s).
Proof. done. Qed.

Lemma run_act {S A X} (f : S → X * S) (k : X → prog S A) s : run (Act f k) s = let '(x, s') := f s in run (k x) s'.
Proof. done. Qed.

Section Handlers.
Context {dl : DnsLib} {UR : UpstreamResolver Wired} {VA : Validator (VConfig * VState)}.
Context (a : Allowlist.Allowlist) (pa : list Allowlist.Allowlist) (b : Blocklist.Blocklist) (pb : list Blocklist.Blocklist).
Local Abbreviation Sh w := (mkShared w a pa b pb).
Implicit Type w : DWorld.

(** The chain and the validator in one step each. *)
Definition resolve_step (msg : Msg) : prog Shared (result Msg ()) :=
  worldP (λ w, let '(res, u, st) := resolve msg (w_up w) (w_stats w) in (res, mkWorld (w_cache w) st u (w_val w) (w_fwd w))).
Definition validate_step (msg : Msg) : prog Shared validation :=
  worldP (λ w, let '(v, v') := validate msg (w_val w) in (v, set_val v' w)).

(** The program does on the shared state what [f] does on the world. *)
Definition does {A} (p : prog Shared A) (f : DWorld → A * DWorld) : Prop :=
  ∀ w, run p (Sh w) = let '(x, w') := f w in (x, Sh w').

Lemma does_ext {A} (p : prog Shared A) f g : does p f → (∀ w, f w = g w) → does p g.
Proof. intros Hp H w. by rewrite <-H. Qed.

Lemma does_bump s c : does (bumpP s c) (λ w, ((), bump s c w)).
Proof. done. Qed.
Lemma does_world {A} (f : DWorld → A * DWorld) : does (worldP f) f.
Proof. intros w. unfold worldP. rewrite run_atomic. cbn. by destruct (f w). Qed.
Lemma does_write f : does (writeP (on_world f)) (λ w, ((), f w)).
Proof. done. Qed.

Lemma set_stats_id w : set_stats (w_stats w) w = w.
Proof. by destruct w. Qed.

(** The sections of a program whose effect is known, one after the other. *)
Ltac seq := repeat (first [rewrite run_bind | rewrite run_ret | rewrite does_bump | rewrite does_write]; cbv beta iota).

(** ** The policy *)

Lemma does_first_refused p l :
  does (first_refusedP p l) (λ w, (first_refused (live_policy a b p) a l, w)).
Proof.
  intros w. induction l as [|rr l IH]; [done|]. cbn [first_refusedP first_refused]. rewrite run_bind.
  assert (H : run (answer_refusedP p rr) (Sh w) = (answer_refused (live_policy a b p) a rr, Sh w)).
  { unfold answer_refusedP, answer_refused. destruct (hRrtype _ =? TypeRRSIG); [done|].
    change (qtype_refused (live_policy a b p)) with (qtype_refused p). destruct (qtype_refused p _); [done|].
    rewrite run_bind. unfold allowedP at 1. rewrite run_read. cbn [sh_allow]. destruct (Allowed a _); [|done].
    cbn [negb]. destruct (rData rr); try done. }
  rewrite H. destruct (answer_refused _ a rr); [done|]. exact IH.
Qed.

Lemma does_answer s query resp : does (policyAnswerP s query resp) (policyAnswer (live_server a b s) query resp).
Proof.
  intros w. unfold policyAnswerP, policyAnswer, Answer. cbn. destruct (s_policy s) as [p|]; cbn; [|by rewrite set_stats_id].
  unfold AnswerP. destruct (allow p) as [a0|] eqn:Ea; cbn; [|by rewrite set_stats_id].
  rewrite run_bind, does_first_refused. destruct (first_refused _ a (mAnswer resp)) as [reason|]; cbn; [|by rewrite set_stats_id].
  unfold denyP. rewrite does_world. change (deny (live_policy a b p)) with (deny p). by destruct (deny p query reason (w_stats w)).
Qed.

Lemma does_response s query : does (policyResponseP s query) (policyResponse (live_server a b s) query).
Proof.
  intros w. unfold policyResponseP, policyResponse, Response. cbn. destruct (s_policy s) as [p|]; cbn; [|by rewrite set_stats_id].
  unfold ResponseP. destruct (mQuestion query) as [|q qs]; [by rewrite set_stats_id|].
  assert (Hb : ∀ w, run (block_checkP p query q) (Sh w) =
    (let '(st, r) := block_check (live_policy a b p) query q (w_stats w) in (r, Sh (set_stats st w)))).
  { intros w0. unfold block_checkP, block_check. cbn. destruct (block p) as [b0|]; cbn; [|by rewrite set_stats_id].
    rewrite run_bind. unfold isBlockedP. rewrite run_read. cbn. destruct (IsBlocked b (qName q)); [done|by rewrite set_stats_id]. }
  destruct (allow p) as [a0|] eqn:Ea; cbn.
  - rewrite run_bind. unfold allowedP. rewrite run_read. cbn. destruct (Allowed a (qName q)); cbn.
    + change (qtype_refused (live_policy a b p)) with (qtype_refused p). destruct (qtype_refused p (qType q)).
      * rewrite run_bind. unfold denyP. rewrite does_world. change (deny (live_policy a b p)) with (deny p).
        by destruct (deny p query _ (w_stats w)).
      * rewrite Hb. by destruct (block_check _ _ _ _).
    + rewrite run_bind. unfold denyP. rewrite does_world. change (deny (live_policy a b p)) with (deny p).
      by destruct (deny p query _ (w_stats w)).
  - rewrite Hb. by destruct (block_check _ _ _ _).
Qed.

(** ** The cache *)

Lemma set_cache_id w c : w_cache w = Some c → set_cache (Some c) w = w.
Proof. destruct w. by intros [= ->]. Qed.

Lemma does_get now query : does (getP now query)
  (λ w, match w_cache w with Some c => let '(m, c') := Get c now (Some query) in (m, set_cache (Some c') w) | None => (None, w) end).
Proof.
  intros w. unfold getP. rewrite run_bind, run_read. cbn. destruct (w_cache w) as [c|] eqn:Ec; [|done]. unfold Get.
  destruct (Get_lookup c now (Some query)) as [|key|m]; cbn; [by rewrite set_cache_id| |by rewrite set_cache_id].
  rewrite run_bind, does_write, Ec. done.
Qed.

Lemma does_stale s clk query : does (upstreamFailureResponseP s clk query) (upstreamFailureResponse (live_server a b s) clk query).
Proof.
  intros w. unfold upstreamFailureResponseP, upstreamFailureResponse, getStaleP. rewrite run_bind, run_read. cbn.
  destruct (w_cache w) as [c|]; cbn; [|done]. destruct (GetStale c (t_stale clk) (Some query)); [|done]. by rewrite run_bind.
Qed.

Lemma does_has_cache w : run has_cacheP (Sh w) = (bool_decide (is_Some (w_cache w)), Sh w).
Proof. done. Qed.

(** ** Mode 1 *)

Local Abbreviation mode1P := (mode1P resolve_step validate_step).

Lemma does_call up : does (callP resolve_step up)
  (λ w, let '(res, u, st) := resolve up (w_up w) (w_stats w) in (res, mkWorld (w_cache w) st u (w_val w) (w_fwd w ++ [up]))).
Proof. intros w. unfold callP. rewrite run_bind, does_write. unfold resolve_step. rewrite does_world. cbn. by destruct (resolve _ _ _) as [[res u] st]. Qed.

Lemma does_dnssec s clk response query :
  does (applyDNSSECP validate_step s clk response query) (applyDNSSEC (live_server a b s) clk response query).
Proof.
  intros w. unfold applyDNSSECP, applyDNSSEC. rewrite run_bind. unfold validate_step. rewrite does_world.
  destruct (validate response (w_val w)) as [[] v]; rewrite run_bind, does_bump; [done..|]. apply does_stale.
Qed.

Lemma does_forward s clk query : does (forwardP resolve_step validate_step s clk query) (forward (live_server a b s) clk query).
Proof.
  intros w. unfold forwardP, forward, call_resolver. rewrite run_bind, does_bump, run_bind, does_bump, run_bind, does_call.
  change (bump (live_server a b s)) with (bump (W := Wired) (V := VConfig * VState) s).
  destruct (resolve _ _ _) as [[res u] st]. rewrite run_bind. set (w1 := mkWorld _ _ _ _ _). destruct res as [response|e].
  - rewrite run_bind, does_write, run_bind. change (record_latency (live_server a b s)) with (record_latency (W := Wired) (V := VConfig * VState) s).
    cbn [s_validator live_server Server.SetPolicy]. destruct (s_validator s).
    + rewrite does_dnssec. destruct (applyDNSSEC _ clk response query _) as [r w2].
      cbv beta iota. rewrite run_bind. unfold putP. rewrite does_write. apply does_answer.
    + rewrite run_ret, run_bind. unfold putP. rewrite does_write. apply does_answer.
  - rewrite run_bind, does_bump, does_stale. destruct (upstreamFailureResponse _ clk query _) as [r w2]. apply does_answer.
Qed.

Lemma does_mode1 s clk query : does (mode1P s clk query) (tcp_response (live_server a b s) clk query).
Proof.
  intros w. unfold Goroutines.mode1P, tcp_response. rewrite run_bind, does_bump, run_bind.
  change (bump (live_server a b s)) with (bump (W := Wired) (V := VConfig * VState) s).
  destruct (negb _) eqn:En; [done|]. rewrite does_response. destruct (policyResponse _ query _) as [[r|] w1]; [done|].
  rewrite run_bind. unfold Server.cache_get. destruct (0 <? _)%nat eqn:E0.
  2: { destruct (mQuestion query) as [|q [|]]; done. }
  rewrite does_get. cbn [negb]. destruct (w_cache w1) as [c|]; [|apply does_forward].
  destruct (Get c (t_get clk) (Some query)) as [[m|] c']; [|apply does_forward].
  rewrite run_bind, does_bump. apply does_answer.
Qed.

(** ** Mode 2 *)

Lemma does_answer2 (l : Listener) query resp : does (policyAnswerP l query resp) (policyAnswer (live_listener a b l) query resp).
Proof. apply (does_answer l). Qed.
Lemma does_response2 (l : Listener) query : does (policyResponseP l query) (policyResponse (live_listener a b l) query).
Proof. apply (does_response l). Qed.

Lemma does_upstream2 l clk query : does (upstream2P resolve_step validate_step l clk query) (Dot.upstream (live_listener a b l) clk query).
Proof.
  intros w. unfold upstream2P, Dot.upstream. rewrite run_bind, does_bump, run_bind, does_call.
  change (bump (live_listener a b l)) with (bump (W := Wired) (V := VConfig * VState) l).
  destruct (resolve _ _ _) as [[res u] st]. set (w1 := mkWorld _ _ _ _ _). rewrite run_bind. cbn [l_validate live_listener with_policy l_order].
  destruct res as [resp|e].
  - destruct (l_validate l).
    + unfold validateFunc, validateFuncP, validate_step, putP. seq. rewrite does_world.
      destruct (validate resp (w_val w1)) as [[] v]; seq; apply does_answer2.
    + unfold putP. seq. apply does_answer2.
  - unfold putP. seq. apply does_answer2.
Qed.

Lemma does_reply2 l clk query : does (reply2P resolve_step validate_step false l clk query) (Dot.reply (live_listener a b l) clk query).
Proof.
  intros w. unfold reply2P, local2P, Dot.reply, Dot.local. rewrite run_bind, run_bind. cbn [l_ddr live_listener with_policy].
  change (bump (live_listener a b l)) with (bump (W := Wired) (V := VConfig * VState) l).
  destruct (negb _); [done|]. destruct (answer (l_ddr l) query); [done|]. rewrite does_response2.
  destruct (policyResponse _ query w) as [[r|] w1]; [done|]. rewrite run_bind, does_has_cache.
  destruct (w_cache w1) as [c|] eqn:Ec; [|apply does_upstream2]. cbn [negb]. rewrite bool_decide_true by done. cbn [negb].
  rewrite run_bind, does_get, Ec. destruct (Get c (t_get clk) (Some query)) as [[m|] c'].
  - rewrite run_bind, run_ret, run_bind, does_answer2. destruct (policyAnswer _ query _ _) as [r w2]. by rewrite run_bind, does_bump.
  - rewrite run_bind, does_bump. apply does_upstream2.
Qed.

Lemma does_served l rcode us : does (servedP l rcode us) (λ w, ((), record_served l rcode us w)).
Proof. intros w. unfold servedP, record_served. seq. unfold record_response. cbn. by destruct (l_stats l). Qed.

Lemma does_stream2 served l clk wr query :
  does (stream2P resolve_step validate_step served l clk wr query)
    (λ w, let '(response, w) := Dot.reply (live_listener a b l) clk query (bump l TotalQueries (bump l served w)) in
          let response := Up.ensureResponseEDNS response query in
          match Up.packStream response query with
          | (None, _) => (None, w)
          | (Some buf, replaced) =>
              if negb wr then (None, w)
              else (Some (response, buf, replaced), record_served l (mRcode response) (t_latency clk) w)
          end).
Proof.
  intros w. unfold stream2P. seq. rewrite does_reply2. destruct (Dot.reply _ clk query _) as [r w1].
  destruct (Up.packStream _ query) as [[buf|] replaced]; [|done]. destruct wr; [|done]. cbn [negb]. rewrite run_bind, does_served. done.
Qed.

(** DoH accounts for a hit before it checks the answer. *)
Lemma does_hit_first l clk query w : negb (List.length (mQuestion query) =? 1)%nat = false → answer (l_ddr l) query = None →
  run (doP response ← reply2P resolve_step validate_step true l clk query; Ret (Up.ensureResponseEDNS response query)) (Sh w) =
  let '(r, w') := Doh.respond (live_listener a b l) clk query w in (r, Sh w').
Proof.
  intros En Ea. unfold reply2P, local2P, Doh.respond. cbn [l_ddr live_listener with_policy]. rewrite En, Ea. seq.
  change (bump (live_listener a b l)) with (bump (W := Wired) (V := VConfig * VState) l).
  rewrite does_response2. destruct (policyResponse _ query w) as [[r|] w1]; [done|]. seq. rewrite does_has_cache.
  change (Doh.upstream ?x clk query) with (Dot.upstream x clk query).
  assert (Hup : ∀ w0, (let '(a0, s') := run (upstream2P resolve_step validate_step l clk query) (Sh w0) in
      run (Ret (Up.ensureResponseEDNS a0 query)) s') =
    (let '(x, w') := (let '(response, w2) := Dot.upstream (live_listener a b l) clk query w0 in (Up.ensureResponseEDNS response query, w2)) in (x, Sh w'))).
  { intros w0. rewrite does_upstream2. by destruct (Dot.upstream _ clk query w0) as [r w2]. }
  destruct (w_cache w1) as [c|] eqn:Ec; [|apply Hup]. rewrite bool_decide_true by done. cbn [negb]. seq.
  assert (E0 : (0 <? List.length (mQuestion query))%nat = true) by (by destruct (mQuestion query) as [|q [|]]).
  rewrite E0, does_get, Ec. destruct (Get c (t_get clk) (Some query)) as [[m|] c'].
  - seq. rewrite does_answer2. destruct (policyAnswer _ query _ _) as [r w2]. by seq.
  - seq. apply Hup.
Qed.

Lemma does_doh l clk r : does (dohQueryP resolve_step validate_step l clk r) (Doh.handleDNSQuery (live_listener a b l) clk r).
Proof.
  intros w. unfold dohQueryP, Doh.handleDNSQuery. destruct (Doh.request_body r) as [body|]; [|done].
  destruct (Unpack body) as [query|]; [|done]. seq.
  change (bump (live_listener a b l)) with (bump (W := Wired) (V := VConfig * VState) l).
  set (w0 := bump l TotalQueries _).
  assert (Hr : run (respondP resolve_step validate_step l clk query) (Sh w0) =
    let '(m, w') := Doh.respond (live_listener a b l) clk query w0 in (m, Sh w')).
  { unfold respondP. destruct (negb (List.length (mQuestion query) =? 1)%nat) eqn:En; [unfold Doh.respond; by rewrite En|].
    destruct (answer (l_ddr l) query) eqn:Ea; [unfold Doh.respond; cbn [l_ddr live_listener with_policy]; by rewrite En, Ea|].
    by apply does_hit_first. }
  rewrite Hr. destruct (Doh.respond _ clk query w0) as [m w1]. unfold Doh.writeResponse.
  destruct (Pack m) as [buf|]; [|done]. by rewrite run_bind, does_served.
Qed.

(** A goroutine that nobody disturbs does what the handler says.  Over each of the
    five transports, the sections of the handler's goroutine, run one after the other,
    give the reply and leave the cache, the counters, the chain and the validator exactly
    as the sequential handler does under the policy with the lists in force. *)
Theorem goroutine_alone :
  (∀ s clk buf, does (udpP resolve_step validate_step s clk buf) (handleDNSQuery (live_server a b s) clk buf)) ∧
  (∀ s clk wr query, does (tcpP resolve_step validate_step s clk wr query) (tcp_query (live_server a b s) clk wr query)) ∧
  (∀ l clk wr query, does (stream2P resolve_step validate_step DoTServed l clk wr query) (Dot.handle_query (live_listener a b l) clk wr query)) ∧
  (∀ l clk wr input, does (doqStreamP resolve_step validate_step l clk wr input) (Doq.handleStream (live_listener a b l) clk wr input)) ∧
  (∀ l clk r, does (dohQueryP resolve_step validate_step l clk r) (Doh.handleDNSQuery (live_listener a b l) clk r)).
Proof.
  split_and!.
  - intros s clk buf w. unfold udpP. destruct (Unpack buf) as [query|] eqn:Eu; [|unfold handleDNSQuery; by rewrite Eu].
    rewrite (udp_as_tcp _ _ _ _ _ Eu), run_bind, does_mode1. destruct (tcp_response _ clk query w) as [r w1]. unfold send_udp.
    destruct (packUDP _ query) as [b0|]; [|done]. by seq.
  - intros s clk wr query w. unfold tcpP, tcp_query. rewrite run_bind, does_mode1. destruct (tcp_response _ clk query w) as [r w1].
    destruct (packStream _ query) as [[b0|] rep]; [|done]. destruct wr; [|done]. by seq.
  - intros l clk wr query. by apply does_stream2.
  - intros l clk wr input. unfold doqStreamP, Doq.handleStream. destruct (read_message input) as [[buf rest]|]; [|done].
    destruct (Unpack buf) as [query|]; [|done]. eapply does_ext; [apply does_stream2|]. intros w. by rewrite doq_reply_eq.
  - apply does_doh.
Qed.

End Handlers.

(** ** The clients *)

(** Nobody else uses the pools of the client. *)
Definition alone (c : WClient) : Prop :=
  match wc_transport c with
  | TDoQ _ _ env _ => ∀ k j q, env k j q = q
  | TDoT _ _ _ env => ∀ k j t, env k j t = t
  | TDoH _ _ => True
  end.

Section Client.
Context {dl : DnsLib} (error_text : xerr → string) (u : Wired) (i : nat) (Hi : (i < List.length (wi_clients u))%nat).

(** The chain with another [i]-th client. *)
Definition at_client (c : WClient) : Wired := set_clients (<[i := c]> (wi_clients u)) u.

Lemma at_client_lookup c : wi_clients (at_client c) !! i = Some c.
Proof. by apply list_lookup_insert_eq. Qed.
Lemma at_client_set c c' : set_clients (<[i := c']> (wi_clients (at_client c))) (at_client c) = at_client c'.
Proof. unfold at_client, set_clients. cbn. by rewrite list_insert_insert_eq. Qed.

Section DoQ.
Context (net : nat → Doq.Net) (env : nat → nat → Doq.DoQResolver → Doq.DoQResolver) (clk : nat → nat → Z) (hs : bool) (n : nat).
Context (Henv : ∀ k j q, env k j q = q).
Local Abbreviation U q := (at_client (mkWClient (TDoQ q net env clk) hs n)).

Lemma run_on_doq {X} (dflt : X) f q st : run (on_doq i dflt f) (U q, st) = let '(x, q') := f q in (x, (U q', st)).
Proof.
  unfold on_doq. rewrite run_atomic, at_client_lookup. cbn [wc_transport set_transport wc_stats wc_calls]. destruct (f q) as [x q']. by rewrite at_client_set.
Qed.

Context (k0 : nat).
Local Abbreviation net0 := (net k0).
Local Abbreviation clk0 := (clk k0).
Local Abbreviation env0 := (env k0).

Lemma run_open k q st :
  run (open_exchangeP i net0 clk0 k) (U q, st) = let '(r, q') := Doq.open_exchange net0 env0 clk0 k q in (r, (U q', st)).
Proof.
  unfold open_exchangeP, Doq.open_exchange, getConnectionP, recycleConnP. rewrite !Henv, run_bind, run_on_doq.
  destruct (Doq.getConnection _ _ _ q) as [[c|] q1]; [|done]. destruct (Doq.open_ok net0 (2 * k) c); [done|].
  rewrite run_bind, run_on_doq, run_bind, run_on_doq, !Henv.
  destruct (Doq.getConnection _ _ _ (Doq.recycleConn c q1)) as [[c2|] q2]; [|done]. destruct (Doq.open_ok net0 (2 * k + 1) c2); [done|].
  by rewrite run_bind, run_on_doq, Henv.
Qed.

Lemma run_exchange k msg q st :
  run (exchangeOnceP i net0 clk0 k msg) (U q, st) =
  let x := Doq.exchangeOnce net0 env0 clk0 k msg q in ((Doq.x_result x, Doq.x_retryable x), (U (Doq.x_pool x), st)).
Proof.
  unfold exchangeOnceP, Doq.exchangeOnce. rewrite run_bind, run_open. destruct (Doq.open_exchange _ _ _ k q) as [[c|e] q1]; [|done].
  destruct (pack_query msg) as [b|e]; [|done]. unfold recycleConnP.
  destruct (stream_exchange b _) as [[resp rest]|e]; [|by rewrite run_bind, run_on_doq, Henv].
  destruct (negb _); [by rewrite run_bind, run_on_doq, Henv|].
  destruct (Doq.doqResponseUsable resp); by rewrite run_bind, run_on_doq, Henv.
Qed.

Lemma run_doq msg q st :
  run (doqP i net0 clk0 hs msg) (U q, st) =
  let '(r, q', st', _) := Doq.Resolve net0 env0 clk0 hs msg q st in (r, (U q', st')).
Proof.
  unfold doqP, Doq.Resolve, countP. rewrite run_bind, run_write, run_bind, run_exchange. cbv zeta.
  destruct (Doq.x_result (Doq.exchangeOnce _ _ _ 0 msg q)) as [r|e]; [done|].
  destruct (Doq.x_retryable _); [|done]. cbn [negb]. rewrite run_bind. case_bool_decide.
  - by rewrite run_ret, run_bind, run_exchange.
  - by rewrite run_write, run_bind, run_exchange.
Qed.

End DoQ.

Section DoT.
Context (dial_ok : nat → bool) (io : nat → nat → nat → Stream) (env : nat → nat → DotClient.TLSResolver → DotClient.TLSResolver) (hs : bool) (n : nat).
Context (Henv : ∀ k j t, env k j t = t).
Local Abbreviation U t := (at_client (mkWClient (TDoT t dial_ok io env) hs n)).

Lemma run_on_dot {X} (dflt : X) f t st : run (on_dot i dflt f) (U t, st) = let '(x, t') := f t in (x, (U t', st)).
Proof.
  unfold on_dot. rewrite run_atomic, at_client_lookup. cbn [wc_transport set_transport wc_stats wc_calls]. destruct (f t) as [x t']. by rewrite at_client_set.
Qed.

Lemma run_dot k msg t st :
  run (dotP i dial_ok (io k) hs msg) (U t, st) =
  let '(r, t', st') := DotClient.Resolve dial_ok (io k) (env k) hs msg t st in (r, (U t', st')).
Proof.
  unfold dotP, DotClient.Resolve, countP. rewrite !Henv, run_bind, run_write, run_bind, run_on_dot, run_bind, run_on_dot.
  destruct (DotClient.resolveOnce _ _ 0 msg t) as [[r|e] t1]; [done|]. destruct (DotClient.isPooled t); [|done].
  rewrite run_on_dot, Henv. by destruct (DotClient.resolveOnce _ _ 1 msg t1) as [r t2].
Qed.

End DoT.

Definition outcome_of (r : result Msg xerr) : outcome :=
  match r with Ok m => (Some m, None) | Err e => (None, Some (error_text e)) end.

Lemma run_client msg st c : wi_clients u !! i = Some c → alone c →
  run (clientP error_text i msg) (u, st) =
  let '(r, c', st') := client_resolve msg c st in (outcome_of r, (at_client c', st')).
Proof.
  intros Hc Ha. unfold clientP, begin_call, client_resolve. rewrite run_bind, run_atomic, Hc. cbv beta iota.
  change (set_clients (<[i := ?x]> (wi_clients u)) u) with (at_client x). rewrite run_bind.
  unfold alone in Ha. destruct (wc_transport c) as [q net env clk|t d io env|request http].
  - rewrite (run_doq net env clk (wc_stats c) (S (wc_calls c)) Ha). by destruct (Doq.Resolve _ _ _ _ msg q st) as [[[r q'] st'] sent].
  - rewrite (run_dot d io env (wc_stats c) (S (wc_calls c)) Ha). by destruct (DotClient.Resolve _ _ _ _ msg t st) as [[r t'] st'].
  - unfold dohP. rewrite run_atomic. by destruct (DohClient.Resolve _ _ _ msg st) as [r st'].
Qed.

End Client.

(** ** The chain *)

(** Counters raised one after the other; the order is not observable. *)
Definition incs (l : list counter) (st : Stats) : Stats := fold_left (λ s c, inc c s) l st.
Definition same_stats (st st' : Stats) : Prop := startTime st = startTime st' ∧ ∀ c, cnt st c = cnt st' c.

#[local] Instance same_stats_equiv : Equivalence same_stats.
Proof.
  split; [by intros st|intros st st' [? H]; by split|].
  intros s1 s2 s3 [? H1] [? H2]. split; [congruence|]. intros c. by rewrite H1.
Qed.
#[local] Instance inc_proper c : Proper (same_stats ==> same_stats) (inc c).
Proof. intros s1 s2 [H1 H2]. split; [done|]. intros c'. cbn. rewrite H2. by case_decide. Qed.
#[local] Instance incs_proper l : Proper (same_stats ==> same_stats) (incs l).
Proof. intros s1 s2 H. revert s1 s2 H. induction l as [|c l IH]; intros s1 s2 H; [done|]. cbn. by apply IH, inc_proper. Qed.

Lemma counts_commute c c' st : same_stats (inc c (inc c' st)) (inc c' (inc c st)).
Proof. split; [done|]. intros c0. cbn. repeat case_decide; subst; congruence. Qed.

Lemma incs_inc l c st : same_stats (incs l (inc c st)) (inc c (incs l st)).
Proof.
  revert st. induction l as [|c' l IH]; intros st; [done|]. cbn. etrans; [|apply IH]. apply incs_proper, counts_commute.
Qed.

(** What a client returns and how it changes does not depend on the counters, which it
    only raises. *)
Lemma client_counts {dl : DnsLib} msg c : ∃ r c' l, ∀ st, client_resolve msg c st = (r, c', incs l st).
Proof.
  unfold client_resolve. destruct (wc_transport c) as [q net env clk|t d io env|request http].
  - unfold Doq.Resolve, Doq.logIdleRetry. destruct (Doq.x_result _) as [r|e]; [|destruct (negb _); [|destruct (bool_decide _)]];
      (destruct (wc_stats c); eexists _, _; [exists [DoQQueries]|exists []]; intros st; reflexivity) ||
      (destruct (wc_stats c); eexists _, _; [exists [DoQQueries; DoQIdleRetries]|exists []]; intros st; reflexivity).
  - unfold DotClient.Resolve. destruct (DotClient.resolveOnce _ _ 0 msg _) as [[r|e] t1];
      [|destruct (DotClient.isPooled _); [destruct (DotClient.resolveOnce _ _ 1 msg _) as [r2 t2]|]];
      (destruct (wc_stats c); eexists _, _; [exists [DoTQueries]|exists []]; intros st; reflexivity).
  - assert (H : ∃ r, ∀ st, DohClient.Resolve (request (wc_calls c)) (http (wc_calls c)) (wc_stats c) msg st =
      (r, if wc_stats c then inc DoHQueries st else st)).
    { unfold DohClient.Resolve. destruct (Pack msg) as [b|]; [|by eexists]. destruct (negb (request _)); [by eexists|].
      destruct (http _ b) as [resp|]; [|by eexists]. destruct (negb _); [by eexists|].
      destruct (DohClient.read_limited resp) as [buf|]; [|by eexists]. by destruct (Unpack buf); eexists. }
    destruct H as [r Hr]. exists r, (mkWClient (TDoH request http) (wc_stats c) (S (wc_calls c))), (if wc_stats c then [DoHQueries] else []). intros st. rewrite Hr. by destruct (wc_stats c).
Qed.

Lemma calls_count {dl : DnsLib} msg calls cs : ∃ cs' l, ∀ st, fold_left (call_client msg) calls (cs, st) = (cs', incs l st).
Proof.
  revert cs. induction calls as [|i calls IH]; intros cs; [by exists cs, []|]. cbn [fold_left call_client].
  destruct (cs !! i) as [c|]; [|apply IH]. destruct (client_counts msg c) as (r & c' & l1 & H1).
  destruct (IH (<[i := c']> cs)) as (cs' & l2 & H2). exists cs', (l1 ++ l2). intros st. rewrite H1, H2. unfold incs. by rewrite fold_left_app.
Qed.

Section Chain.
Context {dl : DnsLib} (error_text : xerr → string) (msg : Msg) (f : FallbackResolver) (now : Z) (env : nat → list UpstreamState → list UpstreamState).
Context (cs0 : list WClient) (st0 : Stats) (Halone : ∀ i c, cs0 !! i = Some c → alone c).
Local Abbreviation out := (client_out error_text msg st0 cs0).
Local Abbreviation state ups cs st := (mkWired (set_upstreams ups f) cs now env, st).

(** A call of a client that has not been called yet. *)
Lemma run_client_out i ups cs st : cs !! i = cs0 !! i →
  run (clientP error_text i msg) (state ups cs st) =
  (out i, let '(cs', st') := call_client msg (cs, st) i in state ups cs' st').
Proof.
  intros Hi. unfold client_out, call_client. rewrite <-Hi. destruct (cs !! i) as [c|] eqn:Hc.
  2: { unfold clientP, begin_call. rewrite run_bind, run_atomic. cbn. by rewrite Hc. }
  rewrite (run_client error_text (mkWired (set_upstreams ups f) cs now env) i (lookup_lt_Some _ _ _ Hc) msg st c Hc).
  2: { by apply (Halone i); congruence. }
  destruct (client_counts msg c) as (r & c' & l & H). rewrite !H. cbn. by destruct r.
Qed.

Lemma run_on_upstream i g ups cs st :
  run (on_upstream i g) (state ups cs st) = ((), state (alter (g (set_upstreams ups f)) i ups) cs st).
Proof. done. Qed.

Context (phase : Z) (n : nat).

Lemma run_loop todo : ∀ i tried ups cs st stF calls, (∀ j, (i ≤ j)%nat → cs !! j = cs0 !! j) →
  let R := resolve_loop f out quiet msg phase n todo i tried ups stF calls in
  ∃ (fb : bool) more, r_calls R = calls ++ more ∧ r_stats R = (if fb then inc UpstreamFallbacks stF else stF) ∧
    run (resolve_loopP error_text msg phase n todo i tried) (state ups cs st) =
    (match r_result R with Ok m => Ok m | Err _ => Err () end,
     let '(cs', st') := fold_left (call_client msg) more (cs, st) in
     state (r_upstreams R) cs' (if fb then inc UpstreamFallbacks st' else st')).
Proof.
  induction todo as [|todo IH]; intros i tried ups cs st stF calls Hcs; cbn [resolve_loop resolve_loopP].
  { exists false, []. rewrite app_nil_r. done. }
  rewrite run_bind, run_read. repeat change (quiet ?k ?x) with x. cbn [wi_chain upstreams set_upstreams].
  assert (Hnext : ∀ j, (S i ≤ j)%nat → cs !! j = cs0 !! j) by (intros j Hj; apply Hcs; lia).
  destruct (ups !! i) as [u|]; [|by apply IH]. destruct (bool_decide _ && _); [by apply IH|].
  rewrite run_bind, run_client_out by (by apply Hcs).
  destruct (call_client msg (cs, st) i) as [cs1 st1] eqn:Ec.
  assert (Hcs1 : ∀ j, (S i ≤ j)%nat → cs1 !! j = cs0 !! j).
  { intros j Hj. rewrite <-Hnext by done. unfold call_client in Ec. destruct (cs !! i) as [c|]; [|by injection Ec as <- _].
    destruct (client_resolve msg c st) as [[r c'] st']. injection Ec as <- _. apply list_lookup_insert_ne. lia. }
  assert (Hfail : ∀ e, let R := resolve_loop f out quiet msg phase n todo (S i) true (alter (recordError (phase2FailureThreshold f) e phase) i ups) stF (calls ++ [i]) in
    ∃ (fb : bool) more, r_calls R = calls ++ more ∧ r_stats R = (if fb then inc UpstreamFallbacks stF else stF) ∧
      run (doP _ ← on_upstream i (λ f, recordError (phase2FailureThreshold f) e phase); resolve_loopP error_text msg phase n todo (S i) true) (state ups cs1 st1) =
      (match r_result R with Ok m => Ok m | Err _ => Err () end,
       let '(cs', st') := fold_left (call_client msg) more (cs, st) in
       state (r_upstreams R) cs' (if fb then inc UpstreamFallbacks st' else st'))).
  { intros e. rewrite run_bind, run_on_upstream.
    destruct (IH (S i) true (alter (recordError (phase2FailureThreshold f) e phase) i ups) cs1 st1 stF (calls ++ [i]) Hcs1) as (fb & more & H1 & H2 & H3).
    exists fb, (i :: more). split_and!; [by rewrite H1, <-app_assoc|done|]. cbn [fold_left]. by rewrite Ec. }
  destruct (out i) as [[r|] [e|]]; try apply Hfail. destruct (negb (responseMatchesQuery msg r)); [apply Hfail|].
  exists ((tried || (0 <? i)%nat) && hasStats f), [i]. split_and!; [done|done|]. cbn [fold_left]. rewrite Ec.
  rewrite run_bind, run_on_upstream, run_bind, run_read, run_bind.
  destruct (tried || (0 <? i)%nat); [|done]. unfold countP. rewrite run_write. cbn. by destruct (hasStats f).
Qed.

End Chain.

Lemma set_upstreams_id f : set_upstreams (upstreams f) f = f.
Proof. by destruct f. Qed.

(** The chain that nobody disturbs: the sections of the goroutine of [Resolve], on
    the states of the upstreams, the pools of the clients and the counters, return the
    result of the failover loop over the clients' outcomes, and leave the upstreams and
    the clients as it does, with the same counters. *)
Theorem chain_alone {dl : DnsLib} error_text msg u st : wi_env u = quiet → (∀ i c, wi_clients u !! i = Some c → alone c) →
  let '(r, (u', st')) := run (resolveP error_text msg) (u, st) in
  let '(r0, u0, st0) := wired_resolve error_text msg u st in
  r = r0 ∧ u' = u0 ∧ same_stats st' st0.
Proof.
  destruct u as [f cs now env]. cbn [wi_env wi_clients]. intros -> Ha. unfold resolveP, wired_resolve, Resolve. cbn [wi_env wi_clients wi_chain wi_now].
  destruct (negb _); [cbn; by rewrite set_upstreams_id|]. rewrite run_bind, run_read. cbv beta iota zeta. cbn [wi_chain wi_now].
  set (n := List.length (upstreams f)). set (phase := getCurrentPhase now f).
  destruct (run_loop error_text msg f now quiet cs st Ha phase n n 0 false (upstreams f) cs st st []) as (fb & more & H1 & H2 & H3); [done|].
  set (R := resolve_loop _ _ _ _ _ _ _ _ _ _ _ _) in *. rewrite set_upstreams_id in H3. rewrite H3, H1, H2. cbn [app].
  destruct (calls_count msg more cs) as (cs' & l & Hl). rewrite !Hl. split_and!; [done|done|].
  destruct fb; [|done]. symmetry. apply incs_inc.
Qed.

(** The goroutine of the daemon runs it on the chain of the shared state. *)
Lemma chain_shared {dl : DnsLib} error_text msg sh :
  run (chainP error_text msg) sh = let '(r, c) := run (resolveP error_text msg) (get_chain sh) in (r, put_chain c sh).
Proof. apply run_zoom; [by intros [u st] sh0|by intros [[c st u v f] a pa b pb]|done]. Qed.

(** ** The validator *)

Section Validator.
Context {dl : DnsLib} {cl : DnssecLib}.
Context (a : Allowlist.Allowlist) (pa : list Allowlist.Allowlist) (b : Blocklist.Blocklist) (pb : list Blocklist.Blocklist).
Local Abbreviation Sh w := (mkShared w a pa b pb).

(** The queries of a computation are those of one validator. *)
Fixpoint asks_as (cfg : VConfig) {A} (c : M A) : Prop :=
  match c with
  | DoneM _ => True
  | CacheM _ k => ∀ x, asks_as cfg (k x)
  | AskM cfg' _ _ k => cfg' = cfg ∧ ∀ x, asks_as cfg (k x)
  end.

Lemma asks_as_then cfg {A B} (c : M A) (f : result A verr → M B) : asks_as cfg c → (∀ r, asks_as cfg (f r)) → asks_as cfg (thenM c f).
Proof. intros Hc Hf. induction c as [r|X g k IH|cfg' zone t k IH]; cbn in *; [done|by auto|]. destruct Hc as [-> Hc]. by auto. Qed.
Lemma asks_as_bind cfg {A B} (c : M A) (f : A → M B) : asks_as cfg c → (∀ x, asks_as cfg (f x)) → asks_as cfg (bindM c f).
Proof. intros Hc Hf. apply asks_as_then; [done|]. by intros [x|e]; [apply Hf|]. Qed.

Create HintDb asks_as discriminated.
#[local] Hint Resolve asks_as_bind asks_as_then : asks_as.

Lemma asks_as_ask cfg zone t : asks_as cfg (askM cfg zone t).
Proof. unfold askM. destruct (v_fetcher cfg); cbn; [|done]. split; [done|]. by intros [m|]. Qed.
Lemma asks_as_fetchRRset cfg zone t : asks_as cfg (fetchRRset cfg zone t).
Proof.
  unfold fetchRRset. destruct (v_fetcher cfg); [|done]. apply asks_as_bind; [done|]. intros [rrs|]; [done|].
  apply asks_as_bind; [apply asks_as_ask|]. intros resp. destruct (negb _); [done|].
  destruct (splitRRSIGs _ _) as [[|rr rrset] sigs]; done.
Qed.
Lemma asks_as_fetchDS cfg zone : asks_as cfg (fetchDSResponse cfg zone).
Proof.
  unfold fetchDSResponse. destruct (v_fetcher cfg); [|done]. apply asks_as_bind; [done|]. intros [rrs|]; [done|].
  apply asks_as_bind; [apply asks_as_ask|]. intros resp. cbn zeta. by destruct (fst (splitRRSIGs _ _)).
Qed.

Lemma asks_as_auth budget cfg zone : asks_as cfg (authenticated budget cfg zone).
Proof.
  assert (Hself : ∀ rrs sigs keys seps, asks_as cfg (self_signed cfg rrs sigs keys seps)).
  { intros. unfold self_signed. by destruct (verifyRRsetWithKeySet _ _ _ _). }
  assert (Hzone : ∀ z parent, asks_as cfg parent → asks_as cfg (auth_zone cfg z parent)).
  { intros z parent Hp. unfold auth_zone. apply asks_as_bind; [apply asks_as_fetchRRset|]. intros [rrs sigs].
    destruct (omap as_key rrs); [done|]. destruct (String.eqb z ".").
    { destruct (v_anchors cfg); [done|]. destruct (List.filter _ _); [done|apply Hself]. }
    apply asks_as_bind; [apply asks_as_fetchDS|]. intros [[rcode answer] authority]. apply asks_as_bind; [done|]. intros pk.
    destruct (splitRRSIGs answer TypeDS) as [[|d ds] dsSigs]; [by destruct (_ && _)|].
    destruct (verifyRRsetWithKeySet _ _ _ _); [|done]. destruct (ds_trusted _ _); [done|apply Hself]. }
  revert zone. induction budget as [|budget IH]; intros zone; cbn; by apply Hzone.
Qed.

Lemma asks_as_validate cfg msg : asks_as cfg (ValidateResponse cfg msg).
Proof.
  unfold ValidateResponse. destruct (negb _); [done|]. destruct (mAnswer msg); [done|]. destruct (omap as_sig _) as [|s sigs]; [by destruct (v_validateAll cfg)|].
  apply asks_as_bind; [|intros v; by destruct (all_covered _ v)]. generalize (s :: sigs), (∅ : gset string). clear s sigs. intros sigs.
  induction sigs as [|s sigs IH]; intros v; [done|]. cbn [validate_sigs]. destruct (negb _); [done|].
  destruct (_ !! _) as [[|rr rrset]|]; [apply IH| |apply IH]. apply asks_as_bind.
  - unfold signing_key. destruct (findDNSKEY _ _ _ _); [done|]. destruct (v_fetcher cfg); [|done].
    apply asks_as_then; [apply asks_as_auth|]. intros [keys|[]]; try done. by destruct (head _).
  - intros k. destruct (Verify s k _); [|done|done]. destruct (_ && _ && _)%bool; [done|apply IH].
Qed.

(** The chain as the fetcher the validator is configured with. *)
Definition fetch_step (fetch : nat → Msg → option Msg) (q : Msg) : prog Shared (result Msg ()) :=
  readP (λ sh, match fetch (Nat.pred (List.length (fetched (snd (w_val (sh_world sh)))))) q with Some m => Ok m | None => Err () end).

Lemma run_walk cfg fetch {A} (c : M A) w : asks_as cfg c → v_fetcher cfg = Some fetch →
  run (walkP (fetch_step fetch) c) (Sh w) = let '(r, st) := runM c (snd (w_val w)) in (r, Sh (set_val (fst (w_val w), st) w)).
Proof.
  intros Hc Hf. revert w Hc. induction c as [r|X g k IH|cfg' zone t k IH]; intros w Hc; cbn [walkP runM].
  - destruct w as [ca st up [cf vs] fw]. done.
  - rewrite run_act. cbn [sh_world]. destruct (g (keyCache _)) as [x keys]. change (on_world (set_keys keys) (Sh w)) with (Sh (set_keys keys w)).
    rewrite IH by apply Hc. done.
  - destruct Hc as [-> Hc]. rewrite run_act. cbn [sh_world]. set (n := List.length (fetched (snd (w_val w)))). set (q := key_query cfg n zone t).
    rewrite run_bind. unfold fetch_step at 1. rewrite run_read. cbn [sh_world on_world w_val set_val snd fetched].
    rewrite length_app, Nat.add_1_r. cbn [Nat.pred]. fold n. rewrite Hf.
    change (on_world ?g (Sh w)) with (Sh (g w)). destruct (fetch n q); rewrite IH by apply Hc; done.
Qed.

(** The validator that nobody disturbs, with an upstream that answers as its fetcher
    does, is the validator of [DnssecChain]. *)
Lemma validator_alone fetch msg w : v_fetcher (fst (w_val w)) = Some fetch →
  run (validateResponseP (fetch_step fetch) msg) (Sh w) = let '(v, v') := validate msg (w_val w) in (v, Sh (set_val v' w)).
Proof.
  intros Hf. unfold validateResponseP. rewrite run_bind, run_read, run_bind. cbn [sh_world].
  rewrite (run_walk (fst (w_val w)) fetch) by (done || apply asks_as_validate). unfold validate, chain_validator.
  by destruct (runM _ _) as [[[]|e] st].
Qed.

End Validator.

(** ** An example: the first upstream is unreachable, the second has a dead connection in
    its pool and answers on a new one. *)
Definition ex_undisturbed : Wired :=
  mkWired (NewFallbackResolver 0 [mkUpstream "dot" StateUP "" 0 0; mkUpstream "doq" StateUP "" 0 0] true 300 3 30)
    [mkWClient (TDoT DotClient.NewTLSResolver (λ _, false) (λ _ _ _, dead_stream) (λ _ _ t, t)) true 0;
     mkWClient (TDoQ ex_pool (λ _, ex_net) (λ _ _ q, q) (λ _, ex_tclk)) true 0] 0 quiet.

Lemma chain_alone_witness :
  let '(r, (u, st)) := run (resolveP (dl := ex_twire) (λ _, "error") ex_squery) (ex_undisturbed, Statistics.New 0) in
  r = Ok ex_up_answer ∧ uState <$> upstreams (wi_chain u) = [StateDOWN; StateUP] ∧
  (cnt st DoTQueries, cnt st DoQQueries, cnt st DoQIdleRetries, cnt st UpstreamFallbacks) = (1, 1, 1, 1).
Proof.
  pose proof (chain_alone (dl := ex_twire) (λ _, "error") ex_squery ex_undisturbed (Statistics.New 0) eq_refl) as H.
  destruct (run _ _) as [r [u st]]. destruct (wired_resolve _ _ _ _) as [[r0 u0] st0] eqn:E. vm_compute in E. destruct H as (-> & -> & [_ H]).
  - intros [|[|i]] c Hc; [by injection Hc as <-..|discriminate Hc].
  - injection E as <- <- <-. rewrite !H. split; [reflexivity|]. split; reflexivity.
Defined.
