(* ===== verification/Network.v ===== *)
(** * The goroutines of the chain on the network

    What the programs of [Goroutines] for the clients, the failover loop, the health
    checks and the validator keep and return when their sections interleave with those
    of any other goroutines: the pools hold only connections whose handshake was
    accepted, an answer of the chain was decoded from what an accepted peer sent, and a
    verdict of the validator is one that its computation can reach. *)

From S2P Require Import Prelude GoStrings DnsMsg Cache Blocklist Allowlist Statistics Policy Fallback Interfaces Edns Server.
From S2P Require Import Dnssec DnssecChain Mode2 Transports Wiring Peers Threads Goroutines.
From Stdlib Require Import Ascii String.
Open Scope string_scope.
Open Scope list_scope.
Open Scope Z_scope.

Definition anything {A : Type} (_ _ : A) : Prop := True.
#[global] Instance anything_preorder {A} : PreOrder (@anything A).
Proof. by split. Qed.

Section Network.
Context {dl : DnsLib} (error_text : xerr → string) (sum256 : string → string) (ca_ok : string → list Cert → bool).
Context (net : nat → string → Peer) (sib : Siblings) (es : list ChainEntry).

Definition linked_chain (c : Chain) : Prop := linked sum256 ca_ok net sib es (fst c).

(** A program of the chain that keeps the clients linked to their peers and returns a
    result with the property [P], whatever the others do. *)
Definition keeps {A} (p : prog Chain A) (P : A → Prop) : Prop := ∀ c, wp linked_chain anything p (λ a _, P a) c.

Lemma keeps_ret {A} (a : A) (P : A → Prop) : P a → keeps (Ret a) P.
Proof. intros H c. by apply wp_ret. Qed.

Lemma keeps_bind {A B} (p : prog Chain A) (q : A → prog Chain B) (P : A → Prop) (Q : B → Prop) :
  keeps p P → (∀ a, P a → keeps (q a) Q) → keeps (bindP p q) Q.
Proof. intros Hp Hq c. apply wp_bind; [apply _|]. eapply wp_mono; [apply _|apply Hp|]. intros a c' _ _ Ha. by apply Hq. Qed.

Lemma keeps_atomic {A} (f : Chain → A * Chain) (P : A → Prop) :
  (∀ c, linked_chain c → linked_chain (snd (f c)) ∧ P (fst (f c))) → keeps (atomic f) P.
Proof. intros H c. apply wp_atomic. intros c' _ Hc. destruct (H c' Hc). by split_and!. Qed.

Lemma keeps_read {A} (f : Chain → A) : keeps (readP f) (λ _, True).
Proof. by apply keeps_atomic. Qed.

Lemma keeps_count hs k : keeps (countP hs k) (λ _, True).
Proof. apply keeps_atomic. intros [u st] H. by split. Qed.

Lemma keeps_upstream i g : keeps (on_upstream i g) (λ _, True).
Proof. apply keeps_atomic. intros [u st] H. by split. Qed.

(** A client replaced by one that is still linked. *)
Lemma linked_insert i e c u : linked sum256 ca_ok net sib es u → es !! i = Some e → client_linked sum256 ca_ok net sib i e c →
  linked sum256 ca_ok net sib es (set_clients (<[i := c]> (wi_clients u)) u).
Proof.
  intros Hl He Hc j c'. cbn. rewrite list_lookup_insert_Some. intros [(-> & <- & _)|[_ H]]; [by exists e|by apply Hl].
Qed.

Local Abbreviation D i e := (accepts sum256 ca_ok net i e).
Local Abbreviation Linked := (client_linked sum256 ca_ok net sib).
Local Abbreviation Said := (said sum256 ca_ok net).

Section Client.
Context (i : nat) (e : ChainEntry) (He : es !! i = Some e).

(** A section on the pool of a QUIC client that pools only accepted connections. *)
Lemma keeps_doq {X} (dflt : X) f (P : X → Prop) : P dflt →
  (∀ q x q', DoqPeers.dialled (D i e) q → f q = (x, q') → DoqPeers.dialled (D i e) q' ∧ P x) → keeps (on_doq i dflt f) P.
Proof.
  intros Hd Hf. apply keeps_atomic. intros [u st] Hl. cbn. destruct (wi_clients u !! i) as [c|] eqn:Ec; [|by split].
  destruct (Hl i c Ec) as (e' & He' & Hc). assert (e' = e) as -> by congruence. unfold client_linked in Hc.
  destruct (wc_transport c) as [q n env clk|t d io env|request http] eqn:Et; [|by split..].
  destruct (ce_client e) eqn:Ecl; try done. destruct Hc as (H1 & H2 & H3). destruct (f q) as [x q'] eqn:Ef.
  destruct (Hf q x q' H3 Ef) as [H4 HP]. split; [|done]. eapply linked_insert; [exact Hl|done|]. unfold client_linked. cbn. by rewrite Ecl.
Qed.

Lemma keeps_dot {X} (dflt : X) f (P : X → Prop) : P dflt →
  (∀ t x t', DotPeers.tls_wf (D i e) (p_stream (peer_of net i e)) t → f t = (x, t') →
    DotPeers.tls_wf (D i e) (p_stream (peer_of net i e)) t' ∧ P x) → keeps (on_dot i dflt f) P.
Proof.
  intros Hd Hf. apply keeps_atomic. intros [u st] Hl. cbn. destruct (wi_clients u !! i) as [c|] eqn:Ec; [|by split].
  destruct (Hl i c Ec) as (e' & He' & Hc). assert (e' = e) as -> by congruence. unfold client_linked in Hc.
  destruct (wc_transport c) as [q n env clk|t d io env|request http] eqn:Et; [by split| |by split].
  destruct (ce_client e) eqn:Ecl; try done. destruct Hc as (H1 & H2 & H3 & H4). subst io. destruct (f t) as [x t'] eqn:Ef.
  destruct (Hf t x t' H4 Ef) as [H5 HP]. split; [|done]. eapply linked_insert; [exact Hl|done|]. unfold client_linked. cbn. by rewrite Ecl.
Qed.

(** *** DoQ *)

Context (k0 : nat) (clk : nat → Z).
Local Abbreviation net0 := (doq_net sum256 ca_ok net i e k0).

Lemma keeps_get n n' : keeps (getConnectionP i net0 clk n n') (λ r, ∀ c, r = Some c → D i e c = true).
Proof. apply keeps_doq; [done|]. intros q x q' Hq E. by apply (DoqPeers.get_dialled _ _ _ _ _ _ E Hq). Qed.

Lemma keeps_recycle c : keeps (recycleConnP i c) (λ _, True).
Proof. apply keeps_doq; [done|]. intros q x q' Hq [= <- <-]. split; [by apply DoqPeers.recycle_dialled|done]. Qed.

Lemma keeps_open k : keeps (open_exchangeP i net0 clk k) (λ r, ∀ c, r = Ok c → D i e c = true).
Proof.
  eapply keeps_bind; [apply keeps_get|]. intros [c|] Hc; [|by apply keeps_ret].
  destruct (Doq.open_ok net0 (2 * k) c); [apply keeps_ret; intros c' [= <-]; by apply Hc|].
  eapply keeps_bind; [apply keeps_recycle|]. intros _ _. eapply keeps_bind; [apply keeps_get|]. intros [c2|] Hc2; [|by apply keeps_ret].
  destruct (Doq.open_ok net0 (2 * k + 1) c2); [apply keeps_ret; intros c' [= <-]; by apply Hc2|].
  eapply keeps_bind; [apply keeps_recycle|]. intros _ _. by apply keeps_ret.
Qed.

Lemma quic_said k msg b c resp rest : D i e c = true → pack_query msg = Ok b → stream_exchange b (Doq.stream_of net0 k c) = Ok (resp, rest) → Said i e resp.
Proof.
  intros Hd _ Hs. apply accepts_certs in Hd as (certs & Hc & Hh). apply stream_exchange_bytes in Hs as (pre & buf & Hb & Hu).
  exists certs, buf. split_and!; [done| |done]. apply (heard_quic _ _ _ k0 k c); [exact Hc|]. exists pre, rest. exact Hb.
Qed.

Lemma keeps_exchange k msg : keeps (exchangeOnceP i net0 clk k msg) (λ r, ∀ m, fst r = Ok m → Said i e m).
Proof.
  eapply keeps_bind; [apply keeps_open|]. intros [c|err] Hc; [|by apply keeps_ret].
  destruct (pack_query msg) as [b|err] eqn:Ep; [|by apply keeps_ret].
  assert (Hfail : ∀ err, keeps (doP _ ← recycleConnP i c; Ret (Err err, true)) (λ r : result Msg xerr * bool, ∀ m, fst r = Ok m → Said i e m)).
  { intros err. eapply keeps_bind; [apply keeps_recycle|]. intros _ _. by apply keeps_ret. }
  destruct (stream_exchange b _) as [[resp rest]|err] eqn:Es; [|apply Hfail]. destruct (negb _); [apply Hfail|].
  destruct (Doq.doqResponseUsable resp); [apply Hfail|]. eapply keeps_bind.
  - apply (keeps_doq () _ (λ _, True)); [done|]. by intros q x q' Hq [= <- <-].
  - intros _ _. apply keeps_ret. cbn. intros m [= <-]. by eapply quic_said; [apply Hc|exact Ep|exact Es].
Qed.

Lemma keeps_doqP hs msg : keeps (doqP i net0 clk hs msg) (λ r, ∀ m, r = Ok m → Said i e m).
Proof.
  eapply keeps_bind; [apply keeps_count|]. intros _ _. eapply keeps_bind; [apply keeps_exchange|].
  intros [[m|err] retry] Hm; [by apply keeps_ret|]. destruct (negb retry); [by apply keeps_ret|].
  eapply (keeps_bind _ _ (λ _, True)); [destruct (bool_decide _); [by apply keeps_ret|apply keeps_count]|]. intros _ _.
  eapply keeps_bind; [apply keeps_exchange|]. intros y Hy. by apply keeps_ret.
Qed.

(** *** DoT *)

Lemma keeps_exchange_dot n k msg : keeps (on_dot i (Err EConnection) (DotClient.resolveOnce (D i e) (p_stream (peer_of net i e) n) k msg))
  (λ r, ∀ m, r = Ok m → Said i e m).
Proof.
  apply keeps_dot; [done|]. intros t x t' Ht E. apply DotPeers.resolveOnce_wf in E as [H1 H2]; [|done]. split; [done|].
  intros m Hm. destruct (H2 m Hm) as (cn & l & buf & Hd & Hp & Hu). apply accepts_certs in Hd as (certs & Hc & Hh).
  exists certs, buf. split_and!; [done| |done]. by eapply heard_tls.
Qed.

Lemma keeps_dotP n hs msg : keeps (dotP i (D i e) (p_stream (peer_of net i e) n) hs msg) (λ r, ∀ m, r = Ok m → Said i e m).
Proof.
  eapply keeps_bind; [apply keeps_count|]. intros _ _.
  eapply (keeps_bind _ _ (λ _, True)); [apply keeps_dot; [done|]; by intros t x t' Ht [= <- <-]|]. intros pooled _.
  eapply keeps_bind; [apply keeps_exchange_dot|]. intros [m|err] Hm; [by apply keeps_ret|].
  destruct pooled; [apply keeps_exchange_dot|by apply keeps_ret].
Qed.

(** *** DoH *)

Lemma keeps_dohP k request hs msg : keeps (dohP request (do_request sum256 ca_ok net i e k) hs msg) (λ r, ∀ m, r = Ok m → Said i e m).
Proof.
  apply keeps_atomic. intros [u st] Hl. destruct (DohClient.Resolve _ _ hs msg st) as [r st'] eqn:E. cbn. split; [exact Hl|].
  intros m ->. apply doh_client_answer in E as (body & resp & buf & _ & Hd & _ & Hlim & _ & Hu). unfold do_request in Hd.
  destruct (p_http _ _ body) as [[certs resp']|] eqn:Eh; [|done]. destruct (handshake _ _ certs) eqn:Ehs; [|done].
  injection Hd as ->. exists certs, buf. split_and!; [done| |done]. eapply heard_https; [exact Eh|]. by apply read_limited_part.
Qed.

End Client.

(** *** The chain *)

Lemma keeps_client i msg : keeps (clientP error_text i msg) (λ out, ∀ r err, out = (Some r, err) → ∃ e, es !! i = Some e ∧ Said i e r).
Proof.
  eapply (keeps_bind _ _ (λ o, ∀ c, o = Some c → ∃ e, es !! i = Some e ∧ Linked i e c)).
  { apply keeps_atomic. intros [u st] Hl. cbn. destruct (wi_clients u !! i) as [c|] eqn:Ec; [|by split].
    destruct (Hl i c Ec) as (e & He & Hc). split; [by eapply linked_insert|]. intros c' [= <-]. by exists e. }
  intros [c|] Hc; [|by apply keeps_ret]. destruct (Hc c eq_refl) as (e & He & Hl).
  eapply (keeps_bind _ _ (λ r, ∀ m, r = Ok m → Said i e m)).
  - unfold client_linked in Hl. destruct (wc_transport c) as [q n env clk|t d io env|request http], (ce_client e); try done.
    + destruct Hl as (-> & _). by apply keeps_doqP.
    + destruct Hl as (-> & -> & _). by apply keeps_dotP.
    + subst http. by apply keeps_dohP.
  - intros [m|err] Hm; apply keeps_ret; [|done]. intros r err [= <- _]. exists e. split; [done|by apply Hm].
Qed.

Lemma keeps_loop msg phase n todo i tried : keeps (resolve_loopP error_text msg phase n todo i tried)
  (λ res, ∀ r, res = Ok r → responseMatchesQuery msg r = true ∧ ∃ j e, es !! j = Some e ∧ Said j e r).
Proof.
  revert i tried. induction todo as [|todo IH]; intros i tried; [by apply keeps_ret|]. cbn [resolve_loopP].
  eapply keeps_bind; [apply keeps_read|]. intros [u|] _; [|apply IH]. destruct (_ && _); [apply IH|].
  eapply keeps_bind; [apply keeps_client|]. intros out Hout.
  assert (Hfail : ∀ err, keeps (doP _ ← on_upstream i (λ f, recordError (phase2FailureThreshold f) err phase); resolve_loopP error_text msg phase n todo (S i) true)
    (λ res, ∀ r, res = Ok r → responseMatchesQuery msg r = true ∧ ∃ j e, es !! j = Some e ∧ Said j e r)).
  { intros err. eapply keeps_bind; [apply keeps_upstream|]. intros _ _. apply IH. }
  destruct out as [[r|] [err|]]; try apply Hfail. destruct (responseMatchesQuery msg r) eqn:Em; cbn [negb]; [|apply Hfail].
  eapply keeps_bind; [apply keeps_upstream|]. intros _ _. eapply keeps_bind; [apply keeps_read|]. intros hs _.
  eapply (keeps_bind _ _ (λ _, True)); [destruct (_ || _); [apply keeps_count|by apply keeps_ret]|]. intros _ _.
  apply keeps_ret. intros r' [= <-]. split; [done|]. destruct (Hout r None eq_refl) as (e & He & Hs). by exists i, e.
Qed.

Lemma keeps_resolve msg : keeps (resolveP error_text msg)
  (λ res, ∀ r, res = Ok r → responseMatchesQuery msg r = true ∧ ∃ j e, es !! j = Some e ∧ Said j e r).
Proof.
  unfold resolveP. destruct (negb _); [by apply keeps_ret|]. eapply keeps_bind; [apply keeps_read|]. intros [n phase] _. apply keeps_loop.
Qed.

Lemma keeps_health now : keeps (performHealthChecksP error_text now) (λ _, True).
Proof.
  eapply keeps_bind; [apply keeps_read|]. intros down _. induction down as [|i down IH]; [by apply keeps_ret|]. cbn [probe_allP].
  eapply keeps_bind; [apply keeps_client|]. intros [[r|] [err|]] _; (eapply keeps_bind; [apply keeps_upstream|]); intros _ _; apply IH.
Qed.

End Network.
