(* ===== verification/Provenance.v ===== *)
(** * Where the data of a reply comes from

    The goroutines of both modes in every interleaving with the others, seen from the
    upstream chain and the validator: given what every message the chain returns and
    every message the validator accepts is known to satisfy, what the handlers put into
    the cache and into their replies satisfies the first, and the second when it carries
    the AD bit; and what they forward and answer was let through by lists that were in
    force while they ran, however often the lists are reloaded meanwhile.  The properties
    of the chain and the validator are arguments of this file; [Daemon] gives them. *)

From S2P Require Import Prelude GoStrings DnsMsg Cache Blocklist Allowlist Statistics.
From S2P Require Import Policy Fallback Interfaces Edns Server DnssecChain UpstreamEdns Ddr Mode2 Wiring Threads Goroutines.
From Stdlib Require Import Ascii String.
Open Scope string_scope.
Open Scope list_scope.
Open Scope Z_scope.

(** ** The lists in force *)

(** The lists up to now, the present one last. *)
Definition allow_lists (sh : Shared) : list Allowlist.Allowlist := sh_allow_past sh ++ [sh_allow sh].
Definition block_lists (sh : Shared) : list Blocklist.Blocklist := sh_block_past sh ++ [sh_block sh].

(** Time passes: lists are only added. *)
Definition later (sh sh' : Shared) : Prop :=
  allow_lists sh `prefix_of` allow_lists sh' ∧ block_lists sh `prefix_of` block_lists sh'.

#[global] Instance later_preorder : PreOrder later.
Proof. split; [by split|]. intros s1 s2 s3 [? ?] [? ?]. split; by etrans. Qed.

Lemma later_world f sh : later sh (on_world f sh).
Proof. by split. Qed.
Lemma later_allow a sh : later sh (install_allow a sh).
Proof. split; [|done]. unfold allow_lists, install_allow. cbn. by eexists. Qed.
Lemma later_block b sh : later sh (install_block b sh).
Proof. split; [done|]. unfold block_lists, install_block. cbn. by eexists. Qed.

(** A list in force since the state [s0] allows the name; one does not block it. *)
Definition allowed_since (s0 sh : Shared) (name : string) : Prop :=
  ∃ j a, (List.length (sh_allow_past s0) ≤ j)%nat ∧ allow_lists sh !! j = Some a ∧ Allowed a name = true.
Definition unblocked_since (s0 sh : Shared) (name : string) : Prop :=
  ∃ j b, (List.length (sh_block_past s0) ≤ j)%nat ∧ block_lists sh !! j = Some b ∧ IsBlocked b name = false.

Lemma allowed_later s0 sh sh' name : later sh sh' → allowed_since s0 sh name → allowed_since s0 sh' name.
Proof. intros [Hl _] (j & a & Hj & Ha & Hn). exists j, a. split_and!; [done| |done]. by eapply prefix_lookup_Some. Qed.
Lemma unblocked_later s0 sh sh' name : later sh sh' → unblocked_since s0 sh name → unblocked_since s0 sh' name.
Proof. intros [_ Hl] (j & b & Hj & Hb & Hn). exists j, b. split_and!; [done| |done]. by eapply prefix_lookup_Some. Qed.

Lemma allowed_now s0 sh name : later s0 sh → Allowed (sh_allow sh) name = true → allowed_since s0 sh name.
Proof.
  intros [Hl _] H. exists (List.length (sh_allow_past sh)), (sh_allow sh). apply prefix_length in Hl. unfold allow_lists in Hl |- *.
  rewrite !length_app in Hl. cbn in Hl. split_and!; [lia|by apply list_lookup_middle|done].
Qed.
Lemma unblocked_now s0 sh name : later s0 sh → IsBlocked (sh_block sh) name = false → unblocked_since s0 sh name.
Proof.
  intros [_ Hl] H. exists (List.length (sh_block_past sh)), (sh_block sh). apply prefix_length in Hl. unfold block_lists in Hl |- *.
  rewrite !length_app in Hl. cbn in Hl. split_and!; [lia|by apply list_lookup_middle|done].
Qed.

(** Without a reload since then it is the present list. *)
Lemma allowed_since_now s0 sh name : allow_lists sh = allow_lists s0 → allowed_since s0 sh name → Allowed (sh_allow sh) name = true.
Proof.
  intros E (j & a & Hj & Ha & Hn). assert (Hlen : List.length (sh_allow_past sh) = List.length (sh_allow_past s0)).
  { apply (f_equal List.length) in E. unfold allow_lists in E. rewrite !length_app in E. cbn in E. lia. }
  unfold allow_lists in Ha. rewrite lookup_app_r in Ha by lia. destruct (j - List.length (sh_allow_past sh))%nat as [|k]; [|by destruct k].
  by injection Ha as ->.
Qed.

(** ** Messages and where they come from *)

Section Provenance.
Context {dl : DnsLib} {laws : DnsLaws dl}.
Context (origin : Msg → Msg → Prop) (checked : Msg → Prop) (origin_question : ∀ q r, origin q r → mQuestion q ≠ []).

(** The message carries no answer, or its question and its answer are those of a
    message the chain returned to a query with this cache key (the same name, type,
    class and DO bit), which the validator accepted if the AD bit is set. *)
Definition traced_key (key : string) (m : Msg) : Prop :=
  mAnswer m = [] ∨
  ∃ query q qs r, mQuestion query = q :: qs ∧ cacheKey q query = key ∧ origin (queryWithDO query) r ∧
    mQuestion m = mQuestion r ∧ (mAuthenticatedData m = true → checked r) ∧ ∀ rr, rr ∈ mAnswer m → rr ∈ mAnswer r.

Definition traced (query m : Msg) : Prop :=
  mAnswer m = [] ∨ ∃ q qs, mQuestion query = q :: qs ∧ traced_key (cacheKey q query) m.

(** The cache holds, under each key, only messages traced to a query with this key. *)
Definition sound_cache (c : Cache) : Prop := ∀ k e, entries c !! k = Some e → traced_key k (eResponse e).

Lemma traced_at query m q qs : traced query m → mQuestion query = q :: qs → traced_key (cacheKey q query) m.
Proof. intros [H|(q' & qs' & E & H)] E'; [by left|]. rewrite E in E'. by injection E' as <- <-. Qed.

Lemma traced_sub query m m' : mQuestion m' = mQuestion m → (∀ rr, rr ∈ mAnswer m' → rr ∈ mAnswer m) →
  (mAuthenticatedData m' = true → mAuthenticatedData m = true) → traced query m → traced query m'.
Proof.
  intros Hq Ha Had Ht. assert (Hnil : mAnswer m = [] → mAnswer m' = []).
  { intros He. destruct (mAnswer m') as [|rr l]; [done|]. exfalso.
    specialize (Ha rr (list_elem_of_here _ _)). rewrite He in Ha. by apply elem_of_nil in Ha. }
  destruct Ht as [He|(q & qs & E & [He|(query0 & q0 & qs0 & r & H1 & H2 & H3 & H4 & Hc & H5)])]; [left; auto..|right].
  exists q, qs. split; [done|]. right. exists query0, q0, qs0, r. rewrite Hq. split_and!; eauto.
Qed.

Lemma traced_empty query m : mAnswer m = [] → traced query m.
Proof. by left. Qed.

Lemma queryWithDO_question query : mQuestion (queryWithDO query) = mQuestion query.
Proof. done. Qed.

(** What the chain returned, with the AD bit set only after the validator accepted it. *)
Lemma traced_origin query r m : origin (queryWithDO query) r → mQuestion m = mQuestion r → mAnswer m = mAnswer r →
  (mAuthenticatedData m = true → checked r) → traced query m.
Proof.
  intros H Hm Ha Hc. right. pose proof (origin_question _ _ H) as Hq. rewrite queryWithDO_question in Hq.
  destruct (mQuestion query) as [|q qs] eqn:E; [done|]. exists q, qs. split; [done|]. right. exists query, q, qs, r. rewrite Ha. by split_and!.
Qed.

(** *** The cache *)

Lemma new_sound opts : sound_cache (Cache.New opts).
Proof. intros k e H. cbn in H. by rewrite lookup_empty in H. Qed.

Lemma Get_sound c now query m c' : Get c now (Some query) = (m, c') → sound_cache c →
  sound_cache c' ∧ ∀ r, m = Some r → traced query r.
Proof.
  unfold Get. destruct (Get_lookup c now (Some query)) eqn:E; intros [= <- <-] Hc.
  - done.
  - split; [|done]. intros k e. unfold Get_delete. cbn. intros [_ He]%lookup_delete_Some. by apply Hc.
  - split; [done|]. intros r [= <-]. unfold Get_lookup in E. destruct (negb _); [done|].
    destruct (mQuestion query) as [|q qs] eqn:Hq; [done|]. right. exists q, qs. split; [done|].
    destruct (entries c !! cacheKey q query) as [e|] eqn:Ee; [|done]. destruct (IsExpired now e); [by destruct (_ <=? _)|].
    injection E as <-. by apply Hc.
Qed.

Lemma GetStale_traced c now query r : GetStale c now (Some query) = Some r → sound_cache c → traced query r.
Proof.
  unfold GetStale. destruct (_ || _); [done|]. intros H Hc. destruct (mQuestion query) as [|q qs] eqn:Hq; [done|].
  right. exists q, qs. split; [done|].
  destruct (entries c !! cacheKey q query) as [e|] eqn:Ee; [|done].
  destruct (_ <=? 0); [done|]. destruct (_ >? _); [done|]. injection H as <-. by apply Hc.
Qed.

Lemma Put_sound order c now query r : sound_cache c → traced query r → sound_cache (Put order c now (Some query) (Some r)).
Proof.
  intros Hc Ht. destruct (Put_cases order c now (Some query) (Some r)) as [->|(m & q & qs & r' & ttl & [= <-] & Hq & [= <-] & _ & ->)]; [done|].
  intros k e. cbn. rewrite lookup_insert_Some. intros [[<- <-]|[_ He]]; [by eapply traced_at|]. by apply put_base_sub, Hc in He.
Qed.

Lemma Get_lookup_traced c now query m : Get_lookup c now (Some query) = Hit m → sound_cache c → traced query m.
Proof. intros E Hc. assert (Hg : Get c now (Some query) = (Some m, c)) by (unfold Get; by rewrite E). by apply (Get_sound _ _ _ _ _ Hg Hc). Qed.

Lemma Get_delete_sound c key : sound_cache c → sound_cache (Get_delete c key).
Proof. intros Hc k e. unfold Get_delete. cbn. intros [_ He]%lookup_delete_Some. by apply Hc. Qed.

(** *** What is answered without the chain *)

Lemma servfail_traced query0 query : traced query0 (servfail query).
Proof. by apply traced_empty. Qed.

Lemma ensure_question r query : mQuestion (ensureResponseEDNS r query) = mQuestion r.
Proof.
  unfold ensureResponseEDNS. destruct (IsEdns0 query) as [[i o]|]; [|done].
  destruct (IsEdns0 _) as [[j p]|]; by destruct (optDo o).
Qed.

Lemma ensure_ad r query : mAuthenticatedData (ensureResponseEDNS r query) = mAuthenticatedData r.
Proof. rewrite <-up_ensure. unfold mAuthenticatedData. by rewrite ensure_hdr. Qed.

(** ** The invariant of the shared state *)

Context (pol : Policy) (good : Wired → Prop) (vgood : VConfig * VState → Prop).

Definition sound (w : DWorld) : Prop := good (w_up w) ∧ vgood (w_val w) ∧ ∀ c, w_cache w = Some c → sound_cache c.

(** A forwarded query carried one question that lists of the daemon let through. *)
Definition admitted (sh : Shared) (up : Msg) : Prop :=
  ∃ q, mQuestion up = [q] ∧
    (allow pol ≠ None → qtype_refused pol (qType q) = false ∧ ∃ a, a ∈ allow_lists sh ∧ Allowed a (qName q) = true) ∧
    (block pol ≠ None → ∃ b, b ∈ block_lists sh ∧ IsBlocked b (qName q) = false).

Definition Inv (sh : Shared) : Prop := sound (sh_world sh) ∧ ∀ up, up ∈ w_fwd (sh_world sh) → admitted sh up.

Local Abbreviation W := (wp Inv later).

Lemma admitted_later sh sh' up : later sh sh' → admitted sh up → admitted sh' up.
Proof.
  intros [H1 H2] (q & Hq & Ha & Hb). exists q. split_and!; [done| |].
  - intros H. destruct (Ha H) as (Ht & a & Hin & Hal). split; [done|]. exists a. split; [|done]. destruct H1 as [k ->]. apply elem_of_app. by left.
  - intros H. destruct (Hb H) as (b & Hin & Hbl). exists b. split; [|done]. destruct H2 as [k ->]. apply elem_of_app. by left.
Qed.

(** A change of the world that leaves the messages alone. *)
Definition frames (f : DWorld → DWorld) : Prop :=
  ∀ w, w_up (f w) = w_up w ∧ w_val (f w) = w_val w ∧ w_cache (f w) = w_cache w ∧ w_fwd (f w) = w_fwd w.

Lemma Inv_frame f sh : frames f → Inv sh → Inv (on_world f sh).
Proof. intros Hf [(Hg & Hv & Hc) Ha]. destruct (Hf (sh_world sh)) as (E1 & E2 & E3 & E4). split; [split_and!|]; cbn; by rewrite ?E1, ?E2, ?E3, ?E4. Qed.

Lemma frames_bump s c : frames (bump s c).
Proof. intros w. unfold bump. by destruct (s_stats s). Qed.
Lemma frames_stats g : frames (λ w, set_stats (g w) w).
Proof. done. Qed.
Lemma frames_response s rc : frames (record_response s rc).
Proof. intros w. unfold record_response. by destruct (s_stats s). Qed.
Lemma frames_latency s us : frames (record_latency s us).
Proof. intros w. unfold record_latency. by destruct (s_stats s). Qed.
Lemma frames_mode2 (l : Listener) us : frames (λ w, if l_stats l then set_stats (RecordMode2Latency us (w_stats w)) w else w).
Proof. intros w. by destruct (l_stats l). Qed.
#[local] Hint Resolve frames_bump frames_stats frames_response frames_latency frames_mode2 : rcvd.

(** ** The goroutine of one query

    [s0] is the state in which it was started. *)

Section Handler.
Context (s0 : Shared).
Implicit Types (s : Shared) (query m : Msg).

Lemma seqW {A B} (p : prog Shared A) (q : A → prog Shared B) P Q s : later s0 s → W p P s →
  (∀ a s', later s s' → later s0 s' → Inv s' → P a s' → W (q a) Q s') → W (bindP p q) Q s.
Proof. intros Hs Hp Hq. apply wp_bind; [apply _|]. eapply wp_mono; [apply _|exact Hp|]. intros a s' Hr Hi. apply Hq; [done|by etrans|done]. Qed.

Lemma retW {A} (a : A) (Q : A → Shared → Prop) s : later s0 s → (∀ s', later s s' → later s0 s' → Q a s') → W (Ret a) Q s.
Proof. intros Hs H. apply wp_ret. intros s' Hr _. apply H; [done|by etrans]. Qed.

(** A counter and the like. *)
Lemma frameW {B} f (q : prog Shared B) Q s : frames f → later s0 s → (∀ s', later s s' → later s0 s' → W q Q s') →
  W (doP _ ← writeP (on_world f); q) Q s.
Proof.
  intros Hf Hs H. apply wp_bind; [apply _|]. apply wp_write; [apply _|..].
  - intros s' Hi. split; [by apply Inv_frame|apply later_world].
  - intros s' Hr Hi. apply H; [done|by etrans].
Qed.

Lemma bumpW {B} sv c (q : prog Shared B) Q s : later s0 s → (∀ s', later s s' → later s0 s' → W q Q s') → W (doP _ ← bumpP sv c; q) Q s.
Proof. apply frameW, frames_bump. Qed.

(** *** The policy *)

(** The query was let through by lists in force since the goroutine was started. *)
Definition let_through (sh : Shared) (query : Msg) : Prop :=
  ∃ q, mQuestion query = [q] ∧
    (allow pol ≠ None → qtype_refused pol (qType q) = false ∧ allowed_since s0 sh (qName q)) ∧
    (block pol ≠ None → unblocked_since s0 sh (qName q)).

(** So was a record of an answer. *)
Definition record_allowed (sh : Shared) (rr : RR) : Prop :=
  rrtype rr ≠ TypeRRSIG → qtype_refused pol (rrtype rr) = false ∧ allowed_since s0 sh (hName (rHdr rr)) ∧
    ∀ t, rData rr = D_CNAME t ∨ rData rr = D_DNAME t → allowed_since s0 sh t.

Lemma let_through_later sh sh' query : later sh sh' → let_through sh query → let_through sh' query.
Proof.
  intros Hl (q & Hq & Ha & Hb). exists q. split_and!; [done| |].
  - intros H. destruct (Ha H) as [Ht Hal]. split; [done|]. by eapply allowed_later.
  - intros H. by eapply unblocked_later, Hb.
Qed.

Lemma record_later sh sh' rr : later sh sh' → record_allowed sh rr → record_allowed sh' rr.
Proof.
  intros Hl H Hn. destruct (H Hn) as (H1 & H2 & H3). split_and!; [done|by eapply allowed_later|].
  intros t Ht. by eapply allowed_later, H3.
Qed.

Lemma allowedW name s : later s0 s → W (allowedP name) (λ b s', b = true → allowed_since s0 s' name) s.
Proof.
  intros Hs. apply wp_read; [apply _|]. intros s1 s2 H1 _ H2 _ Ha. eapply allowed_later; [exact H2|]. apply allowed_now; [by etrans|done].
Qed.

Lemma isBlockedW name s : later s0 s → W (isBlockedP name) (λ b s', b = false → unblocked_since s0 s' name) s.
Proof.
  intros Hs. apply wp_read; [apply _|]. intros s1 s2 H1 _ H2 _ Ha. eapply unblocked_later; [exact H2|]. apply unblocked_now; [by etrans|done].
Qed.

Lemma denyW query reason s : later s0 s → W (denyP pol query reason) (λ m _, mAnswer m = []) s.
Proof.
  intros Hs. apply wp_atomic. intros s' Hr Hi.
  pose proof (deny_refusal pol query reason (w_stats (sh_world s'))) as [_ [_ _ _ _ [He _] _ _]].
  destruct (deny pol query reason (w_stats (sh_world s'))) as [st m]. cbn in *. split_and!; [|apply later_world|done].
  apply (Inv_frame (λ w, set_stats st w)); [done|done].
Qed.

Lemma block_checkW query q s : later s0 s →
  W (block_checkP pol query q) (λ r s', match r with Some m => mAnswer m = [] | None => block pol ≠ None → unblocked_since s0 s' (qName q) end) s.
Proof.
  intros Hs. unfold block_checkP. destruct (block pol) as [b|]; [|by apply retW].
  eapply seqW; [done|by apply isBlockedW|]. cbv beta. intros [] s1 _ H1 _ Hb.
  - apply frameW; [done|done|]. intros s2 _ H2. by apply retW.
  - apply retW; [done|]. intros s2 H12 _ _. by eapply unblocked_later, Hb.
Qed.

Lemma ResponseW query q s : later s0 s → mQuestion query = [q] →
  W (ResponseP pol query) (λ r s', match r with Some m => mAnswer m = [] | None => let_through s' query end) s.
Proof.
  intros Hs Hq. unfold ResponseP. rewrite Hq. destruct (allow pol) as [a|] eqn:Ea.
  - eapply seqW; [done|by apply allowedW|]. intros [] s1 _ H1 _ Hal; cbn.
    + destruct (qtype_refused pol (qType q)) eqn:Et.
      * eapply seqW; [done|by apply denyW|]. intros m s2 _ H2 _ Hm. by apply retW.
      * eapply wp_mono; [apply _|by apply block_checkW|]. intros [m|] s2 H2 _ Hb; [done|].
        exists q. split_and!; [done| |done]. intros _. split; [done|]. eapply allowed_later; [exact H2|]. by apply Hal.
    + eapply seqW; [done|by apply denyW|]. intros m s2 _ H2 _ Hm. by apply retW.
  - eapply wp_mono; [apply _|by apply block_checkW|]. intros [m|] s2 H2 _ Hb; [done|]. exists q. split_and!; [done|congruence|done].
Qed.

Lemma answer_refusedW rr s : later s0 s → W (answer_refusedP pol rr) (λ r s', r = None → record_allowed s' rr) s.
Proof.
  intros Hs. unfold answer_refusedP. destruct (hRrtype (rHdr rr) =? TypeRRSIG) eqn:E1.
  { apply retW; [done|]. intros s1 _ _ _ Hn. bool_prop. done. }
  destruct (qtype_refused pol (hRrtype (rHdr rr))) eqn:E2; [by apply retW|].
  eapply seqW; [done|by apply allowedW|]. intros [] s1 _ H1 _ Hal; cbn; [|by apply retW]. specialize (Hal eq_refl).
  assert (Hrest : (∀ t, rData rr ≠ D_CNAME t ∧ rData rr ≠ D_DNAME t) → W (Ret None) (λ r s', r = (None : option string) → record_allowed s' rr) s1).
  { intros Hd. apply retW; [done|]. intros s2 H2 _ _ _. split_and!; [done|by eapply allowed_later|].
    intros t [Ht|Ht]; by destruct (Hd t). }
  assert (Htarget : ∀ t, (∀ t', rData rr = D_CNAME t' ∨ rData rr = D_DNAME t' → t' = t) →
    W (doP target ← allowedP t; Ret (if negb target then Some "answer outside allowlist" else None)) (λ r s', r = None → record_allowed s' rr) s1).
  { intros t Ht. eapply seqW; [done|by apply allowedW|]. intros target s2 H12 H2 _ Htg. apply retW; [done|].
    intros s3 H3 H03. destruct target; [|done]. intros _ _. specialize (Htg eq_refl). split_and!; [done| |].
    - eapply allowed_later; [exact H3|]. eapply allowed_later; [exact H12|]. exact Hal.
    - intros t' ->%Ht. exact (allowed_later _ _ _ _ H3 Htg). }
  destruct (rData rr); try (apply Hrest; done).
  - apply Htarget. intros t' [[= ->]|[=]]; done.
  - apply Htarget. intros t' [[=]|[= ->]]; done.
Qed.

Lemma first_refusedW l s : later s0 s → W (first_refusedP pol l) (λ r s', r = None → ∀ rr, rr ∈ l → record_allowed s' rr) s.
Proof.
  revert s. induction l as [|rr l IH]; intros s Hs; cbn [first_refusedP].
  { apply retW; [done|]. intros s1 _ _ _ rr H. by apply elem_of_nil in H. }
  eapply seqW; [done|by apply answer_refusedW|]. intros [reason|] s1 _ H1 _ Hr; [by apply retW|].
  eapply wp_mono; [apply _|by apply IH|]. cbv beta. intros r s2 H2 _ Hl -> rr' [->|Hin]%elem_of_cons; [|by apply Hl].
  exact (record_later _ _ _ H2 (Hr eq_refl)).
Qed.

(** The answer of the message passed the lists in force since the start. *)
Definition answer_allowed (sh : Shared) m : Prop := allow pol ≠ None → ∀ rr, rr ∈ mAnswer m → record_allowed sh rr.

(** A reply of the handler: empty, or to a query let through, with records let through,
    traced to their source. *)
Definition reply_ok query m (sh : Shared) : Prop := mAnswer m = [] ∨ (let_through sh query ∧ traced query m ∧ answer_allowed sh m).

Lemma AnswerW query m s : later s0 s → traced query m → let_through s query → W (AnswerP pol query m) (reply_ok query) s.
Proof.
  intros Hs Ht Hq. unfold AnswerP. destruct (allow pol) as [a|] eqn:Ea.
  - eapply seqW; [done|by apply first_refusedW|]. intros [reason|] s1 H1 H01 _ Hr.
    + eapply wp_mono; [apply _|by apply denyW|]. intros m' s2 _ _ Hm. by left.
    + apply retW; [done|]. intros s2 H2 _. right. split_and!; [|done|].
      * eapply let_through_later; [exact H2|]. exact (let_through_later _ _ _ H1 Hq).
      * intros _ rr Hrr. exact (record_later _ _ _ H2 (Hr eq_refl rr Hrr)).
  - apply retW; [done|]. intros s2 H2 _. right. split_and!; [exact (let_through_later _ _ _ H2 Hq)|done|]. intros H. congruence.
Qed.

(** The same for a listener of the daemon, which all have the one policy. *)
Lemma policyAnswerW (sv : Server) query m s : s_policy sv = Some pol → later s0 s → traced query m → let_through s query →
  W (policyAnswerP sv query m) (reply_ok query) s.
Proof. intros Hp. unfold policyAnswerP. rewrite Hp. apply AnswerW. Qed.

(** *** The cache *)

Lemma getW now query s : later s0 s → W (getP now query) (λ r _, ∀ m, r = Some m → traced query m) s.
Proof.
  intros Hs. unfold getP. eapply (seqW _ _ (λ found _, ∀ m, found = Hit m → traced query m)); [done|..].
  - apply wp_read; [apply _|]. intros s1 s2 _ [(_ & _ & Hc) _] _ _ m. destruct (w_cache (sh_world s1)) as [c|]; [|done].
    intros E. by eapply Get_lookup_traced, Hc.
  - intros [|key|m] s1 _ H1 _ Hm; [by apply retW| |by apply retW; [|intros s2 _ _ m' [= <-]; apply Hm]].
    apply wp_bind; [apply _|]. apply wp_write; [apply _|..].
    + intros s2 [(Hg & Hv & Hc) Ha]. split; [|apply later_world]. split; [|done]. split_and!; [done..|].
      intros c. cbn. destruct (w_cache (sh_world s2)) as [c0|]; [|done]. intros [= <-]. by apply Get_delete_sound, Hc.
    + intros s2 H2 _. apply retW; [by etrans|done].
Qed.

Lemma getStaleW now query s : later s0 s → W (getStaleP now query) (λ r _, ∀ m, r = Some m → traced query m) s.
Proof.
  intros Hs. apply wp_read; [apply _|]. intros s1 s2 _ [(_ & _ & Hc) _] _ _ m. destruct (w_cache (sh_world s1)) as [c|]; [|done].
  intros E. by eapply GetStale_traced, Hc.
Qed.

Lemma putW {B} order now query m may (q : prog Shared B) Q s : later s0 s → traced query m →
  (∀ s', later s s' → later s0 s' → W q Q s') → W (doP _ ← putP order now query m may; q) Q s.
Proof.
  intros Hs Ht H. apply wp_bind; [apply _|]. apply wp_write; [apply _|..].
  - intros s1 Hi. split; [|apply later_world]. destruct (Hi) as [(Hg & Hv & Hc) Ha]. destruct s1 as [w a pa b pb]. unfold on_world. cbn in *.
    destruct (w_cache w) as [c|] eqn:Ec; [|done]. destruct (may c); [|done]. split; [|exact Ha]. split_and!; [done..|].
    intros c' [= <-]. by apply Put_sound; [apply Hc|].
  - intros s1 H1 _. apply H; [done|by etrans].
Qed.

(** *** Replies *)

Lemma reply_later query m sh sh' : later sh sh' → reply_ok query m sh → reply_ok query m sh'.
Proof.
  intros Hl [H|(H1 & H2 & H3)]; [by left|right]. split_and!; [by eapply let_through_later|done|].
  intros Ha rr Hrr. by eapply record_later, H3.
Qed.

Lemma reply_sub query m m' sh : mQuestion m' = mQuestion m → (∀ rr, rr ∈ mAnswer m' → rr ∈ mAnswer m) →
  (mAuthenticatedData m' = true → mAuthenticatedData m = true) → reply_ok query m sh → reply_ok query m' sh.
Proof.
  intros Hq Ha Had [He|(H1 & H2 & H3)].
  - left. destruct (mAnswer m') as [|rr l]; [done|]. exfalso. specialize (Ha rr (list_elem_of_here _ _)). rewrite He in Ha. by apply elem_of_nil in Ha.
  - right. split_and!; [done|by eapply traced_sub|]. intros Hn rr Hrr. by apply H3, Ha.
Qed.

Lemma reply_ensure query m sh : reply_ok query m sh → reply_ok query (ensureResponseEDNS m query) sh.
Proof. apply reply_sub; [apply ensure_question|intros rr; apply ensure_answer|]. by rewrite ensure_ad. Qed.

(** *** Mode 1 *)

Context (upstreamP : Msg → prog Shared (result Msg ())) (validateP : Msg → prog Shared validation).
Context (upstream_ok : ∀ q s, W (upstreamP q) (λ res _, ∀ r, res = Ok r → origin q r) s).
Context (validate_ok : ∀ r s, W (validateP r) (λ v _, v = Secure → checked r) s).

Lemma callW query up s : later s0 s → let_through s query → mQuestion up = mQuestion query →
  W (callP upstreamP up) (λ res _, ∀ r, res = Ok r → origin up r) s.
Proof.
  intros Hs (q & Hq & Ha & Hb) Hup. unfold callP. apply wp_bind; [apply _|]. apply wp_atomic. intros s1 H1 [Hw Hf].
  split_and!; [|apply later_world|intros s2 _ _; apply upstream_ok]. split; [exact Hw|]. cbn. intros up'.
  intros [Hin| ->%list_elem_of_singleton]%elem_of_app; [by apply Hf|]. exists q. split_and!; [congruence| |].
  - intros Hn. destruct (Ha Hn) as [Ht Hal]. split; [done|]. destruct (allowed_later _ _ _ _ H1 Hal) as (j & a & _ & Hj & Haa).
    exists a. split; [by eapply list_elem_of_lookup_2|done].
  - intros Hn. destruct (unblocked_later _ _ _ _ H1 (Hb Hn)) as (j & b & _ & Hj & Hbb). exists b. split; [by eapply list_elem_of_lookup_2|done].
Qed.

Section Mode1.
Context (sv : Server) (Hpol : s_policy sv = Some pol) (Hval : s_validator sv = true).

Lemma staleW clk query s : later s0 s → W (upstreamFailureResponseP sv clk query) (λ m _, traced query m) s.
Proof.
  intros Hs. eapply seqW; [done|by apply getStaleW|]. intros [m|] s1 _ H1 _ Hm.
  - apply bumpW; [done|]. intros s2 _ H2. apply retW; [done|]. intros s3 _ _. apply (traced_sub _ m); [done..|]. by apply Hm.
  - apply retW; [done|]. intros. apply servfail_traced.
Qed.

(** What is set after the validator's verdict. *)
Lemma verdict_traced query r : origin (queryWithDO query) r → (checked r → traced query (set_AD true r)) ∧ traced query (set_AD false r).
Proof. intros Ho. split; [intros Hc|]; (eapply traced_origin; [exact Ho|done|done|done]). Qed.

Lemma dnssecW clk r query s : later s0 s → origin (queryWithDO query) r → W (applyDNSSECP validateP sv clk r query) (λ m _, traced query m) s.
Proof.
  intros Hs Ho. destruct (verdict_traced _ _ Ho) as [Ht Hf]. eapply seqW; [done|apply validate_ok|].
  intros [] s1 _ H1 _ Hv; (apply bumpW; [done|]); intros s2 _ H2; [by apply retW; auto|by apply retW|by apply staleW].
Qed.

Lemma forwardW clk query s : later s0 s → let_through s query → W (forwardP upstreamP validateP sv clk query) (reply_ok query) s.
Proof.
  intros Hs Hq. unfold forwardP. apply bumpW; [done|]. intros s1 H1 H01. apply bumpW; [done|]. intros s2 H2 H02.
  assert (Hq2 : let_through s2 query) by (eapply let_through_later; [|exact Hq]; by etrans).
  eapply seqW; [done|by apply (callW query)|]. intros res s3 H3 H03 _ Ho.
  eapply (seqW _ _ (λ m _, traced query m)); [done|..].
  - destruct res as [r|e].
    + apply frameW; [apply frames_latency|done|]. intros s4 _ H4. rewrite Hval.
      eapply seqW; [done|by apply dnssecW; [|apply Ho]|]. intros r' s5 _ H5 _ Ht. apply putW; [done|done|]. intros s6 _ H6. by apply retW.
    + apply bumpW; [done|]. intros s4 _ H4. by apply staleW.
  - intros m s4 H4 H04 _ Ht. apply policyAnswerW; [done..|]. eapply let_through_later; [|exact Hq2]. by etrans.
Qed.

Lemma mode1W clk query s : later s0 s → W (mode1P upstreamP validateP sv clk query) (reply_ok query) s.
Proof.
  intros Hs. unfold mode1P. apply bumpW; [done|]. intros s1 _ H1.
  destruct (negb (List.length (mQuestion query) =? 1)%nat) eqn:En; [by apply retW; [|left]|].
  assert (Hq : ∃ q, mQuestion query = [q]) by (destruct (mQuestion query) as [|q [|]]; [done|by exists q|done]). destruct Hq as [q Hq].
  unfold policyResponseP. rewrite Hpol. eapply seqW; [done|by eapply ResponseW|]. intros [m|] s2 _ H2 _ Hr; [by apply retW; [|left]|].
  rewrite Hq. cbn [List.length Nat.ltb Nat.leb]. eapply seqW; [done|by apply getW|]. intros [m|] s3 H3 H03 _ Hm.
  - apply bumpW; [done|]. intros s4 H4 H04. apply policyAnswerW; [done|done| |].
    + apply (traced_sub _ m); [done..|]. by apply Hm.
    + eapply let_through_later; [|exact Hr]. by etrans.
  - apply forwardW; [done|]. exact (let_through_later _ _ _ H3 Hr).
Qed.

Lemma tcpW clk wr query s : later s0 s →
  W (tcpP upstreamP validateP sv clk wr query) (λ r sh, ∀ m b rep, r = Some (m, b, rep) → reply_ok query m sh) s.
Proof.
  intros Hs. eapply seqW; [done|by apply mode1W|]. intros m s1 _ H1 _ Hm. apply reply_ensure in Hm. cbv beta zeta.
  destruct (packStream _ query) as [[b|] rep]; [|by apply retW]. destruct wr; [|by apply retW]. cbn [negb].
  apply frameW; [apply frames_response|done|]. intros s2 H2 H02. apply retW; [done|]. intros s3 H3 _ m' b' rep' [= <- _ _].
  eapply reply_later; [|exact Hm]. by etrans.
Qed.

Lemma udpW {tr : TruncateLaws dl} clk buf s : later s0 s →
  W (udpP upstreamP validateP sv clk buf) (λ r sh, ∀ query m b, Unpack buf = Some query → r = Some (m, b) → reply_ok query m sh) s.
Proof.
  intros Hs. unfold udpP. destruct (Unpack buf) as [query|]; [|by apply retW].
  eapply seqW; [done|by apply mode1W|]. intros m s1 _ H1 _ Hm. apply reply_ensure in Hm. cbv beta zeta.
  destruct (packUDP _ query) as [b|]; [|by apply retW].
  apply frameW; [apply frames_response|done|]. intros s2 H2 H02. apply retW; [done|]. intros s3 H3 _ query' m' b' [= <-] [= <- _].
  apply (reply_sub _ (ensureResponseEDNS m query)); [apply Truncate_question|intros rr; apply Truncate_answer|by rewrite Truncate_ad|].
  eapply reply_later; [|exact Hm]. by etrans.
Qed.

End Mode1.

(** *** Mode 2 *)

Section Mode2.
Context (l : Listener) (Hpol : l_policy l = Some pol) (Hval : l_validate l = true).

(** A reply of the listener's own zone, which never has the AD bit. *)
Definition zone_reply query m : Prop :=
  mAuthenticatedData m = false ∧ ∃ z, answer (l_ddr l) query = Some z ∧ ∀ rr, rr ∈ mAnswer m → rr ∈ mAnswer z.
Definition reply2_ok query m (sh : Shared) : Prop := reply_ok query m sh ∨ zone_reply query m.

Lemma zone_answer query z : answer (l_ddr l) query = Some z → zone_reply query z.
Proof.
  intros H. split; [|by exists z]. revert H. unfold answer, svcbResponse, nodataResponse. destruct (mQuestion query) as [|q [|]]; [done| |done].
  destruct (negb _); [done|]. destruct (_ && _); intros [= <-]; by rewrite up_ensure, ensure_ad.
Qed.

Lemma reply2_later query m sh sh' : later sh sh' → reply2_ok query m sh → reply2_ok query m sh'.
Proof. intros Hl [H|H]; [left; by eapply reply_later|by right]. Qed.

Lemma reply2_ensure query m sh : reply2_ok query m sh → reply2_ok query (Up.ensureResponseEDNS m query) sh.
Proof.
  rewrite up_ensure. intros [H|(Had & z & Hz & H)]; [left; by apply reply_ensure|right]. split; [by rewrite ensure_ad|].
  exists z. split; [done|]. intros rr Hrr. by apply H, (ensure_answer m query).
Qed.

Lemma upstream2W clk query s : later s0 s → let_through s query → W (upstream2P upstreamP validateP l clk query) (reply_ok query) s.
Proof.
  intros Hs Hq. unfold upstream2P. apply bumpW; [done|]. intros s1 H1 H01. rewrite up_queryWithDO.
  eapply seqW; [done|apply (callW query); [done|exact (let_through_later _ _ _ H1 Hq)|done]|]. intros res s2 H2 H02 _ Ho.
  eapply (seqW _ _ (λ m _, traced query m)); [done|..].
  - destruct res as [r|e]; [|apply bumpW; [done|]; intros s3 _ H3; apply retW; [done|]; intros; apply servfail_traced].
    rewrite Hval. destruct (verdict_traced _ _ (Ho r eq_refl)) as [Ht Hf].
    eapply (seqW _ _ (λ o _, ∀ m, o = Some m → traced query m)); [done|..].
    + eapply seqW; [done|apply validate_ok|]. intros [] s3 _ H3 _ Hv; [|..|by apply retW]; (apply bumpW; [done|]); intros s4 _ H4;
        (apply retW; [done|]); intros s5 _ _ m [= <-]; auto.
    + intros [m|] s3 _ H3 _ Hm; [by apply retW; auto|]. apply bumpW; [done|]. intros s4 _ H4. apply retW; [done|]. intros. apply servfail_traced.
  - intros m s3 H3 H03 _ Ht. apply putW; [done|done|]. intros s4 H4 H04. apply (policyAnswerW l); [done..|].
    eapply let_through_later; [|exact Hq]. by do 3 (etrans; [eassumption|]).
Qed.

Lemma local2W hf clk query s : later s0 s →
  W (local2P hf l clk query) (λ r sh, match r with Some m => reply2_ok query m sh | None => let_through sh query end) s.
Proof.
  intros Hs. unfold local2P. eapply (seqW _ _ (λ r sh, match r with Some m => reply2_ok query m sh | None => let_through sh query end)); [done|..].
  - destruct (negb (List.length (mQuestion query) =? 1)%nat) eqn:En; [apply retW; [done|]; intros; by left; left|].
    assert (Hq : ∃ q, mQuestion query = [q]) by (destruct (mQuestion query) as [|q [|]]; [done|by exists q|done]). destruct Hq as [q Hq].
    destruct (answer (l_ddr l) query) as [z|] eqn:Ez; [apply retW; [done|]; intros; right; by apply zone_answer|].
    unfold policyResponseP. cbn [s_policy shared]. rewrite Hpol. eapply wp_mono; [apply _|by eapply ResponseW|].
    intros [m|] s1 _ _ H; [by left; left|done].
  - intros [m|] s1 H1 H01 _ Hm; [apply retW; [done|]; intros s2 H2 _; exact (reply2_later _ _ _ _ H2 Hm)|].
    eapply (seqW _ _ (λ _ _, True)); [done|by apply wp_read; [apply _|]|]. intros [] s2 H2 H02 _ _; cbn [negb].
    2: { apply retW; [done|]. intros s3 H3 _. eapply let_through_later; [|exact Hm]. by etrans. }
    eapply seqW; [done|by apply getW|]. intros [m|] s3 H3 H03 _ Hg.
    + assert (Htail : ∀ s4, later s3 s4 → later s0 s4 → W (doP r ← policyAnswerP l query (set_Id (mId query) m);
        doP _ ← (if hf then Ret () else bumpP l CacheHits); Ret (Some r))
        (λ r sh, match r with Some m => reply2_ok query m sh | None => let_through sh query end) s4).
      { intros s4 H4 H04. eapply seqW; [done|apply (policyAnswerW l); [done|done| |]|].
        - apply (traced_sub _ m); [done..|]. by apply Hg.
        - eapply let_through_later; [|exact Hm]. by do 2 (etrans; [eassumption|]).
        - intros r s5 H5 H05 _ Hr. destruct hf; [|apply bumpW; [done|]; intros s6 H6 H06]; apply retW; try done;
            intros s7 H7 _; left; (eapply reply_later; [|exact Hr]); [done|by etrans]. }
      destruct hf; [apply bumpW; [done|]; by apply Htail|]. by apply Htail.
    + apply bumpW; [done|]. intros s4 H4 H04. apply retW; [done|]. intros s5 H5 _. eapply let_through_later; [|exact Hm]. by do 3 (etrans; [eassumption|]).
Qed.

Lemma reply2W hf clk query s : later s0 s → W (reply2P upstreamP validateP hf l clk query) (reply2_ok query) s.
Proof.
  intros Hs. eapply seqW; [done|by apply local2W|]. intros [m|] s1 _ H1 _ Hm.
  - apply retW; [done|]. intros s2 H2 _. exact (reply2_later _ _ _ _ H2 Hm).
  - eapply wp_mono; [apply _|by apply upstream2W|]. intros m s2 _ _ H. by left.
Qed.

Lemma servedW {B} rc us (q : prog Shared B) Q s : later s0 s → (∀ s', later s s' → later s0 s' → W q Q s') → W (doP _ ← servedP l rc us; q) Q s.
Proof.
  intros Hs H. eapply (seqW _ _ (λ _ _, True)); [done|..].
  - apply frameW; [apply (frames_response l)|done|]. intros s1 H1 H01. apply wp_write; [apply _| |done].
    intros s2 Hi. split; [apply Inv_frame; [apply frames_mode2|done]|apply later_world].
  - intros [] s1 H1 H01 _ _. by apply H.
Qed.

Lemma stream2W served clk wr query s : later s0 s →
  W (stream2P upstreamP validateP served l clk wr query) (λ r sh, ∀ m b rep, r = Some (m, b, rep) → reply2_ok query m sh) s.
Proof.
  intros Hs. unfold stream2P. apply bumpW; [done|]. intros s1 _ H1. apply bumpW; [done|]. intros s2 _ H2.
  eapply seqW; [done|by apply reply2W|]. intros m s3 _ H3 _ Hm. apply reply2_ensure in Hm. cbv beta zeta.
  destruct (Up.packStream _ query) as [[b|] rep]; [|by apply retW]. destruct wr; [|by apply retW]. cbn [negb].
  apply servedW; [done|]. intros s4 H4 H04. apply retW; [done|]. intros s5 H5 _ m' b' rep' [= <- _ _].
  eapply reply2_later; [|exact Hm]. by etrans.
Qed.

Lemma doqStreamW clk wr input s : later s0 s →
  W (doqStreamP upstreamP validateP l clk wr input) (λ r sh, ∀ buf rest query m b rep, read_message input = Some (buf, rest) →
    Unpack buf = Some query → r = Some (m, b, rep) → reply2_ok query m sh) s.
Proof.
  intros Hs. unfold doqStreamP. destruct (read_message input) as [[buf rest]|]; [|by apply retW].
  destruct (Unpack buf) as [query|] eqn:Eu; [|by apply retW]. eapply wp_mono; [apply _|by apply stream2W|].
  cbv beta. intros r s1 _ _ H buf' rest' query' m b rep [= <- <-] E. rewrite Eu in E. injection E as <-. apply H.
Qed.

Lemma dohQueryW clk r s : later s0 s →
  W (dohQueryP upstreamP validateP l clk r) (λ reply sh, ∀ body query m b, Doh.request_body r = Ok body → Unpack body = Some query →
    reply = Doh.HttpOK m b → reply2_ok query m sh) s.
Proof.
  intros Hs. unfold dohQueryP. destruct (Doh.request_body r) as [body|]; [|by apply retW].
  destruct (Unpack body) as [query|] eqn:Eu; [|by apply retW]. apply bumpW; [done|]. intros s1 _ H1. apply bumpW; [done|]. intros s2 _ H2.
  eapply (seqW _ _ (reply2_ok query)); [done|..].
  - unfold respondP. destruct (negb _); [apply retW; [done|]; intros; apply reply2_ensure; by left; left|].
    destruct (answer (l_ddr l) query) as [z|] eqn:Ez; [apply retW; [done|]; intros; right; by apply zone_answer|].
    eapply seqW; [done|by apply reply2W|]. intros m s3 _ H3 _ Hm. apply retW; [done|]. intros s4 H4 _.
    apply reply2_ensure. exact (reply2_later _ _ _ _ H4 Hm).
  - intros m s3 _ H3 _ Hm. destruct (Pack m) as [b|]; [|by apply retW]. apply servedW; [done|]. intros s4 H4 H04. apply retW; [done|].
    intros s5 H5 _ body' query' m' b' [= <-] E [= <- _]. rewrite Eu in E. injection E as <-. eapply reply2_later; [|exact Hm]. by etrans.
Qed.

End Mode2.

End Handler.

End Provenance.
