(* ===== verification/Daemon.v ===== *)
(** * The running daemon

    Everything together: the daemon that [Wiring.startup] makes of a configuration, with
    its clients on the network of [Peers].  Every query over one of the five transports
    is a goroutine of its own, as are the health checks; they run in any interleaving of
    their sections on one cache, one chain, one validator and one policy, whose lists are
    reloaded at any moment.  The theorems follow the data of a reply back to its source,
    its AD bit back to a chain of trust, and its names back to the lists that let them
    through. *)

From S2P Require Import Prelude GoStrings GoNet GoFmt Config DnsMsg Cache Blocklist Allowlist Statistics Policy Fallback Interfaces Edns Server.
From S2P Require Import Dnssec DnssecChain EndToEnd UpstreamEdns Ddr Mode2 Service Lifecycle Transports Wiring Peers.
From S2P Require Import Threads Goroutines Sequential Network Provenance.
From Stdlib Require Import Ascii String.
Open Scope string_scope.
Open Scope list_scope.
Open Scope Z_scope.

(** The listeners of the service. *)
Definition listens (d : Daemon) (get : Service → option Listener) (l : Listener) : Prop :=
  ∃ svc, d_service d = Some svc ∧ get svc = Some l.

(** The settings of the validator do not change while it runs; the time it reads does. *)
Definition same_settings (v v' : VConfig) : Prop :=
  v_enabled v' = v_enabled v ∧ v_validateAll v' = v_validateAll v ∧ v_anchors v' = v_anchors v.

(** What the goroutines of the daemon are started for. *)
Inductive task :=
| UdpQuery (s : Server) (clk : Clock) (buf : string)
| TcpQuery (s : Server) (clk : Clock) (wr : bool) (query : Msg)
| DotQuery (l : Listener) (clk : Clock) (wr : bool) (query : Msg)
| DoqStream (l : Listener) (clk : Clock) (wr : bool) (input : string)
| DohRequest (l : Listener) (clk : Clock) (r : Doh.Request)
| HealthCheck (now : nat → Z).

Definition may (d : Daemon) (t : task) : Prop :=
  match t with
  | UdpQuery s _ _ | TcpQuery s _ _ _ => d_server d = Some s
  | DotQuery l _ _ _ => listens d sv_dot l
  | DoqStream l _ _ _ => listens d sv_doq l
  | DohRequest l _ _ => listens d sv_doh l
  | HealthCheck _ => True
  end.

(** What happens besides: a reload, and the passing of time. *)
Inductive outside : Shared → Shared → Prop :=
| reload_allow a sh : outside sh (install_allow a sh)
| reload_block b sh : outside sh (install_block b sh)
| tick now vc sh : same_settings (fst (w_val (sh_world sh))) vc →
    outside sh (on_world (λ w, mkWorld (w_cache w) (w_stats w) (mkWired (wi_chain (w_up w)) (wi_clients (w_up w)) now (wi_env (w_up w)))
      (vc, snd (w_val w)) (w_fwd w)) sh).

Section Run.
Context {dl : DnsLib} {cl : DnssecLib} (error_text : xerr → string).
Context (sum256 : string → string) (ca_ok : string → list Cert → bool) (net : nat → string → Peer).

(** The clock readings of the calls of the clients; the pools are used by the goroutines
    below and by nobody else. *)
Definition alone_with (clk : nat → nat → nat → Z) : Siblings := mkSiblings (λ _ _ _ q, q) (λ _ _ _ t, t) clk.

(** The state main has built when the listeners start. *)
Definition boot (env : StartEnv) (d : Daemon) (clk : nat → nat → nat → Z) : Shared :=
  mkShared
    (mkWorld (Some (d_cache d)) (Statistics.New (se_now env))
      (mkWired (d_resolver d) (imap (connect sum256 ca_ok net (alone_with clk)) (d_chain d)) (se_now env) quiet) (d_validator d) [])
    (default Allowlist.New (allow (d_policy d))) [] (default (Blocklist.New false) (block (d_policy d))) [].

Local Abbreviation upstreamP := (chainP error_text).
Local Abbreviation validateP := (validateResponseP (chainP error_text)).

(** The goroutine of a task; it returns the query with the reply that was sent, before it
    is packed. *)
Definition body (t : task) : prog Shared (option (Msg * Msg)) :=
  match t with
  | UdpQuery s clk buf =>
      doP r ← udpP upstreamP validateP s clk buf;
      Ret (match Unpack buf, r with Some query, Some (m, _) => Some (query, m) | _, _ => None end)
  | TcpQuery s clk wr query =>
      doP r ← tcpP upstreamP validateP s clk wr query;
      Ret (match r with Some (m, _, _) => Some (query, m) | None => None end)
  | DotQuery l clk wr query =>
      doP r ← stream2P upstreamP validateP DoTServed l clk wr query;
      Ret (match r with Some (m, _, _) => Some (query, m) | None => None end)
  | DoqStream l clk wr input =>
      doP r ← doqStreamP upstreamP validateP l clk wr input;
      Ret (match read_message input with
           | Some (buf, _) => match Unpack buf, r with Some query, Some (m, _, _) => Some (query, m) | _, _ => None end
           | None => None
           end)
  | DohRequest l clk req =>
      doP r ← dohQueryP upstreamP validateP l clk req;
      Ret (match Doh.request_body req with
           | Ok buf => match Unpack buf, r with Some query, Doh.HttpOK m _ => Some (query, m) | _, _ => None end
           | Err _ => None
           end)
  | HealthCheck now => doP _ ← healthP error_text now; Ret None
  end.

Abbreviation goroutine := (thread Shared task (option (Msg * Msg))).

(** The goroutines and the shared state of a daemon that has run for a while. *)
Definition reached (env : StartEnv) (d : Daemon) (ths : list goroutine) (sh : Shared) : Prop :=
  ∃ clk, rtc (pool_step body (may d) outside) ([], boot env d clk) (ths, sh).

(** A goroutine started in the state [s0] has answered a query. *)
Definition answered (ths : list goroutine) (s0 : Shared) (query m : Msg) : Prop :=
  ∃ t, mkThread t s0 (Ret (Some (query, m))) ∈ ths.

(** ** The source of a message *)

Context {laws : DnsLaws dl} {tr : TruncateLaws dl}.

(** The answer [r] to the query [q] was decoded from what the peer of an entry of the
    chain sent after a handshake the client accepted. *)
Definition sent_by (es : list ChainEntry) (q r : Msg) : Prop :=
  responseMatchesQuery q r = true ∧ ∃ i e, es !! i = Some e ∧ said sum256 ca_ok net i e r.

Lemma sent_question es q r : sent_by es q r → mQuestion q ≠ [].
Proof. intros [H _] E. unfold responseMatchesQuery in H. by rewrite E in H. Qed.

(** The validator, with the settings of the daemon, can accept the message. *)
Definition accepted (d : Daemon) (r : Msg) : Prop :=
  ∃ vc, same_settings (fst (d_validator d)) vc ∧ returns (ValidateResponse vc r) ().

Section Invariant.
Context (d : Daemon) (clk : nat → nat → nat → Z).
Local Abbreviation es := (d_chain d).
Local Abbreviation sib := (alone_with clk).

Definition daemon_inv : Shared → Prop :=
  Inv (sent_by es) (accepted d) (d_policy d) (linked sum256 ca_ok net sib es) (λ v, same_settings (fst (d_validator d)) (fst v)).

Lemma upstream_ok q s : wp daemon_inv later (chainP error_text q) (λ res _, ∀ r, res = Ok r → sent_by es q r) s.
Proof.
  apply (wp_zoom _ _ _ _ (linked_chain sum256 ca_ok net sib es)).
  - by intros sh [(Hg & _) _].
  - intros sh [u st] [(Hg & Hv & Hc) Ha] Hl. split; [|apply later_world]. by split.
  - apply keeps_resolve.
Qed.

Lemma health_ok now s : wp daemon_inv later (healthP error_text now) (λ _ _, True) s.
Proof.
  apply (wp_zoom _ _ _ _ (linked_chain sum256 ca_ok net sib es)).
  - by intros sh [(Hg & _) _].
  - intros sh [u st] [(Hg & Hv & Hc) Ha] Hl. split; [|apply later_world]. by split.
  - apply keeps_health.
Qed.

(** A computation of the validator returns what it can return. *)
Lemma walk_ok {A} (c : M A) s : wp daemon_inv later (walkP (chainP error_text) c) (λ r _, ∀ a, r = Ok a → returns c a) s.
Proof.
  revert s. induction c as [r|X f k IH|cfg zone t k IH]; intros s; cbn [walkP].
  - apply wp_ret. by intros s' _ _ a ->.
  - intros s' Hr Hi. cbn. destruct (f (keyCache _)) as [x keys]. cbn. split_and!; [|apply later_world|].
    + destruct Hi as [(Hg & Hv & Hc) Ha]. by split.
    + eapply wp_mono; [apply _|apply IH|]. cbv beta. intros r s2 _ _ H a Ea. exists x. by apply H.
  - intros s' Hr Hi. split_and!; [|apply later_world|].
    + destruct Hi as [(Hg & Hv & Hc) Ha]. by split.
    + apply wp_bind; [apply _|]. eapply wp_mono; [apply _|apply upstream_ok|]. intros res s2 _ _ _.
      eapply wp_mono; [apply _|apply IH|]. cbv beta. intros r s3 _ _ H a Ea. eexists. by apply H.
Qed.

Lemma validate_ok r s : wp daemon_inv later (validateResponseP (chainP error_text) r) (λ v _, v = Secure → accepted d r) s.
Proof.
  apply wp_bind; [apply _|]. apply wp_read; [apply _|]. intros s1 s2 _ [(_ & Hv & _) _] _ _.
  apply wp_bind; [apply _|]. eapply wp_mono; [apply _|apply walk_ok|]. cbv beta. intros res s3 _ _ H.
  apply wp_ret. intros s4 _ _ E. exists (fst (w_val (sh_world s1))). split; [exact Hv|]. destruct res as [[]|e]; [by apply H|].
  by destruct (IsInsecure e).
Qed.

(** *** The goroutines *)

(** The reply of a goroutine: traced, or of the zone of a listener. *)
Definition from_zone (query m : Msg) : Prop := ∃ get l, listens d get l ∧ zone_reply l query m.
Definition answer_ok (s0 : Shared) (query m : Msg) (sh : Shared) : Prop :=
  reply_ok (sent_by es) (accepted d) (d_policy d) s0 query m sh ∨ from_zone query m.

Context (Hserver : ∀ s, d_server d = Some s → s_policy s = Some (d_policy d) ∧ s_validator s = true).
Context (Hservice : ∀ svc l, d_service d = Some svc → running svc l → l_policy l = Some (d_policy d) ∧ l_validate l = true).

Lemma listens_wired get l : listens d get l → get ∈ [sv_doh; sv_dot; sv_doq] → l_policy l = Some (d_policy d) ∧ l_validate l = true.
Proof.
  intros (svc & Hs & Hl) Hg. apply (Hservice svc l Hs). unfold running.
  rewrite !elem_of_cons, elem_of_nil in Hg. destruct Hg as [->|[->|[->|[]]]]; auto.
Qed.

Lemma body_ok t s : may d t → daemon_inv s →
  wp daemon_inv later (body t) (λ a sh, ∀ query m, a = Some (query, m) → answer_ok s query m sh) s.
Proof.
  pose proof upstream_ok as Hu. pose proof validate_ok as Hv. pose proof (sent_question es) as Hq. assert (Hl : later s s) by reflexivity.
  intros Ht Hi. destruct t as [sv c buf|sv c wr query|l c wr query|l c wr input|l c req|now]; cbn [body may] in *.
  - destruct (Hserver sv Ht) as [Hp Hval]. apply wp_bind; [apply _|]. eapply wp_mono; [apply _|by eapply udpW|]. cbv beta.
    intros r s1 _ _ H. apply wp_ret. intros s2 H2 _ query m. destruct (Unpack buf) as [query0|] eqn:E; [|done].
    destruct r as [[m0 b]|]; [|done]. intros [= <- <-]. left. by eapply reply_later, H.
  - destruct (Hserver sv Ht) as [Hp Hval]. apply wp_bind; [apply _|]. eapply wp_mono; [apply _|by eapply tcpW|]. cbv beta.
    intros r s1 _ _ H. apply wp_ret. intros s2 H2 _ query' m. destruct r as [[[m0 b] rep]|]; [|done]. intros [= <- <-].
    left. by eapply reply_later, H.
  - destruct (listens_wired _ _ Ht ltac:(set_solver)) as [Hp Hval]. apply wp_bind; [apply _|]. eapply wp_mono; [apply _|by eapply stream2W|]. cbv beta.
    intros r s1 _ _ H. apply wp_ret. intros s2 H2 _ query' m. destruct r as [[[m0 b] rep]|]; [|done]. intros [= <- <-].
    destruct (H m0 b rep eq_refl) as [Hr|Hz]; [left; by eapply reply_later|right; by exists sv_dot, l].
  - destruct (listens_wired _ _ Ht ltac:(set_solver)) as [Hp Hval]. apply wp_bind; [apply _|]. eapply wp_mono; [apply _|by eapply doqStreamW|]. cbv beta.
    intros r s1 _ _ H. apply wp_ret. intros s2 H2 _ query' m. destruct (read_message input) as [[buf rest]|]; [|done].
    destruct (Unpack buf) as [query|] eqn:Eu; [|done]. destruct r as [[[m0 b] rep]|]; [|done]. intros [= <- <-].
    destruct (H buf rest query m0 b rep eq_refl Eu eq_refl) as [Hr|Hz]; [left; by eapply reply_later|right; by exists sv_doq, l].
  - destruct (listens_wired _ _ Ht ltac:(set_solver)) as [Hp Hval]. apply wp_bind; [apply _|]. eapply wp_mono; [apply _|by eapply dohQueryW|]. cbv beta.
    intros r s1 _ _ H. apply wp_ret. intros s2 H2 _ query' m. destruct (Doh.request_body req) as [buf|]; [|done].
    destruct (Unpack buf) as [query|] eqn:Eu; [|done]. destruct r as [st|m0 b]; [done|]. intros [= <- <-].
    destruct (H buf query m0 b eq_refl Eu eq_refl) as [Hr|Hz]; [left; by eapply reply_later|right; by exists sv_doh, l].
  - apply wp_bind; [apply _|]. eapply wp_mono; [apply _|apply health_ok|]. intros _ s1 _ _ _. by apply wp_ret.
Qed.

Lemma outside_ok s s' : outside s s' → daemon_inv s → daemon_inv s' ∧ later s s'.
Proof.
  intros [a sh|b sh|now vc sh Hvc] [(Hg & Hv & Hc) Ha].
  - pose proof (later_allow a sh) as Hl. split; [|done]. split; [done|]. intros up Hup. by eapply admitted_later, Ha.
  - pose proof (later_block b sh) as Hl. split; [|done]. split; [done|]. intros up Hup. by eapply admitted_later, Ha.
  - split; [|apply later_world]. split; [|exact Ha]. split_and!; [done| |done]. cbn.
    destruct Hv as (E1 & E2 & E3), Hvc as (F1 & F2 & F3). unfold same_settings. by rewrite F1, F2, F3.
Qed.

Lemma boot_ok env : sound_cache (sent_by es) (accepted d) (d_cache d) → daemon_inv (boot env d clk).
Proof.
  intros Hc. split; [split_and!|].
  - intros i c. cbn. rewrite list_lookup_imap. intros (e & He & ->)%fmap_Some. exists e. split; [done|]. apply connect_linked.
  - done.
  - by intros c [= <-].
  - intros up H. by apply elem_of_nil in H.
Qed.

(** Every state and every reply of a run. *)
Lemma run_ok env ths sh : sound_cache (sent_by es) (accepted d) (d_cache d) →
  rtc (pool_step body (may d) outside) ([], boot env d clk) (ths, sh) →
  daemon_inv sh ∧ ∀ s0 query m, answered ths s0 query m → answer_ok s0 query m sh.
Proof.
  intros Hc H. destruct (pool_sound daemon_inv later body (may d) outside (λ _ s a sh, ∀ query m, a = Some (query, m) → answer_ok s query m sh)
    body_ok outside_ok _ _ _ (boot_ok env Hc) H) as [H1 H2].
  split; [done|]. intros s0 query m [t Ht]. by eapply H2.
Qed.

End Invariant.

(** *** A daemon that has started *)

Context (url_parse : string → option string) (h2_ok : string → bool) (StringToType : string → option Z) (os : OS).
Local Abbreviation startup := (startup sum256 url_parse h2_ok StringToType).

Lemma started_ok env cfg d ths sh : startup env cfg = Ok d → reached env d ths sh →
  ∃ clk, daemon_inv d clk sh ∧ ∀ s0 query m, answered ths s0 query m → answer_ok d s0 query m sh.
Proof.
  intros Hst [clk H]. exists clk. destruct (listeners_wired _ _ _ _ _ _ _ Hst) as [H1 H2].
  apply (run_ok d clk (λ s Hs, let '(conj Hp (conj Hv _)) := H1 s Hs in conj Hp Hv)
    (λ svc l Hs Hr, let '(conj Hp (conj Hv _)) := H2 svc l Hs Hr in conj Hp Hv) env); [|done]. apply startup_inv in Hst as (_ & _ & _ & -> & _). apply new_sound.
Qed.

(** No other type or class has the mnemonic that the type or class of the question has
    in the cache key; those the library has no mnemonic for share the empty one. *)
Definition named (q : Question) : Prop :=
  (∀ t, TypeToString t = TypeToString (qType q) → t = qType q) ∧ (∀ c, ClassToString c = ClassToString (qClass q) → c = qClass q).

(** The message [r] answered a query with the cache key of [query] (the same question and
    DO bit, if type and class have a mnemonic) and was sent by an upstream of the
    configuration that identified itself. *)
Definition authentic (cfg : Config) (query r : Msg) : Prop :=
  ∃ query0 q0 qs0 q qs up i certs buf,
    mQuestion query0 = q0 :: qs0 ∧ mQuestion query = q :: qs ∧ cacheKey q0 query0 = cacheKey q query ∧
    (named q → q0 = q ∧ edns_do query0 = edns_do query) ∧
    responseMatchesQuery query0 r = true ∧
    up ∈ cfg_Upstreams cfg ∧ identified sum256 ca_ok up certs ∧
    heard (net i (dial_addr (endpoint_of (cfg_StatsEnabled cfg) up))) certs buf ∧ Unpack buf = Some r.

Lemma reply_source requireToken c cfg env d ths sh s0 query m rr :
  Config.validate os StringToType requireToken c = Ok cfg → startup env cfg = Ok d →
  reached env d ths sh → answered ths s0 query m → rr ∈ mAnswer m →
  from_zone d query m ∨
  ∃ r, authentic cfg query r ∧ mQuestion m = mQuestion r ∧ rr ∈ mAnswer r ∧ (mAuthenticatedData m = true → accepted d r).
Proof.
  intros Hval Hst Hreach Hans Hrr. destruct (started_ok _ _ _ _ _ Hst Hreach) as (clk & _ & Hok).
  destruct (Hok _ _ _ Hans) as [Hr|Hz]; [right|by left].
  assert (Hne : mAnswer m ≠ []) by (intros E; rewrite E in Hrr; by apply elem_of_nil in Hrr).
  destruct Hr as [?|(_ & [?|(q & qs & Hq & [?|(query0 & q0 & qs0 & r & H1 & H2 & [H3 (i & e & He & certs & buf & Hh & Hheard & Hu)] & H4 & Hk & H5)])] & _)]; [done..|].
  destruct (entry_identity _ _ _ _ _ _ _ _ _ _ e ca_ok certs Hval Hst (list_elem_of_lookup_2 _ _ _ He)) as (up & Hup & Hep & _ & Hid).
  exists r. split; [|by auto]. exists query0, q0, qs0, q, qs, up, i, certs, buf. unfold peer_of in Hheard. rewrite Hep in Hheard.
  split_and!; auto. intros [Ht Hc]. by apply cacheKey_inj; [|apply Ht|apply Hc|].
Qed.

(** C1: Nothing reaches a client of rcvd that an authenticated upstream did not send.
    Start the daemon from a validated configuration and let it run: any number of
    goroutines that serve queries over UDP, TCP, DoT, DoQ and DoH and check the
    upstreams, their critical sections interleaved in any order, with reloads of the
    lists in between.  Every record in the answer of a reply then is one of the
    listener's own resolver.arpa zone, or was in a message that a configured upstream
    sent: one that identified itself with the pinned key or, without a pin, with a
    certificate valid for its host.  That message answered a query with the same cache
    key as the client's query, and its question is the question of the reply; if no
    other type and class share the mnemonics of the client's question, the query it
    answered had that same question and DO bit (types and classes without a mnemonic
    share one cache key). *)
Theorem answers_come_from_upstreams requireToken c cfg env d ths sh s0 query m rr :
  Config.validate os StringToType requireToken c = Ok cfg → startup env cfg = Ok d →
  reached env d ths sh → answered ths s0 query m → rr ∈ mAnswer m →
  (∃ get l z, listens d get l ∧ answer (l_ddr l) query = Some z ∧ rr ∈ mAnswer z) ∨
  (∃ r, authentic cfg query r ∧ mQuestion m = mQuestion r ∧ rr ∈ mAnswer r).
Proof.
  intros Hval Hst Hreach Hans Hrr.
  destruct (reply_source _ _ _ _ _ _ _ _ _ _ _ Hval Hst Hreach Hans Hrr) as [(get & l & Hl & _ & z & Hz & Hsub)|(r & Ha & Hq & Hr & _)]; [left|right; eauto].
  exists get, l, z. auto.
Qed.

(** C2: What the AD bit means to a client of any of the five transports, whatever the
    daemon has done before, whatever its other goroutines do meanwhile, and wherever the
    reply comes from (an upstream, the cache, or the cache past its time): with DNSSEC
    enabled, every data record of a reply with AD set was in the answer of a message of
    an identified upstream for which the validator, with the settings and anchors of the
    daemon, can return success.  If that message carried no DNSKEY record of its own and
    its record types are 16-bit numbers, a signature in it covers the record under a key
    with a chain of trust to a root anchor; of a message with a DNSKEY record only the
    acceptance is stated. *)
Theorem ad_means_chain_of_trust_everywhere requireToken c cfg env d ths sh s0 query m rr :
  Config.validate os StringToType requireToken c = Ok cfg → startup env cfg = Ok d →
  ds_Enabled (cfg_DNSSEC cfg) = true →
  reached env d ths sh → answered ths s0 query m → mAuthenticatedData m = true → rr ∈ mAnswer m → is_data rr →
  ∃ r vc, authentic cfg query r ∧ rr ∈ mAnswer r ∧ same_settings (fst (d_validator d)) vc ∧ returns (ValidateResponse vc r) () ∧
    (types_wf (mAnswer r) → omap as_key (mAnswer r ++ mNs r) = [] → anchored vc (mAnswer r) rr).
Proof.
  intros Hval Hst Hen Hreach Hans Had Hrr Hd.
  destruct (reply_source _ _ _ _ _ _ _ _ _ _ _ Hval Hst Hreach Hans Hrr) as [(get & l & _ & Hf & _)|(r & Ha & _ & Hr & Hk)]; [congruence|].
  destruct (Hk Had) as (vc & Hs & Hv). exists r, vc. split_and!; [done..|]. intros Hwf Hnk.
  assert (He : v_enabled vc = true).
  { destruct Hs as [-> _]. pose proof (startup_inv _ _ _ _ _ _ _ Hst) as (_ & _ & _ & _ & Hdv & _). rewrite Hdv.
    unfold start_validator, DnssecChain.New. cbn. rewrite Hen. cbn. by repeat case_match. }
  by eapply secure_anchored.
Qed.

(** C3: The lists are enforced while they are reloaded.  In every state that the
    goroutines of a started daemon reach, every query of a client that was forwarded
    asked one question of a record type the policy admits, for a name that the allowlist
    of some moment allows and the blocklist of some moment does not block.  And every
    reply with an answer is one of the listener's own zone, or its question was let
    through, and each of its records but signatures was (its owner, its type, and the
    target of an alias), by lists that were in force at some moment after its goroutine
    was started: a list that was replaced before the query came never decides it. *)
Theorem lists_in_force env cfg d ths sh :
  startup env cfg = Ok d → reached env d ths sh →
  (∀ up, up ∈ w_fwd (sh_world sh) → admitted (d_policy d) sh up) ∧
  ∀ s0 query m, answered ths s0 query m → mAnswer m ≠ [] →
    (∃ get l, listens d get l ∧ zone_reply l query m) ∨
    (let_through (d_policy d) s0 sh query ∧
     (allow (d_policy d) ≠ None → ∀ rr, rr ∈ mAnswer m → record_allowed (d_policy d) s0 sh rr)).
Proof.
  intros Hst Hreach. destruct (started_ok _ _ _ _ _ Hst Hreach) as (clk & [_ Ha] & Hok). split; [done|].
  intros s0 query m Hans Hne. destruct (Hok _ _ _ Hans) as [[?|(H1 & _ & H2)]|Hz]; [done|by right|by left].
Qed.

End Run.

(** ** An example

    Quad9 is unreachable over QUIC and answers over TLS; the certificate is one the
    authorities accept for its name. *)
Definition ex_certs : list Cert := [mkCert "k" (λ host, String.eqb host "dns.quad9.net")].
Definition ex_internet (reply : nat → string) (i : nat) (addr : string) : Peer :=
  mkPeer (λ _, if (i =? 1)%nat && String.eqb addr "9.9.9.9:853" then Some ex_certs else None)
    (λ _ _ _, true) (λ call _ _, mkStream true true (frame (reply call))) (λ _, true) (λ _ _, None).
Definition ex_ca (host : string) (certs : list Cert) : bool := match certs with [] => false | leaf :: _ => c_names leaf host end.

Section Example.
Context (dl : DnsLib) (reply : nat → string) (env : StartEnv) (d : Daemon) (query : Msg).

Definition ex_booted : Shared := boot ex_sum ex_ca (ex_internet reply) env d (λ _ _ _, 0).
Definition ex_task : task := TcpQuery (default (NewServer None true true ex_range) (d_server d)) ex_clock true query.

(** The query is asked once and, when its goroutine has ended, again. *)
Definition ex_ask (sh : Shared) : option (Msg * Msg) * Shared := run (body (cl := toyCrypto) (λ _, "error") ex_task) sh.
Definition ex_once : Shared := snd (ex_ask ex_booted).
Definition ex_twice : Shared := snd (ex_ask ex_once).
Definition ex_threads : list (thread Shared task (option (Msg * Msg))) :=
  [mkThread ex_task ex_booted (Ret (fst (ex_ask ex_booted))); mkThread ex_task ex_once (Ret (fst (ex_ask ex_once)))].

Lemma ex_reached : d_server d ≠ None → reached (cl := toyCrypto) (λ _, "error") ex_sum ex_ca (ex_internet reply) env d ex_threads ex_twice.
Proof.
  intros Hs. assert (Hm : may d ex_task) by (cbn; by destruct (d_server d)). exists (λ _ _ _, 0).
  etrans; [by apply (pool_serve _ _ _ [] ex_booted ex_task)|].
  by apply (pool_serve _ _ _ [mkThread ex_task ex_booted (Ret (fst (ex_ask ex_booted)))] ex_once ex_task).
Qed.

Lemma ex_answered m : snd <$> fst (ex_ask ex_once) = Some m → answered ex_threads ex_once query m.
Proof.
  intros H. exists ex_task. unfold ex_threads. destruct (fst (ex_ask ex_once)) as [[query' m']|] eqn:E; [|done].
  injection H as ->. assert (query' = query) as <-; [|set_solver].
  revert E. unfold ex_ask, body, ex_task. rewrite run_bind. destruct (run _ ex_once) as [[[[m0 b] rep]|] s]; cbn; [|done]. by intros [= <- _].
Qed.

End Example.

Definition ex_answer : RR := mkRR (mkHeader "www.example.com." TypeA ClassINET 300) (D_Other "192.0.2.1").
Definition ex_reply (allow : bool) : Msg :=
  default testMsg (snd <$> fst (ex_ask ex_twire (ex_daemon true allow) ex_squery (ex_once ex_twire (λ _, "r") ex_start_env (ex_daemon true allow) ex_squery))).

(** The chain fails over from DoQ to DoT; the second query is answered from the cache. *)
Example ex_daemon_answers :
  let sh := ex_once ex_twire (λ _, "r") ex_start_env (ex_daemon true false) ex_squery in
  let sh' := ex_twice ex_twire (λ _, "r") ex_start_env (ex_daemon true false) ex_squery in
  (uState <$> upstreams (wi_chain (w_up (sh_world sh))), mAnswer (ex_reply false), cnt (w_stats (sh_world sh')) CacheHits, cnt (w_stats (sh_world sh')) DoTQueries)
  = ([StateDOWN; StateUP; StateUP], [ex_answer], 1, 1).
Proof. vm_compute. done. Qed.

(** The allowlist is emptied while the query is under way: its question was let through,
    the record of the answer is not. *)
Example ex_reload_midway :
  let p := body (dl := ex_twire) (cl := toyCrypto) (λ _, "error") (ex_task (ex_daemon true true) ex_squery) in
  let '(p, sh) := run_for 12 p (ex_booted (λ _, "r") ex_start_env (ex_daemon true true)) in
  let '(r, sh) := run p (install_allow Allowlist.New sh) in
  (List.length (w_fwd (sh_world sh)), option_map (λ x : Msg * Msg, (mRcode (snd x), mAnswer (snd x))) r) = (1%nat, Some (RcodeRefused, [])).
Proof. vm_compute. done. Qed.

Lemma ex_asked allow : snd <$> fst (ex_ask ex_twire (ex_daemon true allow) ex_squery (ex_once ex_twire (λ _, "r") ex_start_env (ex_daemon true allow) ex_squery)) = Some (ex_reply allow).
Proof. destruct allow; vm_compute; reflexivity. Qed.

Lemma answers_come_from_upstreams_witness :
  ∃ up certs buf, up ∈ cfg_Upstreams (normalize (ex_start_cfg true false 0)) ∧ identified ex_sum ex_ca up certs ∧
    heard (ex_internet (λ _, "r") 1 (dial_addr (endpoint_of true up))) certs buf ∧ Unpack (DnsLib := ex_twire) buf = Some ex_up_answer.
Proof.
  destruct (answers_come_from_upstreams (dl := ex_twire) (cl := toyCrypto) (laws := wireLaws _ _) (tr := wire_truncate _ _)
    (λ _, "error") ex_sum ex_ca (ex_internet (λ _, "r")) (λ _, Some "https") (λ _, true) ex_types ex_os true (ex_start_cfg true false 0)
    (normalize (ex_start_cfg true false 0)) ex_start_env (ex_daemon true false) (ex_threads ex_twire (λ _, "r") ex_start_env (ex_daemon true false) ex_squery)
    (ex_twice ex_twire (λ _, "r") ex_start_env (ex_daemon true false) ex_squery) (ex_once ex_twire (λ _, "r") ex_start_env (ex_daemon true false) ex_squery)
    ex_squery (ex_reply false) ex_answer (ex_valid true false) (ex_started true false))
    as [(get & l & z & _ & Hz & _)|(r & (query0 & q0 & qs0 & q & qs & up & i & certs & buf & _ & _ & _ & _ & _ & Hup & Hid & Hh & Hu) & _ & Hr)].
  - apply ex_reached. vm_compute. discriminate.
  - apply ex_answered, ex_asked.
  - assert (E : mAnswer (ex_reply false) = [ex_answer]) by (vm_compute; reflexivity). rewrite E. by left.
  - vm_compute in Hz. discriminate Hz.
  - assert (Hi : i = 1%nat ∧ r = ex_up_answer).
    { split.
      - destruct (decide (i = 1%nat)) as [|Hi]; [done|]. exfalso.
        assert (Hn : ∀ a c, p_cert (ex_internet (λ _, "r") i a) c = None) by (clear -Hi; intros a k; cbn; by destruct (Nat.eqb_spec i 1)).
        destruct Hh as [k j k' Hc _|k' l Hc _|k body resp Hc _]; [by rewrite Hn in Hc|by rewrite Hn in Hc|discriminate Hc].
      - revert Hu. cbn. destruct (String.eqb buf "r"); [by intros [= <-]|]. destruct (String.eqb buf "s"); [|done].
        intros [= <-]. clear -Hr. by apply elem_of_nil in Hr. }
    destruct Hi as [-> ->]. exists up, certs, buf. split_and!; done.
Defined.

(** The lists are emptied after both queries were answered. *)
Lemma lists_in_force_witness :
  let d := ex_daemon true true in
  let sh := install_allow Allowlist.New (ex_twice ex_twire (λ _, "r") ex_start_env d ex_squery) in
  Allowed (sh_allow sh) "www.example.com." = false ∧ List.length (w_fwd (sh_world sh)) = 1%nat ∧
  allowed_since (ex_once ex_twire (λ _, "r") ex_start_env d ex_squery) sh "www.example.com.".
Proof.
  cbv zeta. split; [vm_compute; reflexivity|]. split; [vm_compute; reflexivity|].
  destruct (lists_in_force (dl := ex_twire) (cl := toyCrypto) (laws := wireLaws _ _) (tr := wire_truncate _ _)
    (λ _, "error") ex_sum ex_ca (ex_internet (λ _, "r")) (λ _, Some "https") (λ _, true) ex_types ex_start_env (normalize (ex_start_cfg true true 0))
    (ex_daemon true true) (ex_threads ex_twire (λ _, "r") ex_start_env (ex_daemon true true) ex_squery)
    (install_allow Allowlist.New (ex_twice ex_twire (λ _, "r") ex_start_env (ex_daemon true true) ex_squery)) (ex_started true true)) as [_ H].
  - destruct (ex_reached ex_twire (λ _, "r") ex_start_env (ex_daemon true true) ex_squery) as [clk Hr]; [vm_compute; discriminate|].
    exists clk. eapply rtc_r; [exact Hr|]. apply pool_env, reload_allow.
  - destruct (H _ ex_squery (ex_reply true) (ex_answered _ _ _ _ _ _ (ex_asked true))) as [(get & l & _ & _ & z & Hz & _)|((q & [= <-] & Ha & _) & _)].
    + vm_compute. discriminate.
    + vm_compute in Hz. discriminate Hz.
    + apply Ha. vm_compute. discriminate.
Defined.

(** The same daemon with a root anchor, on a network whose Quad9 answers with a record
    the zone "test." signed, and then to the three queries of the validator. *)
Definition ex_signed_env : StartEnv :=
  mkStartEnv 500 (λ _, true) Allowlist.ex_open toyCrypto (λ _, Some 0) (λ _, Some [mkKeyDigest "2017" "" 4 13 2 "726F6F74"])
    (se_zone ex_start_env) "" (λ _, None) (λ _, 0) (λ _ _, None) (se_bind ex_start_env) Service.ex_env ex_range.
Definition ex_signed_daemon : Daemon :=
  match startup ex_sum (λ _, Some "https") (λ _, true) ex_types ex_signed_env (normalize (ex_start_cfg true false 0)) with
  | Ok d => d
  | Err _ => ex_daemon true false
  end.
Definition ex_signed_query : Msg := Policy.ex_query "www.test." TypeA.
Definition ex_signed_call (call : nat) : string := nth call ["r"; "1"; "2"; "3"] "".
Definition ex_signed_wire : DnsLib := wireLib (λ _, Some "q") (λ s,
  let key name t := ex_fetch 0 (mkMsg (replyHdr 0 0) [mkQuestion name t ClassINET] [] [] []) in
  if String.eqb s "r" then Some ex_signed else if String.eqb s "1" then key "test." TypeDNSKEY
  else if String.eqb s "2" then key "test." TypeDS else if String.eqb s "3" then key "." TypeDNSKEY else None).
Abbreviation ex_signed_once := (ex_once ex_signed_wire ex_signed_call ex_signed_env ex_signed_daemon ex_signed_query).
Abbreviation ex_signed_twice := (ex_twice ex_signed_wire ex_signed_call ex_signed_env ex_signed_daemon ex_signed_query).
Definition ex_signed_reply : Msg := default testMsg (snd <$> fst (ex_ask ex_signed_wire ex_signed_daemon ex_signed_query ex_signed_once)).

(** The first query is validated, the second answered from the cache; both have AD. *)
Example ex_signed_run :
  (mAuthenticatedData ex_signed_reply, mAnswer ex_signed_reply, cnt (w_stats (sh_world ex_signed_twice)) CacheHits,
   cnt (w_stats (sh_world ex_signed_twice)) DnssecValidated, cnt (w_stats (sh_world ex_signed_twice)) DoTQueries)
  = (true, mAnswer ex_signed, 1, 1, 4).
Proof. vm_compute. done. Qed.

Lemma ex_signed_started :
  startup ex_sum (λ _, Some "https") (λ _, true) ex_types ex_signed_env (normalize (ex_start_cfg true false 0)) = Ok ex_signed_daemon.
Proof. vm_compute. reflexivity. Qed.

Lemma ex_signed_decoded buf r : Unpack (DnsLib := ex_signed_wire) buf = Some r → ex_a "www.test." ∈ mAnswer r → r = ex_signed.
Proof.
  cbn. destruct (String.eqb buf "r"); [by intros [= <-]|].
  destruct (String.eqb buf "1"); [|destruct (String.eqb buf "2"); [|destruct (String.eqb buf "3"); [|done]]];
    intros [= <-]; cbn; rewrite !elem_of_cons, elem_of_nil; intros [E|[E|[]]]; discriminate E.
Qed.

Lemma ad_means_chain_of_trust_everywhere_witness :
  ∃ vc, v_anchors vc = ex_anchors ∧ returns (ValidateResponse (dl := ex_signed_wire) (cl := toyCrypto) vc ex_signed) () ∧
    anchored (dl := ex_signed_wire) (cl := toyCrypto) vc (mAnswer ex_signed) (ex_a "www.test.").
Proof.
  destruct (ad_means_chain_of_trust_everywhere (dl := ex_signed_wire) (cl := toyCrypto) (laws := wireLaws _ _) (tr := wire_truncate _ _)
    (λ _, "error") ex_sum ex_ca (ex_internet ex_signed_call) (λ _, Some "https") (λ _, true) ex_types ex_os
    true (ex_start_cfg true false 0) (normalize (ex_start_cfg true false 0)) ex_signed_env ex_signed_daemon
    (ex_threads ex_signed_wire ex_signed_call ex_signed_env ex_signed_daemon ex_signed_query) ex_signed_twice ex_signed_once
    ex_signed_query ex_signed_reply (ex_a "www.test.") (ex_valid true false) ex_signed_started)
    as (r & vc & (query0 & q0 & qs0 & q & qs & up & i & certs & buf & _ & _ & _ & _ & _ & _ & _ & _ & Hu) & Hr & Hset & Hret & Hanch).
  - reflexivity.
  - apply ex_reached. vm_compute. discriminate.
  - apply ex_answered. vm_compute. reflexivity.
  - vm_compute. reflexivity.
  - assert (E : mAnswer ex_signed_reply = mAnswer ex_signed) by (vm_compute; reflexivity). rewrite E. left.
  - split_and!; discriminate.
  - apply ex_signed_decoded in Hu as ->; [|done].
    exists vc. split; [destruct Hset as (_ & _ & ->); vm_compute; reflexivity|]. split; [exact Hret|]. apply Hanch; [exact ex_signed_wf|reflexivity].
Defined.
