(* ===== verification/Steady.v ===== *)
(** * What no interleaving changes

    Invariants of the shared state of the daemon that need nothing about the messages:
    the size of the cache and the shape of the chain.  Each section of each goroutine
    keeps them, so that they hold in every state a run reaches. *)

From S2P Require Import Prelude GoStrings GoNet Config DnsMsg Cache Blocklist Allowlist Statistics Policy Fallback Interfaces Edns Server.
From S2P Require Import Dnssec DnssecChain UpstreamEdns Ddr Mode2 Service Transports Wiring Peers Threads Goroutines Network Provenance Daemon.
From Stdlib Require Import Ascii String.
Open Scope string_scope.
Open Scope list_scope.
Open Scope Z_scope.

(** ** Programs that keep an invariant *)

Section Steady.
Context {S : Type} (I : S → Prop).

Definition steady {A} (p : prog S A) : Prop := ∀ s, wp I anything p (λ _ _, True) s.

Lemma steady_ret {A} (a : A) : steady (Ret a).
Proof. intros s. by apply wp_ret. Qed.

Lemma steady_bind {A B} (p : prog S A) (q : A → prog S B) : steady p → (∀ a, steady (q a)) → steady (bindP p q).
Proof. intros Hp Hq s. apply wp_bind; [apply _|]. eapply wp_mono; [apply _|apply Hp|]. intros a s' _ _ _. apply Hq. Qed.

Lemma steady_act {A X} (f : S → X * S) (k : X → prog S A) : (∀ s, I s → I (snd (f s))) → (∀ x, steady (k x)) → steady (Act f k).
Proof. intros Hf Hk s s' _ Hs. split_and!; [by apply Hf|done|apply Hk]. Qed.

Lemma steady_atomic {A} (f : S → A * S) : (∀ s, I s → I (snd (f s))) → steady (atomic f).
Proof. intros Hf. apply steady_act; [done|]. intros x. apply steady_ret. Qed.

Lemma steady_read {A} (f : S → A) : steady (readP f).
Proof. by apply steady_atomic. Qed.

Lemma steady_write (f : S → S) : (∀ s, I s → I (f s)) → steady (writeP f).
Proof. intros Hf. by apply steady_atomic. Qed.

End Steady.

Create HintDb steady discriminated.
#[export] Hint Resolve steady_ret steady_read : steady.

(** Go through the sections of a program. *)
Ltac steady := repeat first [progress auto with steady nocore | apply steady_bind; [|intros ?] | case_match].

(** ** The chain *)

Section Invariants.
Context {dl : DnsLib} {cl : DnssecLib} (error_text : xerr → string).
Context (opts : Options) (threshold : Z) (names : list string).

(** UP means no error, SLOW fewer than the threshold. *)
Definition upstream_steady (u : UpstreamState) : Prop :=
  (uState u = StateUP → ConsecutiveErrors u = 0) ∧ (uState u = StateSLOW → ConsecutiveErrors u < threshold).

Definition chain_steady (f : FallbackResolver) : Prop :=
  phase2FailureThreshold f = threshold ∧ UpstreamNames f = names ∧ Forall upstream_steady (upstreams f).

Local Abbreviation chain_ok := (λ c : Chain, chain_steady (wi_chain (fst c))).

Lemma success_steady u : upstream_steady (recordSuccess u) ∧ uName (recordSuccess u) = uName u.
Proof. by split. Qed.

Lemma error_steady err phase u : upstream_steady (recordError threshold err phase u) ∧ uName (recordError threshold err phase u) = uName u.
Proof.
  split; [|done]. unfold upstream_steady, recordError. cbn. destruct (phase =? 1); [done|]. destruct (threshold <=? _) eqn:E; [done|].
  split; [done|]. intros _. lia.
Qed.

Lemma alter_steady g i f : (∀ u, upstream_steady (g u) ∧ uName (g u) = uName u) → chain_steady f →
  chain_steady (set_upstreams (alter g i (upstreams f)) f).
Proof.
  intros Hg (Ht & Hn & Hf). split; [done|]. unfold UpstreamNames in *. cbn. split.
  - rewrite <-Hn. apply list_eq. intros j. rewrite !list_lookup_fmap. destruct (decide (i = j)) as [<-|Hne].
    + rewrite list_lookup_alter_eq. destruct (upstreams f !! i) as [u|]; [|done]. cbn. by rewrite (proj2 (Hg u)).
    + by rewrite list_lookup_alter_ne.
  - apply Forall_lookup. intros j u. rewrite Forall_lookup in Hf. destruct (decide (i = j)) as [<-|Hne].
    + rewrite list_lookup_alter_eq. intros (u0 & _ & ->)%fmap_Some. apply Hg.
    + rewrite list_lookup_alter_ne by done. apply Hf.
Qed.

(** A section that leaves the states of the upstreams alone. *)
Lemma chain_untouched {A} (f : Chain → A * Chain) : (∀ c, wi_chain (fst (snd (f c))) = wi_chain (fst c)) → steady chain_ok (atomic f).
Proof. intros H. apply steady_atomic. intros c. cbn. by rewrite H. Qed.

Lemma steady_count hs c : steady chain_ok (countP hs c).
Proof. apply chain_untouched. by intros [u st]. Qed.
Lemma steady_doq {X} i (d : X) f : steady chain_ok (on_doq i d f).
Proof. apply chain_untouched. intros [u st]. cbn. destruct (wi_clients u !! i) as [c|]; [|done]. destruct (wc_transport c); try done. by destruct (f q). Qed.
Lemma steady_dot {X} i (d : X) f : steady chain_ok (on_dot i d f).
Proof. apply chain_untouched. intros [u st]. cbn. destruct (wi_clients u !! i) as [c|]; [|done]. destruct (wc_transport c); try done. by destruct (f t). Qed.
Lemma steady_begin i : steady chain_ok (begin_call i).
Proof. apply chain_untouched. intros [u st]. cbn. by destruct (wi_clients u !! i). Qed.
Lemma steady_doh request http hs msg : steady chain_ok (dohP request http hs msg).
Proof. apply chain_untouched. intros [u st]. cbn. by destruct (DohClient.Resolve _ _ _ _ _). Qed.
Lemma steady_success i : steady chain_ok (on_upstream i (λ _, recordSuccess)).
Proof. apply steady_write. intros [u st] H. apply alter_steady; [apply success_steady|done]. Qed.
Lemma steady_error i err (phase : FallbackResolver → Z) :
  steady chain_ok (on_upstream i (λ f, recordError (phase2FailureThreshold f) err (phase f))).
Proof. apply steady_write. intros [u st] H. pose proof (proj1 H) as Ht. apply alter_steady; [|done]. cbn in Ht |- *. rewrite Ht. intros v. apply error_steady. Qed.

Hint Resolve steady_count steady_doq steady_dot steady_begin steady_doh steady_success steady_error : steady.

Lemma steady_exchange i net clk k msg : steady chain_ok (exchangeOnceP i net clk k msg).
Proof. unfold exchangeOnceP, open_exchangeP, getConnectionP, recycleConnP. steady. Qed.
Hint Resolve steady_exchange : steady.

Lemma steady_client i msg : steady chain_ok (clientP error_text i msg).
Proof. unfold clientP, doqP, dotP. steady. Qed.
Hint Resolve steady_client : steady.

Lemma steady_loop msg phase n todo i tried : steady chain_ok (resolve_loopP error_text msg phase n todo i tried).
Proof.
  revert i tried. induction todo as [|todo IH]; intros i tried; cbn [resolve_loopP]; [steady|].
  pose proof (λ err, steady_error i err (λ _, phase)) as He. cbv zeta. steady.
Qed.
Hint Resolve steady_loop : steady.

Lemma steady_resolve msg : steady chain_ok (resolveP error_text msg).
Proof. unfold resolveP. steady. Qed.

Lemma steady_probes now down : steady chain_ok (probe_allP error_text now down).
Proof.
  induction down as [|i down IH]; cbn [probe_allP]; [steady|].
  pose proof (λ err, steady_error i err (λ f, getCurrentPhase (now i) f)) as He. steady.
Qed.
Hint Resolve steady_probes : steady.

Lemma steady_checks now : steady chain_ok (performHealthChecksP error_text now).
Proof. unfold performHealthChecksP. steady. Qed.

(** ** The shared state *)

Definition cache_steady (oc : option Cache) : Prop := ∃ c, oc = Some c ∧ cache_wf c ∧ same_config opts c.

Definition shared_steady (sh : Shared) : Prop :=
  cache_steady (w_cache (sh_world sh)) ∧ chain_steady (wi_chain (w_up (sh_world sh))).

Lemma steady_frame f : frames f → steady shared_steady (writeP (on_world f)).
Proof. intros Hf. apply steady_write. intros sh [Hc Hu]. destruct (Hf (sh_world sh)) as (E1 & _ & E3 & _). split; cbn; by rewrite ?E1, ?E3. Qed.

Lemma steady_bump s c : steady shared_steady (bumpP s c).
Proof. apply steady_frame, frames_bump. Qed.
Lemma steady_response s rc : steady shared_steady (writeP (on_world (record_response s rc))).
Proof. apply steady_frame, frames_response. Qed.
Lemma steady_latency s us : steady shared_steady (writeP (on_world (record_latency s us))).
Proof. apply steady_frame, frames_latency. Qed.
Lemma steady_mode2 (l : Listener) us : steady shared_steady (writeP (on_world (λ w, if l_stats l then set_stats (RecordMode2Latency us (w_stats w)) w else w))).
Proof. apply steady_frame, frames_mode2. Qed.
Lemma steady_blocked p : steady shared_steady (writeP (on_world (λ w, set_stats (count BlockedQueries p (w_stats w)) w))).
Proof. by apply steady_frame. Qed.
Lemma steady_deny p query reason : steady shared_steady (denyP p query reason).
Proof. apply steady_atomic. intros sh H. cbn. destruct (deny p query reason _). exact H. Qed.
Hint Resolve steady_bump steady_response steady_latency steady_mode2 steady_blocked steady_deny : steady.

(** *** The cache *)

Lemma steady_get now query : steady shared_steady (getP now query).
Proof.
  unfold getP. apply steady_bind; [apply steady_read|]. intros [|key|m]; [apply steady_ret| |apply steady_ret].
  apply steady_bind; [|intros _; apply steady_ret]. apply steady_write. intros sh [(c & Ec & Hwf & m & Hm) Hu]. split; [|done]. cbn. rewrite Ec.
  exists (Get_delete c key). split_and!; [done|by apply Get_delete_wf|]. subst c. by eexists.
Qed.

Lemma steady_put order now query resp ok : range_order order → steady shared_steady (putP order now query resp ok).
Proof.
  intros Ho. apply steady_write. intros sh [(c & Ec & Hwf & Hcfg) Hu]. split; [|]; cbn; rewrite Ec; destruct (ok c); cbn; try done; [|by exists c].
  eexists. split_and!; [done|by apply Put_wf|by apply Put_config].
Qed.
Hint Resolve steady_get : steady.

(** *** The policy *)

Lemma steady_Response s query : steady shared_steady (policyResponseP s query).
Proof. unfold policyResponseP, ResponseP, block_checkP, allowedP, isBlockedP. steady. Qed.

Lemma steady_Answer s query resp : steady shared_steady (policyAnswerP s query resp).
Proof.
  assert (H : ∀ p l, steady shared_steady (first_refusedP p l)).
  { intros p l. induction l as [|rr l IH]; cbn [first_refusedP]; [steady|]. unfold answer_refusedP, allowedP. steady. }
  unfold policyAnswerP, AnswerP. steady.
Qed.
Hint Resolve steady_Response steady_Answer : steady.

(** *** The chain and the validator *)

Lemma steady_zoom {A} (p : prog Chain A) : steady (λ c : Chain, chain_steady (wi_chain (fst c))) p → steady shared_steady (on_chain p).
Proof.
  intros Hp s. apply (wp_zoom get_chain put_chain shared_steady anything (λ c, chain_steady (wi_chain (fst c))) ltac:(by intros sh [_ H])
    ltac:(intros sh c [H _] Hc; split; [by split|done]) p (λ _, True) Hp).
Qed.

Lemma steady_chainP msg : steady shared_steady (chainP error_text msg).
Proof. apply steady_zoom, steady_resolve. Qed.
Lemma steady_healthP now : steady shared_steady (healthP error_text now).
Proof. apply steady_zoom, steady_checks. Qed.

Lemma steady_walk {A} (c : M A) : steady shared_steady (walkP (chainP error_text) c).
Proof.
  induction c as [r|X f k IH|cfg zone t k IH]; cbn [walkP]; [apply steady_ret|..].
  - apply steady_act; [|done]. intros sh H. by destruct (f (keyCache _)).
  - apply steady_act; [by intros sh H|]. intros q. apply steady_bind; [apply steady_chainP|]. done.
Qed.

Lemma steady_validate msg : steady shared_steady (validateResponseP (chainP error_text) msg).
Proof. unfold validateResponseP. pose proof (@steady_walk). steady. Qed.
Hint Resolve steady_chainP steady_healthP steady_validate : steady.

(** *** The handlers *)

Lemma steady_call up : steady shared_steady (callP (chainP error_text) up).
Proof. unfold callP. apply steady_bind; [|steady]. by apply steady_write. Qed.
Hint Resolve steady_call : steady.

Lemma steady_mode1 s clk query : range_order (s_order s) → steady shared_steady (mode1P (chainP error_text) (validateResponseP (chainP error_text)) s clk query).
Proof. intros Ho. pose proof (λ now q r ok, steady_put (s_order s) now q r ok Ho) as Hp. unfold mode1P, forwardP, applyDNSSECP, upstreamFailureResponseP, getStaleP. steady. Qed.

Lemma steady_reply2 hf l clk query : range_order (l_order l) → steady shared_steady (reply2P (chainP error_text) (validateResponseP (chainP error_text)) hf l clk query).
Proof. intros Ho. pose proof (λ now q r ok, steady_put (l_order l) now q r ok Ho) as Hp. unfold reply2P, local2P, upstream2P, validateFuncP, has_cacheP. steady. Qed.

End Invariants.

(** ** The daemon *)

Section Daemon.
Context {dl : DnsLib} {cl : DnssecLib} (error_text : xerr → string).
Context (sum256 : string → string) (ca_ok : string → list Cert → bool) (net : nat → string → Peer).
Context (url_parse : string → option string) (h2_ok : string → bool) (StringToType : string → option Z).
Local Abbreviation startup := (startup sum256 url_parse h2_ok StringToType).

Section Body.
Context (opts : Options) (threshold : Z) (names : list string) (d : Daemon).
Context (Hserver : ∀ s, d_server d = Some s → range_order (s_order s)).
Context (Hservice : ∀ svc l, d_service d = Some svc → running svc l → range_order (l_order l)).
Local Abbreviation ok := (shared_steady opts threshold names).
#[local] Hint Resolve steady_mode1 steady_reply2 steady_bump steady_response steady_mode2 steady_healthP : steady.

Lemma steady_stream2 served l clk wr query : range_order (l_order l) →
  steady ok (stream2P (chainP error_text) (validateResponseP (chainP error_text)) served l clk wr query).
Proof. intros Ho. unfold stream2P, servedP. steady. Qed.

Lemma steady_body t : may d t → steady ok (body error_text t).
Proof.
  assert (Hl : ∀ get l, listens d get l → get = sv_doh ∨ get = sv_dot ∨ get = sv_doq → range_order (l_order l)).
  { intros get l (svc & Hs & Hg) Hget. apply (Hservice svc l Hs). unfold running. destruct Hget as [->|[->| ->]]; auto. }
  intros Ht. destruct t as [s c buf|s c wr query|l c wr query|l c wr input|l c req|now]; cbn [body may] in *; apply steady_bind; try (intros; apply steady_ret).
  - apply Hserver in Ht. unfold udpP. steady.
  - apply Hserver in Ht. unfold tcpP. steady.
  - apply steady_stream2. by eapply Hl; eauto.
  - assert (Ho : range_order (l_order l)) by (by eapply Hl; eauto). unfold doqStreamP. pose proof (steady_stream2 DoQServed l c wr) as H. steady.
  - assert (Ho : range_order (l_order l)) by (by eapply Hl; eauto). unfold dohQueryP, respondP, servedP. steady.
  - steady.
Qed.

Lemma steady_outside s s' : outside s s' → ok s → ok s'.
Proof. by intros [a sh|b sh|now vc sh _]. Qed.

End Body.

(** C4: What no interleaving of the goroutines changes.  In every state a started daemon
    reaches, with reloads at any moment: the cache has the configured settings and holds
    no more entries than they allow, whatever the order in which Go iterates over the
    map; the chain has the upstreams it was built with, in their order; and each of
    them that counts as UP has no error since its last answer, each that counts as SLOW
    fewer than the configured threshold. *)
Theorem daemon_steady env cfg d ths sh :
  startup env cfg = Ok d → range_order (se_order env) → reached error_text sum256 ca_ok net env d ths sh →
  (∃ c, w_cache (sh_world sh) = Some c ∧ same_config (cache_options (cfg_Cache cfg)) c ∧ Cache.Size c ≤ maxSize c) ∧
  UpstreamNames (wi_chain (w_up (sh_world sh))) = UpstreamNames (d_resolver d) ∧
  ∀ u, u ∈ upstreams (wi_chain (w_up (sh_world sh))) →
    (uState u = StateUP → ConsecutiveErrors u = 0) ∧
    (uState u = StateSLOW → ConsecutiveErrors u < fb_Phase2FailureThreshold (cfg_Fallback cfg)).
Proof.
  intros Hst Ho [clk Hr]. destruct (listeners_wired _ _ _ _ _ _ _ Hst) as [Hs1 Hs2]. apply startup_inv in Hst as (_ & Hch & Hf & Hc & _).
  set (ok := shared_steady (cache_options (cfg_Cache cfg)) (fb_Phase2FailureThreshold (cfg_Fallback cfg)) (UpstreamNames (d_resolver d))).
  assert (H0 : ok (boot sum256 ca_ok net env d clk)).
  { split.
    - exists (d_cache d). split; [done|]. rewrite Hc. split; [apply New_wf|]. by exists ∅.
    - unfold Fallback.Start in Hf. destruct (_ <=? _); [done|]. injection Hf as Hf. unfold chain_steady. cbn. rewrite <-Hf. split_and!; [done|done|]. cbn.
      apply Forall_fmap, Forall_forall. intros e He. apply buildUpstreamChain_loop in Hch as [Hch _].
      destruct (chain_loop_ok _ _ _ _ _ _ _ Hch He) as (up & _ & _ & E1 & E2 & _). cbn. split; intros H; congruence. }
  assert (Hb : ∀ t s, may d t → ok s → wp ok anything (body error_text t) (λ _ _, True) s).
  { intros t s Hm _. apply (steady_body _ _ _ d); [| |done].
    - intros srv Hs. destruct (Hs1 srv Hs) as (_ & _ & ->). done.
    - intros svc l Hs Hl. destruct (Hs2 svc l Hs Hl) as (_ & _ & ->). done. }
  destruct (pool_sound ok anything (body error_text) (may d) outside (λ _ _ _ _, True) Hb
    (λ s s' He Hi, conj (steady_outside _ _ _ s s' He Hi) Logic.I) _ _ _ H0 Hr) as [[(c & E1 & (_ & H1 & _) & H2) (_ & H3 & H4)] _].
  split_and!; [by exists c|done|]. intros u Hu. rewrite Forall_forall in H4. by apply H4.
Qed.

End Daemon.

(** ** The run of the example of [Daemon] *)
Lemma daemon_steady_witness :
  let sh := ex_twice ex_twire (λ _, "r") ex_start_env (ex_daemon true true) ex_squery in
  (∃ c, w_cache (sh_world sh) = Some c ∧ Cache.Size c = 1 ∧ Cache.Size c ≤ maxSize c) ∧
  UpstreamNames (wi_chain (w_up (sh_world sh))) = ["Quad9 (DoQ)"; "Quad9 (DoT)"; "router (DoH3)"].
Proof.
  cbv zeta. destruct (daemon_steady (dl := ex_twire) (cl := toyCrypto) (λ _, "error") ex_sum ex_ca (ex_internet (λ _, "r")) (λ _, Some "https") (λ _, true)
    ex_types ex_start_env (normalize (ex_start_cfg true true 0)) (ex_daemon true true) (ex_threads ex_twire (λ _, "r") ex_start_env (ex_daemon true true) ex_squery)
    (ex_twice ex_twire (λ _, "r") ex_start_env (ex_daemon true true) ex_squery) (ex_started true true)) as ((c & Hc & _ & Hs) & Hn & _).
  - exact Cache.ex_range_ok.
  - apply ex_reached. vm_compute. discriminate.
  - split; [|rewrite Hn; vm_compute; reflexivity]. exists c. split; [exact Hc|]. split; [|exact Hs].
    assert (E : Cache.Size <$> w_cache (sh_world (ex_twice ex_twire (λ _, "r") ex_start_env (ex_daemon true true) ex_squery)) = Some 1) by (vm_compute; reflexivity).
    rewrite Hc in E. by injection E.
Defined.
