(* ===== verification/Recovery.v ===== *)
(** * Recovery from an outage

    The loop of the health checks over the clients of the chain, and the way out of
    the state in which every upstream is DOWN. *)

From S2P Require Import Prelude GoStrings Config DnsMsg Statistics Fallback Interfaces Server Transports Wiring Threads Goroutines Sequential.
From Stdlib Require Import Ascii String.
Open Scope string_scope.
Open Scope list_scope.
Open Scope Z_scope.

(** What the loop waits for: a tick, with the clock readings of the checks it starts,
    or the end of the chain. *)
Inductive health_event := Tick (now : nat → Z) | StopChan.

Section Recovery.
Context {dl : DnsLib} (error_text : xerr → string).
Local Abbreviation wired_resolve := (wired_resolve error_text).

(** A round of the health checks: the clients of the upstreams that are DOWN are
    called with the probe, and the states follow their outcomes. *)
Definition health_round (now : nat → Z) (u : Wired) (st : Stats) : Wired * Stats :=
  let f := performHealthChecks now (client_out error_text testMsg st (wi_clients u)) (wi_chain u) in
  let '(cs, st') := fold_left (call_client testMsg) (downUpstreams (upstreams (wi_chain u))) (wi_clients u, st) in
  (mkWired f cs (wi_now u) (wi_env u), st').

(** The chain, the counters, and whether the loop has ended. *)
Fixpoint runHealthChecks (events : list health_event) (u : Wired) (st : Stats) : Wired * Stats * bool :=
  match events with
  | [] => (u, st, false)
  | StopChan :: _ => (u, st, true)
  | Tick now :: events => let '(u, st) := health_round now u st in runHealthChecks events u st
  end.

(** A client that answers the probe and then the query. *)
Definition healthy (msg : Msg) (c : WClient) : Prop :=
  ∀ st, ∃ r0 c' st', client_resolve testMsg c st = (Ok r0, c', st') ∧
    ∀ st2, ∃ r, fst (fst (client_resolve msg c' st2)) = Ok r ∧ responseMatchesQuery msg r = true.

(** *** The clients a round calls *)

Lemma call_client_ne msg cs st i j : i ≠ j → fst (call_client msg (cs, st) j) !! i = cs !! i.
Proof.
  intros Hne. unfold call_client. destruct (cs !! j) as [c|]; [|done].
  destruct (client_resolve msg c st) as [[r c'] st']. by apply list_lookup_insert_ne.
Qed.

Lemma call_clients_ne msg l cs st i : i ∉ l → fst (fold_left (call_client msg) l (cs, st)) !! i = cs !! i.
Proof.
  revert cs st. induction l as [|j l IH]; intros cs st Hi; [done|]. rewrite elem_of_cons in Hi. cbn [fold_left].
  pose proof (call_client_ne msg cs st i j ltac:(naive_solver)) as H.
  destruct (call_client msg (cs, st) j) as [cs1 st1]. rewrite IH by naive_solver. exact H.
Qed.

(** A client on the list is called once, with the counters of that moment. *)
Lemma call_clients_once msg l cs st i c : NoDup l → i ∈ l → cs !! i = Some c →
  ∃ st1, fst (fold_left (call_client msg) l (cs, st)) !! i = Some (snd (fst (client_resolve msg c st1))).
Proof.
  intros Hnd. revert cs st. induction Hnd as [|j l Hj Hnd IH]; intros cs st Hi Hc; [by apply elem_of_nil in Hi|].
  cbn [fold_left]. destruct (decide (i = j)) as [->|Hne].
  - exists st. unfold call_client at 2. rewrite Hc. destruct (client_resolve msg c st) as [[r c'] st'].
    rewrite call_clients_ne by done. cbn. apply list_lookup_insert_eq. by eapply lookup_lt_Some.
  - pose proof (call_client_ne msg cs st i j Hne) as H. destruct (call_client msg (cs, st) j) as [cs1 st1]. cbn in H.
    apply IH; [|congruence]. apply elem_of_cons in Hi as [?|?]; [done|done].
Qed.

Lemma downUpstreams_NoDup ups : NoDup (downUpstreams ups).
Proof. apply NoDup_ListNoDup, List.NoDup_filter, NoDup_ListNoDup, NoDup_seq. Qed.

(** The goroutine of the health checks that nobody disturbs does such a round. *)
Lemma probe_all_alone now f nw env cs0 st0 down ups cs st :
  (∀ i c, cs0 !! i = Some c → alone c) → NoDup down → (∀ i, i ∈ down → cs !! i = cs0 !! i) →
  run (probe_allP error_text now down) (mkWired (set_upstreams ups f) cs nw env, st) =
  ((), let '(cs', st') := fold_left (call_client testMsg) down (cs, st) in
       (mkWired (set_upstreams (fold_left (probe_upstream f now (client_out error_text testMsg st0 cs0)) down ups) f) cs' nw env, st')).
Proof.
  intros Ha Hnd. revert ups cs st. induction Hnd as [|i down Hi Hnd IH]; intros ups cs st Hcs; [done|]. cbn [probe_allP fold_left].
  rewrite run_bind, (run_client_out error_text testMsg f nw env cs0 st0 Ha) by (apply Hcs; left).
  pose proof (call_client_ne testMsg cs st) as Hne. destruct (call_client testMsg (cs, st) i) as [cs1 st1] eqn:E1.
  assert (Hcs1 : ∀ j, j ∈ down → cs1 !! j = cs0 !! j).
  { intros j Hj. rewrite <-(Hcs j) by (by right). specialize (Hne j i ltac:(by intros ->)). by rewrite E1 in Hne. }
  unfold probe_upstream at 2.
  destruct (client_out error_text testMsg st0 cs0 i) as [[r|] [e|]]; rewrite run_bind, run_on_upstream; by apply IH.
Qed.

Lemma health_alone now u st : (∀ i c, wi_clients u !! i = Some c → alone c) →
  run (performHealthChecksP error_text now) (u, st) = ((), health_round now u st).
Proof.
  destruct u as [f cs nw env]. cbn [wi_clients]. intros Ha. unfold performHealthChecksP, health_round, performHealthChecks.
  rewrite run_bind, run_read. cbn [wi_chain wi_clients wi_now wi_env].
  pose proof (probe_all_alone now f nw env cs st _ (upstreams f) cs st Ha (downUpstreams_NoDup (upstreams f)) (λ _ _, eq_refl)) as H.
  rewrite set_upstreams_id in H. rewrite H. by destruct (fold_left (call_client testMsg) _ _).
Qed.

(** After a round a DOWN upstream with a healthy client is UP, and its client answers. *)
Lemma health_round_recovers now u st msg i s c u' st' :
  upstreams (wi_chain u) !! i = Some s → uState s = StateDOWN → wi_clients u !! i = Some c → healthy msg c →
  health_round now u st = (u', st') →
  wi_env u' = wi_env u ∧ List.length (upstreams (wi_chain u')) = List.length (upstreams (wi_chain u)) ∧
  upstreams (wi_chain u') !! i = Some (recordSuccess s) ∧
  ∀ st2, ∃ r, client_out error_text msg st2 (wi_clients u') i = (Some r, None) ∧ responseMatchesQuery msg r = true.
Proof.
  intros Hs Hd Hc Hh H. unfold health_round in H.
  set (out := client_out error_text testMsg st (wi_clients u)) in H.
  assert (Ho : ∃ r0, out i = (Some r0, None)).
  { unfold out, client_out. rewrite Hc. destruct (Hh st) as (r0 & c' & st1 & -> & _). by exists r0. }
  destruct Ho as [r0 Ho].
  assert (Hi : i ∈ downUpstreams (upstreams (wi_chain u))) by (apply elem_of_downUpstreams; eauto).
  destruct (call_clients_once testMsg _ (wi_clients u) st i c (downUpstreams_NoDup _) Hi Hc) as [st1 Hcall].
  pose proof (health_check_lookup (wi_chain u) now out i) as Hl. rewrite Hs in Hl. cbn in Hl.
  unfold is_down in Hl. rewrite bool_decide_true in Hl by done. unfold probed in Hl. rewrite Ho in Hl.
  destruct (fold_left _ _ _) as [cs st2]. injection H as <- <-. cbn in *. split_and!; [done| |exact Hl|].
  - clear. generalize (downUpstreams (upstreams (wi_chain u))) as l. generalize (upstreams (wi_chain u)) as ups. intros ups l. revert ups.
    induction l as [|j l IH]; intros ups; [done|]. cbn [fold_left]. rewrite IH, probe_upstream_alter. apply length_alter.
  - intros st3. unfold client_out. rewrite Hcall. destruct (Hh st1) as (r1 & c' & st4 & E & Hmsg). rewrite E. cbn.
    destruct (Hmsg st3) as (r & Hr & Hm). rewrite Hr. by exists r.
Qed.

(** A chain with one upstream that is UP and answers does not fail. *)
Lemma one_healthy_upstream now f out msg st i s r : List.length (mQuestion msg) = 1%nat →
  upstreams f !! i = Some s → uState s ≠ StateDOWN → out i = (Some r, None) → responseMatchesQuery msg r = true →
  ∃ r', r_result (Fallback.Resolve now f out quiet msg st) = Ok r' ∧ responseMatchesQuery msg r' = true.
Proof.
  intros Hq Hs Hu Ho Hm. unfold Fallback.Resolve. rewrite Hq. cbn [Nat.eqb negb].
  destruct (resolve_loop_spec f out msg (getCurrentPhase now f) (List.length (upstreams f)) 0 false (upstreams f) st [])
    as (failed & Hf & [(k & r' & rest & _ & Ha & Hk & Hr & _)|(El & _)]); [done|done|done| |].
  - exists r'. split; [exact Hr|]. unfold accepts in Ha. by rewrite Hk in Ha.
  - exfalso. assert (Hi : i ∈ failed).
    { rewrite <-El, list_elem_of_In, filter_In, <-list_elem_of_In, elem_of_seq. apply lookup_lt_Some in Hs as Hlt. split; [lia|].
      unfold eligible. rewrite Hs. unfold is_down. by rewrite bool_decide_false. }
    apply Hf in Hi. unfold accepts in Hi. rewrite Ho in Hi. congruence.
Qed.


(** Once the chain is stopped, no tick does anything. *)
Lemma stopped_health_checks events later u st : runHealthChecks (events ++ StopChan :: later) u st = runHealthChecks (events ++ [StopChan]) u st.
Proof.
  revert u st. induction events as [|[now|] events IH]; intros u st; cbn; [done| |done].
  destruct (health_round now u st). apply IH.
Qed.

(** *** When a DoQ client is healthy *)

(** Whatever is in its pool: when the peer answers the probe on the next connection and
    the query on every one. *)
Lemma healthy_doq msg q net clk b k b0 r0 bq r : pack_query testMsg = Ok b0 → pack_query msg = Ok bq →
  Doq.answers (net k) (Doq.dials q) b0 r0 → responseMatchesQuery testMsg r0 = true → Doq.doqResponseUsable r0 = None →
  (∀ n, Doq.answers (net (S k)) n bq r) → responseMatchesQuery msg r = true → Doq.doqResponseUsable r = None →
  healthy msg (mkWClient (TDoQ q net (λ _ _ q, q) clk) b k).
Proof.
  intros Hp Hq Ha Hm Hu Hall Hm' Hu' st. cbn.
  destruct (Doq.stale_connection_recovered (net k) (clk k) b testMsg q st b0 r0) as (r0' & Hr0 & _); [done..|].
  destruct (Doq.Resolve (net k) _ (clk k) b testMsg q st) as [[[res q1] st1] sent]. cbn in Hr0. subst res.
  eexists _, _, _. split; [reflexivity|]. intros st2. cbn.
  destruct (Doq.stale_connection_recovered (net (S k)) (clk (S k)) b msg q1 st2 bq r) as (r' & Hr' & Hmr & _); [done..|].
  destruct (Doq.Resolve (net (S k)) _ (clk (S k)) b msg q1 st2) as [[[res q2] st3] sent2]. cbn in Hr' |- *. subst res.
  by exists r'.
Qed.

End Recovery.

(** ** An example

    Both upstreams are DOWN.  The DoT one stays away; the DoQ one has a dead connection
    in its pool and answers on new ones. *)
Definition ex_probe_answer : Msg :=
  mkMsg (replyHdr 0 RcodeSuccess) (mQuestion testMsg) [mkRR (mkHeader "example.com." TypeA ClassINET 300) (D_Other "192.0.2.7")] [] [].
Definition ex_probe_wire : DnsLib :=
  wireLib (λ _, Some "q") (λ s, if String.eqb s "p" then Some ex_probe_answer else if String.eqb s "r" then Some ex_up_answer else None).
Definition ex_back_net (k : nat) : Doq.Net :=
  Doq.mkNet (λ _, true) (λ _ _, true)
    (λ _ c, if (k =? 0)%nat && (c =? 0)%nat then dead_stream else mkStream true true (frame (if (k =? 0)%nat then "p" else "r"))).
Definition ex_back_client : WClient := mkWClient (TDoQ ex_pool ex_back_net (λ _ _ q, q) (λ _, ex_tclk)) true 0.
Definition ex_outage : Wired :=
  mkWired (NewFallbackResolver 0 [mkUpstream "dot" StateDOWN "timeout" 3 0; mkUpstream "doq" StateDOWN "timeout" 3 0] true 300 3 30)
    [mkWClient (TDoT DotClient.NewTLSResolver (λ _, false) (λ _ _ _, dead_stream) (λ _ _ t, t)) true 0; ex_back_client] 0 quiet.

Example ex_outage_run :
  let '(u, st, _) := runHealthChecks (dl := ex_probe_wire) (λ _, "error") [Tick (λ _, 0)] ex_outage (Statistics.New 0) in
  let '(r, u, _) := wired_resolve (dl := ex_probe_wire) (λ _, "error") ex_squery u st in
  (r, uState <$> upstreams (wi_chain u)) = (Ok ex_up_answer, [StateDOWN; StateUP]).
Proof. vm_compute. done. Qed.

Lemma ex_back_healthy : healthy (dl := ex_probe_wire) ex_squery ex_back_client.
Proof.
  apply (healthy_doq (dl := ex_probe_wire) ex_squery ex_pool ex_back_net (λ _, ex_tclk) true 0 "q" ex_probe_answer "q" ex_up_answer);
    try (vm_compute; reflexivity).
  - split_and!; [done|done|]. intros k. exists "". vm_compute. reflexivity.
  - intros n. split_and!; [done|done|]. intros k. exists "". vm_compute. reflexivity.
Qed.

