(* ===== verification/ControlSocket.v ===== *)
(** * The control socket of a running daemon (socket.go: ListenAndServe; main.go: the callbacks)

    The Unix sockets of a host are a map from paths to the listener behind each; a
    listener may belong to a process that is gone.  The state the callbacks read and
    write is shared with the listeners of the daemon: it is the record [Live].  The
    server is a transition system: the accept loop starts a goroutine for every
    connection, a request for the blocklist starts another one that outlives the
    connection, and the rest of the daemon acts on the shared state in between. *)

From S2P Require Import Prelude GoStrings GoNet GoFmt GoBufio GoFilepath Threads Config DnsMsg Cache Blocklist Allowlist Statistics Reports Policy.
From S2P Require Import Fallback Service Wiring.
From Stdlib Require Import Ascii String.
Open Scope string_scope.
Open Scope list_scope.
Open Scope Z_scope.

(** ** Binding the socket *)

(** The listener bound at each path. *)
Abbreviation Sockets := (gmap string nat).

(** What the system lets happen: binding the path, and setting its mode. *)
Record BindSocket := mkBindSocket { bs_listen : bool; bs_chmod : bool }.

Inductive socket_error := EListenUnix (path : string) | EChmod.

(** The start of [ListenAndServe]: whatever is at the path is removed first.  An
    error after the bind runs the deferred calls, which unlink the path. *)
Definition listen_socket (env : BindSocket) (id : nat) (path : string) (fs : Sockets) : option socket_error * Sockets :=
  let fs := delete path fs in
  if negb (bs_listen env) then (Some (EListenUnix path), fs) else
  let fs := <[path := id]> fs in
  if negb (bs_chmod env) then (Some EChmod, delete path fs) else (None, fs).

(** The end of [ListenAndServe]: closing a Unix listener unlinks its path, and so does
    the deferred removal, whoever is bound there by then. *)
Definition unlink_socket (path : string) (fs : Sockets) : Sockets := delete path fs.

(** ** The server *)

(** A call of [Accept]: a connection with what its client sends, or an error together
    with the state of the context after it. *)
Inductive accept := AcceptConn (input : string) | AcceptError (ctx_done : bool).

(** A goroutine of the server: the [k]th call of [Accept] gave a connection that is not
    served yet; or what is left to do of a reload in the background. *)
Inductive job (S : Type) := JConn (k : nat) (input : string) | JRun (p : prog S ()).
Arguments JConn {S} k input.
Arguments JRun {S} p.

(** The shared state, the number of calls of [Accept], the requests and the replies so
    far with the call each belongs to, the goroutines, and whether the loop has ended. *)
Record Ctl (S : Type) := mkCtl {
  ct_live : S; ct_calls : nat; ct_asked : list (nat * string); ct_replies : list (nat * string); ct_jobs : list (job S); ct_ended : bool }.
Arguments mkCtl {S} _ _ _ _ _ _.
Arguments ct_live {S} _.
Arguments ct_calls {S} _.
Arguments ct_asked {S} _.
Arguments ct_replies {S} _.
Arguments ct_jobs {S} _.
Arguments ct_ended {S} _.

Section Server.
Context {S : Type} (cb : nat → Callbacks S).

(** One round of the accept loop: a connection gets a goroutine of its own, an error
    ends the loop when the context is done and is passed over otherwise. *)
Definition accept_call (a : accept) (c : Ctl S) : Ctl S :=
  match a with
  | AcceptConn input =>
      mkCtl (ct_live c) (ct_calls c + 1) (ct_asked c ++ [(ct_calls c, input)]) (ct_replies c) (ct_jobs c ++ [JConn (ct_calls c) input]) (ct_ended c)
  | AcceptError false => mkCtl (ct_live c) (ct_calls c + 1) (ct_asked c) (ct_replies c) (ct_jobs c) (ct_ended c)
  | AcceptError true => mkCtl (ct_live c) (ct_calls c + 1) (ct_asked c) (ct_replies c) (ct_jobs c) true
  end.

(** The goroutine of a connection: the callbacks of the [k]th connection see the files
    and the clock of their time.  Only one section of a callback writes to the shared
    state, so that the goroutine is one step. *)
Definition serve (k : nat) (input : string) (before after : list (job S)) (c : Ctl S) : Ctl S :=
  let '(reply, started, s) := handle_connection (cb k) input (ct_live c) in
  mkCtl s (ct_calls c) (ct_asked c) (ct_replies c ++ [(k, reply)]) (before ++ after ++ (JRun <$> started)) (ct_ended c).

Definition set_live (s : S) (c : Ctl S) : Ctl S := mkCtl s (ct_calls c) (ct_asked c) (ct_replies c) (ct_jobs c) (ct_ended c).
Definition set_jobs (l : list (job S)) (c : Ctl S) : Ctl S := mkCtl (ct_live c) (ct_calls c) (ct_asked c) (ct_replies c) l (ct_ended c).

(** The goroutines of the server run in any order. *)
Inductive ctl_step : Ctl S → Ctl S → Prop :=
| step_accept a c : ct_ended c = false → ctl_step c (accept_call a c)
| step_serve k input l1 l2 c : ct_jobs c = l1 ++ JConn k input :: l2 → ctl_step c (serve k input l1 l2 c)
| step_job p p' s l1 l2 c : ct_jobs c = l1 ++ JRun p :: l2 → prog_step p (ct_live c) = Some (p', s) →
    ctl_step c (set_live s (set_jobs (l1 ++ JRun p' :: l2) c))
| step_job_done l1 l2 c : ct_jobs c = l1 ++ JRun (Ret ()) :: l2 → ctl_step c (set_jobs (l1 ++ l2) c).

(** The rest of the daemon may do anything to the shared state. *)
Inductive daemon_step : Ctl S → Ctl S → Prop :=
| step_server c c' : ctl_step c c' → daemon_step c c'
| step_rest s c : daemon_step c (set_live s c).

Definition started (s : S) : Ctl S := mkCtl s 0 [] [] [] false.

End Server.

(** ** The state behind the callbacks *)

(** The variables of main that the callbacks capture.  The addresses of Mode 1 are
    what its sockets report. *)
Record Live := mkLive {
  lv_cache : Cache; lv_blocklist : Blocklist; lv_allowlist : option Allowlist; lv_stats : Statistics.Stats;
  lv_chain : option FallbackResolver; lv_mode1 : option (option string * option string); lv_service : option Service }.

Definition set_allowlist (a : Allowlist) (s : Live) : Live :=
  mkLive (lv_cache s) (lv_blocklist s) (Some a) (lv_stats s) (lv_chain s) (lv_mode1 s) (lv_service s).

Definition set_blocklist (b : Blocklist) (st : Statistics.Stats) (s : Live) : Live :=
  mkLive (lv_cache s) b (lv_allowlist s) st (lv_chain s) (lv_mode1 s) (lv_service s).

Definition listenerInfo (s : Live) : ListenerLive :=
  let '(doh, dot, doq) := match lv_service s with Some svc => BoundAddrs svc | None => ("", "", "") end in
  mkListenerLive (match lv_mode1 s with Some (Some udp, _) => udp | _ => "" end)
    (match lv_mode1 s with Some (_, Some tcp) => tcp | _ => "" end) doh dot doq.

Definition statusInfo (s : Live) : list UpstreamConnInfo :=
  match lv_chain s with Some f => upstreamConnInfo f | None => [] end.

Section Callbacks.
Context (cfg : Config) (info : InstanceInfo) (audit : AuditInfo) (version : string).
Context (open later : string → option Reader) (err_text : load_error → string) (now : Z).

Definition cacheInfo (s : Live) : Z * Z := (Cache.Size (lv_cache s), cc_MaxSize (cfg_Cache cfg)).

Definition audit_reply (s : Live) : string :=
  let '(size, max) := cacheInfo s in
  RenderAudit audit (mkLiveAudit (listenerInfo s) size max (statusInfo s)) version (Uptime now (lv_stats s)).

Definition stats_reply (s : Live) : string :=
  let '(size, max) := cacheInfo s in
  Render (TakeSnapshot now size max (lv_stats s)) info (statusInfo s) version.

(** The callback for --allowlist-reload on the shared set. *)
Definition allowlistReloadInfo (s : Live) : result string string * Live :=
  match lv_allowlist s with
  | None => (Err "", s)
  | Some a =>
      let '(r, a) := allowlistReload err_text open (al_Files (cfg_Allowlist cfg)) (lv_blocklist s) a in (r, set_allowlist a s)
  end.

(** The goroutine of --blocklist-reload: it scans the files, as they are [later], into
    sets of its own; one section puts these in force, and another stores the number of
    files read. *)
Definition swap_blocklist (s : Live) : Z * Live :=
  let '(res, b) := ReplaceFromFiles later (lv_blocklist s) (bl_Files (cfg_Blocklists cfg)) in
  (rFilesOK res, set_blocklist b (lv_stats s) s).

Definition count_files (n : Z) (s : Live) : Live := set_blocklist (lv_blocklist s) (SetBlocklistFiles n (lv_stats s)) s.

Definition blocklistReload : prog Live () := doP n ← atomic swap_blocklist; writeP (count_files n).

(** [loaded] is whether main has an allowlist. *)
Definition daemon_callbacks (loaded : bool) : Callbacks Live :=
  mkCallbacks Live
    (if bl_Enabled (cfg_Blocklists cfg) then Some (Z.of_nat (List.length (bl_Files (cfg_Blocklists cfg))), blocklistReload) else None)
    (if al_Enabled (cfg_Allowlist cfg) && loaded then Some allowlistReloadInfo else None)
    audit_reply stats_reply.

End Callbacks.

(** The policy that every listener holds refers to the shared lists. *)
Definition live_policy (p : Policy) (s : Live) : Policy :=
  mkPolicy (lv_allowlist s) (Some (lv_blocklist s)) (Policy.hasStats p) (qtypes p).

(** ** What the socket can change *)

Section Safety.
Context (cfg : Config) (info : InstanceInfo) (audit : AuditInfo) (version : string).
Context (open later : nat → string → option Reader) (err_text : load_error → string) (now : nat → Z) (loaded : bool).
Local Abbreviation cb := (λ k, daemon_callbacks cfg info audit version (open k) (later k) err_text (now k) loaded).
Local Abbreviation files := (bl_Files (cfg_Blocklists cfg)).

(** Everything but the allowlist. *)
Definition same_but_allowlist (s s' : Live) : Prop :=
  lv_cache s' = lv_cache s ∧ lv_blocklist s' = lv_blocklist s ∧ lv_stats s' = lv_stats s ∧ lv_chain s' = lv_chain s ∧
  lv_mode1 s' = lv_mode1 s ∧ lv_service s' = lv_service s.

(** The [k]th connection asked for this verb. *)
Definition requested (c : Ctl Live) (verb : string) (k : nat) : Prop := ∃ input, (k, input) ∈ ct_asked c ∧ request_verb input = verb.

(** What one step of the server may do to the shared state. *)
Record ctl_guarantee (c : Ctl Live) (s s' : Live) : Prop := {
  cg_rest : lv_cache s' = lv_cache s ∧ lv_chain s' = lv_chain s ∧ lv_mode1 s' = lv_mode1 s ∧ lv_service s' = lv_service s;
  cg_allowlist : lv_allowlist s' = lv_allowlist s ∨
    ∃ k a fresh, requested c "RELOAD-ALLOWLIST" k ∧ al_Enabled (cfg_Allowlist cfg) = true ∧ lv_allowlist s = Some a ∧
      lv_allowlist s' = Some fresh ∧ scan_files (open k) (al_Files (cfg_Allowlist cfg)) Allowlist.New = Ok fresh ∧ no_entries fresh = false;
  cg_blocklist : lv_blocklist s' = lv_blocklist s ∨
    ∃ k, requested c "RELOAD-BLOCKLIST" k ∧ bl_Enabled (cfg_Blocklists cfg) = true ∧
      lv_blocklist s' = snd (ReplaceFromFiles (later k) (lv_blocklist s) files);
  cg_stats : lv_stats s' = lv_stats s ∨
    ∃ k, requested c "RELOAD-BLOCKLIST" k ∧ bl_Enabled (cfg_Blocklists cfg) = true ∧
      lv_stats s' = SetBlocklistFiles (rFilesOK (fst (ReplaceFromFiles (later k) (lv_blocklist s) files))) (lv_stats s) }.

Lemma guarantee_allowlist c s s' : same_but_allowlist s s' →
  (lv_allowlist s' = lv_allowlist s ∨
    ∃ k a fresh, requested c "RELOAD-ALLOWLIST" k ∧ al_Enabled (cfg_Allowlist cfg) = true ∧ lv_allowlist s = Some a ∧
      lv_allowlist s' = Some fresh ∧ scan_files (open k) (al_Files (cfg_Allowlist cfg)) Allowlist.New = Ok fresh ∧ no_entries fresh = false) →
  ctl_guarantee c s s'.
Proof. intros (H1 & H2 & H3 & H4 & H5 & H6) H. split; [by split_and!|exact H|by left|by left]. Qed.

Lemma guarantee_refl c s : ctl_guarantee c s s.
Proof. apply guarantee_allowlist; [by split_and!|by left]. Qed.

(** The number of files read does not depend on what was blocked before. *)
Lemma files_read b b' k : rFilesOK (fst (ReplaceFromFiles (later k) b files)) = rFilesOK (fst (ReplaceFromFiles (later k) b' files)).
Proof. unfold ReplaceFromFiles. by destruct (fold_left _ _ _). Qed.

Lemma allowlistReloadInfo_safe k s r s' : allowlistReloadInfo cfg (open k) err_text s = (r, s') →
  same_but_allowlist s s' ∧ (if is_ok r then ∃ a fresh, lv_allowlist s = Some a ∧ lv_allowlist s' = Some fresh ∧
    scan_files (open k) (al_Files (cfg_Allowlist cfg)) Allowlist.New = Ok fresh ∧ no_entries fresh = false else lv_allowlist s' = lv_allowlist s).
Proof.
  unfold allowlistReloadInfo. destruct (lv_allowlist s) as [a|] eqn:Ea; [|intros [= <- <-]; done].
  destruct (allowlistReload_cases err_text (open k) (al_Files (cfg_Allowlist cfg)) (lv_blocklist s) a) as [(t & fresh & -> & H1 & H2)|(t & -> & _)];
    intros [= <- <-]; (split; [done|]); cbn; [by exists a, fresh|done].
Qed.

(** A connection changes the allowlist at most; the goroutine it starts is that of the
    blocklist, and only for a request that names it. *)
Lemma handle_safe c k input s reply jobs s' : (k, input) ∈ ct_asked c → handle_connection (cb k) input s = (reply, jobs, s') →
  ctl_guarantee c s s' ∧
  (jobs = [] ∨ jobs = [blocklistReload cfg (later k)] ∧ requested c "RELOAD-BLOCKLIST" k ∧ bl_Enabled (cfg_Blocklists cfg) = true).
Proof.
  intros Hk. unfold handle_connection, daemon_callbacks. cbn [cb_reload cb_allowlist cb_audit cb_stats].
  destruct (String.eqb_spec (request_verb input) "RELOAD-BLOCKLIST") as [Hb|_].
  { destruct (bl_Enabled _); intros [= _ <- <-]; (split; [apply guarantee_refl|]); [right|by left]. split_and!; [done| |done]. by exists input. }
  destruct (String.eqb_spec (request_verb input) "RELOAD-ALLOWLIST") as [Ha|_].
  2: destruct (String.eqb _ _); intros [= _ <- <-]; (split; [apply guarantee_refl|by left]).
  destruct (al_Enabled _) eqn:He; cbn [andb]; [|intros [= _ <- <-]; split; [apply guarantee_refl|by left]].
  destruct loaded; [|intros [= _ <- <-]; split; [apply guarantee_refl|by left]].
  destruct (allowlistReloadInfo _ _ _ _) as [r s1] eqn:E. apply allowlistReloadInfo_safe in E as [E1 E2].
  destruct r as [t|t]; intros [= _ <- <-]; (split; [|by left]); apply guarantee_allowlist; [done| |done|by left].
  right. destruct E2 as (a & fresh & E2). exists k, a, fresh. split_and!; [|done|by apply E2..]. by exists input.
Qed.

(** Every goroutine is that of a connection that was accepted, or some rest of a
    blocklist reload that was asked for. *)
Definition job_ok (c : Ctl Live) (j : job Live) : Prop :=
  match j with
  | JConn k input => (k, input) ∈ ct_asked c
  | JRun p => ∃ k, requested c "RELOAD-BLOCKLIST" k ∧ bl_Enabled (cfg_Blocklists cfg) = true ∧
      (p = blocklistReload cfg (later k) ∨
       (∃ b, p = writeP (count_files (rFilesOK (fst (ReplaceFromFiles (later k) b files))))) ∨ p = Ret ())
  end.

Lemma job_ok_more c c' j : (∀ x, x ∈ ct_asked c → x ∈ ct_asked c') → job_ok c j → job_ok c' j.
Proof.
  intros H. destruct j as [k input|p]; cbn; [apply H|]. intros (k & (input & H1 & H2) & H3). exists k. split; [|done]. exists input. auto.
Qed.

(** One step of the server: what it does to the state, and that its goroutines stay
    what they should be. *)
Lemma ctl_step_safe c c' : Forall (job_ok c) (ct_jobs c) → ctl_step cb c c' →
  ctl_guarantee c (ct_live c) (ct_live c') ∧ Forall (job_ok c') (ct_jobs c').
Proof.
  intros Hj H. destruct H as [a c He|k input l1 l2 c E|p p' s l1 l2 c E Hp|l1 l2 c E].
  - destruct a as [input|[]]; cbn; (split; [apply guarantee_refl|]); [|exact Hj..].
    apply Forall_app. split; [eapply Forall_impl; [exact Hj|]; intros j; apply job_ok_more; cbn; set_solver|].
    constructor; [cbn; set_solver|constructor].
  - rewrite E in Hj. apply Forall_app in Hj as [Hj1 Hj2]. inversion Hj2 as [|? ? Hk Hj3]; subst. unfold serve.
    destruct (handle_connection _ _ _) as [[reply jobs] s] eqn:Eh. destruct (handle_safe c k input _ _ _ _ Hk Eh) as [Hg Hs]. split; [exact Hg|].
    cbn. apply Forall_app. split; [exact Hj1|]. apply Forall_app. split; [exact Hj3|].
    destruct Hs as [->|(-> & H1 & H2)]; [constructor|]. constructor; [|constructor]. exists k. split_and!; [exact H1|exact H2|by left].
  - rewrite E in Hj. apply Forall_app in Hj as [Hj1 Hj2]. inversion Hj2 as [|? ? Hk Hj3]; subst. cbn.
    destruct Hk as (k & Hr & Hb & Hp1).
    assert (Hnew : ∀ p, (∃ b, p = writeP (count_files (rFilesOK (fst (ReplaceFromFiles (later k) b files))))) ∨ p = Ret () →
      Forall (job_ok (set_live s (set_jobs (l1 ++ JRun p :: l2) c))) (l1 ++ JRun p :: l2)).
    { intros q Hq. apply Forall_app. split; [exact Hj1|]. constructor; [|exact Hj3]. exists k. split_and!; [exact Hr|exact Hb|]. by right. }
    destruct Hp1 as [->|[[b ->]| ->]]; [| |done].
    + unfold blocklistReload in Hp. rewrite prog_step_atomic in Hp. unfold swap_blocklist in Hp. destruct (ReplaceFromFiles _ _ _) as [res b] eqn:Er. injection Hp as <- <-. split.
      * split; [done|by left| |by left]. right. exists k. cbn. by rewrite Er.
      * apply Hnew. left. exists (lv_blocklist (ct_live c)). by rewrite Er.
    + rewrite prog_step_write in Hp. injection Hp as <- <-. split; [|apply Hnew; by right].
      split; [done|by left|by left|]. right. exists k. cbn. split_and!; [done..|]. by rewrite (files_read b (lv_blocklist (ct_live c))).
  - rewrite E in Hj. apply Forall_app in Hj as [Hj1 Hj2]. inversion Hj2; subst. split; [apply guarantee_refl|]. cbn. by apply Forall_app.
Qed.

Lemma jobs_ok s c : rtc (daemon_step cb) (started s) c → Forall (job_ok c) (ct_jobs c).
Proof.
  intros H. apply rtc_ind_r with (P := λ c, Forall (job_ok c) (ct_jobs c)) in H; [exact H|constructor|].
  intros y z _ Hs IH. destruct Hs as [y z Hs|s' y]; [by eapply ctl_step_safe|exact IH].
Qed.


End Safety.

(** ** Every connection is served once *)

Definition job_call {S} (j : job S) : list nat := match j with JConn k _ => [k] | JRun _ => [] end.

Lemma job_call_run {S} (l : list (prog S ())) : (JRun <$> l) ≫= job_call = [].
Proof. induction l as [|p l IH]; [done|exact IH]. Qed.

(** Every accepted connection is waiting for its goroutine or was answered, once. *)
Lemma accept_loop_spec {S} (cb : nat → Callbacks S) s c : rtc (daemon_step cb) (started s) c →
  (ct_asked c).*1 ≡ₚ (ct_replies c).*1 ++ (ct_jobs c ≫= job_call) ∧
  (∀ k, k ∈ (ct_asked c).*1 → (k < ct_calls c)%nat) ∧ NoDup (ct_asked c).*1.
Proof.
  intros H. revert c H. apply rtc_ind_r; [by split_and!; [| intros k ?%elem_of_nil|constructor]|].
  intros y z _ Hs (IH1 & IH2 & IH3). destruct Hs as [y z Hs|s' y]; [|done].
  destruct Hs as [a c He|k input l1 l2 c E|p p' s' l1 l2 c E Hp|l1 l2 c E].
  - destruct a as [input|[]]; cbn; [|split_and!; [done| |done]; intros k Hk%IH2; lia..].
    rewrite fmap_app, bind_app. cbn. split_and!.
    + by rewrite IH1, app_assoc.
    + intros k [Hk|Hk]%elem_of_app; [apply IH2 in Hk; lia|]. apply list_elem_of_singleton in Hk. lia.
    + apply NoDup_app. split_and!; [done| |apply NoDup_singleton]. intros k Hk ->%list_elem_of_singleton. apply IH2 in Hk. lia.
  - rewrite E in IH1. unfold serve. destruct (handle_connection _ _ _) as [[reply jobs] s1]. cbn. split_and!; [|done..].
    rewrite IH1, fmap_app, !bind_app, job_call_run. cbn. rewrite app_nil_r. solve_Permutation.
  - rewrite E in IH1. cbn. rewrite !bind_app in *. cbn in *. by split_and!.
  - rewrite E in IH1. cbn. rewrite !bind_app in *. cbn in *. by split_and!.
Qed.

(** Accept errors that persist do not stop the loop and do not slow it down: any number
    of them in a row leaves nothing but as many calls. *)
Lemma persistent_error_spins {S} (cb : nat → Callbacks S) n c : ct_ended c = false →
  let c' := Nat.iter n (accept_call (AcceptError false)) c in
  nsteps (ctl_step cb) n c c' ∧ ct_calls c' = (n + ct_calls c)%nat ∧ ct_ended c' = false ∧
  ct_live c' = ct_live c ∧ ct_jobs c' = ct_jobs c ∧ ct_replies c' = ct_replies c.
Proof.
  intros H c'. subst c'. induction n as [|n IH]; [split_and!; [constructor|done..]|]. rewrite Nat.iter_succ.
  destruct IH as (H1 & H2 & H3 & H4 & H5 & H6). cbn [accept_call ct_calls ct_ended ct_live ct_jobs ct_replies]. split_and!; [|lia|done..].
  eapply nsteps_r; [exact H1|]. by apply (step_accept cb (AcceptError false)).
Qed.

(** ** One path, two instances *)

(** The path depends on the name of the file only, not on its directory or extension. *)
Lemma SocketPath_base env p q : sk_resolve env p = None → sk_resolve env q = None →
  TrimSuffix (Base p) (Ext (Base p)) = TrimSuffix (Base q) (Ext (Base q)) → SocketPath env p = SocketPath env q.
Proof. intros Hp Hq H. unfold SocketPath. rewrite Hp, Hq. cbn. by rewrite H. Qed.

(** Two daemons with configurations of the same name in different directories: the
    second takes the path of the first over, and the end of the first unlinks it, so
    that neither can be reached although both run. *)
Theorem same_name_loses_socket env ok id1 id2 p q fs : sk_resolve env p = None → sk_resolve env q = None →
  TrimSuffix (Base p) (Ext (Base p)) = TrimSuffix (Base q) (Ext (Base q)) → bs_listen ok = true → bs_chmod ok = true →
  let fs1 := snd (listen_socket ok id1 (SocketPath env p) fs) in
  let fs2 := snd (listen_socket ok id2 (SocketPath env q) fs1) in
  fs1 !! SocketPath env p = Some id1 ∧ fs2 !! SocketPath env p = Some id2 ∧
  unlink_socket (SocketPath env p) fs2 !! SocketPath env q = None.
Proof.
  intros Hp Hq H Hl Hc. rewrite (SocketPath_base env p q Hp Hq H). unfold listen_socket, unlink_socket. rewrite Hl, Hc. cbn.
  by rewrite !lookup_insert_eq, lookup_delete_eq.
Qed.

(** ** Reloads in force *)

(** The names an accepted reload removed are refused from the next query on. *)
Lemma reload_refuses {dl : DnsLib} {laws : DnsLaws dl} p s a query q qs st : lv_allowlist s = Some a → mQuestion query = q :: qs →
  Allowed a (qName q) = false →
  ∃ m st' reason, Policy.Response (Some (live_policy p s)) query st = (st', Some m) ∧ refusal query reason m.
Proof.
  intros Ha Hq Hn. destruct (Response_cases (live_policy p s) query q qs st Hq) as [(_ & reason & Hr & ->)|[(Hp & _)|(Hp & _)]].
  1: by eexists _, _, reason.
  all: revert Hp; unfold allow_passes, live_policy; cbn; rewrite Ha, Hn; done.
Qed.

(** A blocklist reload forgets whatever did not come from the configured files. *)
Lemma blocklistReload_forgets cfg later s b :
  lv_blocklist (snd (Threads.run (blocklistReload cfg later) (set_blocklist b (lv_stats s) s))) =
    snd (ReplaceFromFiles later (Blocklist.New (bl_enabled b)) (bl_Files (cfg_Blocklists cfg))).
Proof. unfold blocklistReload. autorewrite with runs. unfold swap_blocklist, ReplaceFromFiles. cbn. by destruct (fold_left _ _ _). Qed.

(** ** Examples and witnesses *)

Definition ex_live : Live :=
  mkLive (Cache.New (mkOptions true 0 0 0 0 0)) (Blocklist.addDomain (Blocklist.New true) "ads.example") (Some Allowlist.ex_allow)
    (Statistics.New 0) None None None.

Definition ex_live_cfg (files blocked : list string) : Config :=
  let c := ex_start_cfg true true 0 in
  mkConfig (cfg_StatsEnabled c) (cfg_Resolver c) (cfg_UpstreamService c) (cfg_Upstreams c) (cfg_DNSSEC c) (mkBlocklistConfig true blocked [] "")
    (mkAllowlistConfig true "default-deny" files []) (cfg_Cache c) (cfg_Metrics c) (cfg_Logging c) (cfg_Fallback c) (cfg_TLSAutomation c).
Definition ex_live_info : InstanceInfo :=
  instance_info "/etc/rcvd/rcvd.toml" "/run/rcvd/rcvd.sock" (ex_start_cfg true true 0) (lv_cache ex_live).
Definition ex_live_audit : AuditInfo :=
  audit_info "/etc/rcvd/rcvd.toml" "/run/rcvd/rcvd.sock" (ex_start_cfg true true 0) (lv_cache ex_live).
Definition ex_live_cb (files : list string) : Callbacks Live :=
  daemon_callbacks (ex_live_cfg files ["list"]) ex_live_info ex_live_audit "v0.3.0" Allowlist.ex_open Blocklist.ex_open (λ _, "cannot be read") second true.

(** Four connections, served out of order; an error in between is passed over. *)
Definition ex_accepted : Ctl Live :=
  fold_left (λ c a, accept_call a c)
    [AcceptConn ("RELOAD-BLOCKLIST" +:+ nl); AcceptError false; AcceptConn ("RELOAD-ALLOWLIST" +:+ nl); AcceptConn "garbage"] (started ex_live).
Definition ex_served : Ctl Live :=
  serve (λ _, ex_live_cb ["allow"]) 0 ("RELOAD-BLOCKLIST" +:+ nl) [] [JConn 3 "garbage"]
    (serve (λ _, ex_live_cb ["allow"]) 2 ("RELOAD-ALLOWLIST" +:+ nl) [JConn 0 ("RELOAD-BLOCKLIST" +:+ nl)] [JConn 3 "garbage"] ex_accepted).

Example ex_loop :
  (ct_calls ex_served, ct_replies ex_served, List.length (ct_jobs ex_served), ct_ended ex_served,
   IsBlocked (lv_blocklist (ct_live ex_served)) "ads.example")
  = (4%nat, [(2%nat, "allowlist reloaded: 3 entries from 1 file(s)" +:+ nl); (0%nat, "blocklist reload started (1 file(s), background)" +:+ nl)],
     2%nat, false, true).
Proof. vm_compute. done. Qed.

(** What the goroutine leaves: a list that came from a URL is gone after a reload of
    the files, and a reload that can read no file leaves nothing blocked. *)
Example reload_drops_url_list :
  (λ files, let s := snd (Threads.run (blocklistReload (ex_live_cfg [] files) Blocklist.ex_open) ex_live) in
     (IsBlocked (lv_blocklist s) "ads.example", Blocklist.Size (lv_blocklist s), cnt (lv_stats s) BlocklistFilesLoaded)) <$> [["list"]; ["gone"]]
  = [(false, 3, 1); (false, 0, 0)].
Proof. vm_compute. done. Qed.

Lemma ex_accepted_reached : rtc (daemon_step (λ _, ex_live_cb ["allow"])) (started ex_live) ex_accepted.
Proof.
  unfold ex_accepted. cbn [fold_left].
  repeat (eapply rtc_r; [|apply step_server, step_accept; reflexivity]). apply rtc_refl.
Qed.

(** The step that puts the files of the blocklist in force, after the connection that
    asked for it. *)
Definition ex_swapped : Ctl Live :=
  set_live (snd (swap_blocklist (ex_live_cfg ["allow"] ["list"]) Blocklist.ex_open (ct_live ex_served)))
    (set_jobs [JConn 3 "garbage"; JRun (writeP (count_files 1))] ex_served).


Lemma same_name_loses_socket_witness :
  let env := mkSocketEnv (λ _, None) true "" (λ _, true) "/tmp" in
  SocketPath env "/etc/rcvd/rcvd.toml" = SocketPath env "/home/me/rcvd.conf" ∧
  unlink_socket (SocketPath env "/etc/rcvd/rcvd.toml")
    (snd (listen_socket (mkBindSocket true true) 2 (SocketPath env "/home/me/rcvd.conf")
      (snd (listen_socket (mkBindSocket true true) 1 (SocketPath env "/etc/rcvd/rcvd.toml") ∅)))) !! SocketPath env "/home/me/rcvd.conf" = None.
Proof.
  split; [vm_compute; reflexivity|].
  apply (same_name_loses_socket (mkSocketEnv (λ _, None) true "" (λ _, true) "/tmp") (mkBindSocket true true) 1 2
    "/etc/rcvd/rcvd.toml" "/home/me/rcvd.conf" ∅); vm_compute; reflexivity.
Defined.
