(* ===== verification/Cli.v ===== *)
(** * The command line (cmd/rcvd/main.go)

    The process from its arguments to its exit code: flag parsing, the choice of the
    verb, what each verb writes to standard output and standard error, what it does
    to the daemons of the host, and the start of the daemon itself.  [Host] has the
    control sockets and the daemons behind them; everything else the process asks
    the system is an argument. *)

From S2P Require Import Prelude GoStrings GoNet GoFmt GoStrconv GoFlag GoBufio Threads Config DnsMsg Cache Blocklist Allowlist Statistics Reports Policy.
From S2P Require Import Fallback Transports Lifecycle Service Verify Wiring ControlSocket.
From Stdlib Require Import Ascii String.
Open Scope string_scope.
Open Scope list_scope.
Open Scope Z_scope.

(** ** Flags *)

Definition declared_flags : list FlagDef :=
  [mkFlagDef "config" (FString "rcvd.toml") "path to config file";
   mkFlagDef "version" (FBool false) "show version and exit";
   mkFlagDef "help" (FBool false) "show help and exit";
   mkFlagDef "stats" (FBool false) "query running instance for statistics and exit";
   mkFlagDef "audit" (FBool false) "query running instance for live posture audit and exit";
   mkFlagDef "blocklist-reload" (FBool false) "trigger an async blocklist file reload in the running instance and exit";
   mkFlagDef "allowlist-reload" (FBool false)
     "trigger a synchronous allowlist file reload in the running instance and exit (0 on success, 1 on failure)";
   mkFlagDef "verify-upstream" (FBool false) "verify upstream TLS certificates (CA-validating) and exit";
   mkFlagDef "verify-pin" (FBool false) "validate each upstream's configured pinned_pubkey against the live server and exit";
   mkFlagDef "show-pin" (FInt (-1)) "probe upstream at the given 0-based index, print its SPKI pin (sha256//…) to stdout, and exit";
   mkFlagDef "verify-self" (FBool false) "verify the TLS certificate THIS instance presents on its Mode-2 listeners and exit";
   mkFlagDef "server-name" (FString "") "TLS SNI to use for --verify-self (default: derived from the listener host)"].

Definition get_bool (vals : Values) (name : string) : bool := match vals !! name with Some (FBool b) => b | _ => false end.
Definition get_int (vals : Values) (name : string) : Z := match vals !! name with Some (FInt n) => n | _ => 0 end.
Definition get_string (vals : Values) (name : string) : string := match vals !! name with Some (FString s) => s | _ => "" end.

Definition flags_of (vals : Values) : Flags :=
  mkFlags (get_string vals "config") (get_bool vals "version") (get_bool vals "help") (get_bool vals "stats") (get_bool vals "audit")
    (get_bool vals "blocklist-reload") (get_bool vals "allowlist-reload") (get_bool vals "verify-upstream") (get_bool vals "verify-pin")
    (get_int vals "show-pin") (get_bool vals "verify-self") (get_string vals "server-name").

(** ** Texts *)

Record Build := mkBuild { bi_version : string; bi_date : string; bi_source : string; bi_settings : option (list (string * string)) }.

Definition version_text (b : Build) : string :=
  let rev := vcsRevision (bi_settings b) in
  "RCVD " +:+ displayVersion (bi_version b) +:+ " (built " +:+ bi_date b +:+ ", source " +:+ bi_source b +:+
  (if negb (String.eqb rev "unknown") then ", commit " +:+ rev else "") +:+ ")" +:+ nl.

Definition tab : string := of_chars ["009"%char].

(** A flag and its explanation in the help text. *)
Definition help_flag (name text : string) : list string := ["  -" +:+ name; "    " +:+ tab +:+ text].

Definition help_lines : list string :=
  ["RCVD — Resilient, Cryptographic, Verifiable DNS"; "";
   "A privacy-first DNS resolver that encrypts all upstream queries.";
   "Encrypted transports only. Port 53 is never a plaintext egress - loopback-only if used."; "";
   "Usage:"; "  rcvd [flags]"; ""; "Flags:"] ++
  help_flag "config string" ("path to config file (default " +:+ of_chars ["034"%char] +:+ "rcvd.toml" +:+ of_chars ["034"%char] +:+ ")") ++
  help_flag "stats" "query running instance for statistics and exit" ++
  help_flag "audit" "query running instance for live posture audit and exit" ++
  help_flag "blocklist-reload" "trigger an async blocklist file reload in the running instance and exit" ++
  help_flag "allowlist-reload" "trigger a synchronous allowlist file reload in the running instance and exit (exit 0 on success, 1 on failure)" ++
  help_flag "verify-upstream" "verify upstream TLS certificates (CA-validating) and exit" ++
  help_flag "verify-pin" "validate each upstream's configured pinned_pubkey against the live server and exit" ++
  help_flag "show-pin int" "probe upstream at the given 0-based index, print its SPKI pin (sha256//…) to stdout, and exit" ++
  help_flag "verify-self" "verify the TLS certificate THIS instance presents on its Mode-2 listeners and exit" ++
  help_flag "server-name string" "TLS SNI to use for -verify-self (default: derived from the listener host)" ++
  help_flag "version" "show version and exit" ++
  help_flag "help" "show this help message" ++
  [""; "Configuration:"; "  RCVD is configured via TOML files. See docs/CONFIG.md for details."; "";
   "Examples:"; "  rcvd -config rcvd-resolver.toml"; "  rcvd -config rcvd-upstream.toml"; "";
   "License:"; "  MIT License — see LICENSE file for details"; ""].

Definition printHelp : string := Join ((λ l, l +:+ nl) <$> help_lines) "".

(** Every declared flag is in the help text. *)
Example help_complete : forallb (λ d, Contains printHelp ("  -" +:+ fd_name d)) declared_flags = true.
Proof. vm_compute. done. Qed.

(** ** The host *)

(** A running daemon: what it wired to its socket, the state shared with its
    listeners, and the goroutines that requests have started. *)
Record Served := mkServed { sv_cb : Callbacks Live; sv_live : Live; sv_jobs : list (prog Live ()) }.

Record Host := mkHost { h_sockets : Sockets; h_daemons : gmap nat Served }.

(** How the process ends: its output, its log and its exit code. *)
Record Exit := mkExit { x_out : string; x_err : string; x_log : list string; x_code : Z }.

Inductive outcome := Exits (x : Exit) | Runs (cfg : Config) (d : Daemon).

Definition fails (code : Z) (err : string) : outcome := Exits (mkExit "" err [] code).

(** What the process asks the system. *)
Record Proc := mkProc {
  pr_build : Build; pr_program : string; pr_printable : Z → bool;
  (* the configuration file *)
  pr_os : OS; pr_types : string → option Z; pr_toml : string → Config → option (Config * MetaData); pr_cfg_text : cfg_error → string;
  (* the control socket: what its path depends on, what happens to a connection, and the texts of the errors *)
  pr_socket : SocketEnv; pr_conn : Conn; pr_dial_text : string → string; pr_io_text : query_error → string;
  (* the network as the probes see it *)
  pr_sum256 : string → string; pr_ca : string → list Cert → bool; pr_server : bool → string → result ConnState string;
  pr_untrusted : string; pr_now : Z; pr_pin_text : pin_error → string; pr_showpin_text : showpin_error → string;
  pr_interfaces : option (list IP);
  (* the start of the daemon, with the text of its errors *)
  pr_start : StartEnv; pr_url_parse : string → option string; pr_h2_ok : string → bool; pr_start_text : start_error → string;
  (* the listener of the control socket, whether its goroutine runs before the process ends, and its system calls *)
  pr_id : nat; pr_raced : bool; pr_bind : BindSocket }.

Section Main.
Context (P : Proc).

(** The error of a client, as it is wrapped for the request. *)
Definition query_error_text (path request : string) (e : query_error) : string :=
  match e with
  | EConnect => "connect to " +:+ path +:+ ": " +:+ pr_dial_text P path +:+ " (is rcvd running with stats_enabled?)"
  | EWriteRequest => "write " +:+ (if String.eqb request ("AUDIT" +:+ nl) then "audit" else "reload") +:+ " request: " +:+ pr_io_text P e
  | EReadReply =>
      "read " +:+ (if String.eqb request "" then "stats" else if String.eqb request ("AUDIT" +:+ nl) then "audit" else "reload response") +:+
      ": " +:+ pr_io_text P e
  end.

(** The daemon behind a path. *)
Definition daemon_at (path : string) (host : Host) : option (nat * Served) :=
  match h_sockets host !! path with
  | None => None
  | Some id => pair id <$> h_daemons host !! id
  end.

(** A request to the daemon behind the control socket of a configuration.  The daemon
    serves whatever arrives, whether or not the client then sees the reply. *)
Definition ask (configPath request : string) (host : Host) : result string string * Host :=
  let path := SocketPath (pr_socket P) configPath in
  match daemon_at path host with
  | None => (Err (query_error_text path request EConnect), host)
  | Some (id, sv) =>
      let '(r, started, s) := query (Some (pr_conn P)) (sv_cb sv) request (sv_live sv) in
      (match r with Ok reply => Ok reply | Err e => Err (query_error_text path request e) end,
       mkHost (h_sockets host) (<[id := mkServed (sv_cb sv) s (sv_jobs sv ++ started)]> (h_daemons host)))
  end.

(** A verb that prints the reply of the daemon. *)
Definition ask_verb (configPath request : string) (code : string → Z) (host : Host) : outcome * Host :=
  match ask configPath request host with
  | (Err e, host) => (fails 1 ("error: " +:+ e +:+ nl), host)
  | (Ok reply, host) => (Exits (mkExit reply "" [] (code reply)), host)
  end.

(** A verb that works on the configuration. *)
Definition with_config (configPath : string) (k : Config → Exit) : outcome :=
  match LoadForDiagnostics (pr_os P) (pr_types P) (pr_toml P) configPath with
  | Err e => fails 1 ("config error: " +:+ (pr_cfg_text P) e +:+ nl)
  | Ok cfg => Exits (k cfg)
  end.

Definition verdict (r : string * bool) : Exit := mkExit (fst r) "" [] (if snd r then 0 else 1).

Definition show_pin (index : Z) (cfg : Config) : Exit :=
  let banner := "RCVD show-pin: probing upstream " +:+ Itoa index +:+ " for its leaf SPKI pin" +:+ nl in
  match ShowPin (pr_sum256 P) (pr_ca P) (pr_server P) (pr_untrusted P) (cfg_Upstreams cfg) index with
  | Err e => mkExit "" (banner +:+ "error: " +:+ (pr_showpin_text P) e +:+ nl) [] 1
  | Ok pin => mkExit (pin +:+ nl) banner [] 0
  end.

(** How a failed start is reported. *)
Definition start_failure (cfg : Config) (e : start_error) : Exit :=
  let logged text := mkExit "" "" [text] 1 in
  match e with
  | ELogFile => mkExit "" ("error: cannot open log file " +:+ lo_File (cfg_Logging cfg) +:+ ": " +:+ (pr_start_text P) e +:+ nl) [] 1
  | ENoUpstreams => mkExit "" ("error: no upstreams configured" +:+ nl) [] 1
  | ENoEncrypted => mkExit "" ("error: no encrypted upstream configured (need DoQ, DoT, or DoH)" +:+ nl) [] 1
  | EAllowlist _ => logged ("allowlist: " +:+ (pr_start_text P) e)
  | EChainBuild _ => logged ("error: building upstream chain: " +:+ (pr_start_text P) e)
  | ETickerPanic => mkExit "" ((pr_start_text P) e) [] 2
  | ENoModeEnabled => logged "error: no mode enabled — set resolver.enabled and/or upstream_service.enabled"
  | EMode1Start _ => logged ("error: failed to start resolver: " +:+ (pr_start_text P) e)
  | EServiceNew _ => logged ("error: upstream service: " +:+ (pr_start_text P) e)
  | EServiceStart _ => logged ("error: failed to start upstream service: " +:+ (pr_start_text P) e)
  end.

(** The failures before the control socket is set up. *)
Definition before_socket (e : start_error) : bool :=
  match e with ELogFile | ENoUpstreams | ENoEncrypted | EAllowlist _ => true | _ => false end.

(** The goroutine of the control socket takes the path over; the process that ends
    with [os.Exit] leaves it behind. *)
Definition take_socket (configPath : string) (cfg : Config) (host : Host) : Host :=
  if cfg_StatsEnabled cfg then mkHost (snd (listen_socket (pr_bind P) (pr_id P) (SocketPath (pr_socket P) configPath) (h_sockets host))) (h_daemons host) else host.

Definition run (configPath : string) (host : Host) : outcome * Host :=
  match Config.Load (pr_os P) (pr_types P) (pr_toml P) configPath with
  | Err e => (fails 1 ("config error: " +:+ (pr_cfg_text P) e +:+ nl), host)
  | Ok cfg =>
      match startup (pr_sum256 P) (pr_url_parse P) (pr_h2_ok P) (pr_types P) (pr_start P) cfg with
      | Err e => (Exits (start_failure cfg e), if before_socket e || negb (pr_raced P) then host else take_socket configPath cfg host)
      | Ok d => (Runs cfg d, take_socket configPath cfg host)
      end
  end.

(** What follows [flag.Parse]. *)
Definition dispatch (f : Flags) (args : list string) (host : Host) : outcome * Host :=
  let configPath := fl_configPath f in
  match choose_verb f args with
  | VUnexpected extra hint =>
      (fails 2 ("error: unexpected argument " +:+ Quote (pr_printable P) extra +:+ " — rcvd action flags take no path argument." +:+ nl +:+
                "       The config path goes with -config, e.g.:  rcvd -config " +:+ hint +:+ " <flag>" +:+ nl), host)
  | VVersion => (Exits (mkExit (version_text (pr_build P)) "" [] 0), host)
  | VHelp => (Exits (mkExit printHelp "" [] 0), host)
  | VStats => ask_verb configPath "" (λ _, 0) host
  | VAudit => ask_verb configPath ("AUDIT" +:+ nl) (λ _, 0) host
  | VBlocklistReload => ask_verb configPath ("RELOAD-BLOCKLIST" +:+ nl) (λ _, 0) host
  | VAllowlistReload => ask_verb configPath ("RELOAD-ALLOWLIST" +:+ nl) (λ reply, reload_exit_code (Some reply)) host
  | VVerifyUpstream =>
      (match LoadForDiagnostics (pr_os P) (pr_types P) (pr_toml P) configPath with
       | Err e => fails 1 ("config error: " +:+ (pr_cfg_text P) e +:+ nl)
       | Ok cfg =>
           match VerifyUpstreams (pr_sum256 P) (pr_ca P) (pr_server P) (pr_untrusted P) (pr_now P) (pr_interfaces P) configPath (cfg_Upstreams cfg) with
           | Some r => Exits (verdict r)
           | None => Exits (mkExit "" "" [] 2)     (* a nil result is dereferenced *)
           end
       end, host)
  | VShowPin index => (with_config configPath (show_pin index), host)
  | VVerifyPin =>
      (with_config configPath (λ cfg, verdict (VerifyPins (pr_sum256 P) (pr_ca P) (pr_server P) (pr_untrusted P) (pr_pin_text P) (pr_interfaces P) configPath (cfg_Upstreams cfg))), host)
  | VVerifySelf =>
      (with_config configPath (λ cfg, verdict (VerifySelf (pr_sum256 P) (pr_ca P) (pr_server P) (pr_untrusted P) (pr_now P) (pr_printable P) (pr_interfaces P) configPath
         (cfg_UpstreamService cfg) (fl_serverName f) (List.hd "" (ta_AllowedDomains (cfg_TLSAutomation cfg))))), host)
  | VRun => run configPath host
  end.

Definition main (args : list string) (host : Host) : outcome * Host :=
  match Parse (initial declared_flags) args with
  | Err EHelp => (fails 0 (usage_text (Quote (pr_printable P)) (pr_program P) declared_flags), host)
  | Err e => (fails 2 (fail_text (Quote (pr_printable P)) e +:+ usage_text (Quote (pr_printable P)) (pr_program P) declared_flags), host)
  | Ok (vals, rest) => dispatch (flags_of vals) rest host
  end.

End Main.

(** ** The flags are what was written *)

Definition settings_of (f : Flags) : list (string * FlagValue) :=
  [("config", FString (fl_configPath f)); ("version", FBool (fl_version f)); ("help", FBool (fl_help f)); ("stats", FBool (fl_stats f));
   ("audit", FBool (fl_audit f)); ("blocklist-reload", FBool (fl_blocklistReload f)); ("allowlist-reload", FBool (fl_allowlistReload f));
   ("verify-upstream", FBool (fl_verifyUpstream f)); ("verify-pin", FBool (fl_verifyPin f)); ("show-pin", FInt (fl_showPin f));
   ("verify-self", FBool (fl_verifySelf f)); ("server-name", FString (fl_serverName f))].

Lemma declared_bool name b : name ∈ ["version"; "help"; "stats"; "audit"; "blocklist-reload"; "allowlist-reload"; "verify-upstream"; "verify-pin"; "verify-self"] →
  declared (initial declared_flags) (name, FBool b).
Proof.
  intros H. repeat (apply elem_of_cons in H as [->|H]); [..|by apply elem_of_nil in H];
    (split; [split; [discriminate|reflexivity]|]; eexists; split; [vm_compute; reflexivity|exact I]).
Qed.

Lemma declared_string name s : name ∈ ["config"; "server-name"] → declared (initial declared_flags) (name, FString s).
Proof.
  intros H. repeat (apply elem_of_cons in H as [->|H]); [..|by apply elem_of_nil in H];
    (split; [split; [discriminate|reflexivity]|]; eexists; split; [vm_compute; reflexivity|exact I]).
Qed.

Lemma declared_pin n : in_int64 n → declared (initial declared_flags) ("show-pin", FInt n).
Proof. intros H. split; [split; [discriminate|reflexivity]|]. eexists. split; [vm_compute; reflexivity|exact H]. Qed.

Lemma settings_declared f : in_int64 (fl_showPin f) → Forall (declared (initial declared_flags)) (settings_of f).
Proof.
  intros H. unfold settings_of. repeat apply Forall_cons_2; [..|apply Forall_nil_2];
    first [apply declared_pin; exact H|apply declared_bool; set_solver|apply declared_string; set_solver].
Qed.

Lemma flags_of_settings f : flags_of (assign (initial declared_flags) (settings_of f)) = f.
Proof. destruct f. vm_compute. reflexivity. Qed.

(** C29: A command line that sets every flag, each in any of its spellings, is parsed to
    exactly those values, and what follows the first argument that is not a flag is
    left over. *)
Theorem flags_roundtrip f args rest : in_int64 (fl_showPin f) → written (settings_of f) args →
  rest = [] ∨ (∃ x rest', rest = x :: rest' ∧ HasPrefix x "-" = false) →
  ∃ vals, Parse (initial declared_flags) (args ++ rest) = Ok (vals, rest) ∧ flags_of vals = f.
Proof.
  intros Hp Hw Hr. exists (assign (initial declared_flags) (settings_of f)). split; [|apply flags_of_settings].
  rewrite (Parse_written _ _ _ _ Hw) by (by apply settings_declared).
  destruct Hr as [->|(x & rest' & -> & Hx)]; [done|]. by apply Parse_positional, classify_positional.
Qed.

(** ** Nothing happens by accident *)

Section Accidents.
Context (P : Proc).

(** C28: A path after an action flag, the mistake the check is there for, is refused:
    whatever flags come before it and whatever follows, the process exits with code
    2, prints nothing on standard output, and touches no daemon. *)
Theorem stray_argument_refused l args x rest host : written l args → Forall (declared (initial declared_flags)) l →
  HasPrefix x "-" = false →
  ∃ err, main P (args ++ x :: rest) host = (Exits (mkExit "" err [] 2), host).
Proof.
  intros Hw Hd Hx. unfold main. rewrite (Parse_written _ _ _ _ Hw Hd), (Parse_positional _ _ _ (classify_positional _ Hx)).
  by eexists.
Qed.

(** The daemon is started only by a command line with neither an action nor anything
    that is not a flag. *)
Lemma runs_no_action args host cfg d host' : main P args host = (Runs cfg d, host') →
  ∃ vals, Parse (initial declared_flags) args = Ok (vals, []) ∧ choose_verb (flags_of vals) [] = VRun ∧
    run P (fl_configPath (flags_of vals)) host = (Runs cfg d, host').
Proof.
  unfold main. destruct (Parse _ _) as [[vals rest]|e]; [|by destruct e].
  unfold dispatch. destruct (choose_verb (flags_of vals) rest) eqn:E; try done.
  all: try (unfold ask_verb; destruct (ask _ _ _ _) as [[|] ?]; done).
  all: try (unfold with_config; destruct (LoadForDiagnostics _ _ _ _); done).
  - destruct (LoadForDiagnostics _ _ _ _); [|done]. destruct (VerifyUpstreams _ _ _ _ _ _ _ _); done.
  - intros H. destruct rest as [|x rest]; [|by cbn in E]. by exists vals.
Qed.

End Accidents.

(** ** Reloading the allowlist of a running daemon *)

Section Reload.
Context {dl : DnsLib} {laws : DnsLaws dl} (P : Proc).
Context (cfg : Config) (info : InstanceInfo) (audit : AuditInfo) (version : string) (open later : string → option Reader)
  (err_text : load_error → string) (now : Z).
Local Abbreviation cb := (daemon_callbacks cfg info audit version open later err_text now true).
Local Abbreviation files := (al_Files (cfg_Allowlist cfg)).
Local Abbreviation request := ("RELOAD-ALLOWLIST" +:+ nl).

(** What arrives of the request is understood as a whole, or taken for a request for
    the statistics. *)
Lemma request_prefix n : request_verb (take_bytes n request) = "RELOAD-ALLOWLIST" ∨
  String.eqb (request_verb (take_bytes n request)) "RELOAD-BLOCKLIST" = false ∧
  String.eqb (request_verb (take_bytes n request)) "RELOAD-ALLOWLIST" = false ∧
  String.eqb (request_verb (take_bytes n request)) "AUDIT" = false.
Proof.
  destruct (Z.le_gt_cases n 0) as [Hn|Hn].
  { right. rewrite <-(take_bytes_take n 0 request Hn). vm_compute (take_bytes 0 _). cbn [take_bytes]. by vm_compute. }
  destruct (Z.le_gt_cases 17 n) as [Hn2|Hn2]; [left; rewrite take_bytes_all by (vm_compute (String.length _); lia); by vm_compute|].
  assert (H : n ∈ [1; 2; 3; 4; 5; 6; 7; 8; 9; 10; 11; 12; 13; 14; 15; 16]).
  { rewrite !elem_of_cons. lia. }
  repeat (apply elem_of_cons in H as [->|H]; [first [left; vm_compute; reflexivity|right; vm_compute; done]|]). by apply elem_of_nil in H.
Qed.

(** A report is not taken for the reply to a reload. *)
Lemma stats_not_reloaded s : HasPrefix (stats_reply cfg info version now s) "allowlist reloaded" = false.
Proof. unfold stats_reply, cacheInfo, Render, render_lines, render_header. by destruct (nonempty version). Qed.

(** The connection at the daemon. *)
Lemma allowlist_connection n s : al_Enabled (cfg_Allowlist cfg) = true →
  (∃ r s', handle_connection cb (take_bytes n request) s = ((match r with Ok t => t | Err t => t end) +:+ nl, [], s') ∧
     allowlistReloadInfo cfg open err_text s = (r, s')) ∨
  (n < 17 ∧ ∃ reply, handle_connection cb (take_bytes n request) s = (reply, [], s) ∧ HasPrefix reply "allowlist reloaded" = false).
Proof.
  intros He. unfold handle_connection, daemon_callbacks. cbn [cb_allowlist cb_stats]. rewrite He. cbn [andb].
  destruct (request_prefix n) as [->|(E1 & E2 & E3)].
  - left. change (String.eqb "RELOAD-ALLOWLIST" "RELOAD-BLOCKLIST") with false. change (String.eqb "RELOAD-ALLOWLIST" "RELOAD-ALLOWLIST") with true.
    cbv iota. destruct (allowlistReloadInfo _ _ _ _) as [[t|t] s'] eqn:E; [by exists (Ok t), s'|by exists (Err t), s'].
  - right. rewrite E1, E2, E3. split; [|eexists; split; [reflexivity|apply stats_not_reloaded]].
    apply Z.nle_gt. intros Hn. rewrite take_bytes_all in E2 by (vm_compute (String.length _); lia). vm_compute in E2. discriminate.
Qed.

(** The set in force is the complete, non-empty content of the files. *)
Definition reloaded (s' : Live) (fresh : Allowlist) : Prop :=
  scan_files open files Allowlist.New = Ok fresh ∧ no_entries fresh = false ∧ lv_allowlist s' = Some fresh.

(** What a reply, cut anywhere, says. *)
Lemma cut_reply_exit reply n : reload_exit_code (Some (take_bytes (2 ^ 20) (take_bytes n reply))) = 0 → HasPrefix reply "allowlist reloaded" = true.
Proof.
  unfold reload_exit_code. destruct (HasPrefix _ _) eqn:E; [|done]. intros _. by do 2 apply HasPrefix_take in E.
Qed.

(** The exit code for what the client returned. *)
Definition verb_code {E} (r : result string E) : Z := match r with Ok reply => reload_exit_code (Some reply) | Err _ => 1 end.

(** A request to reload the allowlist: the answer of the client is one of success only
    if the daemon has reloaded, and exactly then over an intact connection. *)
Lemma reload_request s a r started s' : al_Enabled (cfg_Allowlist cfg) = true → lv_allowlist s = Some a →
  query (Some (pr_conn P)) cb request s = (r, started, s') →
  started = [] ∧ same_but_allowlist s s' ∧ (lv_allowlist s' = Some a ∨ ∃ fresh, reloaded s' fresh) ∧
  (verb_code r = 0 → ∃ fresh, reloaded s' fresh) ∧
  (intact (pr_conn P) request → verb_code r = 0 ∨
     lv_allowlist s' = Some a ∧ ∀ fresh, scan_files open files Allowlist.New = Ok fresh → no_entries fresh = true).
Proof.
  intros He Ha. unfold query, intact. destruct (pr_conn P) as [arrives wr back rd]. cbn [cn_arrives cn_write_ok cn_back cn_read_ok].
  change (Z.of_nat (String.length request)) with 17. change (nonempty request) with true. cbn [andb].
  destruct (allowlist_connection arrives s He) as [(r0 & s1 & -> & E)|(Hlt & reply & -> & E)].
  2: { intros [[<- <-]%pair_equal_spec <-]%pair_equal_spec. split_and!; [done|done|by left| |lia]. destruct wr, rd; try done. cbn [negb verb_code].
       intros Hx%cut_reply_exit. congruence. }
  unfold allowlistReloadInfo in E. rewrite Ha in E.
  destruct (allowlistReload_cases err_text open files (lv_blocklist s) a) as [(t & fresh & Er & H1 & H2)|(t & Er & H1)];
    rewrite Er in E; apply pair_equal_spec in E as [<- <-]; intros [[<- <-]%pair_equal_spec <-]%pair_equal_spec; rewrite sapp_assoc.
  - assert (Hf : reloaded (set_allowlist fresh s) fresh) by done. split_and!; [done|done|right; by exists fresh|by exists fresh|].
    intros (_ & -> & Hb & ->). cbn [negb verb_code]. left. rewrite take_bytes_take by done.
    by rewrite (reload_reply_exit _ _ true) by (done || (cbn; lia)).
  - split_and!; [done|by split_and!|by left| |].
    + destruct wr, rd; try done. cbn [negb verb_code]. intros Hx%cut_reply_exit. by cbn in Hx.
    + by right.
Qed.

(** C21: What an operator can rely on after [rcvd -allowlist-reload], whatever happens to the
    connection: when it exits with 0, the running daemon of that configuration enforces
    the complete, non-empty content of its files, and from then on a policy that uses
    the list refuses every query for a name outside of it.  The other exit code is 1;
    if the connection was intact, the daemon then enforces what it enforced before,
    because the files cannot be loaded or hold no entry (after a write or read error
    the code is 1 although the daemon may have reloaded).  The daemon is never left
    with an empty or partial list, and nothing else of it changes. *)
Theorem reload_end_to_end args vals host who s jobs a p :
  Parse (initial declared_flags) args = Ok (vals, []) → choose_verb (flags_of vals) [] = VAllowlistReload →
  h_sockets host !! SocketPath (pr_socket P) (fl_configPath (flags_of vals)) = Some who →
  h_daemons host !! who = Some (mkServed cb s jobs) → al_Enabled (cfg_Allowlist cfg) = true → lv_allowlist s = Some a →
  ∃ x host' s', main P args host = (Exits x, host') ∧ h_daemons host' !! who = Some (mkServed cb s' jobs) ∧ same_but_allowlist s s' ∧
    (lv_allowlist s' = Some a ∨ ∃ fresh, reloaded s' fresh) ∧ (x_code x = 0 ∨ x_code x = 1) ∧
    (x_code x = 0 → ∃ fresh, reloaded s' fresh ∧
       ∀ query q qs st, mQuestion query = q :: qs → Allowed fresh (qName q) = false →
         ∃ m st' reason, Policy.Response (Some (live_policy p s')) query st = (st', Some m) ∧ refusal query reason m) ∧
    (intact (pr_conn P) request → x_code x = 1 →
       lv_allowlist s' = Some a ∧ ∀ fresh, scan_files open files Allowlist.New = Ok fresh → no_entries fresh = true).
Proof.
  intros Hp Hv Hs Hd He Ha. unfold main, dispatch. rewrite Hp, Hv. unfold ask_verb, ask, daemon_at. rewrite Hs, Hd.
  cbn [fmap option_fmap option_map sv_cb sv_live sv_jobs].
  destruct (query _ _ _ _) as [[r started] s'] eqn:Eq. destruct (reload_request s a r started s' He Ha Eq) as (-> & H1 & H2 & H3 & H4).
  assert (H5 : ∀ fresh, reloaded s' fresh → ∀ query q qs st, mQuestion query = q :: qs → Allowed fresh (qName q) = false →
    ∃ m st' reason, Policy.Response (Some (live_policy p s')) query st = (st', Some m) ∧ refusal query reason m).
  { intros fresh (_ & _ & Hf) query q qs st Hq Hn. by eapply reload_refuses. }
  destruct r as [reply|e]; (eexists _, _, s'; split; [reflexivity|]); cbn [h_daemons x_code]; rewrite lookup_insert_eq, app_nil_r;
    (split_and!; [done|done|done|..]); cbn [x_code].
  - unfold reload_exit_code. destruct (HasPrefix _ _); [by left|by right].
  - intros Hx. destruct (H3 Hx) as [fresh Hf]. exists fresh. split; [done|]. by apply H5.
  - intros Hi Hx. destruct (H4 Hi) as [Hc|Hc]; [unfold verb_code in Hc; congruence|done].
  - by right.
  - done.
  - intros Hi _. by destruct (H4 Hi).
Qed.

End Reload.

(** ** A start that fails *)

Section FailedStart.
Context (P : Proc).

(** A second instance of a running configuration, refused because its address is in
    use, still takes the control socket of the first: from then on no request to the
    running daemon gets through. *)
Theorem failed_start_takes_socket args vals cfg e host :
  Parse (initial declared_flags) args = Ok (vals, []) → choose_verb (flags_of vals) [] = VRun →
  Config.Load (pr_os P) (pr_types P) (pr_toml P) (fl_configPath (flags_of vals)) = Ok cfg → cfg_StatsEnabled cfg = true →
  startup (pr_sum256 P) (pr_url_parse P) (pr_h2_ok P) (pr_types P) (pr_start P) cfg = Err (EMode1Start e) →
  pr_raced P = true → bs_listen (pr_bind P) = true → bs_chmod (pr_bind P) = true → h_daemons host !! pr_id P = None →
  ∃ x host', main P args host = (Exits x, host') ∧ x_code x = 1 ∧ h_daemons host' = h_daemons host ∧
    ∀ request, ∃ err, ask P (fl_configPath (flags_of vals)) request host' = (Err err, host').
Proof.
  intros Hp Hv Hl Hst Hs Hr Hb1 Hb2 Hd. unfold main, dispatch. rewrite Hp, Hv. unfold run. rewrite Hl, Hs. cbn [before_socket orb].
  rewrite Hr. cbn [negb]. eexists _, _. split; [reflexivity|]. split; [done|]. unfold take_socket. rewrite Hst. cbn [h_daemons]. split; [done|].
  intros request. unfold ask, daemon_at, listen_socket. rewrite Hb1, Hb2. cbn [negb snd h_sockets h_daemons]. rewrite lookup_insert_eq, Hd. by eexists.
Qed.

(** A failed start is always reported, and never with exit code 0. *)
Lemma start_failure_reported cfg e : x_out (start_failure P cfg e) = "" ∧ 0 < x_code (start_failure P cfg e) ∧
  (x_log (start_failure P cfg e) ≠ [] ∨ x_err (start_failure P cfg e) ≠ "" ∨ e = ETickerPanic).
Proof.
  destruct e; (split_and!; [reflexivity|reflexivity|]); first [left; discriminate|right; left; discriminate|right; right; reflexivity].
Qed.

(** Standard output of -show-pin is the pin and nothing else. *)
Lemma show_pin_stdout index cfg :
  let x := show_pin P index cfg in
  (x_code x = 0 ∧ ∃ pin, ShowPin (pr_sum256 P) (pr_ca P) (pr_server P) (pr_untrusted P) (cfg_Upstreams cfg) index = Ok pin ∧ x_out x = pin +:+ nl) ∨
  (x_code x = 1 ∧ x_out x = "").
Proof. cbv zeta. unfold show_pin. destruct (ShowPin _ _ _ _ _ _) as [pin|e]; [left|right]; cbn; [split; [done|]; by exists pin|done]. Qed.

End FailedStart.

(** ** Examples and witnesses *)

(** An instance whose address is in use. *)
Definition ex_busy : StartEnv :=
  mkStartEnv 0 (λ _, true) Allowlist.ex_open (se_crypto ex_start_env) (λ _, Some 0) (λ _, Some []) (se_zone ex_start_env) "" (λ _, None) (λ _, 0)
    (λ _ _, None) (Mode1.mkBindEnv (λ _, true) (λ _, false) (λ _, true)) Service.ex_env (se_order ex_start_env).

Definition ex_proc (start : StartEnv) : Proc :=
  mkProc (mkBuild "0.3.0" "2026-07-07" "local" None) "rcvd" (λ _, false) ex_os ex_types
    (λ _ _, Some (ex_start_cfg true true 0, mkMetaData [] (λ _ _, false))) (λ _, "bad configuration")
    (mkSocketEnv (λ _, None) true "" (λ _, true) "/tmp") (mkConn 100 true (2 ^ 20) true) (λ _, "connection refused") (λ _, "broken pipe")
    Verify.ex_sha (λ _ _, true) Verify.ex_servers "x509: unknown authority" 0 (λ _, "bad pin") (λ _, "no such upstream") None
    start (λ _, Some "https") (λ _, true) (λ _, "failed") 2 true (mkBindSocket true true).

(** Daemon 1 is running behind its socket. *)
Definition ex_host (files : list string) : Host := mkHost {["/run/rcvd/rcvd.sock" := 1%nat]} {[1%nat := mkServed (ex_live_cb files) ex_live []]}.

Definition ex_main (start : StartEnv) (args files : list string) : string + string * Z :=
  match fst (main (ex_proc start) args (ex_host files)) with
  | Exits x => inr (x_out x, x_code x)
  | Runs _ _ => inl "runs"
  end.

Example main_cases :
  let run := ex_main ex_start_env in
  (run ["-version"] [], run ["-allowlist-reload"; "--config=/etc/rcvd/rcvd.toml"] ["allow"], run ["-allowlist-reload"] ["missing"],
   run ["--verify-self"; "/etc/rcvd/rcvd.toml"] [], run ["-config"] [], run ["-h"] [], run ["-stats=maybe"] [], run ["-stat"] [],
   run ["-config"; "/etc/rcvd/rcvd.toml"] [], run [] [], run ["-show-pin"; "0x7"; "-config"; "/etc/rcvd/rcvd.toml"] [],
   run ["-stats"; "-config=/etc/other.toml"] [], ex_main ex_busy ["-config=/etc/rcvd/rcvd.toml"] [])
  = (inr ("RCVD v0.3.0 (built 2026-07-07, source local)" +:+ nl, 0), inr ("allowlist reloaded: 3 entries from 1 file(s)" +:+ nl, 0),
     inr ("allowlist reload FAILED, previous list still active: cannot be read" +:+ nl, 1),
     inr ("", 2), inr ("", 2), inr ("", 0), inr ("", 2), inr ("", 2), inl "runs", inr ("", 1), inr ("", 1), inr ("", 1), inr ("", 1)).
Proof. vm_compute. done. Qed.

Example usage_sample : HasPrefix (usage_text (Quote (λ _, false)) "rcvd" declared_flags)
  ("Usage of rcvd:" +:+ nl +:+ "  -allowlist-reload" +:+ nl +:+ "    " +:+ tab +:+ "trigger a synchronous allowlist file reload") = true.
Proof. vm_compute. done. Qed.

Definition ex_flags : Flags := mkFlags "/etc/rcvd/rcvd.toml" false false false false false true false false (-1) false "".

Lemma flags_roundtrip_witness :
  ∃ vals, Parse (initial declared_flags) (["-config"; "/etc/rcvd/rcvd.toml"; "-version=false"; "-help=false"; "--stats=false"; "-audit=false";
    "-blocklist-reload=false"; "--allowlist-reload"; "-verify-upstream=false"; "-verify-pin=false"; "-show-pin"; "-1"; "-verify-self=false"; "-server-name="] ++ [])
    = Ok (vals, []) ∧ flags_of vals = ex_flags.
Proof.
  apply (flags_roundtrip ex_flags); [vm_compute; split; discriminate| |left; reflexivity].
  unfold settings_of.
  apply (written_cons "config" _ ["-config"; "/etc/rcvd/rcvd.toml"]); [apply (sp_next "config" (FString "/etc/rcvd/rcvd.toml") "-"); [left|discriminate]|].
  apply (written_cons "version" _ ["-version=false"]); [apply (sp_equals "version" (FBool false) "-"); left|].
  apply (written_cons "help" _ ["-help=false"]); [apply (sp_equals "help" (FBool false) "-"); left|].
  apply (written_cons "stats" _ ["--stats=false"]); [apply (sp_equals "stats" (FBool false) "--"); right; left|].
  apply (written_cons "audit" _ ["-audit=false"]); [apply (sp_equals "audit" (FBool false) "-"); left|].
  apply (written_cons "blocklist-reload" _ ["-blocklist-reload=false"]); [apply (sp_equals "blocklist-reload" (FBool false) "-"); left|].
  apply (written_cons "allowlist-reload" _ ["--allowlist-reload"]); [apply (sp_bare "allowlist-reload" (FBool true) "--"); [right; left|reflexivity]|].
  apply (written_cons "verify-upstream" _ ["-verify-upstream=false"]); [apply (sp_equals "verify-upstream" (FBool false) "-"); left|].
  apply (written_cons "verify-pin" _ ["-verify-pin=false"]); [apply (sp_equals "verify-pin" (FBool false) "-"); left|].
  apply (written_cons "show-pin" _ ["-show-pin"; "-1"]); [apply (sp_next "show-pin" (FInt (-1)) "-"); [left|discriminate]|].
  apply (written_cons "verify-self" _ ["-verify-self=false"]); [apply (sp_equals "verify-self" (FBool false) "-"); left|].
  apply (written_cons "server-name" _ ["-server-name="]); [apply (sp_equals "server-name" (FString "") "-"); left|]. constructor.
Defined.

Lemma stray_argument_refused_witness :
  ∃ err, main (ex_proc ex_start_env) (["--verify-self"] ++ ["/etc/rcvd/rcvd.toml"]) (ex_host []) = (Exits (mkExit "" err [] 2), ex_host []).
Proof.
  apply (stray_argument_refused (ex_proc ex_start_env) [("verify-self", FBool true)]); [| |reflexivity].
  - apply (written_cons "verify-self" (FBool true) ["--verify-self"] [] []); [apply (sp_bare "verify-self" (FBool true) "--"); [right; left|reflexivity]|constructor].
  - constructor; [apply declared_bool; set_solver|constructor].
Defined.

(** The values after [-config=/etc/rcvd/rcvd.toml] and an action. *)
Definition ex_vals (action : option string) : Values :=
  let vals := <["config" := FString "/etc/rcvd/rcvd.toml"]> (initial declared_flags) in
  match action with Some name => <[name := FBool true]> vals | None => vals end.

Lemma ex_parse : Parse (initial declared_flags) ["-config=/etc/rcvd/rcvd.toml"] = Ok (ex_vals None, []).
Proof.
  apply (Parse_written [("config", FString "/etc/rcvd/rcvd.toml")] ["-config=/etc/rcvd/rcvd.toml"] []).
  - apply (written_cons "config" _ ["-config=/etc/rcvd/rcvd.toml"] [] []); [|constructor]. apply (sp_equals "config" (FString "/etc/rcvd/rcvd.toml") "-"). left.
  - constructor; [apply declared_string; set_solver|constructor].
Qed.

Lemma ex_parse_reload : Parse (initial declared_flags) ["-config=/etc/rcvd/rcvd.toml"; "-allowlist-reload"] = Ok (ex_vals (Some "allowlist-reload"), []).
Proof.
  apply (Parse_written [("config", FString "/etc/rcvd/rcvd.toml"); ("allowlist-reload", FBool true)]
    ["-config=/etc/rcvd/rcvd.toml"; "-allowlist-reload"] []).
  - apply (written_cons "config" _ ["-config=/etc/rcvd/rcvd.toml"]); [apply (sp_equals "config" (FString "/etc/rcvd/rcvd.toml") "-"); left|].
    apply (written_cons "allowlist-reload" _ ["-allowlist-reload"] [] []); [|constructor].
    apply (sp_bare "allowlist-reload" (FBool true) "-"); [left|reflexivity].
  - constructor; [apply declared_string; set_solver|]. constructor; [apply declared_bool; set_solver|constructor].
Qed.

Lemma ex_flags_run : flags_of (ex_vals None) = mkFlags "/etc/rcvd/rcvd.toml" false false false false false false false false (-1) false "".
Proof. vm_compute. reflexivity. Qed.

Lemma ex_flags_reload : flags_of (ex_vals (Some "allowlist-reload")) = ex_flags.
Proof. vm_compute. reflexivity. Qed.

Lemma failed_start_takes_socket_witness :
  ∃ x host', main (ex_proc ex_busy) ["-config=/etc/rcvd/rcvd.toml"] (ex_host ["allow"]) = (Exits x, host') ∧
    h_daemons host' !! 1%nat = Some (mkServed (ex_live_cb ["allow"]) ex_live []) ∧ ∃ err, ask (ex_proc ex_busy) "/etc/rcvd/rcvd.toml" "" host' = (Err err, host').
Proof.
  pose proof (failed_start_takes_socket (ex_proc ex_busy) ["-config=/etc/rcvd/rcvd.toml"] (ex_vals None)
    (normalize (ex_start_cfg true true 0)) Mode1.EListenUDP (ex_host ["allow"])) as H. rewrite ex_flags_run in H.
  assert (HL : Config.Load ex_os ex_types (pr_toml (ex_proc ex_busy)) "/etc/rcvd/rcvd.toml" = Ok (normalize (ex_start_cfg true true 0))) by (vm_compute; reflexivity).
  assert (HS : startup Verify.ex_sha (λ _, Some "https") (λ _, true) ex_types ex_busy (normalize (ex_start_cfg true true 0)) = Err (EMode1Start Mode1.EListenUDP))
    by (vm_compute; reflexivity).
  destruct (H ex_parse eq_refl HL eq_refl HS eq_refl eq_refl eq_refl eq_refl) as (x & host' & H1 & _ & H2 & H3).
  exists x, host'. split; [exact H1|]. split; [rewrite H2; reflexivity|]. exact (H3 "").
Defined.

Lemma reload_end_to_end_witness :
  ∃ x host' s', main (ex_proc ex_start_env) ["-config=/etc/rcvd/rcvd.toml"; "-allowlist-reload"] (ex_host ["allow"]) = (Exits x, host') ∧
    h_daemons host' !! 1%nat = Some (mkServed (ex_live_cb ["allow"]) s' []) ∧ x_code x = 0 ∧
    ∃ fresh, reloaded (ex_live_cfg ["allow"] ["list"]) Allowlist.ex_open s' fresh.
Proof.
  pose proof (reload_end_to_end (dl := toyLib) (laws := toyLaws) (ex_proc ex_start_env)
    (ex_live_cfg ["allow"] ["list"]) ex_live_info ex_live_audit "v0.3.0" Allowlist.ex_open Blocklist.ex_open (λ _, "cannot be read") second
    ["-config=/etc/rcvd/rcvd.toml"; "-allowlist-reload"] (ex_vals (Some "allowlist-reload"))
    (ex_host ["allow"]) 1%nat ex_live [] Allowlist.ex_allow (Policy.New None None true) ex_parse_reload) as H. rewrite ex_flags_reload in H.
  destruct (H eq_refl eq_refl eq_refl eq_refl eq_refl) as (x & host' & s' & H1 & H2 & _ & _ & H3 & H4 & H5).
  assert (Hx : x_code x = 0).
  { destruct H3 as [H3|H3]; [exact H3|]. exfalso.
    assert (Hi : intact (pr_conn (ex_proc ex_start_env)) ("RELOAD-ALLOWLIST" +:+ nl)) by (vm_compute; split; [discriminate|split; [reflexivity|split; [discriminate|reflexivity]]]).
    destruct (H5 Hi H3) as [_ Hn].
    assert (Hf : ∃ fresh, scan_files Allowlist.ex_open ["allow"] Allowlist.New = Ok fresh ∧ no_entries fresh = false) by (vm_compute; eexists; split; reflexivity).
    destruct Hf as (fresh & Hf1 & Hf2). rewrite (Hn fresh Hf1) in Hf2. discriminate Hf2. }
  exists x, host', s'. split; [exact H1|]. split; [exact H2|]. split; [exact Hx|].
  destruct (H4 Hx) as (fresh & Hf & _). exists fresh. exact Hf.
Defined.
